(* ===== verification/_CoqProject ===== *)
-Q . S2P
Prelude.v
Intx.v
Ivmc.v
Mock.v
Code.v
ExecutionState.v
Instructions.v
InstructionsCalls.v
Traits.v
Dispatch.v
Hoare.v
Samples.v
ArithmeticSpec.v
MemoryRequirements.v
Safety.v
SafetyControl.v
SafetyCalls.v
Baseline.v
MemorySpec.v
DataSpec.v
EnvironmentSpec.v
CallSpec.v
BaselineAnalysis.v
BaselineSafety.v
ControlSpec.v
BaselineRun.v
Analysis.v
BlockSpec.v
AnalysisSpec.v
Frame.v
GasFrame.v
Counterpart.v
Advanced.v
BlockRun.v
Pairing.v
AdvancedRun.v
StaticMode.v
Tracing.v
TracingSpec.v
Vm.v
