(* ===== verification/Prelude.v ===== *)
(** * ivmone: a verified model of the IVM interpreters (root file)

    ivmone executes EVM bytecode for a client (a node) that hands it a message,
    a code and a host interface.  It has two interpreters with one set of
    instruction implementations: Baseline (lib/ivmone/baseline.cpp) checks and
    runs one opcode after the other over a padded copy of the code, Advanced
    (analysis.cpp, instructions.cpp, execution.cpp) first translates the code to
    a table of instructions, grouped in basic blocks whose gas and stack
    requirements are checked once.  This library models both, everything they
    share, the tracers, and the VM object that selects among them, and proves
    that they are safe, terminate, follow the EVM rules instruction by
    instruction, and agree.

    ** The files

    Shared ground:
    - Prelude: bytes, machine integers, a state monad with three outcomes
      (a value, an early [return] of a status, undefined behaviour), the rules
      of its weakest preconditions [wp], lists with Z indices.
    - Intx, Ivmc: the interfaces of the third-party code as type classes with
      their documented laws: 256-bit words (intx), status codes, revisions,
      messages and the host (IVMC), Keccak (ethash), and the unknown contents of
      fresh heap memory.  [Env] bundles the operations, [EnvSpec] the laws.
    - Mock, Samples: a concrete environment that satisfies the laws, and the
      concrete states at which the theorems are instantiated.
    - Code: instructions and analysed code (analysis.hpp, baseline.hpp).

    The program:
    - ExecutionState: [Stack], [Memory], [ExecutionState] (execution_state.hpp).
      The stack is 1024 cells and a top index, the memory an allocated block
      with a size and a capacity, so that reuse of either is visible.
    - Instructions: Module [Instr], a definition per function of
      instructions.hpp, with its name (an underscore where Rocq reserves it).
    - InstructionsCalls: Module [Calls] (instructions_calls.cpp).
    - Traits, Dispatch: the gas and trait tables (instruction_traits.hpp),
      op2fn (instructions_op2fn.hpp), the Baseline table
      (baseline_instruction_table.cpp) and the function signatures.
    - Baseline: Module [Baseline] (baseline.cpp): [analyze],
      [check_requirements], [step] (one iteration), [run] (the loop), [execute].
    - Analysis: the Advanced table and [analyze] (analysis.cpp, get_op_table).
    - Advanced: Module [Advanced]: a definition per op_ function of
      instructions.cpp, [step], [run], [execute] (execution.cpp).
    - Tracing: Module [Tracing], the two tracers and the chain (tracing.cpp).
    - Vm: Module [VM], the options and the dispatch of [execute] (vm.cpp).

    The proofs:
    - Hoare, MemoryRequirements: the invariant [state_ok], rules for the
      primitive operations and for the expansion of the memory; the tactics that
      run a body symbolically.
    - Safety, SafetyControl, SafetyCalls: every instruction body, from a state
      that passed the requirement check, ends without undefined behaviour (an
      access out of bounds, a signed overflow, a failed assertion) and respects
      its stack traits.
    - ArithmeticSpec, MemorySpec, DataSpec, EnvironmentSpec, CallSpec,
      ControlSpec: what each instruction does, on every path: results as
      functions of the operands, the exact gas per revision, the host methods
      called with their arguments, and exactly when and how it fails.
    - BaselineAnalysis, BaselineSafety, BaselineRun: the Baseline analysis is
      exact, the loop has an invariant and a decreasing measure, [execute] is
      total.
    - BlockSpec, AnalysisSpec: block summaries are equivalent to checking every
      instruction; the Advanced table stands for the code ([follows]).
    - Frame, GasFrame, Counterpart: bodies do not depend on the analysis, and
      run alike with less gas as long as it suffices; the tables of the two
      interpreters agree.
    - BlockRun, Pairing, AdvancedRun: the simulation of Baseline by Advanced and
      its consequences.
    - StaticMode: static executions change nothing.
    - TracingSpec, Vm: traces report the instructions run and only observe; what
      the options of a VM change, and what they do not.

    ** What the theorems show

    The contract with the client (C1 to C5): from every message and code within
    the interface's limits, in all eleven revisions, both interpreters return
    a result without undefined behaviour, give back between none and all of the
    gas, and nothing on failure.  Either both fail, or the results and the hosts
    are the same.  Two failures need not report the same status, nor have asked
    the same of the host before, as the Advanced interpreter checks a block
    before it runs (the document on gas calculation under docs/ says so, and
    [failures_may_differ] in Vm is an example).  The options of the VM change no
    more than that, and tracers change nothing.  A static message leaves
    unchanged whatever the host's queries leave unchanged.  What is said of the
    Advanced interpreter is said for codes within [code_small], below.  C6 to C9 and C34 are about the two analyses, the
    loop and the tables; the other properties about single instructions, the
    tracers and the options.

    ** Assumptions, bounds and fuel

    [client_ok]: addresses and values have their fixed sizes, the depth is at
    most 1024, the gas fits in int64_t, input and code are shorter than 2^63
    (less a margin for padding).  [code_small], for the Advanced interpreter:
    32000 gas per byte fits in 32 bits (134217 bytes, above every code a chain
    admits), since the cost of a block is saturated to uint32_t; its positions
    are then far from the limits of int32_t.  The host obeys [HostSpec]: its
    answers have their fixed sizes, a copy has at most the size asked for, a
    callee returns between none and all of its gas.

    The loops of the code are recursive functions with fuel.  [enough_fuel] is
    gas * (n + 34) + n + 34 for n bytes of code: a jump costs 8 gas or more, and
    between two jumps the position grows and stays below n + 33.  The Advanced
    interpreter takes at most twice as many steps and one more, as every
    instruction may be preceded by one BEGINBLOCK.  The analyses get one unit
    per byte and one more.  That these suffice is part of the theorems; running
    out is an outcome of its own, which they exclude.

    ** Not modelled

    Allocation failure and the exceptions it raises; the destruction of the VM
    and of results; executions nested through the host, which appear as the
    host's answer, so a tracer is proved to accept the events of one execution
    at a time; the text of status codes, opcode names of IVMC's table and
    hexadecimal numbers in traces (parameters of [Tracing]); computed goto,
    inlining and other choices of the compiler; pointers that are formed but
    not followed: a position is a number here, and undefined behaviour is an
    access out of bounds, a signed overflow or a failed assertion, so that the
    model accepts the pointers past the end of the code and below the value that
    the analysis of PUSH forms (analysis.cpp, lines 102, 118 and 134) and the one
    below the empty stack, which C++ leaves undefined; big-endian machines, which
    analysis.cpp excludes; the width of the numbers accumulated over a block
    (int64_t and int), which [code_small] keeps far away from.
    Tests, benchmarks, the fuzzer and the build are outside of the program. *)
From Stdlib Require Export ZArith Lia Bool.
From Stdlib Require Import Strings.Byte.
From stdpp Require Export base list tactics option numbers.
Open Scope Z_scope.

(** ** Bytes

    [uint8_t] is [Byte.byte]; [byte_to_Z] and [byte_of_Z] are the conversions
    the compiler inserts (the second one keeps the low eight bits). *)
Abbreviation byte := Byte.byte.

#[export] Instance byte_eq_dec : EqDecision byte := Byte.byte_eq_dec.

Definition byte_to_Z (b : byte) : Z := Z.of_N (Byte.to_N b).

Definition byte_of_Z (z : Z) : byte :=
  match Byte.of_N (Z.to_N (z mod 256)) with
  | Some b => b
  | None => Byte.x00
  end.

(** The unsigned number a byte string denotes in big-endian and in
    little-endian order, and its inverse with a fixed number of digits. *)
Definition be_value (bs : list byte) : Z :=
  fold_left (fun acc b => acc * 256 + byte_to_Z b) bs 0.

Fixpoint le_value (bs : list byte) : Z :=
  match bs with
  | [] => 0
  | b :: bs' => byte_to_Z b + 256 * le_value bs'
  end.

Fixpoint le_digits (n : nat) (z : Z) : list byte :=
  match n with
  | O => []
  | S n' => byte_of_Z z :: le_digits n' (z / 256)
  end.

Definition be_digits (n : nat) (z : Z) : list byte := rev (le_digits n z).

(** ** Machine integers

    Unsigned arithmetic wraps; signed arithmetic that leaves the range of its
    type is undefined behaviour, so the model tests the range. *)
Definition u64 (z : Z) : Z := z mod 2 ^ 64.
Definition u32 (z : Z) : Z := z mod 2 ^ 32.
Definition i64_max : Z := 2 ^ 63 - 1.
Definition i64_min : Z := - 2 ^ 63.
Definition i32_max : Z := 2 ^ 31 - 1.

Definition in_i64 (z : Z) : bool := (i64_min <=? z) && (z <=? i64_max).

(** [static_cast<int64_t>] and [static_cast<int32_t>] of an unsigned value:
    the two's complement reading. *)
Definition to_i64 (z : Z) : Z := (z + 2 ^ 63) mod 2 ^ 64 - 2 ^ 63.
Definition to_i32 (z : Z) : Z := (z + 2 ^ 31) mod 2 ^ 32 - 2 ^ 31.
Definition to_i8 (z : Z) : Z := (z + 2 ^ 7) mod 2 ^ 8 - 2 ^ 7.

(** ** Arrays

    Reading and overwriting a run of elements; [None] is an access outside of
    the allocated array. *)
Definition nth_Z {A} (l : list A) (i : Z) : option A :=
  if i <? 0 then None else l !! Z.to_nat i.

Definition slice {A} (l : list A) (off n : Z) : option (list A) :=
  if (0 <=? off) && (0 <=? n) && (off + n <=? Z.of_nat (length l))
  then Some (take (Z.to_nat n) (drop (Z.to_nat off) l))
  else None.

Definition overwrite {A} (l : list A) (off : Z) (bs : list A) : option (list A) :=
  if (0 <=? off) && (off + Z.of_nat (length bs) <=? Z.of_nat (length l))
  then Some (take (Z.to_nat off) l ++ bs ++ drop (Z.to_nat off + length bs) l)
  else None.

(** ** The state and error monad

    A C++ function body over a state [S] falls through with a value, leaves
    with a [return] statement of the enclosing handler (whose value has type
    [R]), or has undefined behaviour. *)
Inductive outcome (S R A : Type) : Type :=
| Ok (a : A) (s : S)
| Return (r : R) (s : S)
| UB.
Arguments Ok {S R A} a s.
Arguments Return {S R A} r s.
Arguments UB {S R A}.

Definition M (S R A : Type) : Type := S -> outcome S R A.

#[export] Instance M_ret {S R} : MRet (M S R) := fun A a s => Ok a s.
#[export] Instance M_bind {S R} : MBind (M S R) := fun A B k m s =>
  match m s with
  | Ok a s' => k a s'
  | Return r s' => Return r s'
  | UB => UB
  end.

Definition get {S R} : M S R S := fun s => Ok s s.
Definition modify {S R} (f : S -> S) : M S R unit := fun s => Ok tt (f s).
Definition return_now {S R A} (r : R) : M S R A := fun s => Return r s.
Definition undefined_behaviour {S R A} : M S R A := fun _ => UB.
(** The call of a function whose body is [m]: its [return] gives the value. *)
Definition call_body {S R R'} (m : M S R R) : M S R' R := fun s =>
  match m s with
  | Ok r s' | Return r s' => Ok r s'
  | UB => UB
  end.

Definition assume_some {S R A} (o : option A) : M S R A :=
  match o with
  | Some a => mret a
  | None => undefined_behaviour
  end.

(** Total correctness: [wp m Q QR s] holds when [m] started in [s] has no
    undefined behaviour, falls through into [Q] or returns into [QR]. *)
Definition wp {S R A} (m : M S R A) (Q : A -> S -> Prop) (QR : R -> S -> Prop) (s : S) : Prop :=
  match m s with
  | Ok a s' => Q a s'
  | Return r s' => QR r s'
  | UB => False
  end.

(** ** Tactics

    [bool_prop] turns the boolean tests of the code into propositions. *)
Ltac bool_prop :=
  repeat match goal with
  | H : _ && _ = true |- _ => apply andb_prop in H as [? ?]
  | H : _ || _ = false |- _ => apply orb_false_elim in H as [? ?]
  | H : negb _ = true |- _ => apply negb_true_iff in H
  | H : negb _ = false |- _ => apply negb_false_iff in H
  | H : (_ <=? _) = true |- _ => apply Z.leb_le in H
  | H : (_ <=? _) = false |- _ => apply Z.leb_gt in H
  | H : (_ <? _) = true |- _ => apply Z.ltb_lt in H
  | H : (_ <? _) = false |- _ => apply Z.ltb_ge in H
  | H : (_ =? _) = true |- _ => apply Z.eqb_eq in H
  | H : (_ =? _) = false |- _ => apply Z.eqb_neq in H
  end.

(** ** Lemmas on bytes *)
Lemma byte_to_Z_bound b : 0 <= byte_to_Z b < 256.
Proof. unfold byte_to_Z. pose proof (Byte.to_N_bounded b). lia. Qed.

Lemma byte_to_Z_of_Z z : byte_to_Z (byte_of_Z z) = z mod 256.
Proof.
  unfold byte_to_Z, byte_of_Z.
  pose proof (Z.mod_pos_bound z 256 ltac:(lia)) as Hb.
  destruct (Byte.of_N (Z.to_N (z mod 256))) eqn:E.
  - apply Byte.to_of_N in E. rewrite E. lia.
  - apply Byte.of_N_None_iff in E. lia.
Qed.

Lemma byte_of_Z_to_Z b : byte_of_Z (byte_to_Z b) = b.
Proof.
  unfold byte_of_Z. rewrite Z.mod_small by apply byte_to_Z_bound.
  unfold byte_to_Z. rewrite N2Z.id, Byte.of_to_N. reflexivity.
Qed.

Lemma byte_to_Z_inj b c : byte_to_Z b = byte_to_Z c -> b = c.
Proof. intros H. rewrite <- (byte_of_Z_to_Z b), H. apply byte_of_Z_to_Z. Qed.

Lemma le_value_bound bs : 0 <= le_value bs < 256 ^ Z.of_nat (length bs).
Proof.
  induction bs as [|b bs IH]; cbn [le_value length]; [lia|].
  pose proof (byte_to_Z_bound b).
  rewrite Nat2Z.inj_succ, Z.pow_succ_r by lia. lia.
Qed.

Lemma le_value_app bs cs :
  le_value (bs ++ cs) = le_value bs + 256 ^ Z.of_nat (length bs) * le_value cs.
Proof.
  induction bs as [|b bs IH]; cbn [le_value length app]; [lia|].
  rewrite IH, Nat2Z.inj_succ, Z.pow_succ_r by lia. lia.
Qed.

Lemma be_value_rev bs : be_value bs = le_value (rev bs).
Proof.
  unfold be_value. rewrite <- fold_left_rev_right.
  induction (rev bs) as [|b cs IH]; cbn; [reflexivity|]. rewrite IH. lia.
Qed.

Lemma be_value_bound bs : 0 <= be_value bs < 256 ^ Z.of_nat (length bs).
Proof. rewrite be_value_rev, <- length_rev. apply le_value_bound. Qed.

Lemma length_le_digits n z : length (le_digits n z) = n.
Proof. revert z. induction n as [|n IH]; intros z; cbn; [reflexivity|]. by rewrite IH. Qed.

Lemma length_be_digits n z : length (be_digits n z) = n.
Proof. unfold be_digits. by rewrite length_rev, length_le_digits. Qed.

Lemma le_value_digits n z : le_value (le_digits n z) = z mod 256 ^ Z.of_nat n.
Proof.
  revert z. induction n as [|n IH]; intros z; cbn [le_value le_digits].
  - rewrite Z.mod_1_r. reflexivity.
  - rewrite IH, byte_to_Z_of_Z, Nat2Z.inj_succ, Z.pow_succ_r by lia.
    rewrite Z.rem_mul_r by lia. reflexivity.
Qed.

Lemma le_digits_value bs : le_digits (length bs) (le_value bs) = bs.
Proof.
  induction bs as [|b bs IH]; cbn [le_value le_digits length]; [reflexivity|].
  pose proof (byte_to_Z_bound b). f_equal.
  - apply byte_to_Z_inj. rewrite byte_to_Z_of_Z.
    rewrite Z.mul_comm, Z_mod_plus_full. by apply Z.mod_small.
  - replace ((byte_to_Z b + 256 * le_value bs) / 256) with (le_value bs); [exact IH|].
    rewrite Z.mul_comm, Z.div_add by lia. rewrite Z.div_small; lia.
Qed.

Lemma be_value_digits n z : be_value (be_digits n z) = z mod 256 ^ Z.of_nat n.
Proof. unfold be_digits. by rewrite be_value_rev, rev_involutive, le_value_digits. Qed.

Lemma be_digits_value bs : be_digits (length bs) (be_value bs) = bs.
Proof.
  unfold be_digits. rewrite be_value_rev, <- (length_rev bs), le_digits_value.
  apply rev_involutive.
Qed.

(** ** Lemmas on machine integers *)
Lemma u64_small z : 0 <= z < 2 ^ 64 -> u64 z = z.
Proof. intros. by apply Z.mod_small. Qed.

Lemma u64_bound z : 0 <= u64 z < 2 ^ 64.
Proof. apply Z.mod_pos_bound. lia. Qed.

Lemma to_i64_small z : i64_min <= z <= i64_max -> to_i64 z = z.
Proof. unfold to_i64, i64_min, i64_max. intros. rewrite Z.mod_small; lia. Qed.

Lemma in_i64_spec z : in_i64 z = true <-> i64_min <= z <= i64_max.
Proof. unfold in_i64. lia. Qed.

Lemma in_i64_true z : i64_min <= z <= i64_max -> in_i64 z = true.
Proof. apply in_i64_spec. Qed.

(** ** Lemmas on arrays *)
Lemma slice_Some {A} (l : list A) off n :
  0 <= off -> 0 <= n -> off + n <= Z.of_nat (length l) ->
  slice l off n = Some (take (Z.to_nat n) (drop (Z.to_nat off) l)).
Proof.
  intros. unfold slice. destruct (0 <=? off) eqn:?, (0 <=? n) eqn:?; try lia.
  cbn. destruct (off + n <=? _) eqn:?; [reflexivity|lia].
Qed.

Lemma slice_length {A} (l : list A) off n r :
  slice l off n = Some r -> Z.of_nat (length r) = n /\ 0 <= off /\ off + n <= Z.of_nat (length l).
Proof.
  unfold slice. intros H. case_match eqn:E; [|done]. simplify_eq.
  rewrite length_take, length_drop. lia.
Qed.

Lemma overwrite_Some {A} (l : list A) off bs :
  0 <= off -> off + Z.of_nat (length bs) <= Z.of_nat (length l) ->
  overwrite l off bs =
    Some (take (Z.to_nat off) l ++ bs ++ drop (Z.to_nat off + length bs) l).
Proof.
  intros. unfold overwrite. destruct (0 <=? off) eqn:?; [|lia].
  cbn. destruct (off + _ <=? _) eqn:?; [reflexivity|lia].
Qed.

Lemma overwrite_length {A} (l : list A) off bs r :
  overwrite l off bs = Some r ->
  length r = length l /\ 0 <= off /\ off + Z.of_nat (length bs) <= Z.of_nat (length l).
Proof.
  unfold overwrite. intros H. case_match eqn:E; [|done]. bool_prop. simplify_eq.
  rewrite !length_app, length_take, length_drop. lia.
Qed.

(** Element [i] after overwriting [bs] at [off]. *)
Lemma overwrite_lookup {A} (l : list A) off bs r (i : nat) :
  overwrite l off bs = Some r ->
  r !! i = if decide (Z.to_nat off <= i < Z.to_nat off + length bs)%nat
           then bs !! (i - Z.to_nat off)%nat else l !! i.
Proof.
  unfold overwrite. intros H. case_match eqn:E; [|done]. bool_prop. simplify_eq.
  assert (length (take (Z.to_nat off) l) = Z.to_nat off) as Hl
    by (rewrite length_take; lia).
  case_decide.
  - rewrite lookup_app_r by lia. rewrite Hl, lookup_app_l by lia. done.
  - destruct (decide (i < Z.to_nat off)%nat).
    + rewrite lookup_app_l by lia. by rewrite lookup_take_lt by lia.
    + rewrite lookup_app_r by lia. rewrite Hl, lookup_app_r by lia.
      rewrite lookup_drop. f_equal. lia.
Qed.

(** Two adjacent writes are one. *)
Lemma overwrite_app {A} (l l1 l2 : list A) off bs cs :
  overwrite l off bs = Some l1 ->
  overwrite l1 (off + Z.of_nat (length bs)) cs = Some l2 ->
  overwrite l off (bs ++ cs) = Some l2.
Proof.
  intros H1 H2.
  pose proof (overwrite_length _ _ _ _ H1) as (Hl1 & Ho & Hb1).
  pose proof (overwrite_length _ _ _ _ H2) as (Hl2 & _ & Hb2).
  rewrite overwrite_Some by (rewrite ?length_app; lia). f_equal.
  apply list_eq. intros i. rewrite (overwrite_lookup _ _ _ _ i H2), (overwrite_lookup _ _ _ _ i H1).
  assert (overwrite l off (bs ++ cs) = Some (take (Z.to_nat off) l ++ (bs ++ cs) ++
    drop (Z.to_nat off + length (bs ++ cs)) l)) as H3
    by (apply overwrite_Some; rewrite ?length_app; lia).
  rewrite (overwrite_lookup _ _ _ _ i H3), length_app.
  replace (Z.to_nat (off + Z.of_nat (length bs))) with (Z.to_nat off + length bs)%nat by lia.
  repeat case_decide; try lia; try done.
  - rewrite lookup_app_r by lia. f_equal. lia.
  - by rewrite lookup_app_l by lia.
Qed.

(** What was written can be read back. *)
Lemma slice_overwrite {A} (l l' : list A) off bs :
  overwrite l off bs = Some l' -> slice l' off (Z.of_nat (length bs)) = Some bs.
Proof.
  intros H. pose proof (overwrite_length _ _ _ _ H) as (Hl & Ho & Hb).
  rewrite slice_Some by lia. f_equal. apply list_eq. intros i.
  destruct (decide (i < length bs)%nat).
  - rewrite lookup_take_lt by lia. rewrite lookup_drop.
    rewrite (overwrite_lookup _ _ _ _ _ H). case_decide; [|lia]. f_equal. lia.
  - rewrite lookup_take_ge by lia. symmetry. apply lookup_ge_None. lia.
Qed.

(** ** The rules of [wp] *)
Section WP.
Context {S R : Type}.

Lemma wp_ret {A} (a : A) (Q : A -> S -> Prop) (QR : R -> S -> Prop) s :
  Q a s -> wp (mret a) Q QR s.
Proof. done. Qed.

Lemma wp_bind {A B} (m : M S R A) (k : A -> M S R B) Q QR s :
  wp m (fun a s' => wp (k a) Q QR s') QR s -> wp (m ≫= k) Q QR s.
Proof. unfold wp, mbind, M_bind. by destruct (m s). Qed.

Lemma wp_get (Q : S -> S -> Prop) (QR : R -> S -> Prop) s : Q s s -> wp get Q QR s.
Proof. done. Qed.

Lemma wp_modify f (Q : unit -> S -> Prop) (QR : R -> S -> Prop) s :
  Q tt (f s) -> wp (modify f) Q QR s.
Proof. done. Qed.

Lemma wp_return {A} r (Q : A -> S -> Prop) (QR : R -> S -> Prop) s :
  QR r s -> wp (return_now r) Q QR s.
Proof. done. Qed.

Lemma wp_assume {A} (o : option A) a (Q : A -> S -> Prop) (QR : R -> S -> Prop) s :
  o = Some a -> Q a s -> wp (assume_some o) Q QR s.
Proof. by intros ->. Qed.

Lemma wp_call {R'} (m : M S R R) (Q : R -> S -> Prop) (QR : R' -> S -> Prop) s :
  wp m Q Q s -> wp (call_body m) Q QR s.
Proof. unfold wp, call_body. by destruct (m s). Qed.

Lemma wp_mono {A} (m : M S R A) (Q Q' : A -> S -> Prop) (QR QR' : R -> S -> Prop) s :
  wp m Q QR s -> (forall a s', Q a s' -> Q' a s') -> (forall r s', QR r s' -> QR' r s') ->
  wp m Q' QR' s.
Proof. unfold wp. destruct (m s); naive_solver. Qed.

Lemma wp_conj {A} (m : M S R A) (Q Q' : A -> S -> Prop) (QR QR' : R -> S -> Prop) s :
  wp m Q QR s -> wp m Q' QR' s ->
  wp m (fun a s' => Q a s' /\ Q' a s') (fun r s' => QR r s' /\ QR' r s') s.
Proof. unfold wp. by destruct (m s). Qed.
End WP.

Create HintDb ivmone.
Create Rewrite HintDb ivmone.
#[export] Hint Rewrite @length_app @length_take @length_drop @length_replicate
  length_be_digits length_le_digits byte_to_Z_of_Z byte_of_Z_to_Z : ivmone.
#[export] Hint Resolve byte_to_Z_bound u64_bound wp_ret wp_get wp_modify wp_return : ivmone.
