(* ===== verification/Intx.v ===== *)
(** * The intx library: 256-bit words (interface)

    [intx::uint256] is third-party code.  The class [Intx] lists the
    operations the interpreters use, and [IntxSpec] the documented behaviour
    of each: arithmetic modulo [2^256].  The instance at the end builds the
    operations from the Standard Library's integers modulo [2^256]; it is the
    one the concrete runs of the development use. *)
From stdpp Require Import base list.
From Stdlib Require Import Zmod.
From S2P Require Import Prelude.

Definition two256 : Z := 2 ^ 256.

(** Two's complement reading of an unsigned 256-bit value. *)
Definition signed256 (z : Z) : Z := if z <? 2 ^ 255 then z else z - two256.

Class Intx := {
  uint256 : Type;
  u256_to_Z : uint256 -> Z;
  (** Conversions from built-in unsigned integers and [bool]. *)
  u256_of_u64 : Z -> uint256;
  u256_of_bool : bool -> uint256;
  (** [static_cast<uint64_t>(x)], [static_cast<bool>(x)] and the limb [x\[i\]]. *)
  u256_to_u64 : uint256 -> Z;
  u256_to_bool : uint256 -> bool;
  u256_word : uint256 -> Z -> Z;
  u256_add : uint256 -> uint256 -> uint256;
  u256_sub : uint256 -> uint256 -> uint256;
  u256_mul : uint256 -> uint256 -> uint256;
  u256_udiv : uint256 -> uint256 -> uint256;
  u256_umod : uint256 -> uint256 -> uint256;
  (** [sdivrem(x, y).quot] and [.rem]. *)
  intx_sdivrem : uint256 -> uint256 -> uint256 * uint256;
  intx_addmod : uint256 -> uint256 -> uint256 -> uint256;
  intx_mulmod : uint256 -> uint256 -> uint256 -> uint256;
  intx_exp : uint256 -> uint256 -> uint256;
  intx_count_significant_bytes : uint256 -> Z;
  u256_ltb : uint256 -> uint256 -> bool;
  intx_slt : uint256 -> uint256 -> bool;
  u256_eqb : uint256 -> uint256 -> bool;
  u256_and : uint256 -> uint256 -> uint256;
  u256_or : uint256 -> uint256 -> uint256;
  u256_xor : uint256 -> uint256 -> uint256;
  u256_not : uint256 -> uint256;
  (** Shifts by a 256-bit amount and by a built-in amount. *)
  u256_shl : uint256 -> uint256 -> uint256;
  u256_shr : uint256 -> uint256 -> uint256;
  u256_shl_u64 : uint256 -> Z -> uint256;
  (** [intx::be::load], [be::store] to 32 bytes, [be::trunc] to 20 bytes. *)
  be_load : list byte -> uint256;
  be_store : uint256 -> list byte;
  be_trunc_address : uint256 -> list byte;
  (** The value whose [as_bytes] representation (native, little-endian) is given. *)
  u256_of_native_bytes : list byte -> uint256
}.

Declare Scope u256_scope.
Delimit Scope u256_scope with u256.
Infix "+" := u256_add : u256_scope.
Infix "-" := u256_sub : u256_scope.
Infix "*" := u256_mul : u256_scope.
Infix "<?" := u256_ltb : u256_scope.
Infix "=?" := u256_eqb : u256_scope.
Notation "⟦ x ⟧" := (u256_to_Z x) (at level 0, x at level 200, format "⟦ x ⟧").

(** The documented behaviour of intx. *)
Class IntxSpec (X : Intx) : Prop := {
  u256_range : forall x, 0 <= ⟦x⟧ < two256;
  u256_inj : forall x y, ⟦x⟧ = ⟦y⟧ -> x = y;
  u256_of_u64_spec : forall z, 0 <= z < 2 ^ 64 -> ⟦u256_of_u64 z⟧ = z;
  u256_of_bool_spec : forall b, ⟦u256_of_bool b⟧ = if b then 1 else 0;
  u256_to_u64_spec : forall x, u256_to_u64 x = ⟦x⟧ mod 2 ^ 64;
  u256_to_bool_spec : forall x, u256_to_bool x = negb (⟦x⟧ =? 0);
  u256_word_spec : forall x i, 0 <= i < 4 -> u256_word x i = (⟦x⟧ / 2 ^ (64 * i)) mod 2 ^ 64;
  u256_add_spec : forall x y, ⟦u256_add x y⟧ = (⟦x⟧ + ⟦y⟧) mod two256;
  u256_sub_spec : forall x y, ⟦u256_sub x y⟧ = (⟦x⟧ - ⟦y⟧) mod two256;
  u256_mul_spec : forall x y, ⟦u256_mul x y⟧ = (⟦x⟧ * ⟦y⟧) mod two256;
  u256_udiv_spec : forall x y, ⟦y⟧ <> 0 -> ⟦u256_udiv x y⟧ = ⟦x⟧ / ⟦y⟧;
  u256_umod_spec : forall x y, ⟦y⟧ <> 0 -> ⟦u256_umod x y⟧ = ⟦x⟧ mod ⟦y⟧;
  intx_sdiv_spec : forall x y, ⟦y⟧ <> 0 ->
    ⟦fst (intx_sdivrem x y)⟧ = Z.quot (signed256 ⟦x⟧) (signed256 ⟦y⟧) mod two256;
  intx_srem_spec : forall x y, ⟦y⟧ <> 0 ->
    ⟦snd (intx_sdivrem x y)⟧ = Z.rem (signed256 ⟦x⟧) (signed256 ⟦y⟧) mod two256;
  intx_addmod_spec : forall x y m, ⟦m⟧ <> 0 -> ⟦intx_addmod x y m⟧ = (⟦x⟧ + ⟦y⟧) mod ⟦m⟧;
  intx_mulmod_spec : forall x y m, ⟦m⟧ <> 0 -> ⟦intx_mulmod x y m⟧ = (⟦x⟧ * ⟦y⟧) mod ⟦m⟧;
  intx_exp_spec : forall x y, ⟦intx_exp x y⟧ = ⟦x⟧ ^ ⟦y⟧ mod two256;
  intx_csb_spec : forall x,
    intx_count_significant_bytes x = if ⟦x⟧ =? 0 then 0 else Z.log2 ⟦x⟧ / 8 + 1;
  u256_ltb_spec : forall x y, u256_ltb x y = (⟦x⟧ <? ⟦y⟧);
  intx_slt_spec : forall x y, intx_slt x y = (signed256 ⟦x⟧ <? signed256 ⟦y⟧);
  u256_eqb_spec : forall x y, u256_eqb x y = (⟦x⟧ =? ⟦y⟧);
  u256_and_spec : forall x y, ⟦u256_and x y⟧ = Z.land ⟦x⟧ ⟦y⟧;
  u256_or_spec : forall x y, ⟦u256_or x y⟧ = Z.lor ⟦x⟧ ⟦y⟧;
  u256_xor_spec : forall x y, ⟦u256_xor x y⟧ = Z.lxor ⟦x⟧ ⟦y⟧;
  u256_not_spec : forall x, ⟦u256_not x⟧ = two256 - 1 - ⟦x⟧;
  u256_shl_spec : forall x n,
    ⟦u256_shl x n⟧ = if ⟦n⟧ <? 256 then Z.shiftl ⟦x⟧ ⟦n⟧ mod two256 else 0;
  u256_shr_spec : forall x n,
    ⟦u256_shr x n⟧ = if ⟦n⟧ <? 256 then Z.shiftr ⟦x⟧ ⟦n⟧ else 0;
  u256_shl_u64_spec : forall x n, 0 <= n < 2 ^ 64 ->
    ⟦u256_shl_u64 x n⟧ = if n <? 256 then Z.shiftl ⟦x⟧ n mod two256 else 0;
  be_load_spec : forall bs, (length bs <= 32)%nat -> ⟦be_load bs⟧ = be_value bs;
  be_store_spec : forall x, be_store x = be_digits 32 ⟦x⟧;
  be_trunc_address_spec : forall x, be_trunc_address x = be_digits 20 ⟦x⟧;
  u256_of_native_bytes_spec : forall bs, length bs = 32%nat ->
    ⟦u256_of_native_bytes bs⟧ = le_value bs
}.

(** ** A concrete intx *)
Module ZmodIntx.
Abbreviation w := (Zmod two256).
Definition val (x : w) : Z := Zmod.unsigned x.
Definition mk (z : Z) : w := Zmod.of_Z two256 z.

#[export] Instance intx : Intx := {|
  uint256 := w;
  u256_to_Z := val;
  u256_of_u64 := mk;
  u256_of_bool b := mk (if b then 1 else 0);
  u256_to_u64 x := val x mod 2 ^ 64;
  u256_to_bool x := negb (val x =? 0);
  u256_word x i := (val x / 2 ^ (64 * i)) mod 2 ^ 64;
  u256_add x y := mk (val x + val y);
  u256_sub x y := mk (val x - val y);
  u256_mul x y := mk (val x * val y);
  u256_udiv x y := mk (val x / val y);
  u256_umod x y := mk (val x mod val y);
  intx_sdivrem x y :=
    (mk (Z.quot (signed256 (val x)) (signed256 (val y))),
     mk (Z.rem (signed256 (val x)) (signed256 (val y))));
  intx_addmod x y m := mk ((val x + val y) mod val m);
  intx_mulmod x y m := mk ((val x * val y) mod val m);
  intx_exp x y := Zmod.pow x (val y);
  intx_count_significant_bytes x := if val x =? 0 then 0 else Z.log2 (val x) / 8 + 1;
  u256_ltb x y := val x <? val y;
  intx_slt x y := signed256 (val x) <? signed256 (val y);
  u256_eqb x y := val x =? val y;
  u256_and x y := mk (Z.land (val x) (val y));
  u256_or x y := mk (Z.lor (val x) (val y));
  u256_xor x y := mk (Z.lxor (val x) (val y));
  u256_not x := mk (two256 - 1 - val x);
  u256_shl x n := mk (if val n <? 256 then Z.shiftl (val x) (val n) else 0);
  u256_shr x n := mk (if val n <? 256 then Z.shiftr (val x) (val n) else 0);
  u256_shl_u64 x n := mk (if n <? 256 then Z.shiftl (val x) n else 0);
  be_load bs := mk (be_value bs);
  be_store x := be_digits 32 (val x);
  be_trunc_address x := be_digits 20 (val x);
  u256_of_native_bytes bs := mk (le_value bs)
|}.

Lemma val_mk z : val (mk z) = z mod two256.
Proof. apply Zmod.unsigned_of_Z. Qed.

Lemma val_range x : 0 <= val x < two256.
Proof. apply Zmod.unsigned_pos_bound. reflexivity. Qed.

Lemma val_mk_small z : 0 <= z < two256 -> val (mk z) = z.
Proof. intros. rewrite val_mk. by apply Z.mod_small. Qed.

Lemma testbit_high x i : 0 <= x < two256 -> 256 <= i -> Z.testbit x i = false.
Proof.
  intros Hx Hi. rewrite <- (Z.mod_small x two256 Hx).
  apply Z.mod_pow2_bits_high. lia.
Qed.

Lemma below_two256 z :
  0 <= z -> (forall i, 256 <= i -> Z.testbit z i = false) -> 0 <= z < two256.
Proof.
  intros Hz Hbits.
  enough (z = z mod two256) as -> by (apply Z.mod_pos_bound; reflexivity).
  apply Z.bits_inj'. intros i Hi. unfold two256.
  rewrite Z.testbit_mod_pow2 by lia.
  destruct (i <? 256) eqn:E; [done|]. apply Hbits. lia.
Qed.

#[export] Instance intx_spec : IntxSpec intx.
Proof.
  split; cbn -[val mk Z.pow Z.of_nat]; intros;
    repeat match goal with x : Zmod _ |- _ => lazymatch goal with
      | _ : 0 <= val x < _ |- _ => fail
      | _ => pose proof (val_range x) end end;
    rewrite ?val_mk; try done.
  - by apply Zmod.unsigned_inj.
  - apply Z.mod_small. unfold two256. lia.
  - by destruct b.
  - apply Z.mod_small. split; [apply Z.div_pos; lia|].
    apply Z.div_lt_upper_bound; nia.
  - apply Z.mod_small. pose proof (Z.mod_pos_bound (val x) (val y)). lia.
  - apply Z.mod_small. pose proof (Z.mod_pos_bound (val x + val y) (val m)). lia.
  - apply Z.mod_small. pose proof (Z.mod_pos_bound (val x * val y) (val m)). lia.
  - unfold val. rewrite Zmod.unsigned_pow_nonneg_r by apply val_range. done.
  - apply Z.mod_small, below_two256; [apply Z.land_nonneg; lia|].
    intros. by rewrite Z.land_spec, testbit_high.
  - apply Z.mod_small, below_two256; [apply Z.lor_nonneg; lia|].
    intros. by rewrite Z.lor_spec, !testbit_high.
  - apply Z.mod_small, below_two256; [apply Z.lxor_nonneg; lia|].
    intros. by rewrite Z.lxor_spec, !testbit_high.
  - apply Z.mod_small. lia.
  - by case_match.
  - apply Z.mod_small. case_match; [|lia].
    split; [apply Z.shiftr_nonneg; lia|].
    rewrite Z.shiftr_div_pow2 by lia.
    apply Z.div_lt_upper_bound; nia.
  - by case_match.
  - apply Z.mod_small. pose proof (be_value_bound bs).
    enough (256 ^ Z.of_nat (length bs) <= two256) by lia.
    change two256 with (256 ^ 32).
    apply Z.pow_le_mono_r; lia.
  - apply Z.mod_small. pose proof (le_value_bound bs) as Hb. rewrite H in Hb. exact Hb.
Qed.
End ZmodIntx.

(** ** Consequences of the specification *)
Section IntxFacts.
Context `{XS : IntxSpec}.

Lemma u256_eqb_eq x y : u256_eqb x y = true <-> x = y.
Proof.
  rewrite u256_eqb_spec, Z.eqb_eq. split; [apply u256_inj|by intros ->].
Qed.

Lemma be_load_store x : be_load (be_store x) = x.
Proof.
  apply u256_inj. rewrite be_store_spec, be_load_spec by by rewrite length_be_digits.
  rewrite be_value_digits. apply Z.mod_small, u256_range.
Qed.

Lemma be_store_load bs : length bs = 32%nat -> be_store (be_load bs) = bs.
Proof.
  intros Hl. rewrite be_store_spec, be_load_spec by lia.
  rewrite <- Hl. apply be_digits_value.
Qed.

Lemma be_trunc_load bs : length bs = 20%nat -> be_trunc_address (be_load bs) = bs.
Proof.
  intros Hl. rewrite be_trunc_address_spec, be_load_spec by lia.
  rewrite <- Hl. apply be_digits_value.
Qed.

Lemma length_be_store x : length (be_store x) = 32%nat.
Proof. rewrite be_store_spec. apply length_be_digits. Qed.

Lemma length_be_trunc x : length (be_trunc_address x) = 20%nat.
Proof. rewrite be_trunc_address_spec. apply length_be_digits. Qed.

(** The limbs above the first are all zero exactly below [2^64]. *)
Lemma u256_high_words x :
  (Z.lor (Z.lor (u256_word x 3) (u256_word x 2)) (u256_word x 1) =? 0) = (⟦x⟧ <? 2 ^ 64).
Proof.
  pose proof (u256_range x) as Hx. unfold two256 in Hx.
  rewrite !u256_word_spec by lia.
  apply eq_true_iff_eq. rewrite Z.eqb_eq, Z.ltb_lt, !Z.lor_eq_0_iff.
  change (64 * 3) with 192. change (64 * 2) with 128. change (64 * 1) with 64.
  rewrite (Z.mod_small (⟦x⟧ / 2 ^ 192))
    by (split; [apply Z.div_pos; lia|apply Z.div_lt_upper_bound; lia]).
  split; [intros [[H3 H2] H1]|intros H].
  - apply Z.div_small_iff in H3; [|lia].
    assert (⟦x⟧ < 2 ^ 192) by lia.
    rewrite Z.mod_small in H2
      by (split; [apply Z.div_pos; lia|apply Z.div_lt_upper_bound; lia]).
    apply Z.div_small_iff in H2; [|lia].
    rewrite Z.mod_small in H1
      by (split; [apply Z.div_pos; lia|apply Z.div_lt_upper_bound; lia]).
    apply Z.div_small_iff in H1; lia.
  - rewrite !Z.div_small by lia. done.
Qed.

Lemma u256_word_0 x : ⟦x⟧ < 2 ^ 64 -> u256_word x 0 = ⟦x⟧.
Proof.
  intros. pose proof (u256_range x). rewrite u256_word_spec by lia.
  change (2 ^ (64 * 0)) with 1. rewrite Z.div_1_r. apply Z.mod_small. lia.
Qed.

Lemma u256_to_u64_small x : ⟦x⟧ < 2 ^ 64 -> u256_to_u64 x = ⟦x⟧.
Proof.
  intros. pose proof (u256_range x). rewrite u256_to_u64_spec. apply Z.mod_small. lia.
Qed.

Lemma count_significant_bytes_range x : 0 <= intx_count_significant_bytes x <= 32.
Proof.
  rewrite intx_csb_spec. destruct (⟦x⟧ =? 0) eqn:?; bool_prop; [lia|].
  pose proof (u256_range x) as Hx. unfold two256 in Hx.
  assert (0 < ⟦x⟧) as H0 by lia.
  pose proof (proj1 (Z.log2_lt_pow2 ⟦x⟧ 256 H0) (proj2 Hx)).
  pose proof (Z.log2_nonneg ⟦x⟧).
  pose proof (Z.div_lt_upper_bound (Z.log2 ⟦x⟧) 8 32 ltac:(lia) ltac:(lia)).
  pose proof (Z.div_pos (Z.log2 ⟦x⟧) 8 ltac:(lia) ltac:(lia)). lia.
Qed.

Lemma u256_to_u64_bound x : 0 <= u256_to_u64 x < 2 ^ 64.
Proof. rewrite u256_to_u64_spec. apply Z.mod_pos_bound. lia. Qed.
End IntxFacts.

#[export] Hint Resolve u256_range u256_to_u64_bound length_be_store length_be_trunc : ivmone.
