(* ===== verification/Ivmc.v ===== *)
(** * The IVMC ABI (interface): status codes, revisions, opcodes, messages, the host

    IVMC is third-party: its enumerations and structures are transcribed here
    as data, and everything that runs behind the host interface is a field of
    the class [Host].  [HostSpec] states the parts of the IVMC documentation
    the interpreters rely on.  [Env] bundles the external code the interpreters
    are compiled against: intx, the Keccak function of ethash, the host, and
    the contents of uninitialised heap memory. *)
From stdpp Require Import base list tactics.
From S2P Require Import Prelude Intx.

(** ** Enumerations *)
Inductive ivmc_status_code :=
| IVMC_SUCCESS | IVMC_FAILURE | IVMC_REVERT | IVMC_OUT_OF_GAS
| IVMC_INVALID_INSTRUCTION | IVMC_UNDEFINED_INSTRUCTION
| IVMC_STACK_OVERFLOW | IVMC_STACK_UNDERFLOW | IVMC_BAD_JUMP_DESTINATION
| IVMC_INVALID_MEMORY_ACCESS | IVMC_STATIC_MODE_VIOLATION
| IVMC_OTHER_STATUS (code : Z).

Inductive ivmc_revision :=
| IVMC_FRONTIER | IVMC_HOMESTEAD | IVMC_TANGERINE_WHISTLE | IVMC_SPURIOUS_DRAGON
| IVMC_BYZANTIUM | IVMC_CONSTANTINOPLE | IVMC_PETERSBURG | IVMC_ISTANBUL
| IVMC_BERLIN | IVMC_LONDON | IVMC_SHANGHAI.

Definition rev_number (r : ivmc_revision) : Z :=
  match r with
  | IVMC_FRONTIER => 0 | IVMC_HOMESTEAD => 1 | IVMC_TANGERINE_WHISTLE => 2
  | IVMC_SPURIOUS_DRAGON => 3 | IVMC_BYZANTIUM => 4 | IVMC_CONSTANTINOPLE => 5
  | IVMC_PETERSBURG => 6 | IVMC_ISTANBUL => 7 | IVMC_BERLIN => 8
  | IVMC_LONDON => 9 | IVMC_SHANGHAI => 10
  end.

Definition IVMC_MAX_REVISION := IVMC_SHANGHAI.

Definition all_revisions : list ivmc_revision :=
  [IVMC_FRONTIER; IVMC_HOMESTEAD; IVMC_TANGERINE_WHISTLE; IVMC_SPURIOUS_DRAGON;
   IVMC_BYZANTIUM; IVMC_CONSTANTINOPLE; IVMC_PETERSBURG; IVMC_ISTANBUL;
   IVMC_BERLIN; IVMC_LONDON; IVMC_SHANGHAI].

(** The comparison of two revisions as C enumerators, [r1 >= r2]. *)
Definition rev_geb (r1 r2 : ivmc_revision) : bool := rev_number r2 <=? rev_number r1.

Inductive ivmc_call_kind :=
| IVMC_CALL | IVMC_DELEGATECALL | IVMC_CALLCODE | IVMC_CREATE | IVMC_CREATE2.

Inductive ivmc_storage_status :=
| IVMC_STORAGE_UNCHANGED | IVMC_STORAGE_MODIFIED | IVMC_STORAGE_MODIFIED_AGAIN
| IVMC_STORAGE_ADDED | IVMC_STORAGE_DELETED.

Inductive ivmc_access_status := IVMC_ACCESS_COLD | IVMC_ACCESS_WARM.

#[export] Instance status_eq_dec : EqDecision ivmc_status_code.
Proof. solve_decision. Defined.
#[export] Instance revision_eq_dec : EqDecision ivmc_revision.
Proof. solve_decision. Defined.
#[export] Instance call_kind_eq_dec : EqDecision ivmc_call_kind.
Proof. solve_decision. Defined.
#[export] Instance access_status_eq_dec : EqDecision ivmc_access_status.
Proof. solve_decision. Defined.

(** The bit of [ivmc_message.flags] for static calls. *)
Definition IVMC_STATIC : Z := 1.

(** ** Opcodes *)
Definition OP_STOP := 0x00.
Definition OP_ADD := 0x01.
Definition OP_MUL := 0x02.
Definition OP_SUB := 0x03.
Definition OP_DIV := 0x04.
Definition OP_SDIV := 0x05.
Definition OP_MOD := 0x06.
Definition OP_SMOD := 0x07.
Definition OP_ADDMOD := 0x08.
Definition OP_MULMOD := 0x09.
Definition OP_EXP := 0x0a.
Definition OP_SIGNEXTEND := 0x0b.
Definition OP_LT := 0x10.
Definition OP_GT := 0x11.
Definition OP_SLT := 0x12.
Definition OP_SGT := 0x13.
Definition OP_EQ := 0x14.
Definition OP_ISZERO := 0x15.
Definition OP_AND := 0x16.
Definition OP_OR := 0x17.
Definition OP_XOR := 0x18.
Definition OP_NOT := 0x19.
Definition OP_BYTE := 0x1a.
Definition OP_SHL := 0x1b.
Definition OP_SHR := 0x1c.
Definition OP_SAR := 0x1d.
Definition OP_KECCAK256 := 0x20.
Definition OP_ADDRESS := 0x30.
Definition OP_BALANCE := 0x31.
Definition OP_ORIGIN := 0x32.
Definition OP_CALLER := 0x33.
Definition OP_CALLVALUE := 0x34.
Definition OP_CALLDATALOAD := 0x35.
Definition OP_CALLDATASIZE := 0x36.
Definition OP_CALLDATACOPY := 0x37.
Definition OP_CODESIZE := 0x38.
Definition OP_CODECOPY := 0x39.
Definition OP_GASPRICE := 0x3a.
Definition OP_EXTCODESIZE := 0x3b.
Definition OP_EXTCODECOPY := 0x3c.
Definition OP_RETURNDATASIZE := 0x3d.
Definition OP_RETURNDATACOPY := 0x3e.
Definition OP_EXTCODEHASH := 0x3f.
Definition OP_BLOCKHASH := 0x40.
Definition OP_COINBASE := 0x41.
Definition OP_TIMESTAMP := 0x42.
Definition OP_NUMBER := 0x43.
Definition OP_DIFFICULTY := 0x44.
Definition OP_GASLIMIT := 0x45.
Definition OP_CHAINID := 0x46.
Definition OP_SELFBALANCE := 0x47.
Definition OP_BASEFEE := 0x48.
Definition OP_POP := 0x50.
Definition OP_MLOAD := 0x51.
Definition OP_MSTORE := 0x52.
Definition OP_MSTORE8 := 0x53.
Definition OP_SLOAD := 0x54.
Definition OP_SSTORE := 0x55.
Definition OP_JUMP := 0x56.
Definition OP_JUMPI := 0x57.
Definition OP_PC := 0x58.
Definition OP_MSIZE := 0x59.
Definition OP_GAS := 0x5a.
Definition OP_JUMPDEST := 0x5b.
Definition OP_PUSH1 := 0x60.
Definition OP_PUSH8 := 0x67.
Definition OP_PUSH9 := 0x68.
Definition OP_PUSH32 := 0x7f.
Definition OP_DUP1 := 0x80.
Definition OP_DUP16 := 0x8f.
Definition OP_SWAP1 := 0x90.
Definition OP_SWAP16 := 0x9f.
Definition OP_LOG0 := 0xa0.
Definition OP_LOG4 := 0xa4.
Definition OP_CREATE := 0xf0.
Definition OP_CALL := 0xf1.
Definition OP_CALLCODE := 0xf2.
Definition OP_RETURN := 0xf3.
Definition OP_DELEGATECALL := 0xf4.
Definition OP_CREATE2 := 0xf5.
Definition OP_STATICCALL := 0xfa.
Definition OP_REVERT := 0xfd.
Definition OP_INVALID := 0xfe.
Definition OP_SELFDESTRUCT := 0xff.

(** ** Structures *)

(** 20-byte addresses and 32-byte words are byte strings. *)
Abbreviation address := (list byte).
Abbreviation bytes32 := (list byte).

Definition bytes32_zero : bytes32 := replicate 32 Byte.x00.
Definition address_zero : address := replicate 20 Byte.x00.

Record ivmc_message := mk_message {
  msg_kind : ivmc_call_kind;
  msg_flags : Z;
  msg_depth : Z;
  msg_gas : Z;
  msg_recipient : address;
  msg_sender : address;
  msg_input_data : list byte;
  msg_value : bytes32;
  msg_create2_salt : bytes32;
  msg_code_address : address
}.

Definition msg_input_size (m : ivmc_message) : Z := Z.of_nat (length (msg_input_data m)).

(** [ivmc_message{}]: all members zero. *)
Definition empty_message : ivmc_message :=
  mk_message IVMC_CALL 0 0 0 address_zero address_zero [] bytes32_zero bytes32_zero address_zero.

Record ivmc_result := mk_result {
  res_status_code : ivmc_status_code;
  res_gas_left : Z;
  res_output_data : list byte;
  res_create_address : address
}.

Definition res_output_size (r : ivmc_result) : Z := Z.of_nat (length (res_output_data r)).

Record ivmc_tx_context := mk_tx_context {
  tx_gas_price : bytes32;
  tx_origin : address;
  block_coinbase : address;
  block_number : Z;
  block_timestamp : Z;
  block_gas_limit : Z;
  block_difficulty : bytes32;
  tx_chain_id : bytes32;
  block_base_fee : bytes32
}.

(** ** The host *)
Class Host := {
  host_state : Type;
  account_exists : address -> host_state -> bool * host_state;
  get_storage : address -> bytes32 -> host_state -> bytes32 * host_state;
  set_storage : address -> bytes32 -> bytes32 -> host_state -> ivmc_storage_status * host_state;
  get_balance : address -> host_state -> bytes32 * host_state;
  get_code_size : address -> host_state -> Z * host_state;
  get_code_hash : address -> host_state -> bytes32 * host_state;
  (** [copy_code(addr, code_offset, buffer, buffer_size)]: the bytes written to
      the front of the buffer; their number is the value returned. *)
  copy_code : address -> Z -> Z -> host_state -> list byte * host_state;
  host_selfdestruct : address -> address -> host_state -> host_state;
  host_call : ivmc_message -> host_state -> ivmc_result * host_state;
  get_tx_context : host_state -> ivmc_tx_context * host_state;
  get_block_hash : Z -> host_state -> bytes32 * host_state;
  emit_log : address -> list byte -> list bytes32 -> host_state -> host_state;
  access_account : address -> host_state -> ivmc_access_status * host_state;
  access_storage : address -> bytes32 -> host_state -> ivmc_access_status * host_state;
  (** The conversion of an [ivmc::bytes32] to [bool]. *)
  bytes32_to_bool : bytes32 -> bool
}.

Definition tx_context_ok (c : ivmc_tx_context) : Prop :=
  length (tx_gas_price c) = 32%nat /\ length (tx_origin c) = 20%nat /\
  length (block_coinbase c) = 20%nat /\ 0 <= block_number c <= i64_max /\
  0 <= block_timestamp c <= i64_max /\ 0 <= block_gas_limit c <= i64_max /\
  length (block_difficulty c) = 32%nat /\ length (tx_chain_id c) = 32%nat /\
  length (block_base_fee c) = 32%nat.

(** A call hands back at most the gas it was given and a buffer that fits
    the address space. *)
Definition result_ok (m : ivmc_message) (r : ivmc_result) : Prop :=
  0 <= res_gas_left r <= msg_gas m /\
  Z.of_nat (length (res_output_data r)) < 2 ^ 63 /\
  length (res_create_address r) = 20%nat.

(** The documented obligations of a host. *)
Class HostSpec (H : Host) : Prop := {
  get_storage_length : forall a k h, length (fst (get_storage a k h)) = 32%nat;
  get_balance_length : forall a h, length (fst (get_balance a h)) = 32%nat;
  get_code_size_range : forall a h, 0 <= fst (get_code_size a h) < 2 ^ 64;
  get_code_hash_length : forall a h, length (fst (get_code_hash a h)) = 32%nat;
  copy_code_length : forall a off n h, 0 <= n ->
    Z.of_nat (length (fst (copy_code a off n h))) <= n;
  host_call_ok : forall m h, 0 <= msg_gas m -> result_ok m (fst (host_call m h));
  get_tx_context_ok : forall h, tx_context_ok (fst (get_tx_context h));
  get_block_hash_length : forall n h, length (fst (get_block_hash n h)) = 32%nat;
  bytes32_to_bool_spec : forall b, bytes32_to_bool b = negb (be_value b =? 0)
}.

(** ** The environment of the interpreters *)
Class Env := {
  env_intx :: Intx;
  env_host :: Host;
  (** [ethash::keccak256]. *)
  ethash_keccak256 : list byte -> bytes32;
  (** The contents of memory that was never written, by index: heap bytes and
      the default-initialised words of a new stack. *)
  uninitialised : Z -> byte;
  uninitialised_word : Z -> uint256
}.

Class EnvSpec (E : Env) : Prop := {
  env_intx_spec :: IntxSpec env_intx;
  env_host_spec :: HostSpec env_host;
  keccak_length : forall bs, length (ethash_keccak256 bs) = 32%nat
}.

(** [new uint8_t\[n\]] and the part of a [realloc] that grows a block. *)
Definition uninitialised_bytes `{Env} (from n : Z) : list byte :=
  map (fun i => uninitialised (Z.of_nat i)) (seq (Z.to_nat from) (Z.to_nat n)).

(** ** Facts *)
Lemma length_uninitialised_bytes `{Env} from n :
  length (uninitialised_bytes from n) = Z.to_nat n.
Proof. unfold uninitialised_bytes. by rewrite length_map, length_seq. Qed.

Lemma rev_geb_spec r1 r2 : rev_geb r1 r2 = true <-> rev_number r2 <= rev_number r1.
Proof. unfold rev_geb. lia. Qed.

Lemma all_revisions_complete r : In r all_revisions.
Proof. destruct r; cbn; tauto. Qed.

#[export] Hint Rewrite @length_uninitialised_bytes : ivmone.
#[export] Hint Resolve get_storage_length get_balance_length get_code_hash_length
  get_block_hash_length keccak_length : ivmone.
