(* ===== verification/Mock.v ===== *)
(** * A concrete environment

    An instance of every interface: intx from the Standard Library's modular
    integers, a host that keeps storage, access lists, logs and a record of
    the calls made, and a checksum in the place of Keccak.  It is used to run
    the interpreters and to show that the specifications of the interfaces can
    be met; no theorem about the program depends on it. *)
From stdpp Require Import base list tactics option.
From S2P Require Import Prelude Intx Ivmc.

Module Mock.
Record mock_host := mk_mock_host {
  mh_storage : list (bytes32 * bytes32);
  mh_warm_accounts : list address;
  mh_warm_keys : list bytes32;
  mh_logs : list (list byte * list bytes32);
  mh_calls : list ivmc_message;
  mh_beneficiaries : list address
}.

Definition empty_host : mock_host := mk_mock_host [] [] [] [] [] [].

Definition bytes_eqb (a b : list byte) : bool := bool_decide (a = b).

Fixpoint find_value (k : bytes32) (l : list (bytes32 * bytes32)) : bytes32 :=
  match l with
  | [] => bytes32_zero
  | (k', v) :: l' =>
      if bytes_eqb k k' && (length v =? 32)%nat then v else find_value k l'
  end.

Definition is_zero (b : list byte) : bool := be_value b =? 0.

Definition storage_status (old new : bytes32) : ivmc_storage_status :=
  if bytes_eqb old new then IVMC_STORAGE_UNCHANGED
  else if is_zero old then IVMC_STORAGE_ADDED
  else if is_zero new then IVMC_STORAGE_DELETED
  else IVMC_STORAGE_MODIFIED.

Definition access (x : list byte) (l : list (list byte)) : ivmc_access_status :=
  if existsb (bytes_eqb x) l then IVMC_ACCESS_WARM else IVMC_ACCESS_COLD.

Definition tx : ivmc_tx_context :=
  mk_tx_context (be_digits 32 7) (be_digits 20 0xabc) (be_digits 20 0xc01) 1000 1600000000
    30000000 (be_digits 32 0xd1ff) (be_digits 32 1) (be_digits 32 0xfee).

(** The callee consumes a quarter of its gas and returns three bytes. *)
Definition call_result (m : ivmc_message) : ivmc_result :=
  mk_result IVMC_SUCCESS (msg_gas m * 3 / 4) [Byte.x0a; Byte.x0b; Byte.x0c]
    (be_digits 20 0xcc1ea7e).

#[export] Instance host : Host := {|
  host_state := mock_host;
  account_exists a h := (negb (is_zero a), h);
  get_storage _ k h := (find_value k (mh_storage h), h);
  set_storage _ k v h :=
    (storage_status (find_value k (mh_storage h)) v,
     mk_mock_host ((k, v) :: mh_storage h) (mh_warm_accounts h) (mh_warm_keys h) (mh_logs h)
       (mh_calls h) (mh_beneficiaries h));
  get_balance _ h := (be_digits 32 1000000, h);
  get_code_size _ h := (5, h);
  get_code_hash _ h := (be_digits 32 0xc0de, h);
  copy_code _ off n h :=
    (take (Z.to_nat n) (drop (Z.to_nat off) [Byte.x01; Byte.x02; Byte.x03; Byte.x04; Byte.x05]), h);
  host_selfdestruct _ b h :=
    mk_mock_host (mh_storage h) (mh_warm_accounts h) (mh_warm_keys h) (mh_logs h)
      (mh_calls h) (b :: mh_beneficiaries h);
  host_call m h :=
    (call_result m,
     mk_mock_host (mh_storage h) (mh_warm_accounts h) (mh_warm_keys h) (mh_logs h)
       (m :: mh_calls h) (mh_beneficiaries h));
  get_tx_context h := (tx, h);
  get_block_hash n h := (be_digits 32 (n + 1), h);
  emit_log _ d ts h :=
    mk_mock_host (mh_storage h) (mh_warm_accounts h) (mh_warm_keys h) ((d, ts) :: mh_logs h)
      (mh_calls h) (mh_beneficiaries h);
  access_account a h :=
    (access a (mh_warm_accounts h),
     mk_mock_host (mh_storage h) (a :: mh_warm_accounts h) (mh_warm_keys h) (mh_logs h)
       (mh_calls h) (mh_beneficiaries h));
  access_storage _ k h :=
    (access k (mh_warm_keys h),
     mk_mock_host (mh_storage h) (mh_warm_accounts h) (k :: mh_warm_keys h) (mh_logs h)
       (mh_calls h) (mh_beneficiaries h));
  bytes32_to_bool b := negb (be_value b =? 0)
|}.

#[export] Instance env : Env := {|
  env_intx := ZmodIntx.intx;
  env_host := host;
  ethash_keccak256 bs := be_digits 32 (be_value bs * 31 + 17);
  uninitialised i := byte_of_Z (i * 7 + 3);
  uninitialised_word i := ZmodIntx.mk (i * 12345 + 6789)
|}.

Lemma find_value_length k l : length (find_value k l) = 32%nat.
Proof.
  induction l as [|[k' v] l IH]; cbn [find_value]; [reflexivity|].
  destruct (bytes_eqb k k' && (length v =? 32)%nat) eqn:E; [|exact IH].
  apply andb_prop in E as [_ E]. by apply Nat.eqb_eq.
Qed.

#[export] Instance host_spec : HostSpec host.
Proof.
  split; cbn -[be_digits byte_of_Z i64_max Z.pow]; intros; try apply length_be_digits.
  - apply find_value_length.
  - lia.
  - rewrite length_take. lia.
  - unfold result_ok. cbn -[be_digits Z.pow].
    split; [|split; [lia|apply length_be_digits]].
    pose proof (Z.div_mod (msg_gas m * 3) 4 ltac:(lia)).
    pose proof (Z.mod_pos_bound (msg_gas m * 3) 4 ltac:(lia)). lia.
  - unfold tx_context_ok, i64_max. cbn -[be_digits Z.pow]. rewrite !length_be_digits. lia.
  - done.
Qed.

#[export] Instance env_spec : EnvSpec env.
Proof. split; [exact ZmodIntx.intx_spec|exact host_spec|intros; apply length_be_digits]. Qed.
End Mock.
