(* ===== verification/Code.v ===== *)
(** * Instructions and analysed code (analysis.hpp, baseline.hpp, instructions_op2fn.hpp)

    The data both interpreters produce from bytecode before running it.  A
    pointer to an instruction function is a constructor of [instr_fn] (the
    generic implementations of instructions.hpp) or of [exec_fn] (the functions
    of the Advanced interpreter in instructions.cpp). *)
From stdpp Require Import base list tactics.
From S2P Require Import Prelude Intx Ivmc.

(** ** The generic instruction implementations *)
Inductive instr_fn :=
| I_stop | I_add | I_mul | I_sub | I_div | I_sdiv | I_mod | I_smod | I_addmod | I_mulmod
| I_exp | I_signextend
| I_lt | I_gt | I_slt | I_sgt | I_eq | I_iszero | I_and | I_or | I_xor | I_not | I_byte
| I_shl | I_shr | I_sar
| I_keccak256
| I_address | I_balance | I_origin | I_caller | I_callvalue | I_calldataload | I_calldatasize
| I_calldatacopy | I_codesize | I_codecopy | I_gasprice | I_extcodesize | I_extcodecopy
| I_returndatasize | I_returndatacopy | I_extcodehash
| I_blockhash | I_coinbase | I_timestamp | I_number | I_difficulty | I_gaslimit | I_chainid
| I_selfbalance | I_basefee
| I_pop | I_mload | I_mstore | I_mstore8 | I_sload | I_sstore | I_jump | I_jumpi | I_pc
| I_msize | I_gas | I_jumpdest
| I_push (len : Z)
| I_dup (n : Z)
| I_swap (n : Z)
| I_log (num_topics : Z)
| I_create (kind : ivmc_call_kind)
| I_call (kind : ivmc_call_kind) (static : bool)
| I_return (status : ivmc_status_code)
| I_invalid | I_selfdestruct.

#[export] Instance instr_fn_eq_dec : EqDecision instr_fn.
Proof. solve_decision. Defined.

(** ** The instruction functions of the Advanced interpreter *)
Inductive exec_fn :=
| X_op (f : instr_fn)
| X_stop | X_sstore | X_jump | X_jumpi | X_pc | X_gas | X_push_small | X_push_full
| X_invalid
| X_return (status : ivmc_status_code)
| X_call (kind : ivmc_call_kind) (static : bool)
| X_create (kind : ivmc_call_kind)
| X_undefined | X_selfdestruct | X_beginblock.

#[export] Instance exec_fn_eq_dec : EqDecision exec_fn.
Proof. solve_decision. Defined.

(** ** The Baseline analysis result *)
Record CodeAnalysis := mk_code_analysis {
  padded_code : list byte;
  jumpdest_map : list bool
}.

(** ** The Advanced analysis result *)
Record block_info := mk_block_info {
  bi_gas_cost : Z;
  bi_stack_req : Z;
  bi_stack_max_growth : Z
}.

Definition empty_block_info : block_info := mk_block_info 0 0 0.

(** The tagged reading of a union; [arg_push_value] is an index into
    [push_values], whose storage never moves. *)
Inductive instruction_argument :=
| arg_number (number : Z)
| arg_push_value (index : nat)
| arg_small_push_value (value : Z)
| arg_block (block : block_info).

Record instruction := mk_instruction {
  fn : exec_fn;
  arg : instruction_argument
}.

(** [instruction(fn)]: the argument is a zero block. *)
Definition new_instruction (f : exec_fn) : instruction :=
  mk_instruction f (arg_block empty_block_info).

Section Advanced.
Context {E : Env}.

Record AdvancedCodeAnalysis := mk_advanced_code_analysis {
  instrs : list instruction;
  push_values : list uint256;
  jumpdest_offsets : list Z;
  jumpdest_targets : list Z
}.

(** The pointer to the code analysis in the execution state. *)
Inductive analysis_ptr :=
| analysis_null
| analysis_baseline (a : CodeAnalysis)
| analysis_advanced (a : AdvancedCodeAnalysis).
End Advanced.
