(* ===== verification/ExecutionState.v ===== *)
(** * The execution state (lib/ivmone/execution_state.hpp)

    [Stack] is the downward view of an array of 1024 words with a pointer to
    the top item, [Memory] a heap buffer with a virtual size and a capacity,
    [ExecutionState] the record all instructions work on.  The operations are
    partial: [None] and [UB] stand for an access outside of an array, a failed
    assertion or a signed overflow.  The lemmas relate the array
    representations to the lists the specifications of the instructions are
    written with ([Stack.items], [Memory.bytes]). *)
From stdpp Require Import base list tactics option.
From S2P Require Import Prelude Intx Ivmc Code.

(** ** The EVM stack *)
Module Stack.
Section Stack.
Context {E : Env}.

Definition limit : Z := 1024.

(** [top_item] is the index of the top item in [storage]; -1 when empty. *)
Record Stack := mk_stack {
  top_item : Z;
  storage : list uint256
}.

Definition clear (st : Stack) : Stack := mk_stack (-1) (storage st).

Definition new_stack : Stack :=
  clear (mk_stack 0 (map (fun i => uninitialised_word (Z.of_nat i)) (seq 0 (Z.to_nat limit)))).

Definition size (st : Stack) : Z := top_item st + 1.

(** [operator\[\](index)]: the address [top_item - index], read and written. *)
Definition at_index (st : Stack) (index : Z) : option uint256 :=
  nth_Z (storage st) (top_item st - index).

Definition set_index (st : Stack) (index : Z) (v : uint256) : option Stack :=
  mk_stack (top_item st) <$> overwrite (storage st) (top_item st - index) [v].

Definition push (st : Stack) (item : uint256) : option Stack :=
  mk_stack (top_item st + 1) <$> overwrite (storage st) (top_item st + 1) [item].

Definition pop (st : Stack) : option (uint256 * Stack) :=
  (fun x => (x, mk_stack (top_item st - 1) (storage st))) <$> nth_Z (storage st) (top_item st).

(** The abstract stack, top item first. *)
Definition items (st : Stack) : list uint256 := reverse (take (Z.to_nat (size st)) (storage st)).

Definition wf (st : Stack) : Prop :=
  length (storage st) = Z.to_nat limit /\ -1 <= top_item st < limit.
End Stack.
End Stack.

(** ** The EVM memory *)
Module Memory.
Section Memory.
Context {E : Env}.

Definition page_size : Z := 4 * 1024.

(** [m_data] is the allocated block: [m_capacity] bytes. *)
Record Memory := mk_memory {
  m_data : list byte;
  m_size : Z;
  m_capacity : Z
}.

(** [std::realloc] keeps the common prefix; allocation failure terminates
    the process and is outside of the model. *)
Definition allocate_capacity (m : Memory) : Memory :=
  let n := Z.to_nat (m_capacity m) in
  let old := take n (m_data m) in
  mk_memory
    (old ++ uninitialised_bytes (Z.of_nat (length old)) (Z.of_nat (n - length old)))
    (m_size m) (m_capacity m).

Definition new_memory : Memory := allocate_capacity (mk_memory [] 0 page_size).

Definition grow_capacity (m : Memory) (new_size : Z) : Memory :=
  if m_capacity m <? new_size then
    let doubled := u64 (m_capacity m * 2) in
    let cap :=
      if doubled <? new_size
      then u64 (u64 (new_size + (page_size - 1)) / page_size * page_size)
      else doubled in
    allocate_capacity (mk_memory (m_data m) (m_size m) cap)
  else m.

Definition grow (m : Memory) (new_size : Z) : option Memory :=
  if negb (new_size mod 32 =? 0) then None
  else if new_size <=? m_size m then None
  else
    let m' := grow_capacity m new_size in
    data ← overwrite (m_data m') (m_size m')
             (replicate (Z.to_nat (new_size - m_size m')) Byte.x00);
    Some (mk_memory data new_size (m_capacity m')).

Definition clear (m : Memory) : Memory := mk_memory (m_data m) 0 (m_capacity m).

(** Reading and writing runs of bytes through [&memory\[off\]]. *)
Definition read (m : Memory) (off n : Z) : option (list byte) := slice (m_data m) off n.

Definition write (m : Memory) (off : Z) (bs : list byte) : option Memory :=
  (fun d => mk_memory d (m_size m) (m_capacity m)) <$> overwrite (m_data m) off bs.

(** The abstract memory: the bytes below the virtual size. *)
Definition bytes (m : Memory) : list byte := take (Z.to_nat (m_size m)) (m_data m).

Definition wf (m : Memory) : Prop :=
  Z.of_nat (length (m_data m)) = m_capacity m /\
  0 <= m_size m <= m_capacity m /\ m_size m mod 32 = 0 /\
  m_size m <= 2 ^ 33 /\ page_size <= m_capacity m <= 2 ^ 34.
End Memory.
End Memory.

(** ** The execution state *)
Section ExecutionState.
Context {E : Env}.

(** [bytes_view]: a pointer to a byte buffer and a size. *)
Record bytes_view := mk_view {
  view_data : list byte;
  view_size : Z
}.

Record ExecutionState := mk_state {
  gas_left : Z;
  stack : Stack.Stack;
  memory : Memory.Memory;
  msg : ivmc_message;
  host : host_state;
  rev : ivmc_revision;
  return_data : list byte;
  code : bytes_view;
  status : ivmc_status_code;
  output_offset : Z;
  output_size : Z;
  analysis : analysis_ptr
}.

(** The constructor; [c] is the code array [code_ptr] points to, of [code_size] bytes. *)
Definition new_state (message : ivmc_message) (revision : ivmc_revision) (host_ctx : host_state)
    (c : list byte) : ExecutionState :=
  mk_state (msg_gas message) Stack.new_stack Memory.new_memory message host_ctx revision []
    (mk_view c (Z.of_nat (length c))) IVMC_SUCCESS 0 0 analysis_null.

Definition reset (s : ExecutionState) (message : ivmc_message) (revision : ivmc_revision)
    (host_ctx : host_state) (c : list byte) : ExecutionState :=
  mk_state (msg_gas message) (Stack.clear (stack s)) (Memory.clear (memory s)) message host_ctx
    revision [] (mk_view c (Z.of_nat (length c))) IVMC_SUCCESS 0 0 (analysis s).

Definition with_gas_left g s := mk_state g (stack s) (memory s) (msg s) (host s) (rev s)
  (return_data s) (code s) (status s) (output_offset s) (output_size s) (analysis s).
Definition with_stack st s := mk_state (gas_left s) st (memory s) (msg s) (host s) (rev s)
  (return_data s) (code s) (status s) (output_offset s) (output_size s) (analysis s).
Definition with_memory m s := mk_state (gas_left s) (stack s) m (msg s) (host s) (rev s)
  (return_data s) (code s) (status s) (output_offset s) (output_size s) (analysis s).
Definition with_host h s := mk_state (gas_left s) (stack s) (memory s) (msg s) h (rev s)
  (return_data s) (code s) (status s) (output_offset s) (output_size s) (analysis s).
Definition with_return_data d s := mk_state (gas_left s) (stack s) (memory s) (msg s) (host s)
  (rev s) d (code s) (status s) (output_offset s) (output_size s) (analysis s).
Definition with_code c s := mk_state (gas_left s) (stack s) (memory s) (msg s) (host s) (rev s)
  (return_data s) c (status s) (output_offset s) (output_size s) (analysis s).
Definition with_status c s := mk_state (gas_left s) (stack s) (memory s) (msg s) (host s) (rev s)
  (return_data s) (code s) c (output_offset s) (output_size s) (analysis s).
Definition with_output off n s := mk_state (gas_left s) (stack s) (memory s) (msg s) (host s)
  (rev s) (return_data s) (code s) (status s) off n (analysis s).
Definition with_analysis a s := mk_state (gas_left s) (stack s) (memory s) (msg s) (host s)
  (rev s) (return_data s) (code s) (status s) (output_offset s) (output_size s) a.

(** ** The primitive operations of instruction bodies

    [Instr A] is a body with access to the state whose [return] statements
    give a status code. *)
Definition Instr (A : Type) : Type := M ExecutionState ivmc_status_code A.

Definition return_status {A} (c : ivmc_status_code) : Instr A := return_now c.

Definition stack_pop : Instr uint256 := fun s =>
  match Stack.pop (stack s) with
  | Some (x, st) => Ok x (with_stack st s)
  | None => UB
  end.

Definition stack_push (x : uint256) : Instr unit := fun s =>
  match Stack.push (stack s) x with
  | Some st => Ok tt (with_stack st s)
  | None => UB
  end.

Definition stack_at (i : Z) : Instr uint256 := fun s =>
  match Stack.at_index (stack s) i with
  | Some x => Ok x s
  | None => UB
  end.

Definition stack_set (i : Z) (x : uint256) : Instr unit := fun s =>
  match Stack.set_index (stack s) i x with
  | Some st => Ok tt (with_stack st s)
  | None => UB
  end.

Definition stack_top : Instr uint256 := stack_at 0.
Definition set_top (x : uint256) : Instr unit := stack_set 0 x.

Definition memory_read (off n : Z) : Instr (list byte) := fun s =>
  match Memory.read (memory s) off n with
  | Some bs => Ok bs s
  | None => UB
  end.

Definition memory_write (off : Z) (bs : list byte) : Instr unit := fun s =>
  match Memory.write (memory s) off bs with
  | Some m => Ok tt (with_memory m s)
  | None => UB
  end.

Definition memory_grow (new_size : Z) : Instr unit := fun s =>
  match Memory.grow (memory s) new_size with
  | Some m => Ok tt (with_memory m s)
  | None => UB
  end.

(** A call of a host method. *)
Definition host_do {A} (f : host_state -> A * host_state) : Instr A := fun s =>
  let '(a, h) := f (host s) in Ok a (with_host h s).

Definition host_run (f : host_state -> host_state) : Instr unit := fun s =>
  Ok tt (with_host (f (host s)) s).

(** Reading a part of the state. *)
Definition asks {A} (f : ExecutionState -> A) : Instr A := fun s => Ok (f s) s.

(** The value of a signed 32-bit and of a signed 64-bit expression. *)
Definition int32 (z : Z) : Instr Z := fun s =>
  if (- 2 ^ 31 <=? z) && (z <=? i32_max) then Ok z s else UB.
Definition int64 (z : Z) : Instr Z := fun s => if in_i64 z then Ok z s else UB.

(** [(state.gas_left -= cost) < 0]. *)
Definition sub_gas (cost : Z) : Instr bool :=
  s ← get;
  g ← int64 (gas_left s - cost);
  modify (with_gas_left g);;
  mret (g <? 0).

Definition add_gas (amount : Z) : Instr unit :=
  s ← get;
  g ← int64 (gas_left s + amount);
  modify (with_gas_left g).

(** [if ((state.gas_left -= cost) < 0) return IVMC_OUT_OF_GAS;] *)
Definition charge (cost : Z) : Instr unit :=
  negative ← sub_gas cost;
  if negative : bool then return_status IVMC_OUT_OF_GAS else mret tt.
End ExecutionState.

(** ** The stack against its list of items *)
Section StackFacts.
Context {E : Env}.
Implicit Types st : Stack.Stack.

Lemma stack_items_length st :
  Stack.wf st -> Z.of_nat (length (Stack.items st)) = Stack.size st.
Proof.
  unfold Stack.wf, Stack.items, Stack.size, Stack.limit. intros [Hl Ht].
  rewrite length_reverse, length_take. lia.
Qed.

Lemma stack_items_length_le st : Stack.wf st -> (length (Stack.items st) <= 1024)%nat.
Proof.
  intros Hwf. pose proof (stack_items_length st Hwf).
  destruct Hwf as [_ ?]. unfold Stack.size, Stack.limit in *. lia.
Qed.

(** Item [i] from the top sits [i] words below the top pointer. *)
Lemma stack_items_lookup st (i : nat) :
  Stack.wf st -> (i < length (Stack.items st))%nat ->
  Stack.items st !! i = Stack.storage st !! Z.to_nat (Stack.top_item st - Z.of_nat i).
Proof.
  intros Hwf Hi. pose proof (stack_items_length st Hwf) as Hlen.
  destruct Hwf as [Hl Ht]. unfold Stack.items in *. rewrite length_reverse in Hi, Hlen.
  unfold Stack.size, Stack.limit in *.
  rewrite reverse_lookup by done. rewrite lookup_take_lt by lia. f_equal. lia.
Qed.

Lemma stack_at_spec st (i : nat) x :
  Stack.wf st -> Stack.items st !! i = Some x -> Stack.at_index st (Z.of_nat i) = Some x.
Proof.
  intros Hwf Hi. pose proof (lookup_lt_Some _ _ _ Hi) as Hlt.
  rewrite stack_items_lookup in Hi by done.
  pose proof (stack_items_length st Hwf) as Hlen. unfold Stack.size in Hlen.
  unfold Stack.at_index, nth_Z.
  destruct (_ <? 0) eqn:?; [lia|exact Hi].
Qed.

(** Dropping the top pointer by one removes the head of the items. *)
Lemma stack_items_drop st x l :
  Stack.wf st -> Stack.items st = x :: l ->
  Stack.storage st !! Z.to_nat (Stack.top_item st) = Some x /\
  Stack.items (Stack.mk_stack (Stack.top_item st - 1) (Stack.storage st)) = l /\
  0 <= Stack.top_item st.
Proof.
  intros Hwf Hi. pose proof (stack_items_length st Hwf) as Hlen.
  assert (Stack.items st !! 0%nat = Some x) as H0 by by rewrite Hi.
  rewrite stack_items_lookup in H0 by (try rewrite Hi; cbn; auto with lia).
  rewrite Hi in Hlen. cbn in Hlen. unfold Stack.size in Hlen.
  replace (Stack.top_item st - Z.of_nat 0) with (Stack.top_item st) in H0 by lia.
  split; [exact H0|split; [|lia]].
  unfold Stack.items, Stack.size in *. cbn.
  replace (Z.to_nat (Stack.top_item st + 1)) with (S (Z.to_nat (Stack.top_item st))) in Hi by lia.
  rewrite (take_S_r _ _ x) in Hi by done. rewrite reverse_snoc in Hi. simplify_eq.
  do 2 f_equal. lia.
Qed.

Lemma stack_pop_spec st x l :
  Stack.wf st -> Stack.items st = x :: l ->
  exists st', Stack.pop st = Some (x, st') /\ Stack.items st' = l /\ Stack.wf st'.
Proof.
  intros Hwf Hi. destruct (stack_items_drop _ _ _ Hwf Hi) as (Hx & Hl & Ht).
  exists (Stack.mk_stack (Stack.top_item st - 1) (Stack.storage st)).
  unfold Stack.pop, nth_Z. destruct (_ <? 0) eqn:?; [lia|]. rewrite Hx. cbn.
  split; [done|split; [done|]]. destruct Hwf. split; cbn; lia.
Qed.

Lemma stack_overwrite_spec st (i : Z) v :
  Stack.wf st -> 0 <= i < Stack.limit ->
  overwrite (Stack.storage st) i [v] = Some (<[Z.to_nat i := v]> (Stack.storage st)).
Proof.
  intros [Hl Ht] Hi. rewrite overwrite_Some by (cbn; lia). f_equal.
  rewrite insert_take_drop by lia. cbn. by replace (Z.to_nat i + 1)%nat with (S (Z.to_nat i)) by lia.
Qed.

Lemma stack_push_spec st v :
  Stack.wf st -> (length (Stack.items st) < 1024)%nat ->
  exists st', Stack.push st v = Some st' /\ Stack.items st' = v :: Stack.items st /\ Stack.wf st'.
Proof.
  intros Hwf Hlt. pose proof (stack_items_length st Hwf) as Hlen.
  pose proof Hwf as [Hl Ht].
  unfold Stack.push, Stack.size, Stack.limit in *. rewrite stack_overwrite_spec by (auto; unfold Stack.limit; lia).
  eexists. split; [reflexivity|]. unfold Stack.items, Stack.wf, Stack.size. cbn. split.
  - replace (Z.to_nat (Stack.top_item st + 1 + 1)) with (S (Z.to_nat (Stack.top_item st + 1))) by lia.
    rewrite (take_S_r _ _ v) by (apply list_lookup_insert_eq; lia).
    rewrite take_insert_ge by lia. by rewrite reverse_snoc.
  - rewrite length_insert. unfold Stack.limit. lia.
Qed.

Lemma stack_set_spec st (i : nat) v :
  Stack.wf st -> (i < length (Stack.items st))%nat ->
  exists st', Stack.set_index st (Z.of_nat i) v = Some st' /\
    Stack.items st' = <[i := v]> (Stack.items st) /\ Stack.wf st'.
Proof.
  intros Hwf Hlt. pose proof (stack_items_length st Hwf) as Hlen.
  pose proof Hwf as [Hl Ht]. unfold Stack.set_index, Stack.size, Stack.limit in *.
  rewrite stack_overwrite_spec by (auto; unfold Stack.limit; lia).
  eexists. split; [reflexivity|].
  set (st' := Stack.mk_stack _ _).
  assert (Stack.wf st') as Hwf'.
  { unfold Stack.wf, st', Stack.limit. cbn. rewrite length_insert. lia. }
  split; [|done].
  pose proof (stack_items_length st' Hwf') as Hlen'. unfold Stack.size in Hlen'. cbn in Hlen'.
  apply list_eq_same_length with (length (Stack.items st)); [rewrite length_insert; lia|lia|].
  intros j x y Hj. rewrite stack_items_lookup by (auto; lia). cbn.
  destruct (decide (i = j)) as [->|].
  - rewrite list_lookup_insert_eq by lia. rewrite list_lookup_insert_eq by lia. congruence.
  - rewrite list_lookup_insert_ne by lia. rewrite list_lookup_insert_ne by lia.
    rewrite stack_items_lookup by (auto; lia). congruence.
Qed.

Lemma stack_clear_spec st :
  Stack.wf st -> Stack.items (Stack.clear st) = [] /\ Stack.wf (Stack.clear st).
Proof.
  intros [Hl Ht]. split; [done|]. split; [exact Hl|]. cbn. unfold Stack.limit. lia.
Qed.

Lemma stack_new_spec : Stack.items Stack.new_stack = [] /\ Stack.wf Stack.new_stack.
Proof.
  split; [done|]. split; cbn [Stack.new_stack Stack.clear Stack.top_item Stack.storage].
  - by rewrite length_map, length_seq.
  - unfold Stack.limit. lia.
Qed.
End StackFacts.

(** ** The memory against its list of bytes *)
Section MemoryFacts.
Context {E : Env}.
Implicit Types m : Memory.Memory.

Lemma memory_bytes_length m :
  Memory.wf m -> Z.of_nat (length (Memory.bytes m)) = Memory.m_size m.
Proof.
  unfold Memory.wf, Memory.bytes. rewrite length_take. lia.
Qed.

Lemma allocate_capacity_data m :
  Z.of_nat (length (Memory.m_data m)) <= Memory.m_capacity m ->
  Memory.m_data (Memory.allocate_capacity m) =
    Memory.m_data m ++ uninitialised_bytes (Z.of_nat (length (Memory.m_data m)))
      (Memory.m_capacity m - Z.of_nat (length (Memory.m_data m))).
Proof.
  intros Hle. unfold Memory.allocate_capacity. cbn.
  rewrite take_ge by lia. do 2 f_equal. lia.
Qed.

(** The block after [grow_capacity]: long enough, with the old bytes in front. *)
Lemma grow_capacity_spec m n :
  Memory.wf m -> Memory.m_size m < n <= 2 ^ 33 ->
  let m' := Memory.grow_capacity m n in
  (exists junk, Memory.m_data m' = Memory.m_data m ++ junk) /\
  Memory.m_size m' = Memory.m_size m /\
  Z.of_nat (length (Memory.m_data m')) = Memory.m_capacity m' /\
  n <= Memory.m_capacity m' /\
  Memory.page_size <= Memory.m_capacity m' <= 2 ^ 34.
Proof.
  unfold Memory.wf, Memory.grow_capacity, Memory.page_size.
  intros (Hlen & Hs & Hmod & Hs' & Hc) Hn. cbn zeta.
  destruct (Memory.m_capacity m <? n) eqn:Hlt; bool_prop.
  2:{ split; [exists []; by rewrite app_nil_r|]. lia. }
  rewrite (u64_small (Memory.m_capacity m * 2)) by lia.
  rewrite (u64_small (n + (4 * 1024 - 1))) by lia.
  pose proof (Z.div_mod (n + (4 * 1024 - 1)) (4 * 1024) ltac:(lia)).
  pose proof (Z.mod_pos_bound (n + (4 * 1024 - 1)) (4 * 1024) ltac:(lia)).
  rewrite (u64_small (_ / _ * _)) by lia.
  set (cap := if _ <? n then _ else _).
  assert (n <= cap <= 2 ^ 34 /\ Memory.m_capacity m <= cap) as [Hcap Hcap'].
  { subst cap. case_match; bool_prop; lia. }
  rewrite allocate_capacity_data by (cbn; lia). cbn [Memory.m_data Memory.m_capacity Memory.m_size].
  split; [by eexists|]. split; [done|].
  rewrite length_app, length_uninitialised_bytes.
  cbn [Memory.allocate_capacity Memory.m_capacity]. lia.
Qed.

(** [grow] succeeds on a larger multiple of 32 and appends zeros, whatever
    the allocator or an earlier use of the buffer left behind. *)
Lemma memory_grow_spec m n :
  Memory.wf m -> n mod 32 = 0 -> Memory.m_size m < n <= 2 ^ 33 ->
  exists m', Memory.grow m n = Some m' /\ Memory.wf m' /\ Memory.m_size m' = n /\
    Memory.bytes m' =
      Memory.bytes m ++ replicate (Z.to_nat (n - Memory.m_size m)) Byte.x00.
Proof.
  intros Hwf Hmod Hn. pose proof (grow_capacity_spec m n Hwf Hn) as Hg. cbn zeta in Hg.
  unfold Memory.grow. rewrite (proj2 (Z.eqb_eq _ _) Hmod). cbn [negb].
  destruct (n <=? Memory.m_size m) eqn:Hle; [bool_prop; lia|].
  set (m1 := Memory.grow_capacity m n) in *.
  destruct Hg as ([junk Hd] & Hs & Hlen & Hcap & Hpage).
  destruct Hwf as (Hl0 & Hs0 & Hm0 & Hs1 & Hc0).
  rewrite Hs. rewrite overwrite_Some by (rewrite ?length_replicate; lia). cbn.
  eexists. split; [reflexivity|]. unfold Memory.wf, Memory.bytes. cbn.
  split; [|split; [done|]].
  - rewrite !length_app, length_take, length_drop, length_replicate. lia.
  - rewrite Hd. rewrite (take_app_le (Memory.m_data m)) by lia.
    rewrite app_assoc. rewrite take_app_le by (rewrite length_app, length_take, length_replicate; lia).
    rewrite take_ge; [done|]. rewrite length_app, length_take, length_replicate. lia.
Qed.

(** Reading inside the virtual size reads the abstract bytes. *)
Lemma memory_read_spec m off n :
  Memory.wf m -> 0 <= off -> 0 <= n -> off + n <= Memory.m_size m ->
  Memory.read m off n = Some (take (Z.to_nat n) (drop (Z.to_nat off) (Memory.bytes m))).
Proof.
  intros (Hl & Hs & _) Ho Hn Hle. unfold Memory.read.
  rewrite slice_Some by lia. f_equal. unfold Memory.bytes.
  rewrite <- (take_drop (Z.to_nat (Memory.m_size m)) (Memory.m_data m)) at 1.
  rewrite drop_app_le by (rewrite length_take; lia).
  rewrite take_app_le; [done|]. rewrite length_drop, length_take. lia.
Qed.

Lemma memory_write_spec m off bs :
  Memory.wf m -> 0 <= off -> off + Z.of_nat (length bs) <= Memory.m_size m ->
  exists m', Memory.write m off bs = Some m' /\ Memory.wf m' /\
    Memory.m_size m' = Memory.m_size m /\ Memory.m_capacity m' = Memory.m_capacity m /\
    overwrite (Memory.bytes m) off bs = Some (Memory.bytes m').
Proof.
  intros (Hl & Hs & Hm & Hrest) Ho Hle. unfold Memory.write, Memory.wf, Memory.bytes.
  rewrite overwrite_Some by lia. cbn. eexists. split; [reflexivity|]. cbn.
  rewrite overwrite_Some by (rewrite ?length_take; lia).
  split; [|split; [done|split; [done|]]].
  - rewrite !length_app, length_take, length_drop. lia.
  - f_equal. rewrite take_take, Nat.min_l by lia.
    rewrite !app_assoc, (take_app (take _ _ ++ bs)).
    rewrite (take_ge (take _ _ ++ bs)) by (rewrite length_app, length_take; lia).
    f_equal. rewrite length_app, length_take, Nat.min_l by lia.
    rewrite take_drop_commute. do 2 f_equal. lia.
Qed.

Lemma memory_clear_spec m :
  Memory.wf m -> Memory.wf (Memory.clear m) /\ Memory.bytes (Memory.clear m) = [].
Proof.
  unfold Memory.wf, Memory.page_size. intros Hwf. split; [|done].
  cbn [Memory.clear Memory.m_data Memory.m_size Memory.m_capacity].
  change (0 mod 32) with 0. lia.
Qed.

Lemma memory_new_spec : Memory.wf Memory.new_memory /\ Memory.bytes Memory.new_memory = [].
Proof.
  split; [|done]. unfold Memory.wf, Memory.new_memory.
  rewrite allocate_capacity_data by done.
  rewrite length_app, length_uninitialised_bytes.
  cbn [Memory.allocate_capacity Memory.m_data Memory.m_size Memory.m_capacity length].
  change (0 mod 32) with 0. unfold Memory.page_size. lia.
Qed.
End MemoryFacts.
