(* ===== verification/Instructions.v ===== *)
(** * The instruction implementations (lib/ivmone/instructions.hpp)

    One definition per function, in the order of the source.  A function that
    returns [void] is an [Instr unit], one that returns a status code or a
    [StopToken] an [Instr ivmc_status_code], one that takes and returns a code
    position an [Instr (option Z)] whose [None] is the null pointer.  C++
    evaluates the right operand of a compound assignment first, so
    [state.stack.top() += state.stack.pop()] pops before it looks at the top. *)
From stdpp Require Import base list tactics option.
From S2P Require Import Prelude Intx Ivmc Code ExecutionState.

(** EIP-2929 constants (instruction_traits.hpp). *)
Definition cold_sload_cost : Z := 2100.
Definition cold_account_access_cost : Z := 2600.
Definition warm_storage_read_cost : Z := 100.
Definition additional_cold_account_access_cost : Z :=
  cold_account_access_cost - warm_storage_read_cost.

(** [std::numeric_limits<uint32_t>::max()]. *)
Definition max_buffer_size : Z := 2 ^ 32 - 1.

Definition word_size : Z := 32.

Definition num_words (size_in_bytes : Z) : Z :=
  to_i64 (u64 (size_in_bytes + (word_size - 1)) / word_size).

Module Instr.
Section Instructions.
Context {E : Env}.
Local Open Scope u256_scope.
Local Open Scope Z_scope.

Definition u256_0 : uint256 := u256_of_u64 0.

(** *** Memory requirements *)

(** [3 * words + words * words / 512] in [int64_t]. *)
Definition memory_cost (words : Z) : Instr Z :=
  linear ← int64 (3 * words);
  square ← int64 (words * words);
  int64 (linear + Z.quot square 512).

Definition grow_memory (new_size : Z) : Instr bool :=
  let new_words := num_words new_size in
  current_size ← asks (fun s => Memory.m_size (memory s));
  let current_words := to_i64 (current_size / word_size) in
  new_cost ← memory_cost new_words;
  current_cost ← memory_cost current_words;
  cost ← int64 (new_cost - current_cost);
  negative ← sub_gas cost;
  if negative : bool then mret false
  else
    bytes_needed ← int64 (new_words * word_size);
    memory_grow (u64 bytes_needed);;
    mret true.

Definition check_memory_u64 (offset : uint256) (size : Z) : Instr bool :=
  if negb (Z.lor (Z.lor (u256_word offset 3) (u256_word offset 2)) (u256_word offset 1) =? 0)
     || (max_buffer_size <? u256_word offset 0)
  then mret false
  else
    let new_size := u64 (u256_to_u64 offset + size) in
    current_size ← asks (fun s => Memory.m_size (memory s));
    if current_size <? new_size then grow_memory new_size else mret true.

Definition check_memory (offset size : uint256) : Instr bool :=
  if u256_eqb size u256_0 then mret true
  else if negb (Z.lor (Z.lor (u256_word size 3) (u256_word size 2)) (u256_word size 1) =? 0)
          || (max_buffer_size <? u256_word size 0)
  then mret false
  else check_memory_u64 offset (u256_to_u64 size).

(** [if (!check_memory(state, offset, size)) return IVMC_OUT_OF_GAS;] *)
Definition require_memory_u64 (offset : uint256) (size : Z) : Instr unit :=
  ok ← check_memory_u64 offset size;
  if ok : bool then mret tt else return_status IVMC_OUT_OF_GAS.

Definition require_memory (offset size : uint256) : Instr unit :=
  ok ← check_memory offset size;
  if ok : bool then mret tt else return_status IVMC_OUT_OF_GAS.

Definition stop : Instr ivmc_status_code := mret IVMC_SUCCESS.

(** *** Arithmetic *)
Definition add : Instr unit :=
  y ← stack_pop; x ← stack_top; set_top (u256_add x y).

Definition mul : Instr unit :=
  y ← stack_pop; x ← stack_top; set_top (u256_mul x y).

Definition sub : Instr unit :=
  x ← stack_at 0; y ← stack_at 1;
  stack_set 1 (u256_sub x y);; stack_pop;; mret tt.

Definition div : Instr unit :=
  v ← stack_at 1; x ← stack_at 0;
  stack_set 1 (if negb (u256_eqb v u256_0) then u256_udiv x v else u256_0);;
  stack_pop;; mret tt.

Definition sdiv : Instr unit :=
  v ← stack_at 1; x ← stack_at 0;
  stack_set 1 (if negb (u256_eqb v u256_0) then fst (intx_sdivrem x v) else u256_0);;
  stack_pop;; mret tt.

Definition mod_ : Instr unit :=
  v ← stack_at 1; x ← stack_at 0;
  stack_set 1 (if negb (u256_eqb v u256_0) then u256_umod x v else u256_0);;
  stack_pop;; mret tt.

Definition smod : Instr unit :=
  v ← stack_at 1; x ← stack_at 0;
  stack_set 1 (if negb (u256_eqb v u256_0) then snd (intx_sdivrem x v) else u256_0);;
  stack_pop;; mret tt.

Definition addmod : Instr unit :=
  x ← stack_pop; y ← stack_pop; m ← stack_top;
  set_top (if negb (u256_eqb m u256_0) then intx_addmod x y m else u256_0).

Definition mulmod : Instr unit :=
  x ← stack_pop; y ← stack_pop; m ← stack_top;
  set_top (if negb (u256_eqb m u256_0) then intx_mulmod x y m else u256_0).

Definition exp : Instr ivmc_status_code :=
  base ← stack_pop; exponent ← stack_top;
  let exponent_significant_bytes := intx_count_significant_bytes exponent in
  r ← asks rev;
  let exponent_cost := if rev_geb r IVMC_SPURIOUS_DRAGON then 50 else 10 in
  additional_cost ← int32 (exponent_significant_bytes * exponent_cost);
  charge additional_cost;;
  set_top (intx_exp base exponent);;
  mret IVMC_SUCCESS.

Definition signextend : Instr unit :=
  ext ← stack_pop; x ← stack_top;
  if u256_ltb ext (u256_of_u64 31) then
    let sign_bit := u256_to_u64 ext * 8 + 7 in
    let sign_mask := u256_shl_u64 (u256_of_u64 1) sign_bit in
    let value_mask := u256_sub sign_mask (u256_of_u64 1) in
    let is_neg := negb (u256_eqb (u256_and x sign_mask) u256_0) in
    set_top (if is_neg then u256_or x (u256_not value_mask) else u256_and x value_mask)
  else mret tt.

(** *** Comparison and bit operations *)
Definition lt_ : Instr unit :=
  x ← stack_pop; y ← stack_at 0; stack_set 0 (u256_of_bool (u256_ltb x y)).

Definition gt_ : Instr unit :=
  x ← stack_pop; y ← stack_at 0; stack_set 0 (u256_of_bool (u256_ltb y x)).

Definition slt : Instr unit :=
  x ← stack_pop; y ← stack_at 0; stack_set 0 (u256_of_bool (intx_slt x y)).

Definition sgt : Instr unit :=
  x ← stack_pop; y ← stack_at 0; stack_set 0 (u256_of_bool (intx_slt y x)).

Definition eq_ : Instr unit :=
  x ← stack_at 0; y ← stack_at 1;
  stack_set 1 (u256_of_bool (u256_eqb x y));; stack_pop;; mret tt.

Definition iszero : Instr unit :=
  x ← stack_top; set_top (u256_of_bool (u256_eqb x u256_0)).

Definition and_ : Instr unit :=
  y ← stack_pop; x ← stack_top; set_top (u256_and x y).

Definition or_ : Instr unit :=
  y ← stack_pop; x ← stack_top; set_top (u256_or x y).

Definition xor_ : Instr unit :=
  y ← stack_pop; x ← stack_top; set_top (u256_xor x y).

Definition not_ : Instr unit :=
  x ← stack_top; set_top (u256_not x).

Definition byte_ : Instr unit :=
  n ← stack_pop; x ← stack_top;
  let n_valid := u256_ltb n (u256_of_u64 32) in
  let byte_mask := if n_valid then 0xff else 0 in
  let index := 31 - (u256_word n 0) mod 32 in
  let word := u256_word x (index / 8) in
  let byte_index := index mod 8 in
  let byte := Z.land (Z.shiftr word (byte_index * 8)) byte_mask in
  set_top (u256_of_u64 byte).

Definition shl : Instr unit :=
  n ← stack_pop; x ← stack_top; set_top (u256_shl x n).

Definition shr : Instr unit :=
  n ← stack_pop; x ← stack_top; set_top (u256_shr x n).

Definition sar : Instr unit :=
  y ← stack_pop; x ← stack_top;
  let is_neg := to_i64 (u256_word x 3) <? 0 in
  let sign_mask := if is_neg then u256_not u256_0 else u256_0 in
  let mask_shift :=
    if u256_ltb y (u256_of_u64 256) then u64 (256 - u256_word y 0) else 0 in
  set_top (u256_or (u256_shr x y) (u256_shl_u64 sign_mask mask_shift)).

Definition keccak256 : Instr ivmc_status_code :=
  index ← stack_pop; size ← stack_top;
  require_memory index size;;
  let i := u256_to_u64 index in
  let s := u256_to_u64 size in
  let w := num_words s in
  cost ← int64 (w * 6);
  charge cost;;
  data ← (if negb (s =? 0) then memory_read i s else mret []);
  set_top (be_load (ethash_keccak256 data));;
  mret IVMC_SUCCESS.

(** *** Environment *)

(** [state.rev >= IVMC_BERLIN && state.host.access_account(addr) == IVMC_ACCESS_COLD]. *)
Definition cold_account (addr : address) : Instr bool :=
  r ← asks rev;
  if rev_geb r IVMC_BERLIN then
    a ← host_do (access_account addr);
    mret (bool_decide (a = IVMC_ACCESS_COLD))
  else mret false.

(** The surcharge of the account-reading instructions. *)
Definition charge_cold_account (addr : address) (cost : Z) : Instr unit :=
  cold ← cold_account addr;
  if cold : bool then charge cost else mret tt.

Definition address_ : Instr unit :=
  m ← asks msg; stack_push (be_load (msg_recipient m)).

Definition balance : Instr ivmc_status_code :=
  x ← stack_top;
  let addr := be_trunc_address x in
  charge_cold_account addr additional_cold_account_access_cost;;
  b ← host_do (get_balance addr);
  set_top (be_load b);;
  mret IVMC_SUCCESS.

Definition origin : Instr unit :=
  c ← host_do get_tx_context; stack_push (be_load (tx_origin c)).

Definition caller : Instr unit :=
  m ← asks msg; stack_push (be_load (msg_sender m)).

Definition callvalue : Instr unit :=
  m ← asks msg; stack_push (be_load (msg_value m)).

Definition calldataload : Instr unit :=
  index ← stack_top;
  m ← asks msg;
  let input_size := msg_input_size m in
  if u256_ltb (u256_of_u64 input_size) index then set_top u256_0
  else
    let begin := u256_to_u64 index in
    let end_ := Z.min (u64 (begin + 32)) input_size in
    copied ← assume_some (slice (msg_input_data m) begin (u64 (end_ - begin)));
    data ← assume_some (overwrite (replicate 32 Byte.x00) 0 copied);
    set_top (be_load data).

Definition calldatasize : Instr unit :=
  m ← asks msg; stack_push (u256_of_u64 (msg_input_size m)).

(** The copy and the clearing that end CALLDATACOPY and CODECOPY. *)
Definition copy_to_memory (source : list byte) (dst src copy_size s : Z) : Instr unit :=
  (if 0 <? copy_size then
     bs ← assume_some (slice source src copy_size);
     memory_write dst bs
   else mret tt);;
  (if 0 <? u64 (s - copy_size) then
     memory_write (u64 (dst + copy_size)) (replicate (Z.to_nat (u64 (s - copy_size))) Byte.x00)
   else mret tt).

Definition calldatacopy : Instr ivmc_status_code :=
  mem_index ← stack_pop; input_index ← stack_pop; size ← stack_pop;
  require_memory mem_index size;;
  m ← asks msg;
  let input_size := msg_input_size m in
  let dst := u256_to_u64 mem_index in
  let src := if u256_ltb (u256_of_u64 input_size) input_index
             then input_size else u256_to_u64 input_index in
  let s := u256_to_u64 size in
  let copy_size := Z.min s (u64 (input_size - src)) in
  copy_cost ← int64 (num_words s * 3);
  charge copy_cost;;
  copy_to_memory (msg_input_data m) dst src copy_size s;;
  mret IVMC_SUCCESS.

Definition codesize : Instr unit :=
  c ← asks code; stack_push (u256_of_u64 (view_size c)).

Definition codecopy : Instr ivmc_status_code :=
  mem_index ← stack_pop; input_index ← stack_pop; size ← stack_pop;
  require_memory mem_index size;;
  c ← asks code;
  let code_size := view_size c in
  let dst := u256_to_u64 mem_index in
  let src := if u256_ltb (u256_of_u64 code_size) input_index
             then code_size else u256_to_u64 input_index in
  let s := u256_to_u64 size in
  let copy_size := Z.min s (u64 (code_size - src)) in
  copy_cost ← int64 (num_words s * 3);
  charge copy_cost;;
  copy_to_memory (view_data c) dst src copy_size s;;
  mret IVMC_SUCCESS.

Definition gasprice : Instr unit :=
  c ← host_do get_tx_context; stack_push (be_load (tx_gas_price c)).

Definition basefee : Instr unit :=
  c ← host_do get_tx_context; stack_push (be_load (block_base_fee c)).

Definition extcodesize : Instr ivmc_status_code :=
  x ← stack_top;
  let addr := be_trunc_address x in
  charge_cold_account addr additional_cold_account_access_cost;;
  n ← host_do (get_code_size addr);
  set_top (u256_of_u64 n);;
  mret IVMC_SUCCESS.

Definition extcodecopy : Instr ivmc_status_code :=
  a ← stack_pop;
  let addr := be_trunc_address a in
  mem_index ← stack_pop; input_index ← stack_pop; size ← stack_pop;
  require_memory mem_index size;;
  let s := u256_to_u64 size in
  copy_cost ← int64 (num_words s * 3);
  charge copy_cost;;
  charge_cold_account addr additional_cold_account_access_cost;;
  (if 0 <? s then
     let src := if u256_ltb (u256_of_u64 max_buffer_size) input_index
                then max_buffer_size else u256_to_u64 input_index in
     let dst := u256_to_u64 mem_index in
     bs ← host_do (copy_code addr src s);
     memory_write dst bs;;
     let num_bytes_copied := Z.of_nat (length bs) in
     let num_bytes_to_clear := u64 (s - num_bytes_copied) in
     if 0 <? num_bytes_to_clear then
       memory_write (u64 (dst + num_bytes_copied))
         (replicate (Z.to_nat num_bytes_to_clear) Byte.x00)
     else mret tt
   else mret tt);;
  mret IVMC_SUCCESS.

Definition returndatasize : Instr unit :=
  d ← asks return_data; stack_push (u256_of_u64 (Z.of_nat (length d))).

Definition returndatacopy : Instr ivmc_status_code :=
  mem_index ← stack_pop; input_index ← stack_pop; size ← stack_pop;
  require_memory mem_index size;;
  let dst := u256_to_u64 mem_index in
  let s := u256_to_u64 size in
  d ← asks return_data;
  let data_size := Z.of_nat (length d) in
  if u256_ltb (u256_of_u64 data_size) input_index
  then return_status IVMC_INVALID_MEMORY_ACCESS
  else
    let src := u256_to_u64 input_index in
    if data_size <? u64 (src + s) then return_status IVMC_INVALID_MEMORY_ACCESS
    else
      copy_cost ← int64 (num_words s * 3);
      charge copy_cost;;
      (if 0 <? s then
         bs ← assume_some (slice d src s);
         memory_write dst bs
       else mret tt);;
      mret IVMC_SUCCESS.

Definition extcodehash : Instr ivmc_status_code :=
  x ← stack_top;
  let addr := be_trunc_address x in
  charge_cold_account addr additional_cold_account_access_cost;;
  h ← host_do (get_code_hash addr);
  set_top (be_load h);;
  mret IVMC_SUCCESS.

(** *** Block information *)
Definition blockhash : Instr unit :=
  number ← stack_top;
  c ← host_do get_tx_context;
  let upper_bound := block_number c in
  d ← int64 (upper_bound - 256);
  let lower_bound := Z.max d 0 in
  let n := to_i64 (u256_to_u64 number) in
  header ← (if u256_ltb number (u256_of_u64 (u64 upper_bound)) && (lower_bound <=? n)
            then host_do (get_block_hash n) else mret bytes32_zero);
  set_top (be_load header).

Definition coinbase : Instr unit :=
  c ← host_do get_tx_context; stack_push (be_load (block_coinbase c)).

Definition timestamp : Instr unit :=
  c ← host_do get_tx_context; stack_push (u256_of_u64 (u64 (block_timestamp c))).

Definition number : Instr unit :=
  c ← host_do get_tx_context; stack_push (u256_of_u64 (u64 (block_number c))).

Definition difficulty : Instr unit :=
  c ← host_do get_tx_context; stack_push (be_load (block_difficulty c)).

Definition gaslimit : Instr unit :=
  c ← host_do get_tx_context; stack_push (u256_of_u64 (u64 (block_gas_limit c))).

Definition chainid : Instr unit :=
  c ← host_do get_tx_context; stack_push (be_load (tx_chain_id c)).

Definition selfbalance : Instr unit :=
  m ← asks msg;
  b ← host_do (get_balance (msg_recipient m));
  stack_push (be_load b).

(** *** Stack, memory and storage *)
Definition pop : Instr unit := stack_pop;; mret tt.

Definition mload : Instr ivmc_status_code :=
  index ← stack_top;
  require_memory_u64 index 32;;
  bs ← memory_read (u256_to_u64 index) 32;
  set_top (be_load bs);;
  mret IVMC_SUCCESS.

Definition mstore : Instr ivmc_status_code :=
  index ← stack_pop; value ← stack_pop;
  require_memory_u64 index 32;;
  memory_write (u256_to_u64 index) (be_store value);;
  mret IVMC_SUCCESS.

Definition mstore8 : Instr ivmc_status_code :=
  index ← stack_pop; value ← stack_pop;
  require_memory_u64 index 1;;
  memory_write (u256_to_u64 index) [byte_of_Z (u256_to_u64 value)];;
  mret IVMC_SUCCESS.

(** [state.rev >= IVMC_BERLIN && access_storage(recipient, key) == IVMC_ACCESS_COLD]. *)
Definition cold_storage (key : bytes32) : Instr bool :=
  r ← asks rev;
  m ← asks msg;
  if rev_geb r IVMC_BERLIN then
    a ← host_do (access_storage (msg_recipient m) key);
    mret (bool_decide (a = IVMC_ACCESS_COLD))
  else mret false.

Definition sload : Instr ivmc_status_code :=
  x ← stack_top;
  let key := be_store x in
  cold ← cold_storage key;
  (if cold : bool then charge (cold_sload_cost - warm_storage_read_cost) else mret tt);;
  m ← asks msg;
  v ← host_do (get_storage (msg_recipient m) key);
  set_top (be_load v);;
  mret IVMC_SUCCESS.

(** The [switch (status)] of SSTORE; [cost] is the cold surcharge. *)
Definition sstore_cost (r : ivmc_revision) (st : ivmc_storage_status) (cost : Z) : Z :=
  match st with
  | IVMC_STORAGE_UNCHANGED | IVMC_STORAGE_MODIFIED_AGAIN =>
      if rev_geb r IVMC_BERLIN then cost + warm_storage_read_cost
      else if bool_decide (r = IVMC_ISTANBUL) then 800
      else if bool_decide (r = IVMC_CONSTANTINOPLE) then 200
      else 5000
  | IVMC_STORAGE_MODIFIED | IVMC_STORAGE_DELETED =>
      if rev_geb r IVMC_BERLIN then cost + (5000 - cold_sload_cost) else 5000
  | IVMC_STORAGE_ADDED => cost + 20000
  end.

Definition is_static (m : ivmc_message) : bool := negb (Z.land (msg_flags m) IVMC_STATIC =? 0).

Definition sstore : Instr ivmc_status_code :=
  m ← asks msg;
  r ← asks rev;
  g ← asks gas_left;
  if is_static m then return_status IVMC_STATIC_MODE_VIOLATION
  else if rev_geb r IVMC_ISTANBUL && (g <=? 2300) then return_status IVMC_OUT_OF_GAS
  else
    k ← stack_pop;
    v ← stack_pop;
    let key := be_store k in
    let value := be_store v in
    cold ← cold_storage key;
    let cost := if cold : bool then cold_sload_cost else 0 in
    st ← host_do (set_storage (msg_recipient m) key value);
    charge (sstore_cost r st cost);;
    mret IVMC_SUCCESS.

(** *** Control flow *)
Definition jump_impl (dst : uint256) : Instr (option Z) :=
  p ← asks analysis;
  match p with
  | analysis_baseline a =>
      let map := jumpdest_map a in
      if negb (u256_ltb dst (u256_of_u64 (Z.of_nat (length map))))
      then modify (with_status IVMC_BAD_JUMP_DESTINATION);; mret None
      else
        valid ← assume_some (nth_Z map (u256_to_u64 dst));
        if negb valid
        then modify (with_status IVMC_BAD_JUMP_DESTINATION);; mret None
        else mret (Some (u256_to_u64 dst))
  | _ => undefined_behaviour
  end.

Definition jump (_pc : Z) : Instr (option Z) :=
  dst ← stack_pop; jump_impl dst.

Definition jumpi (pc : Z) : Instr (option Z) :=
  dst ← stack_pop; cond ← stack_pop;
  if u256_to_bool cond then jump_impl dst else mret (Some (pc + 1)).

Definition pc (pos : Z) : Instr (option Z) :=
  stack_push (u256_of_u64 (u64 pos));;
  mret (Some (pos + 1)).

Definition msize : Instr unit :=
  n ← asks (fun s => Memory.m_size (memory s)); stack_push (u256_of_u64 n).

Definition gas : Instr unit :=
  g ← asks gas_left; stack_push (u256_of_u64 (u64 g)).

Definition jumpdest : Instr unit := mret tt.

Definition push (len : Z) (pos : Z) : Instr (option Z) :=
  let data_pos := pos + 1 in
  c ← asks code;
  buffer ← assume_some (slice (view_data c) data_pos len);
  stack_push (be_load buffer);;
  mret (Some (pos + (len + 1))).

Definition dup (n : Z) : Instr unit :=
  x ← stack_at (n - 1); stack_push x.

Definition swap (n : Z) : Instr unit :=
  x ← stack_at 0; y ← stack_at n;
  stack_set 0 y;; stack_set n x.

(** *** Logging and halting *)
Fixpoint pop_topics (n : nat) : Instr (list bytes32) :=
  match n with
  | O => mret []
  | S n' =>
      t ← stack_pop;
      ts ← pop_topics n';
      mret (be_store t :: ts)
  end.

Definition log (num_topics : Z) : Instr ivmc_status_code :=
  m ← asks msg;
  if is_static m then return_status IVMC_STATIC_MODE_VIOLATION
  else
    offset ← stack_pop; size ← stack_pop;
    require_memory offset size;;
    let o := u256_to_u64 offset in
    let s := u256_to_u64 size in
    cost ← int64 (to_i64 s * 8);
    charge cost;;
    topics ← pop_topics (Z.to_nat num_topics);
    data ← (if negb (s =? 0) then memory_read o s else mret []);
    host_run (emit_log (msg_recipient m) data topics);;
    mret IVMC_SUCCESS.

Definition return_ (status_code : ivmc_status_code) : Instr ivmc_status_code :=
  offset ← stack_at 0; size ← stack_at 1;
  require_memory offset size;;
  modify (with_output (u256_to_u64 offset) (u256_to_u64 size));;
  mret status_code.

Definition invalid : Instr ivmc_status_code := mret IVMC_INVALID_INSTRUCTION.

Definition selfdestruct : Instr ivmc_status_code :=
  m ← asks msg;
  r ← asks rev;
  if is_static m then return_status IVMC_STATIC_MODE_VIOLATION
  else
    x ← stack_at 0;
    let beneficiary := be_trunc_address x in
    charge_cold_account beneficiary cold_account_access_cost;;
    (if rev_geb r IVMC_TANGERINE_WHISTLE then
       sends_value ←
         (if bool_decide (r = IVMC_TANGERINE_WHISTLE) then mret true
          else
            b ← host_do (get_balance (msg_recipient m));
            mret (bytes32_to_bool b));
       if sends_value : bool then
         exists_ ← host_do (account_exists beneficiary);
         if negb exists_ then charge 25000 else mret tt
       else mret tt
     else mret tt);;
    host_run (host_selfdestruct (msg_recipient m) beneficiary);;
    mret IVMC_SUCCESS.
End Instructions.
End Instr.
