(* ===== verification/InstructionsCalls.v ===== *)
(** * Calls and contract creation (lib/ivmone/instructions_calls.cpp)

    [call] and [create] are the two function templates; their template
    parameters are arguments of the definitions.  The [ivmc_message] the
    source fills field by field is built at the point of the host call from
    the same values. *)
From stdpp Require Import base list tactics option.
From S2P Require Import Prelude Intx Ivmc Code ExecutionState Instructions.

Module Calls.
Import Instr.
Section Calls.
Context {E : Env}.

(** [gas] clamped to the largest [int64_t]. *)
Definition clamp_gas (gas : uint256) : Z :=
  if u256_ltb gas (u256_of_u64 i64_max) then to_i64 (u256_to_u64 gas) else i64_max.

(** [return_data.assign(result.output_data, result.output_size)]. *)
Definition set_return_data (d : list byte) : Instr unit := modify (with_return_data d).

(** The cost of the transfer and of a new account; [Static] calls with value
    are refused here. *)
Definition call_cost (kind : ivmc_call_kind) (has_value : bool) (dst : address) : Instr Z :=
  m ← asks msg;
  r ← asks rev;
  let cost := if has_value then 9000 else 0 in
  if bool_decide (kind = IVMC_CALL) then
    if has_value && is_static m then return_status IVMC_STATIC_MODE_VIOLATION
    else
      exists_ ← (if has_value || negb (rev_geb r IVMC_SPURIOUS_DRAGON)
                 then host_do (account_exists dst) else mret true);
      mret (if exists_ : bool then cost else cost + 25000)
  else mret cost.

(** The part of the requested gas that is available: all but one 64th. *)
Definition limit_gas (gas : uint256) : Instr Z :=
  g ← asks gas_left;
  r ← asks rev;
  let msg_gas := clamp_gas gas in
  if rev_geb r IVMC_TANGERINE_WHISTLE then
    available ← int64 (g - Z.quot g 64);
    mret (Z.min msg_gas available)
  else if g <? msg_gas then return_status IVMC_OUT_OF_GAS
  else mret msg_gas.

(** The stipend of a call with value. *)
Definition add_stipend (has_value : bool) (msg_gas : Z) : Instr Z :=
  if has_value then
    msg_gas ← int64 (msg_gas + 2300);
    add_gas 2300;;
    mret msg_gas
  else mret msg_gas.

(** [value != 0 && load(host.get_balance(recipient)) < value]. *)
Definition too_poor (value : uint256) : Instr bool :=
  m ← asks msg;
  if negb (u256_eqb value u256_0) then
    b ← host_do (get_balance (msg_recipient m));
    mret (u256_ltb (be_load b) value)
  else mret false.

(** [state.gas_left -= msg.gas - result.gas_left]. *)
Definition pay_gas_used (msg_gas result_gas_left : Z) : Instr unit :=
  gas_used ← int64 (msg_gas - result_gas_left);
  sub_gas gas_used;;
  mret tt.

Definition call (kind : ivmc_call_kind) (static : bool) : Instr ivmc_status_code :=
  gas ← stack_pop;
  d ← stack_pop;
  let dst := be_trunc_address d in
  value ← (if static || bool_decide (kind = IVMC_DELEGATECALL)
           then mret u256_0 else stack_pop);
  let has_value := negb (u256_eqb value u256_0) in
  input_offset ← stack_pop;
  input_size ← stack_pop;
  output_offset ← stack_pop;
  output_size ← stack_pop;
  stack_push u256_0;;                                 (* Assume failure. *)
  charge_cold_account dst additional_cold_account_access_cost;;
  require_memory input_offset input_size;;
  require_memory output_offset output_size;;
  m ← asks msg;
  depth ← int32 (msg_depth m + 1);
  let flags := if static : bool then IVMC_STATIC else msg_flags m in
  let recipient := if bool_decide (kind = IVMC_CALL) then dst else msg_recipient m in
  let sender := if bool_decide (kind = IVMC_DELEGATECALL) then msg_sender m
                else msg_recipient m in
  let value_be := if bool_decide (kind = IVMC_DELEGATECALL) then msg_value m
                  else be_store value in
  input ← (if 0 <? u256_to_u64 input_size
           then memory_read (u256_to_u64 input_offset) (u256_to_u64 input_size)
           else mret []);
  cost ← call_cost kind has_value dst;
  charge cost;;
  msg_gas ← limit_gas gas;
  msg_gas ← add_stipend has_value msg_gas;
  set_return_data [];;
  if 1024 <=? msg_depth m then mret IVMC_SUCCESS
  else
    refused ← too_poor value;
    if refused : bool then mret IVMC_SUCCESS
    else
      result ← host_do (host_call
        (mk_message kind flags depth msg_gas recipient sender input value_be bytes32_zero dst));
      set_return_data (res_output_data result);;
      set_top (u256_of_bool (bool_decide (res_status_code result = IVMC_SUCCESS)));;
      let copy_size := Z.min (u256_to_u64 output_size) (res_output_size result) in
      (if 0 <? copy_size then
         bs ← assume_some (slice (res_output_data result) 0 copy_size);
         memory_write (u256_to_u64 output_offset) bs
       else mret tt);;
      pay_gas_used msg_gas (res_gas_left result);;
      mret IVMC_SUCCESS.

(** [msg.gas] of a creation. *)
Definition create_gas : Instr Z :=
  g ← asks gas_left;
  r ← asks rev;
  if rev_geb r IVMC_TANGERINE_WHISTLE then int64 (g - Z.quot g 64) else mret g.

Definition create (kind : ivmc_call_kind) : Instr ivmc_status_code :=
  m ← asks msg;
  if is_static m then return_status IVMC_STATIC_MODE_VIOLATION
  else
    endowment ← stack_pop;
    init_code_offset ← stack_pop;
    init_code_size ← stack_pop;
    require_memory init_code_offset init_code_size;;
    salt ← (if bool_decide (kind = IVMC_CREATE2) then
              salt ← stack_pop;
              salt_cost ← int64 (num_words (u256_to_u64 init_code_size) * 6);
              charge salt_cost;;
              mret salt
            else mret u256_0);
    stack_push u256_0;;
    set_return_data [];;
    if 1024 <=? msg_depth m then mret IVMC_SUCCESS
    else
      refused ← too_poor endowment;
      if refused : bool then mret IVMC_SUCCESS
      else
        msg_gas ← create_gas;
        input ← (if 0 <? u256_to_u64 init_code_size
                 then memory_read (u256_to_u64 init_code_offset) (u256_to_u64 init_code_size)
                 else mret []);
        depth ← int32 (msg_depth m + 1);
        result ← host_do (host_call
          (mk_message kind 0 depth msg_gas address_zero (msg_recipient m) input
             (be_store endowment) (be_store salt) address_zero));
        pay_gas_used msg_gas (res_gas_left result);;
        set_return_data (res_output_data result);;
        (if bool_decide (res_status_code result = IVMC_SUCCESS)
         then set_top (be_load (res_create_address result))
         else mret tt);;
        mret IVMC_SUCCESS.
End Calls.
End Calls.
