(* ===== verification/Traits.v ===== *)
(** * Instruction traits and gas costs (lib/ivmone/instruction_traits.hpp)

    The compile-time tables are built the way the source builds them: a
    256-entry array, filled by assignments in order, the row of a revision
    starting as a copy of the row before it. *)
From stdpp Require Import base list tactics option strings.
From S2P Require Import Prelude Intx Ivmc Code ExecutionState Instructions.

(** The special gas cost value marking an EVM instruction as "undefined". *)
Definition undefined : Z := -1.

(** [table\[op\] = v] on an array. *)
Definition assign {A} (row : list A) (entry : Z * A) : list A :=
  <[Z.to_nat (fst entry) := snd entry]> row.

Definition assign_all {A} (entries : list (Z * A)) (row : list A) : list A :=
  fold_left assign entries row.

(** [for (auto op = from; op <= to; ++op) table\[op\] = f(op)]. *)
Definition opcode_range (from to : Z) : list Z :=
  map (fun i => from + Z.of_nat i) (seq 0 (Z.to_nat (to - from + 1))).

Definition assign_range {A} (from to : Z) (f : Z -> A) (row : list A) : list A :=
  assign_all (map (fun op => (op, f op)) (opcode_range from to)) row.

(** ** Gas costs *)
Definition frontier_costs_1 : list (Z * Z) :=
  [
     (OP_STOP, 0); (OP_ADD, 3); (OP_MUL, 5); (OP_SUB, 3); (OP_DIV, 5); (OP_SDIV, 5); (OP_MOD, 5);
     (OP_SMOD, 5); (OP_ADDMOD, 8); (OP_MULMOD, 8); (OP_EXP, 10); (OP_SIGNEXTEND, 5); (OP_LT, 3);
     (OP_GT, 3); (OP_SLT, 3); (OP_SGT, 3); (OP_EQ, 3); (OP_ISZERO, 3); (OP_AND, 3); (OP_OR, 3);
     (OP_XOR, 3); (OP_NOT, 3); (OP_BYTE, 3); (OP_KECCAK256, 30); (OP_ADDRESS, 2);
     (OP_BALANCE, 20); (OP_ORIGIN, 2); (OP_CALLER, 2); (OP_CALLVALUE, 2); (OP_CALLDATALOAD, 3);
     (OP_CALLDATASIZE, 2); (OP_CALLDATACOPY, 3); (OP_CODESIZE, 2); (OP_CODECOPY, 3);
     (OP_GASPRICE, 2); (OP_EXTCODESIZE, 20); (OP_EXTCODECOPY, 20); (OP_BLOCKHASH, 20);
     (OP_COINBASE, 2); (OP_TIMESTAMP, 2); (OP_NUMBER, 2); (OP_DIFFICULTY, 2); (OP_GASLIMIT, 2);
     (OP_POP, 2); (OP_MLOAD, 3); (OP_MSTORE, 3); (OP_MSTORE8, 3); (OP_SLOAD, 50); (OP_SSTORE, 0);
     (OP_JUMP, 8); (OP_JUMPI, 10); (OP_PC, 2); (OP_MSIZE, 2); (OP_GAS, 2); (OP_JUMPDEST, 1)
  ].

Definition frontier_costs_2 : list (Z * Z) :=
  [
     (OP_CREATE, 32000); (OP_CALL, 40); (OP_CALLCODE, 40); (OP_RETURN, 0); (OP_INVALID, 0);
     (OP_SELFDESTRUCT, 0)
  ].

Definition gas_costs_frontier : list Z :=
  let row := replicate 256 undefined in
  let row := assign_all frontier_costs_1 row in
  let row := assign_range OP_PUSH1 OP_PUSH32 (fun _ => 3) row in
  let row := assign_range OP_DUP1 OP_DUP16 (fun _ => 3) row in
  let row := assign_range OP_SWAP1 OP_SWAP16 (fun _ => 3) row in
  let row := assign_range OP_LOG0 OP_LOG4 (fun op => (op - OP_LOG0 + 1) * 375) row in
  assign_all frontier_costs_2 row.

Definition gas_costs_homestead : list Z :=
  assign_all
    [
      (OP_DELEGATECALL, 40)
    ] gas_costs_frontier.

Definition gas_costs_tangerine_whistle : list Z :=
  assign_all
    [
      (OP_BALANCE, 400); (OP_EXTCODESIZE, 700); (OP_EXTCODECOPY, 700); (OP_SLOAD, 200);
      (OP_CALL, 700); (OP_CALLCODE, 700); (OP_DELEGATECALL, 700); (OP_SELFDESTRUCT, 5000)
    ] gas_costs_homestead.

Definition gas_costs_spurious_dragon : list Z := gas_costs_tangerine_whistle.

Definition gas_costs_byzantium : list Z :=
  assign_all
    [
      (OP_RETURNDATASIZE, 2); (OP_RETURNDATACOPY, 3); (OP_STATICCALL, 700); (OP_REVERT, 0)
    ] gas_costs_spurious_dragon.

Definition gas_costs_constantinople : list Z :=
  assign_all
    [
      (OP_SHL, 3); (OP_SHR, 3); (OP_SAR, 3); (OP_EXTCODEHASH, 400); (OP_CREATE2, 32000)
    ] gas_costs_byzantium.

Definition gas_costs_petersburg : list Z := gas_costs_constantinople.

Definition gas_costs_istanbul : list Z :=
  assign_all
    [
      (OP_BALANCE, 700); (OP_CHAINID, 2); (OP_EXTCODEHASH, 700); (OP_SELFBALANCE, 5);
      (OP_SLOAD, 800)
    ] gas_costs_petersburg.

Definition gas_costs_berlin : list Z :=
  assign_all
    [
      (OP_EXTCODESIZE, warm_storage_read_cost); (OP_EXTCODECOPY, warm_storage_read_cost);
      (OP_EXTCODEHASH, warm_storage_read_cost); (OP_BALANCE, warm_storage_read_cost);
      (OP_CALL, warm_storage_read_cost); (OP_CALLCODE, warm_storage_read_cost);
      (OP_DELEGATECALL, warm_storage_read_cost); (OP_STATICCALL, warm_storage_read_cost);
      (OP_SLOAD, warm_storage_read_cost)
    ] gas_costs_istanbul.

Definition gas_costs_london : list Z :=
  assign_all
    [
      (OP_BASEFEE, 2)
    ] gas_costs_berlin.

Definition gas_costs_shanghai : list Z := gas_costs_london.

Definition gas_cost_row (r : ivmc_revision) : list Z :=
  match r with
  | IVMC_FRONTIER => gas_costs_frontier
  | IVMC_HOMESTEAD => gas_costs_homestead
  | IVMC_TANGERINE_WHISTLE => gas_costs_tangerine_whistle
  | IVMC_SPURIOUS_DRAGON => gas_costs_spurious_dragon
  | IVMC_BYZANTIUM => gas_costs_byzantium
  | IVMC_CONSTANTINOPLE => gas_costs_constantinople
  | IVMC_PETERSBURG => gas_costs_petersburg
  | IVMC_ISTANBUL => gas_costs_istanbul
  | IVMC_BERLIN => gas_costs_berlin
  | IVMC_LONDON => gas_costs_london
  | IVMC_SHANGHAI => gas_costs_shanghai
  end.

(** [instr::gas_costs\[r\]\[op\]]. *)
Definition gas_costs (r : ivmc_revision) (op : Z) : Z :=
  nth (Z.to_nat op) (gas_cost_row r) undefined.

(** ** Traits *)
Record Traits := mk_traits {
  name : option string;
  stack_height_required : Z;
  stack_height_change : Z;
  since : option ivmc_revision
}.

Definition default_traits : Traits := mk_traits None 0 0 None.

Definition traits_arith : list (Z * Traits) :=
  [
    (OP_STOP, mk_traits (Some "STOP"%string) 0 (0) (Some IVMC_FRONTIER));
    (OP_ADD, mk_traits (Some "ADD"%string) 2 (-1) (Some IVMC_FRONTIER));
    (OP_MUL, mk_traits (Some "MUL"%string) 2 (-1) (Some IVMC_FRONTIER));
    (OP_SUB, mk_traits (Some "SUB"%string) 2 (-1) (Some IVMC_FRONTIER));
    (OP_DIV, mk_traits (Some "DIV"%string) 2 (-1) (Some IVMC_FRONTIER));
    (OP_SDIV, mk_traits (Some "SDIV"%string) 2 (-1) (Some IVMC_FRONTIER));
    (OP_MOD, mk_traits (Some "MOD"%string) 2 (-1) (Some IVMC_FRONTIER));
    (OP_SMOD, mk_traits (Some "SMOD"%string) 2 (-1) (Some IVMC_FRONTIER));
    (OP_ADDMOD, mk_traits (Some "ADDMOD"%string) 3 (-2) (Some IVMC_FRONTIER));
    (OP_MULMOD, mk_traits (Some "MULMOD"%string) 3 (-2) (Some IVMC_FRONTIER));
    (OP_EXP, mk_traits (Some "EXP"%string) 2 (-1) (Some IVMC_FRONTIER));
    (OP_SIGNEXTEND, mk_traits (Some "SIGNEXTEND"%string) 2 (-1) (Some IVMC_FRONTIER));
    (OP_LT, mk_traits (Some "LT"%string) 2 (-1) (Some IVMC_FRONTIER));
    (OP_GT, mk_traits (Some "GT"%string) 2 (-1) (Some IVMC_FRONTIER));
    (OP_SLT, mk_traits (Some "SLT"%string) 2 (-1) (Some IVMC_FRONTIER));
    (OP_SGT, mk_traits (Some "SGT"%string) 2 (-1) (Some IVMC_FRONTIER));
    (OP_EQ, mk_traits (Some "EQ"%string) 2 (-1) (Some IVMC_FRONTIER));
    (OP_ISZERO, mk_traits (Some "ISZERO"%string) 1 (0) (Some IVMC_FRONTIER));
    (OP_AND, mk_traits (Some "AND"%string) 2 (-1) (Some IVMC_FRONTIER));
    (OP_OR, mk_traits (Some "OR"%string) 2 (-1) (Some IVMC_FRONTIER));
    (OP_XOR, mk_traits (Some "XOR"%string) 2 (-1) (Some IVMC_FRONTIER));
    (OP_NOT, mk_traits (Some "NOT"%string) 1 (0) (Some IVMC_FRONTIER));
    (OP_BYTE, mk_traits (Some "BYTE"%string) 2 (-1) (Some IVMC_FRONTIER));
    (OP_SHL, mk_traits (Some "SHL"%string) 2 (-1) (Some IVMC_CONSTANTINOPLE));
    (OP_SHR, mk_traits (Some "SHR"%string) 2 (-1) (Some IVMC_CONSTANTINOPLE));
    (OP_SAR, mk_traits (Some "SAR"%string) 2 (-1) (Some IVMC_CONSTANTINOPLE))
  ].

Definition traits_env : list (Z * Traits) :=
  [
    (OP_KECCAK256, mk_traits (Some "KECCAK256"%string) 2 (-1) (Some IVMC_FRONTIER));
    (OP_ADDRESS, mk_traits (Some "ADDRESS"%string) 0 (1) (Some IVMC_FRONTIER));
    (OP_BALANCE, mk_traits (Some "BALANCE"%string) 1 (0) (Some IVMC_FRONTIER));
    (OP_ORIGIN, mk_traits (Some "ORIGIN"%string) 0 (1) (Some IVMC_FRONTIER));
    (OP_CALLER, mk_traits (Some "CALLER"%string) 0 (1) (Some IVMC_FRONTIER));
    (OP_CALLVALUE, mk_traits (Some "CALLVALUE"%string) 0 (1) (Some IVMC_FRONTIER));
    (OP_CALLDATALOAD, mk_traits (Some "CALLDATALOAD"%string) 1 (0) (Some IVMC_FRONTIER));
    (OP_CALLDATASIZE, mk_traits (Some "CALLDATASIZE"%string) 0 (1) (Some IVMC_FRONTIER));
    (OP_CALLDATACOPY, mk_traits (Some "CALLDATACOPY"%string) 3 (-3) (Some IVMC_FRONTIER));
    (OP_CODESIZE, mk_traits (Some "CODESIZE"%string) 0 (1) (Some IVMC_FRONTIER));
    (OP_CODECOPY, mk_traits (Some "CODECOPY"%string) 3 (-3) (Some IVMC_FRONTIER));
    (OP_GASPRICE, mk_traits (Some "GASPRICE"%string) 0 (1) (Some IVMC_FRONTIER));
    (OP_EXTCODESIZE, mk_traits (Some "EXTCODESIZE"%string) 1 (0) (Some IVMC_FRONTIER));
    (OP_EXTCODECOPY, mk_traits (Some "EXTCODECOPY"%string) 4 (-4) (Some IVMC_FRONTIER));
    (OP_RETURNDATASIZE, mk_traits (Some "RETURNDATASIZE"%string) 0 (1) (Some IVMC_BYZANTIUM));
    (OP_RETURNDATACOPY, mk_traits (Some "RETURNDATACOPY"%string) 3 (-3) (Some IVMC_BYZANTIUM));
    (OP_EXTCODEHASH, mk_traits (Some "EXTCODEHASH"%string) 1 (0) (Some IVMC_CONSTANTINOPLE));
    (OP_BLOCKHASH, mk_traits (Some "BLOCKHASH"%string) 1 (0) (Some IVMC_FRONTIER));
    (OP_COINBASE, mk_traits (Some "COINBASE"%string) 0 (1) (Some IVMC_FRONTIER));
    (OP_TIMESTAMP, mk_traits (Some "TIMESTAMP"%string) 0 (1) (Some IVMC_FRONTIER));
    (OP_NUMBER, mk_traits (Some "NUMBER"%string) 0 (1) (Some IVMC_FRONTIER));
    (OP_DIFFICULTY, mk_traits (Some "DIFFICULTY"%string) 0 (1) (Some IVMC_FRONTIER));
    (OP_GASLIMIT, mk_traits (Some "GASLIMIT"%string) 0 (1) (Some IVMC_FRONTIER));
    (OP_CHAINID, mk_traits (Some "CHAINID"%string) 0 (1) (Some IVMC_ISTANBUL));
    (OP_SELFBALANCE, mk_traits (Some "SELFBALANCE"%string) 0 (1) (Some IVMC_ISTANBUL));
    (OP_BASEFEE, mk_traits (Some "BASEFEE"%string) 0 (1) (Some IVMC_LONDON))
  ].

Definition traits_flow : list (Z * Traits) :=
  [
    (OP_POP, mk_traits (Some "POP"%string) 1 (-1) (Some IVMC_FRONTIER));
    (OP_MLOAD, mk_traits (Some "MLOAD"%string) 1 (0) (Some IVMC_FRONTIER));
    (OP_MSTORE, mk_traits (Some "MSTORE"%string) 2 (-2) (Some IVMC_FRONTIER));
    (OP_MSTORE8, mk_traits (Some "MSTORE8"%string) 2 (-2) (Some IVMC_FRONTIER));
    (OP_SLOAD, mk_traits (Some "SLOAD"%string) 1 (0) (Some IVMC_FRONTIER));
    (OP_SSTORE, mk_traits (Some "SSTORE"%string) 2 (-2) (Some IVMC_FRONTIER));
    (OP_JUMP, mk_traits (Some "JUMP"%string) 1 (-1) (Some IVMC_FRONTIER));
    (OP_JUMPI, mk_traits (Some "JUMPI"%string) 2 (-2) (Some IVMC_FRONTIER));
    (OP_PC, mk_traits (Some "PC"%string) 0 (1) (Some IVMC_FRONTIER));
    (OP_MSIZE, mk_traits (Some "MSIZE"%string) 0 (1) (Some IVMC_FRONTIER));
    (OP_GAS, mk_traits (Some "GAS"%string) 0 (1) (Some IVMC_FRONTIER));
    (OP_JUMPDEST, mk_traits (Some "JUMPDEST"%string) 0 (0) (Some IVMC_FRONTIER))
  ].

Definition traits_push : list (Z * Traits) :=
  [
    (OP_PUSH1, mk_traits (Some "PUSH1"%string) 0 (1) (Some IVMC_FRONTIER));
    (OP_PUSH1 + 1, mk_traits (Some "PUSH2"%string) 0 (1) (Some IVMC_FRONTIER));
    (OP_PUSH1 + 2, mk_traits (Some "PUSH3"%string) 0 (1) (Some IVMC_FRONTIER));
    (OP_PUSH1 + 3, mk_traits (Some "PUSH4"%string) 0 (1) (Some IVMC_FRONTIER));
    (OP_PUSH1 + 4, mk_traits (Some "PUSH5"%string) 0 (1) (Some IVMC_FRONTIER));
    (OP_PUSH1 + 5, mk_traits (Some "PUSH6"%string) 0 (1) (Some IVMC_FRONTIER));
    (OP_PUSH1 + 6, mk_traits (Some "PUSH7"%string) 0 (1) (Some IVMC_FRONTIER));
    (OP_PUSH8, mk_traits (Some "PUSH8"%string) 0 (1) (Some IVMC_FRONTIER));
    (OP_PUSH9, mk_traits (Some "PUSH9"%string) 0 (1) (Some IVMC_FRONTIER));
    (OP_PUSH1 + 9, mk_traits (Some "PUSH10"%string) 0 (1) (Some IVMC_FRONTIER));
    (OP_PUSH1 + 10, mk_traits (Some "PUSH11"%string) 0 (1) (Some IVMC_FRONTIER));
    (OP_PUSH1 + 11, mk_traits (Some "PUSH12"%string) 0 (1) (Some IVMC_FRONTIER));
    (OP_PUSH1 + 12, mk_traits (Some "PUSH13"%string) 0 (1) (Some IVMC_FRONTIER));
    (OP_PUSH1 + 13, mk_traits (Some "PUSH14"%string) 0 (1) (Some IVMC_FRONTIER));
    (OP_PUSH1 + 14, mk_traits (Some "PUSH15"%string) 0 (1) (Some IVMC_FRONTIER));
    (OP_PUSH1 + 15, mk_traits (Some "PUSH16"%string) 0 (1) (Some IVMC_FRONTIER));
    (OP_PUSH1 + 16, mk_traits (Some "PUSH17"%string) 0 (1) (Some IVMC_FRONTIER));
    (OP_PUSH1 + 17, mk_traits (Some "PUSH18"%string) 0 (1) (Some IVMC_FRONTIER));
    (OP_PUSH1 + 18, mk_traits (Some "PUSH19"%string) 0 (1) (Some IVMC_FRONTIER));
    (OP_PUSH1 + 19, mk_traits (Some "PUSH20"%string) 0 (1) (Some IVMC_FRONTIER));
    (OP_PUSH1 + 20, mk_traits (Some "PUSH21"%string) 0 (1) (Some IVMC_FRONTIER));
    (OP_PUSH1 + 21, mk_traits (Some "PUSH22"%string) 0 (1) (Some IVMC_FRONTIER));
    (OP_PUSH1 + 22, mk_traits (Some "PUSH23"%string) 0 (1) (Some IVMC_FRONTIER));
    (OP_PUSH1 + 23, mk_traits (Some "PUSH24"%string) 0 (1) (Some IVMC_FRONTIER));
    (OP_PUSH1 + 24, mk_traits (Some "PUSH25"%string) 0 (1) (Some IVMC_FRONTIER));
    (OP_PUSH1 + 25, mk_traits (Some "PUSH26"%string) 0 (1) (Some IVMC_FRONTIER));
    (OP_PUSH1 + 26, mk_traits (Some "PUSH27"%string) 0 (1) (Some IVMC_FRONTIER));
    (OP_PUSH1 + 27, mk_traits (Some "PUSH28"%string) 0 (1) (Some IVMC_FRONTIER));
    (OP_PUSH1 + 28, mk_traits (Some "PUSH29"%string) 0 (1) (Some IVMC_FRONTIER));
    (OP_PUSH1 + 29, mk_traits (Some "PUSH30"%string) 0 (1) (Some IVMC_FRONTIER));
    (OP_PUSH1 + 30, mk_traits (Some "PUSH31"%string) 0 (1) (Some IVMC_FRONTIER));
    (OP_PUSH32, mk_traits (Some "PUSH32"%string) 0 (1) (Some IVMC_FRONTIER))
  ].

Definition traits_dup_swap : list (Z * Traits) :=
  [
    (OP_DUP1, mk_traits (Some "DUP1"%string) 1 (1) (Some IVMC_FRONTIER));
    (OP_DUP1 + 1, mk_traits (Some "DUP2"%string) 2 (1) (Some IVMC_FRONTIER));
    (OP_DUP1 + 2, mk_traits (Some "DUP3"%string) 3 (1) (Some IVMC_FRONTIER));
    (OP_DUP1 + 3, mk_traits (Some "DUP4"%string) 4 (1) (Some IVMC_FRONTIER));
    (OP_DUP1 + 4, mk_traits (Some "DUP5"%string) 5 (1) (Some IVMC_FRONTIER));
    (OP_DUP1 + 5, mk_traits (Some "DUP6"%string) 6 (1) (Some IVMC_FRONTIER));
    (OP_DUP1 + 6, mk_traits (Some "DUP7"%string) 7 (1) (Some IVMC_FRONTIER));
    (OP_DUP1 + 7, mk_traits (Some "DUP8"%string) 8 (1) (Some IVMC_FRONTIER));
    (OP_DUP1 + 8, mk_traits (Some "DUP9"%string) 9 (1) (Some IVMC_FRONTIER));
    (OP_DUP1 + 9, mk_traits (Some "DUP10"%string) 10 (1) (Some IVMC_FRONTIER));
    (OP_DUP1 + 10, mk_traits (Some "DUP11"%string) 11 (1) (Some IVMC_FRONTIER));
    (OP_DUP1 + 11, mk_traits (Some "DUP12"%string) 12 (1) (Some IVMC_FRONTIER));
    (OP_DUP1 + 12, mk_traits (Some "DUP13"%string) 13 (1) (Some IVMC_FRONTIER));
    (OP_DUP1 + 13, mk_traits (Some "DUP14"%string) 14 (1) (Some IVMC_FRONTIER));
    (OP_DUP1 + 14, mk_traits (Some "DUP15"%string) 15 (1) (Some IVMC_FRONTIER));
    (OP_DUP16, mk_traits (Some "DUP16"%string) 16 (1) (Some IVMC_FRONTIER));
    (OP_SWAP1, mk_traits (Some "SWAP1"%string) 2 (0) (Some IVMC_FRONTIER));
    (OP_SWAP1 + 1, mk_traits (Some "SWAP2"%string) 3 (0) (Some IVMC_FRONTIER));
    (OP_SWAP1 + 2, mk_traits (Some "SWAP3"%string) 4 (0) (Some IVMC_FRONTIER));
    (OP_SWAP1 + 3, mk_traits (Some "SWAP4"%string) 5 (0) (Some IVMC_FRONTIER));
    (OP_SWAP1 + 4, mk_traits (Some "SWAP5"%string) 6 (0) (Some IVMC_FRONTIER));
    (OP_SWAP1 + 5, mk_traits (Some "SWAP6"%string) 7 (0) (Some IVMC_FRONTIER));
    (OP_SWAP1 + 6, mk_traits (Some "SWAP7"%string) 8 (0) (Some IVMC_FRONTIER));
    (OP_SWAP1 + 7, mk_traits (Some "SWAP8"%string) 9 (0) (Some IVMC_FRONTIER));
    (OP_SWAP1 + 8, mk_traits (Some "SWAP9"%string) 10 (0) (Some IVMC_FRONTIER));
    (OP_SWAP1 + 9, mk_traits (Some "SWAP10"%string) 11 (0) (Some IVMC_FRONTIER));
    (OP_SWAP1 + 10, mk_traits (Some "SWAP11"%string) 12 (0) (Some IVMC_FRONTIER));
    (OP_SWAP1 + 11, mk_traits (Some "SWAP12"%string) 13 (0) (Some IVMC_FRONTIER));
    (OP_SWAP1 + 12, mk_traits (Some "SWAP13"%string) 14 (0) (Some IVMC_FRONTIER));
    (OP_SWAP1 + 13, mk_traits (Some "SWAP14"%string) 15 (0) (Some IVMC_FRONTIER));
    (OP_SWAP1 + 14, mk_traits (Some "SWAP15"%string) 16 (0) (Some IVMC_FRONTIER));
    (OP_SWAP16, mk_traits (Some "SWAP16"%string) 17 (0) (Some IVMC_FRONTIER))
  ].

Definition traits_log_calls : list (Z * Traits) :=
  [
    (OP_LOG0, mk_traits (Some "LOG0"%string) 2 (-2) (Some IVMC_FRONTIER));
    (OP_LOG0 + 1, mk_traits (Some "LOG1"%string) 3 (-3) (Some IVMC_FRONTIER));
    (OP_LOG0 + 2, mk_traits (Some "LOG2"%string) 4 (-4) (Some IVMC_FRONTIER));
    (OP_LOG0 + 3, mk_traits (Some "LOG3"%string) 5 (-5) (Some IVMC_FRONTIER));
    (OP_LOG4, mk_traits (Some "LOG4"%string) 6 (-6) (Some IVMC_FRONTIER));
    (OP_CREATE, mk_traits (Some "CREATE"%string) 3 (-2) (Some IVMC_FRONTIER));
    (OP_CALL, mk_traits (Some "CALL"%string) 7 (-6) (Some IVMC_FRONTIER));
    (OP_CALLCODE, mk_traits (Some "CALLCODE"%string) 7 (-6) (Some IVMC_FRONTIER));
    (OP_RETURN, mk_traits (Some "RETURN"%string) 2 (-2) (Some IVMC_FRONTIER));
    (OP_DELEGATECALL, mk_traits (Some "DELEGATECALL"%string) 6 (-5) (Some IVMC_HOMESTEAD));
    (OP_CREATE2, mk_traits (Some "CREATE2"%string) 4 (-3) (Some IVMC_CONSTANTINOPLE));
    (OP_STATICCALL, mk_traits (Some "STATICCALL"%string) 6 (-5) (Some IVMC_BYZANTIUM));
    (OP_REVERT, mk_traits (Some "REVERT"%string) 2 (-2) (Some IVMC_BYZANTIUM));
    (OP_INVALID, mk_traits (Some "INVALID"%string) 0 (0) (Some IVMC_FRONTIER));
    (OP_SELFDESTRUCT, mk_traits (Some "SELFDESTRUCT"%string) 1 (-1) (Some IVMC_FRONTIER))
  ].

Definition traits_table : list Traits :=
  assign_all
    (traits_arith ++ traits_env ++ traits_flow ++ traits_push ++ traits_dup_swap ++
     traits_log_calls)
    (replicate 256 default_traits).

(** [instr::traits\[op\]]. *)
Definition traits (op : Z) : Traits := nth (Z.to_nat op) traits_table default_traits.
