(* ===== verification/Dispatch.v ===== *)
(** * From opcodes to implementations (instructions_op2fn.hpp, baseline_instruction_table.cpp)

    The table of the Baseline interpreter's per-opcode requirements, the map
    from opcodes to instruction functions, and the function each name stands
    for together with its signature. *)
From stdpp Require Import base list tactics option.
From S2P Require Import Prelude Intx Ivmc Code ExecutionState Instructions InstructionsCalls.
From S2P Require Import Traits.

(** ** [ivmone::op2fn] *)
Definition op2fn_entries : list (Z * option instr_fn) :=
  [
    (OP_STOP, Some I_stop); (OP_ADD, Some I_add); (OP_MUL, Some I_mul); (OP_SUB, Some I_sub);
    (OP_DIV, Some I_div); (OP_SDIV, Some I_sdiv); (OP_MOD, Some I_mod); (OP_SMOD, Some I_smod);
    (OP_ADDMOD, Some I_addmod); (OP_MULMOD, Some I_mulmod); (OP_EXP, Some I_exp);
    (OP_SIGNEXTEND, Some I_signextend); (OP_LT, Some I_lt); (OP_GT, Some I_gt);
    (OP_SLT, Some I_slt); (OP_SGT, Some I_sgt); (OP_EQ, Some I_eq); (OP_ISZERO, Some I_iszero);
    (OP_AND, Some I_and); (OP_OR, Some I_or); (OP_XOR, Some I_xor); (OP_NOT, Some I_not);
    (OP_BYTE, Some I_byte); (OP_SHL, Some I_shl); (OP_SHR, Some I_shr); (OP_SAR, Some I_sar);
    (OP_KECCAK256, Some I_keccak256); (OP_ADDRESS, Some I_address); (OP_BALANCE, Some I_balance);
    (OP_ORIGIN, Some I_origin); (OP_CALLER, Some I_caller); (OP_CALLVALUE, Some I_callvalue);
    (OP_CALLDATALOAD, Some I_calldataload); (OP_CALLDATASIZE, Some I_calldatasize);
    (OP_CALLDATACOPY, Some I_calldatacopy); (OP_CODESIZE, Some I_codesize);
    (OP_CODECOPY, Some I_codecopy); (OP_GASPRICE, Some I_gasprice);
    (OP_EXTCODESIZE, Some I_extcodesize); (OP_EXTCODECOPY, Some I_extcodecopy);
    (OP_RETURNDATASIZE, Some I_returndatasize); (OP_RETURNDATACOPY, Some I_returndatacopy);
    (OP_EXTCODEHASH, Some I_extcodehash); (OP_BLOCKHASH, Some I_blockhash);
    (OP_COINBASE, Some I_coinbase); (OP_TIMESTAMP, Some I_timestamp); (OP_NUMBER, Some I_number);
    (OP_DIFFICULTY, Some I_difficulty); (OP_GASLIMIT, Some I_gaslimit);
    (OP_CHAINID, Some I_chainid); (OP_SELFBALANCE, Some I_selfbalance);
    (OP_BASEFEE, Some I_basefee); (OP_POP, Some I_pop); (OP_MLOAD, Some I_mload);
    (OP_MSTORE, Some I_mstore); (OP_MSTORE8, Some I_mstore8); (OP_SLOAD, Some I_sload);
    (OP_SSTORE, Some I_sstore); (OP_JUMP, Some I_jump); (OP_JUMPI, Some I_jumpi);
    (OP_PC, Some I_pc); (OP_MSIZE, Some I_msize); (OP_GAS, Some I_gas);
    (OP_JUMPDEST, Some I_jumpdest)
  ]
  ++ map (fun op => (op, Some (I_push (op - OP_PUSH1 + 1)))) (opcode_range OP_PUSH1 OP_PUSH32)
  ++ map (fun op => (op, Some (I_dup (op - OP_DUP1 + 1)))) (opcode_range OP_DUP1 OP_DUP16)
  ++ map (fun op => (op, Some (I_swap (op - OP_SWAP1 + 1)))) (opcode_range OP_SWAP1 OP_SWAP16)
  ++ map (fun op => (op, Some (I_log (op - OP_LOG0)))) (opcode_range OP_LOG0 OP_LOG4)
  ++ [
    (OP_CREATE, Some (I_create IVMC_CREATE)); (OP_CALL, Some (I_call IVMC_CALL false));
    (OP_CALLCODE, Some (I_call IVMC_CALLCODE false));
    (OP_RETURN, Some (I_return IVMC_SUCCESS));
    (OP_DELEGATECALL, Some (I_call IVMC_DELEGATECALL false));
    (OP_CREATE2, Some (I_create IVMC_CREATE2)); (OP_STATICCALL, Some (I_call IVMC_CALL true));
    (OP_INVALID, Some I_invalid); (OP_REVERT, Some (I_return IVMC_REVERT));
    (OP_SELFDESTRUCT, Some I_selfdestruct)
  ].

(** The function constant for an opcode; [None] where there is none. *)
Definition op2fn (op : Z) : option instr_fn :=
  nth (Z.to_nat op) (assign_all op2fn_entries (replicate 256 None)) None.

(** ** The Baseline instruction table *)
Record InstructionTableEntry := mk_table_entry {
  te_gas_cost : Z;
  te_stack_height_required : Z;
  te_can_overflow_stack : bool
}.

Definition table_entry (r : ivmc_revision) (i : Z) : InstructionTableEntry :=
  mk_table_entry (gas_costs r i) (stack_height_required (traits i))
    (0 <? stack_height_change (traits i)).

Definition get_baseline_instruction_table (r : ivmc_revision) : list InstructionTableEntry :=
  map (fun i => table_entry r (Z.of_nat i)) (seq 0 256).

(** ** Signatures and implementations *)
Section Impl.
Context {E : Env}.

(** The four function signatures of baseline.cpp. *)
Inductive InstrImpl :=
| SucceedingInstrFn (f : Instr unit)
| MayFailInstrFn (f : Instr ivmc_status_code)
| TerminatingInstrFn (f : Instr ivmc_status_code)
| CodePositionInstrFn (f : Z -> Instr (option Z)).

Definition instr_impl (f : instr_fn) : InstrImpl :=
  match f with
  | I_stop => TerminatingInstrFn Instr.stop
  | I_add => SucceedingInstrFn Instr.add
  | I_mul => SucceedingInstrFn Instr.mul
  | I_sub => SucceedingInstrFn Instr.sub
  | I_div => SucceedingInstrFn Instr.div
  | I_sdiv => SucceedingInstrFn Instr.sdiv
  | I_mod => SucceedingInstrFn Instr.mod_
  | I_smod => SucceedingInstrFn Instr.smod
  | I_addmod => SucceedingInstrFn Instr.addmod
  | I_mulmod => SucceedingInstrFn Instr.mulmod
  | I_exp => MayFailInstrFn Instr.exp
  | I_signextend => SucceedingInstrFn Instr.signextend
  | I_lt => SucceedingInstrFn Instr.lt_
  | I_gt => SucceedingInstrFn Instr.gt_
  | I_slt => SucceedingInstrFn Instr.slt
  | I_sgt => SucceedingInstrFn Instr.sgt
  | I_eq => SucceedingInstrFn Instr.eq_
  | I_iszero => SucceedingInstrFn Instr.iszero
  | I_and => SucceedingInstrFn Instr.and_
  | I_or => SucceedingInstrFn Instr.or_
  | I_xor => SucceedingInstrFn Instr.xor_
  | I_not => SucceedingInstrFn Instr.not_
  | I_byte => SucceedingInstrFn Instr.byte_
  | I_shl => SucceedingInstrFn Instr.shl
  | I_shr => SucceedingInstrFn Instr.shr
  | I_sar => SucceedingInstrFn Instr.sar
  | I_keccak256 => MayFailInstrFn Instr.keccak256
  | I_address => SucceedingInstrFn Instr.address_
  | I_balance => MayFailInstrFn Instr.balance
  | I_origin => SucceedingInstrFn Instr.origin
  | I_caller => SucceedingInstrFn Instr.caller
  | I_callvalue => SucceedingInstrFn Instr.callvalue
  | I_calldataload => SucceedingInstrFn Instr.calldataload
  | I_calldatasize => SucceedingInstrFn Instr.calldatasize
  | I_calldatacopy => MayFailInstrFn Instr.calldatacopy
  | I_codesize => SucceedingInstrFn Instr.codesize
  | I_codecopy => MayFailInstrFn Instr.codecopy
  | I_gasprice => SucceedingInstrFn Instr.gasprice
  | I_extcodesize => MayFailInstrFn Instr.extcodesize
  | I_extcodecopy => MayFailInstrFn Instr.extcodecopy
  | I_returndatasize => SucceedingInstrFn Instr.returndatasize
  | I_returndatacopy => MayFailInstrFn Instr.returndatacopy
  | I_extcodehash => MayFailInstrFn Instr.extcodehash
  | I_blockhash => SucceedingInstrFn Instr.blockhash
  | I_coinbase => SucceedingInstrFn Instr.coinbase
  | I_timestamp => SucceedingInstrFn Instr.timestamp
  | I_number => SucceedingInstrFn Instr.number
  | I_difficulty => SucceedingInstrFn Instr.difficulty
  | I_gaslimit => SucceedingInstrFn Instr.gaslimit
  | I_chainid => SucceedingInstrFn Instr.chainid
  | I_selfbalance => SucceedingInstrFn Instr.selfbalance
  | I_basefee => SucceedingInstrFn Instr.basefee
  | I_pop => SucceedingInstrFn Instr.pop
  | I_mload => MayFailInstrFn Instr.mload
  | I_mstore => MayFailInstrFn Instr.mstore
  | I_mstore8 => MayFailInstrFn Instr.mstore8
  | I_sload => MayFailInstrFn Instr.sload
  | I_sstore => MayFailInstrFn Instr.sstore
  | I_jump => CodePositionInstrFn Instr.jump
  | I_jumpi => CodePositionInstrFn Instr.jumpi
  | I_pc => CodePositionInstrFn Instr.pc
  | I_msize => SucceedingInstrFn Instr.msize
  | I_gas => SucceedingInstrFn Instr.gas
  | I_jumpdest => SucceedingInstrFn Instr.jumpdest
  | I_push len => CodePositionInstrFn (Instr.push len)
  | I_dup n => SucceedingInstrFn (Instr.dup n)
  | I_swap n => SucceedingInstrFn (Instr.swap n)
  | I_log n => MayFailInstrFn (Instr.log n)
  | I_create kind => MayFailInstrFn (Calls.create kind)
  | I_call kind static => MayFailInstrFn (Calls.call kind static)
  | I_return status_code => TerminatingInstrFn (Instr.return_ status_code)
  | I_invalid => TerminatingInstrFn Instr.invalid
  | I_selfdestruct => TerminatingInstrFn Instr.selfdestruct
  end.
End Impl.
