(* ===== verification/Hoare.v ===== *)
(** * Reasoning about instruction bodies

    The invariant [state_ok] of execution states, the rules of [wp] for the
    primitive operations, and the tactic [wp_auto] that runs a body
    symbolically.  A goal it leaves is about the state at the end of one path;
    states are kept in constructor form. *)
From stdpp Require Import base list tactics option.
From S2P Require Import Prelude Intx Ivmc Code ExecutionState Instructions.

Section Invariants.
Context {E : Env}.

(** The message a client may pass to [execute]. *)
Record msg_ok (m : ivmc_message) : Prop := {
  ok_recipient : length (msg_recipient m) = 20%nat;
  ok_sender : length (msg_sender m) = 20%nat;
  ok_value : length (msg_value m) = 32%nat;
  ok_depth : 0 <= msg_depth m <= 1024;
  ok_input : msg_input_size m < 2 ^ 63
}.

Definition height (s : ExecutionState) : Z := Z.of_nat (length (Stack.items (stack s))).

Definition mem_size (s : ExecutionState) : Z := Memory.m_size (memory s).

(** The invariant between instructions of a running execution. *)
Record state_ok (s : ExecutionState) : Prop := {
  ok_stack : Stack.wf (stack s);
  ok_memory : Memory.wf (memory s);
  ok_gas : 0 <= gas_left s <= i64_max;
  ok_msg : msg_ok (msg s);
  ok_return_data : Z.of_nat (length (return_data s)) < 2 ^ 63;
  ok_code : 0 <= view_size (code s) <= Z.of_nat (length (view_data (code s)));
  ok_code_size : Z.of_nat (length (view_data (code s))) < 2 ^ 63
}.

(** What no instruction changes. *)
Record same_frame (s s' : ExecutionState) : Prop := {
  sf_msg : msg s' = msg s;
  sf_rev : rev s' = rev s;
  sf_code : code s' = code s;
  sf_analysis : analysis s' = analysis s
}.

(** The output, and the status, which only halting instructions change. *)
Definition same_output (s s' : ExecutionState) : Prop :=
  status s' = status s /\ output_offset s' = output_offset s /\ output_size s' = output_size s.

Definition is_failure (c : ivmc_status_code) : Prop := c <> IVMC_SUCCESS /\ c <> IVMC_REVERT.

(** The state after [return] of an error code. *)
Record failed (s : ExecutionState) (c : ivmc_status_code) (s' : ExecutionState) : Prop := {
  fl_code : is_failure c;
  fl_stack : Stack.wf (stack s');
  fl_memory : Memory.wf (memory s');
  fl_frame : same_frame s s';
  fl_output : same_output s s'
}.

(** A body that needs [req] items and changes the height by [change]: [ok]
    holds of its value, and [QR] says how it may return early. *)
Definition safe_with {A} (ok : A -> Prop)
    (QR : ExecutionState -> ivmc_status_code -> ExecutionState -> Prop)
    (req change : Z) (m : Instr A) : Prop :=
  forall s, state_ok s -> req <= height s -> height s + change <= Stack.limit ->
  wp m
    (fun a s' => ok a /\ state_ok s' /\ height s' = height s + change /\ same_frame s s' /\
                 same_output s s' /\ gas_left s' <= gas_left s /\ mem_size s <= mem_size s')
    (QR s) s.

(** A body that may fail, and one that cannot. *)
Definition safe (req change : Z) (m : Instr ivmc_status_code) : Prop :=
  safe_with (fun c => c = IVMC_SUCCESS) failed req change m.
Definition succeeds (req change : Z) (m : Instr unit) : Prop :=
  safe_with (fun _ => True) (fun _ _ _ => False) req change m.
End Invariants.

Section Rules.
Context {E : Env}.
Implicit Types s : ExecutionState.

Lemma wp_asks {A} (f : ExecutionState -> A) Q QR s : Q (f s) s -> wp (asks f : Instr A) Q QR s.
Proof. done. Qed.

Lemma wp_return_status {A} c (Q : A -> _ -> Prop) (QR : _ -> _ -> Prop) s :
  QR c s -> wp (return_status c) Q QR s.
Proof. done. Qed.

Lemma wp_stack_pop x l Q QR s :
  Stack.wf (stack s) -> Stack.items (stack s) = x :: l ->
  (forall st, Stack.wf st -> Stack.items st = l -> Q x (with_stack st s)) ->
  wp stack_pop Q QR s.
Proof.
  intros Hwf Hi HQ. destruct (stack_pop_spec _ _ _ Hwf Hi) as (st & Hp & Hl & Hw).
  unfold wp, stack_pop. rewrite Hp. auto.
Qed.

Lemma wp_stack_push x Q QR s :
  Stack.wf (stack s) -> Z.of_nat (length (Stack.items (stack s))) < 1024 ->
  (forall st, Stack.wf st -> Stack.items st = x :: Stack.items (stack s) ->
    Q tt (with_stack st s)) ->
  wp (stack_push x) Q QR s.
Proof.
  intros Hwf Hlt HQ. destruct (stack_push_spec (stack s) x Hwf ltac:(lia)) as (st & Hp & Hl & Hw).
  unfold wp, stack_push. rewrite Hp. auto.
Qed.

Lemma wp_stack_at i x Q QR s :
  Stack.wf (stack s) -> 0 <= i -> Stack.items (stack s) !! Z.to_nat i = Some x ->
  Q x s -> wp (stack_at i) Q QR s.
Proof.
  intros Hwf Hi Hx HQ. pose proof (stack_at_spec (stack s) (Z.to_nat i) x Hwf Hx) as Ha.
  rewrite Z2Nat.id in Ha by done. unfold wp, stack_at. by rewrite Ha.
Qed.

Lemma wp_stack_set i v Q QR s :
  Stack.wf (stack s) -> 0 <= i < Z.of_nat (length (Stack.items (stack s))) ->
  (forall st, Stack.wf st -> Stack.items st = <[Z.to_nat i := v]> (Stack.items (stack s)) ->
    Q tt (with_stack st s)) ->
  wp (stack_set i v) Q QR s.
Proof.
  intros Hwf Hi HQ.
  destruct (stack_set_spec (stack s) (Z.to_nat i) v Hwf ltac:(lia)) as (st & Hs & Hl & Hw).
  rewrite Z2Nat.id in Hs by lia. unfold wp, stack_set. rewrite Hs. auto.
Qed.

Lemma wp_memory_read off n Q QR s :
  Memory.wf (memory s) -> 0 <= off -> 0 <= n -> off + n <= Memory.m_size (memory s) ->
  Q (take (Z.to_nat n) (drop (Z.to_nat off) (Memory.bytes (memory s)))) s ->
  wp (memory_read off n) Q QR s.
Proof. intros. unfold wp, memory_read. by rewrite memory_read_spec. Qed.

Lemma wp_memory_write off bs Q QR s :
  Memory.wf (memory s) -> 0 <= off ->
  off + Z.of_nat (length bs) <= Memory.m_size (memory s) ->
  (forall m, Memory.wf m -> Memory.m_size m = Memory.m_size (memory s) ->
    overwrite (Memory.bytes (memory s)) off bs = Some (Memory.bytes m) ->
    Q tt (with_memory m s)) ->
  wp (memory_write off bs) Q QR s.
Proof.
  intros Hwf Ho Hl HQ. destruct (memory_write_spec _ _ _ Hwf Ho Hl) as (m & Hm & ? & ? & ? & ?).
  unfold wp, memory_write. rewrite Hm. auto.
Qed.

Lemma wp_host_do {A} (f : host_state -> A * host_state) (Q : A -> _ -> Prop) QR s :
  (Q (fst (f (host s))) (with_host (snd (f (host s))) s)) -> wp (host_do f) Q QR s.
Proof. unfold wp, host_do. by destruct (f (host s)). Qed.

Lemma wp_host_run f (Q : unit -> _ -> Prop) QR s :
  Q tt (with_host (f (host s)) s) -> wp (host_run f) Q QR s.
Proof. done. Qed.

Lemma wp_int64 z (Q : Z -> _ -> Prop) QR s :
  i64_min <= z <= i64_max -> Q z s -> wp (int64 z) Q QR s.
Proof. intros Hz HQ. unfold wp, int64. by rewrite in_i64_true. Qed.

Lemma wp_int32 z (Q : Z -> _ -> Prop) QR s :
  - 2 ^ 31 <= z <= i32_max -> Q z s -> wp (int32 z) Q QR s.
Proof.
  intros Hz HQ. unfold wp, int32. destruct (_ && _) eqn:Hb; [done|].
  apply andb_false_iff in Hb as [?|?]; bool_prop; lia.
Qed.

Lemma wp_sub_gas cost (Q : bool -> _ -> Prop) QR s :
  i64_min <= gas_left s - cost <= i64_max ->
  Q (gas_left s - cost <? 0) (with_gas_left (gas_left s - cost) s) ->
  wp (sub_gas cost) Q QR s.
Proof.
  intros Hz HQ. unfold sub_gas. apply wp_bind, wp_get, wp_bind, wp_int64; [done|].
  by apply wp_bind, wp_modify, wp_ret.
Qed.

Lemma wp_add_gas amount (Q : unit -> _ -> Prop) QR s :
  i64_min <= gas_left s + amount <= i64_max ->
  Q tt (with_gas_left (gas_left s + amount) s) -> wp (add_gas amount) Q QR s.
Proof.
  intros Hz HQ. unfold add_gas. apply wp_bind, wp_get, wp_bind, wp_int64; [done|].
  by apply wp_modify.
Qed.

Lemma wp_charge cost (Q : unit -> _ -> Prop) (QR : _ -> _ -> Prop) s :
  0 <= gas_left s <= i64_max -> 0 <= cost <= i64_max ->
  (cost <= gas_left s -> Q tt (with_gas_left (gas_left s - cost) s)) ->
  (gas_left s < cost -> QR IVMC_OUT_OF_GAS (with_gas_left (gas_left s - cost) s)) ->
  wp (charge cost) Q QR s.
Proof.
  intros Hg Hc HQ HR. unfold charge. unfold i64_max in *.
  apply wp_bind, wp_sub_gas; [unfold i64_min, i64_max; lia|].
  destruct (_ <? 0) eqn:?; bool_prop.
  - apply wp_return_status, HR. lia.
  - apply wp_ret, HQ. lia.
Qed.

(** Sequencing with a body that is known to be safe. *)
Lemma wp_modify_state f (Q : unit -> _ -> Prop) (QR : ivmc_status_code -> _ -> Prop) s :
  Q tt (f s) -> wp (modify f) Q QR s.
Proof. done. Qed.
End Rules.

(** ** Automation *)
Ltac state_cbn :=
  cbn [with_gas_left with_stack with_memory with_host with_return_data with_code with_status
       with_output with_analysis gas_left stack memory msg host rev return_data code status
       output_offset output_size analysis fst snd] in *.

(** Rewrites known stack contents into each other and computes updates. *)
Ltac items_cbn :=
  repeat match goal with
  | H1 : Stack.items ?st = _, H2 : context [Stack.items ?st] |- _ =>
      lazymatch H2 with H1 => fail | _ => rewrite H1 in H2 end
  end;
  repeat match goal with
  | H : Stack.items _ = <[Z.to_nat ?i := _]> (_ :: _) |- _ =>
      let n := eval vm_compute in (Z.to_nat i) in
      change (Z.to_nat i) with n in H; cbn [insert list_insert] in H
  end.

(** Goals about the height of the stack. *)
Ltac height_tac :=
  unfold height, mem_size, Stack.limit in *; state_cbn;
  repeat match goal with H : Stack.items _ = _ |- _ => rewrite H in * end;
  cbn [length] in *; rewrite ?length_insert, ?length_drop in *; cbn [length] in *; lia.

Ltac wp_one :=
  lazymatch goal with
  | |- wp (_ ≫= _) _ _ _ => apply wp_bind
  | |- wp (mret _) _ _ _ => apply wp_ret
  | |- wp get _ _ _ => apply wp_get
  | |- wp (asks _) _ _ _ => apply wp_asks; state_cbn
  | |- wp (modify _) _ _ _ => apply wp_modify; state_cbn
  | |- wp (return_status _) _ _ _ => apply wp_return_status
  | |- wp stack_pop _ _ _ =>
      eapply wp_stack_pop; [state_cbn; eassumption..|];
      let st := fresh "st" in intros st ? ?; state_cbn
  | |- wp (stack_push _) _ _ _ =>
      eapply wp_stack_push; [state_cbn; eassumption|height_tac|];
      let st := fresh "st" in intros st ? ?; state_cbn; items_cbn
  | |- wp stack_top _ _ _ => unfold stack_top
  | |- wp (set_top _) _ _ _ => unfold set_top
  | |- wp (stack_at _) _ _ _ =>
      eapply wp_stack_at;
      [state_cbn; eassumption|lia
      |state_cbn; repeat match goal with H : Stack.items _ = _ |- _ => rewrite H end; reflexivity|]
  | |- wp (stack_set _ _) _ _ _ =>
      eapply wp_stack_set; [state_cbn; eassumption|height_tac|];
      let st := fresh "st" in intros st ? ?; state_cbn; items_cbn
  | |- wp (host_do _) _ _ _ => apply wp_host_do; state_cbn
  | |- wp (host_run _) _ _ _ => apply wp_host_run; state_cbn
  | |- wp (charge _) _ _ _ =>
      apply wp_charge; [state_cbn; lia|idtac|intros ?; state_cbn|intros ?; state_cbn]
  | |- wp (int64 _) _ _ _ => apply wp_int64; [unfold i64_min, i64_max|state_cbn]
  | |- wp (int32 _) _ _ _ => apply wp_int32; [unfold i32_max|state_cbn]
  | |- wp (if ?b then _ else _) _ _ _ => let H := fresh "Hif" in destruct b eqn:H
  | |- wp (let _ := _ in _) _ _ _ => cbv zeta
  | |- wp ((fun _ => _) _) _ _ _ => cbv beta
  end.

Ltac wp_auto := repeat wp_one.

(** Opens a proof of [safe] or of a specification over a state [s]. *)
Ltac open_state :=
  match goal with Hok : state_ok ?s |- _ =>
    destruct s as [g st m mg h rv rd cd stt oo os an];
    destruct Hok as [Hst Hm Hg Hmsg Hrd Hcode Hcsz];
    unfold height, mem_size in *; state_cbn
  end.

Ltac open_safe := let s := fresh "s" in intros s Hok Hreq Hlim; open_state.

(** [take_items n] names the [n] items an instruction needs. *)
Ltac take_items n :=
  lazymatch n with
  | O => idtac
  | _ =>
    lazymatch goal with H : context [Stack.items ?st] |- _ =>
      let Hi := fresh "Hi" in
      let l := fresh "l" in
      remember (Stack.items st) as l eqn:Hi; symmetry in Hi;
      let rec go l n :=
        lazymatch n with
        | O => idtac
        | S ?n' =>
            let x := fresh "x" in let l' := fresh "l" in
            destruct l as [|x l']; [cbn [length] in *; exfalso; lia|]; go l' n'
        end in
      go l n
    end
  end.

(** Closes the conjuncts of the postconditions of [safe]. *)
Ltac safe_leaf :=
  lazymatch goal with
  | |- failed _ _ _ =>
      constructor; state_cbn;
      [split; discriminate|assumption|assumption|constructor; reflexivity|repeat split]
  | |- _ /\ _ =>
      split; [first [reflexivity|exact I]|];
      split; [constructor; state_cbn; first [assumption | lia | idtac]|];
      split; [first [height_tac | idtac]|];
      split; [constructor; reflexivity|];
      split; [repeat split|];
      split; unfold mem_size; state_cbn; first [lia | idtac]
  end.
