(* ===== verification/Samples.v ===== *)
(** * Concrete states in the mock environment

    The inputs at which the theorems are instantiated. *)
From stdpp Require Import base list tactics option.
From S2P Require Import Prelude Intx Ivmc Mock Code ExecutionState Instructions Hoare.

(** A message of [gas] gas; the flags say whether it is static. *)
Definition sample_message_with (flags gas : Z) (input : list byte) : ivmc_message :=
  mk_message IVMC_CALL flags 0 gas (be_digits 20 1) (be_digits 20 2) input (be_digits 32 0)
    bytes32_zero (be_digits 20 1).

Definition sample_message (gas : Z) : ivmc_message := sample_message_with 0 gas [].

(** A stack with the given items, top first. *)
Definition sample_stack {E : Env} (l : list uint256) : Stack.Stack :=
  foldr (fun x st => default st (Stack.push st x)) Stack.new_stack l.

Definition sample_word (z : Z) : @uint256 (@env_intx Mock.env) := ZmodIntx.mk z.

(** A state with the given message, revision, stack items and code. *)
Definition sample_state (m : ivmc_message) (r : ivmc_revision) (l : list Z) (c : list byte)
    : @ExecutionState Mock.env :=
  @with_stack Mock.env (@sample_stack Mock.env (map sample_word l))
    (@new_state Mock.env m r Mock.empty_host c).

Lemma sample_stack_spec {E : Env} l :
  (length l <= 1024)%nat -> Stack.wf (sample_stack l) /\ Stack.items (sample_stack l) = l.
Proof.
  induction l as [|x l IH]; cbn [length sample_stack foldr]; intros Hl.
  - split; apply stack_new_spec.
  - destruct IH as [Hw Hi]; [lia|]. fold (sample_stack l).
    destruct (stack_push_spec (sample_stack l) x Hw ltac:(rewrite Hi; lia)) as (st & -> & Hi' & Hw').
    cbn. rewrite Hi in Hi'. done.
Qed.

Lemma sample_msg_ok flags gas input :
  Z.of_nat (length input) < 2 ^ 63 -> msg_ok (sample_message_with flags gas input).
Proof.
  intros Hl. constructor; cbn [sample_message_with msg_recipient msg_sender msg_value msg_depth];
    rewrite ?length_be_digits; (done || lia).
Qed.

Lemma sample_state_ok flags gas input r l c :
  0 <= gas <= i64_max -> (length l <= 1024)%nat -> Z.of_nat (length input) < 2 ^ 63 ->
  Z.of_nat (length c) < 2 ^ 63 ->
  @state_ok Mock.env (sample_state (sample_message_with flags gas input) r l c).
Proof.
  intros Hg Hl Hi Hc.
  destruct (@sample_stack_spec Mock.env (map sample_word l)) as [Hw _]; [by rewrite length_map|].
  constructor; [exact Hw|apply memory_new_spec|exact Hg|by apply sample_msg_ok|done|cbn; lia|exact Hc].
Qed.

Lemma sample_items m r l c :
  (length l <= 1024)%nat ->
  @Stack.items Mock.env (@stack Mock.env (sample_state m r l c)) = map sample_word l.
Proof. intros Hl. apply sample_stack_spec. by rewrite length_map. Qed.

Lemma sample_wf m r l c :
  (length l <= 1024)%nat -> @Stack.wf Mock.env (@stack Mock.env (sample_state m r l c)).
Proof. intros Hl. apply sample_stack_spec. by rewrite length_map. Qed.

(** The status and the gas at the end of a body. *)
Definition run_summary {E : Env} (o : outcome ExecutionState ivmc_status_code ivmc_status_code)
    : option (ivmc_status_code * Z) :=
  match o with
  | Ok c s | Return c s => Some (c, gas_left s)
  | UB => None
  end.
