(* ===== verification/ArithmeticSpec.v ===== *)
(** * The arithmetic instructions against the EVM semantics

    The reference semantics of the instructions that only work on the stack,
    as functions on integers, and the proof that the implementations compute
    them.  The first operand is the top item. *)
From stdpp Require Import base list tactics option.
From S2P Require Import Prelude Intx Ivmc Mock Code ExecutionState Instructions InstructionsCalls.
From S2P Require Import Dispatch Hoare Samples.

(** ** The reference *)

(** The two's complement value of the low [bits] bits. *)
Definition signed_value (bits x : Z) : Z :=
  let v := x mod 2 ^ bits in if v <? 2 ^ (bits - 1) then v else v - 2 ^ bits.

Definition of_bool (b : bool) : Z := if b then 1 else 0.

Definition unary_reference (f : instr_fn) : option (Z -> Z) :=
  match f with
  | I_iszero => Some (fun x => of_bool (x =? 0))
  | I_not => Some (fun x => two256 - 1 - x)
  | _ => None
  end.

Definition binary_reference (f : instr_fn) : option (Z -> Z -> Z) :=
  match f with
  | I_add => Some (fun x y => (x + y) mod two256)
  | I_mul => Some (fun x y => (x * y) mod two256)
  | I_sub => Some (fun x y => (x - y) mod two256)
  | I_div => Some (fun x y => if y =? 0 then 0 else x / y)
  | I_sdiv => Some (fun x y =>
      if y =? 0 then 0 else Z.quot (signed256 x) (signed256 y) mod two256)
  | I_mod => Some (fun x y => if y =? 0 then 0 else x mod y)
  | I_smod => Some (fun x y =>
      if y =? 0 then 0 else Z.rem (signed256 x) (signed256 y) mod two256)
  | I_signextend => Some (fun k x =>
      if k <? 31 then signed_value (8 * (k + 1)) x mod two256 else x)
  | I_lt => Some (fun x y => of_bool (x <? y))
  | I_gt => Some (fun x y => of_bool (y <? x))
  | I_slt => Some (fun x y => of_bool (signed256 x <? signed256 y))
  | I_sgt => Some (fun x y => of_bool (signed256 y <? signed256 x))
  | I_eq => Some (fun x y => of_bool (x =? y))
  | I_and => Some Z.land
  | I_or => Some Z.lor
  | I_xor => Some Z.lxor
  | I_byte => Some (fun n x => if n <? 32 then x / 2 ^ (8 * (31 - n)) mod 256 else 0)
  | I_shl => Some (fun n x => if n <? 256 then (x * 2 ^ n) mod two256 else 0)
  | I_shr => Some (fun n x => if n <? 256 then x / 2 ^ n else 0)
  | I_sar => Some (fun n x => Z.shiftr (signed256 x) n mod two256)
  | _ => None
  end.

Definition ternary_reference (f : instr_fn) : option (Z -> Z -> Z -> Z) :=
  match f with
  | I_addmod => Some (fun x y m => if m =? 0 then 0 else (x + y) mod m)
  | I_mulmod => Some (fun x y m => if m =? 0 then 0 else (x * y) mod m)
  | _ => None
  end.

(** ** Bit-level facts *)
Lemma byte_of_word x i :
  0 <= x -> 0 <= i < 32 ->
  Z.land (Z.shiftr ((x / 2 ^ (64 * (i / 8))) mod 2 ^ 64) (i mod 8 * 8)) 0xff =
  x / 2 ^ (8 * i) mod 256.
Proof.
  intros Hx Hi. pose proof (Z.div_mod i 8 ltac:(lia)). pose proof (Z.mod_pos_bound i 8 ltac:(lia)).
  rewrite <- !Z.shiftr_div_pow2 by lia. change 0xff with (Z.ones 8). change 256 with (2 ^ 8).
  rewrite Z.land_ones by lia. apply Z.bits_inj'. intros n Hn.
  rewrite !Z.testbit_mod_pow2 by lia. destruct (n <? 8) eqn:Hn8; [|done]. cbn [andb].
  rewrite !Z.shiftr_spec by lia. rewrite Z.testbit_mod_pow2 by lia.
  rewrite Z.shiftr_spec by lia. destruct (_ <? 64) eqn:?; [|lia]. cbn [andb]. f_equal. lia.
Qed.

Lemma testbit_low x n : 0 <= x < two256 -> 256 <= n -> Z.testbit x n = false.
Proof. apply ZmodIntx.testbit_high. Qed.

(** The sign of the low [b] bits. *)
Lemma sign_test b x :
  0 < b -> (x mod 2 ^ b <? 2 ^ (b - 1)) = negb (Z.testbit x (b - 1)).
Proof.
  intros Hb. assert (2 ^ b = 2 ^ (b - 1) * 2) as Hpow.
  { rewrite Z.mul_comm, <- Z.pow_succ_r by lia. f_equal. lia. }
  assert (0 < 2 ^ (b - 1)) by (apply Z.pow_pos_nonneg; lia).
  pose proof (Z.mod_pos_bound x (2 ^ (b - 1)) ltac:(lia)).
  rewrite Hpow, Z.rem_mul_r by lia. rewrite <- Z.shiftr_div_pow2 by lia.
  rewrite <- Z.bit0_mod, Z.shiftr_spec by lia. rewrite Z.add_0_l.
  destruct (Z.testbit x (b - 1)); cbn [Z.b2z negb]; lia.
Qed.

(** The bits of a signed reading: the sign is repeated. *)
Lemma testbit_signed_value b x n :
  0 < b -> 0 <= n ->
  Z.testbit (signed_value b x) n = Z.testbit x (if n <? b then n else b - 1).
Proof.
  intros Hb Hn. unfold signed_value. rewrite sign_test by done.
  pose proof (Z.mod_pos_bound x (2 ^ b) ltac:(apply Z.pow_pos_nonneg; lia)) as Hmod.
  destruct (Z.testbit x (b - 1)) eqn:Hs; cbn [negb].
  - assert (x mod 2 ^ b - 2 ^ b = x mod 2 ^ b + (-1) * 2 ^ b) as -> by lia.
    destruct (n <? b) eqn:Hlt; bool_prop.
    + rewrite <- (Z.mod_pow2_bits_low _ b) by lia. rewrite Z_mod_plus_full.
      by rewrite !Z.mod_pow2_bits_low by lia.
    + rewrite Hs. apply Z.bits_above_log2_neg; [lia|].
      destruct (Z.eq_dec (Z.pred (- (x mod 2 ^ b + -1 * 2 ^ b))) 0) as [->|]; [cbn; lia|].
      apply Z.log2_lt_pow2; [lia|].
      apply Z.lt_le_trans with (2 ^ b); [lia|]. apply Z.pow_le_mono_r; lia.
  - rewrite Z.testbit_mod_pow2 by lia. by destruct (n <? b).
Qed.

Lemma signed256_value x : 0 <= x < two256 -> signed256 x = signed_value 256 x.
Proof.
  intros Hx. unfold signed256, signed_value. change (2 ^ (256 - 1)) with (2 ^ 255).
  change (2 ^ 256) with two256. by rewrite Z.mod_small.
Qed.

Lemma testbit_signed256 x n :
  0 <= x < two256 -> 0 <= n ->
  Z.testbit (signed256 x) n = if n <? 256 then Z.testbit x n else negb (x <? 2 ^ 255).
Proof.
  intros Hx Hn. rewrite signed256_value, testbit_signed_value by lia.
  destruct (n <? 256); [done|]. pose proof (sign_test 256 x ltac:(lia)) as Hs.
  change (2 ^ (256 - 1)) with (2 ^ 255) in Hs. change (2 ^ 256) with two256 in Hs.
  rewrite Z.mod_small in Hs by done. by rewrite Hs, negb_involutive.
Qed.

Lemma sar_bits x n :
  0 <= x < two256 -> 0 <= n ->
  Z.lor (if n <? 256 then Z.shiftr x n else 0)
    (let mask := if x <? 2 ^ 255 then 0 else two256 - 1 in
     let k := if n <? 256 then 256 - n else 0 in
     if k <? 256 then Z.shiftl mask k mod two256 else 0) =
  Z.shiftr (signed256 x) n mod two256.
Proof.
  intros Hx Hn. cbv zeta. change two256 with (2 ^ 256). apply Z.bits_inj'. intros i Hi.
  rewrite Z.testbit_mod_pow2, Z.shiftr_spec, testbit_signed256 by lia. rewrite Z.lor_spec.
  assert (forall k, 0 <= k ->
    Z.testbit (if k <? 256 then Z.shiftl (if x <? 2 ^ 255 then 0 else 2 ^ 256 - 1) k mod 2 ^ 256 else 0) i =
    (k <=? i) && (i <? 256) && negb (x <? 2 ^ 255)) as Hmask.
  { intros k Hk. destruct (k <? 256) eqn:?; bool_prop.
    - rewrite Z.testbit_mod_pow2 by lia. rewrite Z.shiftl_spec by lia.
      destruct (x <? 2 ^ 255); [rewrite Z.bits_0; by rewrite !andb_false_r|].
      cbn [negb]. rewrite andb_true_r. destruct (i <? 256) eqn:?; [|by rewrite andb_false_r].
      rewrite andb_true_r. cbn [andb]. destruct (k <=? i) eqn:?; bool_prop.
      + change (2 ^ 256 - 1) with (Z.ones 256). apply Z.ones_spec_low. lia.
      + apply Z.testbit_neg_r. lia.
    - rewrite Z.bits_0. destruct (k <=? i) eqn:?, (i <? 256) eqn:?; bool_prop; (done || lia). }
  rewrite Hmask by (destruct (n <? 256) eqn:?; lia). clear Hmask.
  destruct (n <? 256) eqn:Hn256; bool_prop.
  - rewrite Z.shiftr_spec by lia.
    destruct (256 - n <=? i) eqn:?, (i <? 256) eqn:?, (i + n <? 256) eqn:?; bool_prop; try lia;
      cbn [andb orb]; rewrite ?orb_false_r; try done; by rewrite testbit_low by lia.
  - rewrite Z.bits_0. cbn [orb]. destruct (0 <=? i) eqn:?, (i + n <? 256) eqn:?; bool_prop; lia.
Qed.

(** The mask arithmetic of SIGNEXTEND. *)
Lemma signextend_bits b x :
  0 <= x < two256 -> 0 < b <= 256 ->
  (if Z.land x (2 ^ (b - 1)) =? 0 then Z.land x (2 ^ (b - 1) - 1)
   else Z.lor x (two256 - 1 - (2 ^ (b - 1) - 1))) = signed_value b x mod two256.
Proof.
  intros Hx Hb. change two256 with (2 ^ 256) in *.
  assert ((Z.land x (2 ^ (b - 1)) =? 0) = negb (Z.testbit x (b - 1))) as ->.
  { assert (forall n, Z.testbit (Z.land x (2 ^ (b - 1))) n = (n =? b - 1) && Z.testbit x (b - 1)) as Hl.
    { intros n. rewrite Z.land_spec. destruct (Z.eqb_spec n (b - 1)) as [->|Hne].
      - rewrite Z.pow2_bits_true by lia. by rewrite andb_true_r.
      - rewrite Z.pow2_bits_false by lia. by rewrite andb_false_r. }
    destruct (Z.eqb_spec (Z.land x (2 ^ (b - 1))) 0) as [Hz|Hz].
    - specialize (Hl (b - 1)). rewrite Hz, Z.bits_0, Z.eqb_refl in Hl. cbn [andb] in Hl.
      by rewrite <- Hl.
    - destruct (Z.testbit x (b - 1)); [done|]. destruct Hz. apply Z.bits_inj'. intros n _.
      by rewrite Hl, Z.bits_0, andb_false_r. }
  apply Z.bits_inj'. intros n Hn. rewrite Z.testbit_mod_pow2, testbit_signed_value by lia.
  destruct (Z.testbit x (b - 1)) eqn:Hs; cbn [negb].
  - assert (2 ^ 256 - 1 - (2 ^ (b - 1) - 1) = Z.shiftl (Z.ones (257 - b)) (b - 1)) as ->.
    { rewrite Z.shiftl_mul_pow2, Z.ones_equiv, <- Z.sub_1_r by lia.
      assert (2 ^ 256 = 2 ^ (257 - b) * 2 ^ (b - 1)) as ->
        by (rewrite <- Z.pow_add_r by lia; f_equal; lia). ring. }
    rewrite Z.lor_spec, Z.shiftl_spec by lia.
    destruct (n <? 256) eqn:Hn256; bool_prop; cbn [andb].
    + destruct (Z.lt_ge_cases n (b - 1)).
      * rewrite (Z.testbit_neg_r _ (n - (b - 1))) by lia. destruct (n <? b) eqn:?; [|lia]. by rewrite orb_false_r.
      * rewrite Z.ones_spec_low by lia. rewrite orb_true_r.
        destruct (n <? b) eqn:?; bool_prop; [|done]. replace n with (b - 1) by lia. done.
    + rewrite testbit_low by (done || lia). rewrite Z.ones_spec_high by lia. done.
  - rewrite Z.sub_1_r, <- Z.ones_equiv, Z.land_spec.
    destruct (Z.lt_ge_cases n (b - 1)).
    + rewrite Z.ones_spec_low by lia. rewrite andb_true_r.
      destruct (n <? 256) eqn:?, (n <? b) eqn:?; bool_prop; lia || done.
    + rewrite Z.ones_spec_high by lia. rewrite andb_false_r.
      destruct (n <? 256) eqn:?, (n <? b) eqn:?; bool_prop; cbn [andb]; try done.
      replace n with (b - 1) by lia. done.
Qed.

(** ** The implementations *)
Section Arithmetic.
Context {E : Env} {ES : EnvSpec E}.
Implicit Types s : ExecutionState.

(** The body replaces the operands by one item, a function of their values. *)
Definition computes1 (m : Instr unit) (ref : Z -> Z) : Prop :=
  forall s x l, Stack.wf (stack s) -> Stack.items (stack s) = x :: l ->
  exists st z, m s = Ok tt (with_stack st s) /\ Stack.wf st /\ Stack.items st = z :: l /\
    ⟦z⟧ = ref ⟦x⟧.

Definition computes2 (m : Instr unit) (ref : Z -> Z -> Z) : Prop :=
  forall s x y l, Stack.wf (stack s) -> Stack.items (stack s) = x :: y :: l ->
  exists st z, m s = Ok tt (with_stack st s) /\ Stack.wf st /\ Stack.items st = z :: l /\
    ⟦z⟧ = ref ⟦x⟧ ⟦y⟧.

Definition computes3 (m : Instr unit) (ref : Z -> Z -> Z -> Z) : Prop :=
  forall s x y w l, Stack.wf (stack s) -> Stack.items (stack s) = x :: y :: w :: l ->
  exists st z, m s = Ok tt (with_stack st s) /\ Stack.wf st /\ Stack.items st = z :: l /\
    ⟦z⟧ = ref ⟦x⟧ ⟦y⟧ ⟦w⟧.

Lemma wp_result {A} (m : Instr A) (P : A -> ExecutionState -> Prop) s :
  wp m P (fun _ _ => False) s -> exists a s', m s = Ok a s' /\ P a s'.
Proof. unfold wp. destruct (m s); [eauto|done|done]. Qed.

Lemma wp_computes (m : Instr unit) (v : Z) l s :
  wp m (fun _ s' => exists st z, s' = with_stack st s /\ Stack.wf st /\ Stack.items st = z :: l /\
    ⟦z⟧ = v) (fun _ _ => False) s ->
  exists st z, m s = Ok tt (with_stack st s) /\ Stack.wf st /\ Stack.items st = z :: l /\ ⟦z⟧ = v.
Proof.
  intros (a & s' & Hm & st & z & -> & Hrest)%wp_result. destruct a. by exists st, z.
Qed.

Lemma of_bool_spec b : ⟦u256_of_bool b⟧ = of_bool b.
Proof. apply u256_of_bool_spec. Qed.

Lemma u256_0_spec : ⟦Instr.u256_0⟧ = 0.
Proof. unfold Instr.u256_0. by rewrite u256_of_u64_spec. Qed.

Lemma byte_value x n :
  ⟦u256_of_u64 (Z.land (Z.shiftr (u256_word x ((31 - u256_word n 0 mod 32) / 8))
      ((31 - u256_word n 0 mod 32) mod 8 * 8)) (if u256_ltb n (u256_of_u64 32) then 0xff else 0))⟧ =
  if ⟦n⟧ <? 32 then ⟦x⟧ / 2 ^ (8 * (31 - ⟦n⟧)) mod 256 else 0.
Proof.
  pose proof (u256_range x). pose proof (u256_range n).
  rewrite u256_ltb_spec, (u256_of_u64_spec 32) by lia.
  destruct (⟦n⟧ <? 32) eqn:Hn; bool_prop.
  - rewrite (u256_word_0 n), (Z.mod_small ⟦n⟧ 32) by lia.
    pose proof (Z.div_mod (31 - ⟦n⟧) 8 ltac:(lia)).
    pose proof (Z.mod_pos_bound (31 - ⟦n⟧) 8 ltac:(lia)).
    rewrite u256_word_spec, byte_of_word by lia. rewrite u256_of_u64_spec; [done|].
    pose proof (Z.mod_pos_bound (⟦x⟧ / 2 ^ (8 * (31 - ⟦n⟧))) 256 ltac:(lia)). lia.
  - rewrite Z.land_0_r. by rewrite u256_of_u64_spec.
Qed.

Lemma sign_of_word x : (to_i64 (u256_word x 3) <? 0) = negb (⟦x⟧ <? 2 ^ 255).
Proof.
  pose proof (u256_range x) as Hx. unfold two256 in Hx. rewrite u256_word_spec by lia.
  change (64 * 3) with 192. pose proof (Z.div_mod ⟦x⟧ (2 ^ 192) ltac:(lia)) as Hd.
  pose proof (Z.mod_pos_bound ⟦x⟧ (2 ^ 192) ltac:(lia)).
  set (q := ⟦x⟧ / 2 ^ 192) in *. assert (0 <= q < 2 ^ 64) by nia.
  rewrite (Z.mod_small q) by done. unfold to_i64.
  destruct (Z.lt_ge_cases q (2 ^ 63)).
  - rewrite Z.mod_small by lia. lia.
  - replace ((q + 2 ^ 63) mod 2 ^ 64) with (q - 2 ^ 63); [lia|].
    apply (Z.mod_unique _ _ 1); lia.
Qed.

Lemma sar_value x y :
  ⟦u256_or (u256_shr x y)
     (u256_shl_u64 (if to_i64 (u256_word x 3) <? 0 then u256_not Instr.u256_0 else Instr.u256_0)
        (if u256_ltb y (u256_of_u64 256) then u64 (256 - u256_word y 0) else 0))⟧ =
  Z.shiftr (signed256 ⟦x⟧) ⟦y⟧ mod two256.
Proof.
  pose proof (u256_range x). pose proof (u256_range y).
  rewrite <- sar_bits by lia. cbv zeta.
  rewrite u256_or_spec, u256_shr_spec, u256_ltb_spec, u256_of_u64_spec, sign_of_word by lia.
  assert ((if ⟦y⟧ <? 256 then u64 (256 - u256_word y 0) else 0) = (if ⟦y⟧ <? 256 then 256 - ⟦y⟧ else 0))
    as ->.
  { destruct (⟦y⟧ <? 256) eqn:?; bool_prop; [|done]. rewrite u256_word_0, u64_small by lia. done. }
  rewrite u256_shl_u64_spec by (destruct (⟦y⟧ <? 256) eqn:?; bool_prop; lia).
  do 2 f_equal. destruct (⟦x⟧ <? 2 ^ 255); cbn [negb]; rewrite ?u256_not_spec, u256_0_spec; [done|].
  by rewrite Z.sub_0_r.
Qed.

Lemma signextend_value ext x :
  ⟦ext⟧ < 31 ->
  let sign_mask := u256_shl_u64 (u256_of_u64 1) (u256_to_u64 ext * 8 + 7) in
  let value_mask := u256_sub sign_mask (u256_of_u64 1) in
  ⟦if negb (u256_eqb (u256_and x sign_mask) Instr.u256_0)
   then u256_or x (u256_not value_mask) else u256_and x value_mask⟧ =
  signed_value (8 * (⟦ext⟧ + 1)) ⟦x⟧ mod two256.
Proof.
  intros Hext. pose proof (u256_range x). pose proof (u256_range ext). cbv zeta.
  rewrite <- signextend_bits by lia. rewrite u256_to_u64_small by lia.
  assert (0 < 2 ^ (⟦ext⟧ * 8 + 7)) by (apply Z.pow_pos_nonneg; lia).
  assert (2 ^ (⟦ext⟧ * 8 + 7) < two256) by (unfold two256; apply Z.pow_lt_mono_r; lia).
  replace (8 * (⟦ext⟧ + 1) - 1) with (⟦ext⟧ * 8 + 7) by lia.
  assert (⟦u256_shl_u64 (u256_of_u64 1) (⟦ext⟧ * 8 + 7)⟧ = 2 ^ (⟦ext⟧ * 8 + 7)) as Hmask.
  { rewrite u256_shl_u64_spec, u256_of_u64_spec by lia.
    destruct (_ <? 256) eqn:?; bool_prop; [|lia].
    rewrite Z.shiftl_mul_pow2, Z.mul_1_l by lia. apply Z.mod_small. lia. }
  rewrite u256_eqb_spec, u256_and_spec, Hmask, u256_0_spec.
  assert (⟦u256_sub (u256_shl_u64 (u256_of_u64 1) (⟦ext⟧ * 8 + 7)) (u256_of_u64 1)⟧ =
    2 ^ (⟦ext⟧ * 8 + 7) - 1) as Hval.
  { rewrite u256_sub_spec, Hmask, u256_of_u64_spec by lia. apply Z.mod_small. lia. }
  destruct (_ =? 0); cbn [negb].
  - by rewrite u256_and_spec, Hval.
  - by rewrite u256_or_spec, u256_not_spec, Hval.
Qed.

(** Runs a body to the value it leaves on top. *)
Ltac run_computes :=
  unfold computes1, computes2, computes3; intros; apply wp_computes;
  match goal with s : ExecutionState |- _ =>
    destruct s as [g st m mg h rv rd cd stt oo os an]; state_cbn end;
  wp_auto;
  lazymatch goal with |- ex _ =>
    eexists _, _; split; [reflexivity|]; split; [assumption|]; split; [eassumption|] end.

Ltac value_case :=
  rewrite ?u256_eqb_spec, ?u256_ltb_spec, ?u256_0_spec in *; bool_prop;
  rewrite ?u256_add_spec, ?u256_sub_spec, ?u256_mul_spec, ?u256_and_spec, ?u256_or_spec,
    ?u256_xor_spec, ?u256_not_spec, ?u256_shl_spec, ?u256_shr_spec, ?of_bool_spec, ?u256_eqb_spec,
    ?u256_ltb_spec, ?intx_slt_spec, ?u256_0_spec, ?u256_of_u64_spec by lia.

Lemma div_value (v q : uint256) (r : Z) :
  (⟦v⟧ <> 0 -> ⟦q⟧ = r) ->
  ⟦if negb (u256_eqb v Instr.u256_0) then q else Instr.u256_0⟧ = if ⟦v⟧ =? 0 then 0 else r.
Proof.
  intros Hq. rewrite u256_eqb_spec, u256_0_spec.
  destruct (⟦v⟧ =? 0) eqn:?; bool_prop; cbn [negb]; [apply u256_0_spec|by apply Hq].
Qed.

(** C25: The two-operand arithmetic, comparison, bitwise and shift instructions
    compute the functions of the EVM semantics: modular arithmetic, division
    with zero for a zero divisor, signed readings in two's complement,
    SIGNEXTEND, BYTE and the shifts.  They replace the two operands by the
    result and touch nothing else. *)
Theorem binary_instructions f ref :
  binary_reference f = Some ref ->
  exists body, instr_impl f = SucceedingInstrFn body /\ computes2 body ref.
Proof.
  intros Href. destruct f; try discriminate Href; injection Href as <-;
    (eexists; split; [reflexivity|]).
  - unfold Instr.add. run_computes. value_case. f_equal. lia.
  - unfold Instr.mul. run_computes. value_case. f_equal. lia.
  - unfold Instr.sub. run_computes. by value_case.
  - unfold Instr.div. run_computes. apply div_value, u256_udiv_spec.
  - unfold Instr.sdiv. run_computes. apply div_value, intx_sdiv_spec.
  - unfold Instr.mod_. run_computes. apply div_value, u256_umod_spec.
  - unfold Instr.smod. run_computes. apply div_value, intx_srem_spec.
  - unfold Instr.signextend. run_computes.
    + rewrite u256_ltb_spec, u256_of_u64_spec in Hif by lia. rewrite Hif. bool_prop.
      by apply signextend_value.
    + rewrite u256_ltb_spec, u256_of_u64_spec in Hif by lia. by rewrite Hif.
  - unfold Instr.lt_. run_computes. by value_case.
  - unfold Instr.gt_. run_computes. by value_case.
  - unfold Instr.slt. run_computes. by value_case.
  - unfold Instr.sgt. run_computes. by value_case.
  - unfold Instr.eq_. run_computes. by value_case.
  - unfold Instr.and_. run_computes. value_case. apply Z.land_comm.
  - unfold Instr.or_. run_computes. value_case. apply Z.lor_comm.
  - unfold Instr.xor_. run_computes. value_case. apply Z.lxor_comm.
  - unfold Instr.byte_. run_computes. apply byte_value.
  - unfold Instr.shl. run_computes. value_case.
    destruct (_ <? 256); [|done]. rewrite Z.shiftl_mul_pow2; [done|]. apply u256_range.
  - unfold Instr.shr. run_computes. value_case.
    destruct (_ <? 256); [|done]. rewrite Z.shiftr_div_pow2; [done|]. apply u256_range.
  - unfold Instr.sar. run_computes. apply sar_value.
Qed.

(** C26: ISZERO and NOT replace the top item by the test for zero and by the
    complement to 2^256 - 1. *)
Theorem unary_instructions f ref :
  unary_reference f = Some ref ->
  exists body, instr_impl f = SucceedingInstrFn body /\ computes1 body ref.
Proof.
  intros Href. destruct f; try discriminate Href; injection Href as <-;
    (eexists; split; [reflexivity|]).
  - unfold Instr.iszero. run_computes. by value_case.
  - unfold Instr.not_. run_computes. by value_case.
Qed.

(** C27: ADDMOD and MULMOD compute the sum and the product of two items modulo
    a third one without an intermediate overflow, and zero for a zero modulus. *)
Theorem ternary_instructions f ref :
  ternary_reference f = Some ref ->
  exists body, instr_impl f = SucceedingInstrFn body /\ computes3 body ref.
Proof.
  intros Href. destruct f; try discriminate Href; injection Href as <-;
    (eexists; split; [reflexivity|]).
  - unfold Instr.addmod. run_computes. apply div_value, intx_addmod_spec.
  - unfold Instr.mulmod. run_computes. apply div_value, intx_mulmod_spec.
Qed.

(** The gas of EXP beyond its base cost: per significant byte of the exponent. *)
Definition exp_cost (r : ivmc_revision) (exponent : Z) : Z :=
  (if exponent =? 0 then 0 else Z.log2 exponent / 8 + 1) *
  (if rev_geb r IVMC_SPURIOUS_DRAGON then 50 else 10).

(** C28: EXP charges 10 gas, 50 since Spurious Dragon, for each significant byte
    of the exponent, fails with out of gas when that is more than is left, and
    otherwise replaces base and exponent by the power modulo 2^256. *)
Theorem exp_instruction s b e l :
  Stack.wf (stack s) -> Stack.items (stack s) = b :: e :: l -> 0 <= gas_left s <= i64_max ->
  let cost := exp_cost (rev s) ⟦e⟧ in
  match Instr.exp s with
  | Ok c s' => c = IVMC_SUCCESS /\ cost <= gas_left s /\
      exists st z, s' = with_stack st (with_gas_left (gas_left s - cost) s) /\ Stack.wf st /\
        Stack.items st = z :: l /\ ⟦z⟧ = ⟦b⟧ ^ ⟦e⟧ mod two256
  | Return c _ => c = IVMC_OUT_OF_GAS /\ gas_left s < cost
  | UB => False
  end.
Proof.
  intros Hst Hi Hg. cbv zeta. unfold exp_cost. rewrite <- intx_csb_spec.
  enough (wp Instr.exp _ _ s) as Hw by exact Hw. unfold Instr.exp.
  destruct s as [g st m mg h rv rd cd stt oo os an]; state_cbn.
  pose proof (count_significant_bytes_range e).
  assert (forall x : bool, 0 <= intx_count_significant_bytes e * (if x then 50 else 10) <= 1600)
    as Hcost by (intros []; lia).
  specialize (Hcost (rev_geb rv IVMC_SPURIOUS_DRAGON)).
  wp_auto; try (unfold i64_max; lia).
  - split; [done|]. split; [done|]. eexists _, _. split; [reflexivity|]. split; [done|].
    split; [done|]. apply intx_exp_spec.
  - done.
Qed.
End Arithmetic.

(** -256 shifted right by 4 is -16. *)
Lemma binary_instructions_witness :
  let s := sample_state (sample_message 100) IVMC_LONDON [4; two256 - 256; 7] [] in
  exists st z, Instr.sar s = Ok tt (with_stack st s) /\ Stack.wf st /\
    Stack.items st = [z; sample_word 7] /\ ⟦z⟧ = two256 - 16.
Proof.
  cbv zeta.
  destruct (binary_instructions (ES := Mock.env_spec) I_sar _ eq_refl) as (body & Hb & Hc).
  injection Hb as <-.
  destruct (Hc (sample_state (sample_message 100) IVMC_LONDON [4; two256 - 256; 7] [])
    (sample_word 4) (sample_word (two256 - 256)) [sample_word 7])
    as (st & z & Hs & Hw & Hi & Hz); [apply sample_wf; cbn; lia|apply sample_items; cbn; lia|].
  exists st, z. split; [exact Hs|]. split; [exact Hw|]. split; [exact Hi|].
  rewrite Hz. vm_compute. reflexivity.
Defined.

Lemma unary_instructions_witness :
  let s := sample_state (sample_message 100) IVMC_LONDON [0; 7] [] in
  exists st z, Instr.iszero s = Ok tt (with_stack st s) /\ Stack.wf st /\
    Stack.items st = [z; sample_word 7] /\ ⟦z⟧ = 1.
Proof.
  cbv zeta.
  destruct (unary_instructions (ES := Mock.env_spec) I_iszero _ eq_refl) as (body & Hb & Hc).
  injection Hb as <-.
  apply (Hc (sample_state (sample_message 100) IVMC_LONDON [0; 7] []) (sample_word 0) [sample_word 7]);
    [apply sample_wf|apply sample_items]; cbn; lia.
Defined.

(** 2^255 * 2 + 0 modulo 7. *)
Lemma ternary_instructions_witness :
  let s := sample_state (sample_message 100) IVMC_LONDON [2 ^ 255; 2; 7] [] in
  exists st z, Instr.mulmod s = Ok tt (with_stack st s) /\ Stack.wf st /\
    Stack.items st = [z] /\ ⟦z⟧ = 2.
Proof.
  cbv zeta.
  destruct (ternary_instructions (ES := Mock.env_spec) I_mulmod _ eq_refl) as (body & Hb & Hc).
  injection Hb as <-.
  destruct (Hc (sample_state (sample_message 100) IVMC_LONDON [2 ^ 255; 2; 7] [])
    (sample_word (2 ^ 255)) (sample_word 2) (sample_word 7) [])
    as (st & z & Hs & Hw & Hi & Hz); [apply sample_wf; cbn; lia|apply sample_items; cbn; lia|].
  exists st, z. split; [exact Hs|]. split; [exact Hw|]. split; [exact Hi|].
  rewrite Hz. vm_compute. reflexivity.
Defined.

Lemma exp_instruction_witness :
  let s := sample_state (sample_message 200) IVMC_LONDON [3; 0x100; 7] [] in
  match Instr.exp s with
  | Ok c s' => c = IVMC_SUCCESS /\ 100 <= 200 /\
      exists st z, s' = with_stack st (with_gas_left 100 s) /\ Stack.wf st /\
        Stack.items st = [z; sample_word 7] /\ ⟦z⟧ = 3 ^ 256 mod two256
  | Return c _ => c = IVMC_OUT_OF_GAS /\ 200 < 100
  | UB => False
  end.
Proof.
  apply (exp_instruction (ES := Mock.env_spec)
    (sample_state (sample_message 200) IVMC_LONDON [3; 0x100; 7] [])
    (sample_word 3) (sample_word 0x100) [sample_word 7]);
    [apply sample_wf; cbn; lia|apply sample_items; cbn; lia|vm_compute; split; discriminate].
Defined.
