(* ===== verification/MemoryRequirements.v ===== *)
(** * Memory expansion: specification of [check_memory] and its gas cost

    The reference is the memory cost function of the EVM,
    [3 w + w^2 / 512] for [w] words, charged for the difference between the
    words in use before and after the access. *)
From stdpp Require Import base list tactics option.
From S2P Require Import Prelude Intx Ivmc Code ExecutionState Instructions Hoare.

(** ** Reference definitions *)

(** The least number of 32-byte words that hold [n] bytes. *)
Definition words_for (n : Z) : Z := (n + 31) / 32.

Definition memory_gas (words : Z) : Z := 3 * words + words * words / 512.

(** An access of [size] bytes at [off] touches the bytes below this bound. *)
Definition access_end (off size : Z) : Z := if size =? 0 then 0 else off + size.

Definition access_valid (off size : Z) : Prop :=
  size = 0 \/ (off <= max_buffer_size /\ size <= max_buffer_size).

Definition expanded_size (current bound : Z) : Z := Z.max current (32 * words_for bound).

Definition expansion_cost (current bound : Z) : Z :=
  memory_gas (Z.max (current / 32) (words_for bound)) - memory_gas (current / 32).

(** [m'] is [m] expanded with zeros to hold the bytes below [bound]. *)
Definition expands (m : Memory.Memory) (bound : Z) (m' : Memory.Memory) : Prop :=
  Memory.wf m' /\ Memory.m_size m' = expanded_size (Memory.m_size m) bound /\
  Memory.bytes m' = Memory.bytes m ++
    replicate (Z.to_nat (Memory.m_size m' - Memory.m_size m)) Byte.x00.

(** ** Arithmetic of words *)
Lemma words_for_bound n : n <= 32 * words_for n <= n + 31.
Proof.
  unfold words_for. pose proof (Z.div_mod (n + 31) 32 ltac:(lia)).
  pose proof (Z.mod_pos_bound (n + 31) 32 ltac:(lia)). lia.
Qed.

Lemma words_for_mono n m : n <= m -> words_for n <= words_for m.
Proof. intros. unfold words_for. apply Z.div_le_mono; lia. Qed.

Lemma words_for_multiple n : n mod 32 = 0 -> words_for n = n / 32.
Proof.
  intros. unfold words_for. pose proof (Z.div_mod n 32 ltac:(lia)).
  rewrite (Z.div_unique (n + 31) 32 (n / 32) 31); lia.
Qed.

Lemma memory_gas_mono v w : 0 <= v <= w -> memory_gas v <= memory_gas w.
Proof.
  intros. unfold memory_gas.
  pose proof (Z.div_le_mono (v * v) (w * w) 512 ltac:(lia) ltac:(nia)). lia.
Qed.

Lemma memory_gas_range w : 0 <= w <= 2 ^ 28 -> 0 <= memory_gas w <= 2 ^ 48.
Proof.
  intros. unfold memory_gas.
  pose proof (Z.div_pos (w * w) 512 ltac:(nia) ltac:(lia)).
  pose proof (Z.div_le_mono (w * w) (2 ^ 56) 512 ltac:(lia) ltac:(nia)).
  change (2 ^ 56 / 512) with (2 ^ 47) in *. lia.
Qed.

Lemma num_words_spec n : 0 <= n <= 2 ^ 33 -> num_words n = words_for n.
Proof.
  intros. unfold num_words, word_size, words_for. rewrite u64_small by lia.
  change (n + (32 - 1)) with (n + 31).
  pose proof (words_for_bound n). unfold words_for in *.
  apply to_i64_small. unfold i64_min, i64_max. lia.
Qed.

(** [num_words] of any size is non-negative and fits in 60 bits. *)
Lemma num_words_range n : 0 <= n < 2 ^ 64 -> 0 <= num_words n < 2 ^ 59.
Proof.
  intros. unfold num_words, word_size. pose proof (u64_bound (n + (32 - 1))).
  set (k := u64 _) in *.
  pose proof (Z.div_pos k 32 ltac:(lia) ltac:(lia)).
  pose proof (Z.div_lt_upper_bound k 32 (2 ^ 59) ltac:(lia) ltac:(lia)).
  rewrite to_i64_small; unfold i64_min, i64_max; lia.
Qed.

Lemma expansion_cost_none current bound :
  current mod 32 = 0 -> bound <= current -> expansion_cost current bound = 0.
Proof.
  intros Hm Hb. unfold expansion_cost.
  pose proof (words_for_mono _ _ Hb) as Hw. rewrite (words_for_multiple current) in Hw by done.
  rewrite Z.max_l by lia. lia.
Qed.

Lemma expanded_size_none current bound :
  current mod 32 = 0 -> bound <= current -> expanded_size current bound = current.
Proof.
  intros Hm Hb. unfold expanded_size.
  pose proof (words_for_mono _ _ Hb) as Hw. rewrite (words_for_multiple current) in Hw by done.
  pose proof (Z.div_mod current 32 ltac:(lia)). lia.
Qed.

Lemma expansion_cost_nonneg current bound : 0 <= current -> 0 <= expansion_cost current bound.
Proof.
  intros Hc. unfold expansion_cost, memory_gas.
  pose proof (Z.div_pos current 32 ltac:(lia) ltac:(lia)).
  set (w := current / 32) in *. set (w' := Z.max w _).
  pose proof (Z.div_le_mono (w * w) (w' * w') 512 ltac:(lia) ltac:(nia)). lia.
Qed.

Lemma expansion_cost_range current bound :
  0 <= current <= 2 ^ 33 -> 0 <= bound < 2 ^ 33 -> 0 <= expansion_cost current bound <= 2 ^ 48.
Proof.
  intros Hc Hb. unfold expansion_cost.
  pose proof (words_for_bound bound).
  pose proof (Z.div_pos current 32 ltac:(lia) ltac:(lia)).
  pose proof (Z.div_le_upper_bound current 32 (2 ^ 28) ltac:(lia) ltac:(lia)).
  pose proof (memory_gas_mono (current / 32) (Z.max (current / 32) (words_for bound)) ltac:(lia)).
  pose proof (memory_gas_range (current / 32) ltac:(lia)).
  pose proof (memory_gas_range (Z.max (current / 32) (words_for bound)) ltac:(lia)). lia.
Qed.

Section Requirements.
Context {E : Env} {ES : EnvSpec E}.
Implicit Types s : ExecutionState.

Lemma wp_memory_cost w (Q : Z -> _ -> Prop) QR s :
  0 <= w <= 2 ^ 28 -> Q (memory_gas w) s -> wp (Instr.memory_cost w) Q QR s.
Proof.
  intros Hw HQ. unfold Instr.memory_cost.
  pose proof (memory_gas_range w Hw) as Hr. unfold memory_gas in *.
  apply wp_bind, wp_int64; [unfold i64_min, i64_max; lia|].
  apply wp_bind, wp_int64; [unfold i64_min, i64_max; nia|].
  rewrite Z.quot_div_nonneg by nia.
  apply wp_int64; [unfold i64_min, i64_max; lia|done].
Qed.

(** The growing branch: no overflow, and gas for exactly the new words. *)
Lemma wp_grow_memory n (Q : bool -> _ -> Prop) QR s :
  Memory.wf (memory s) -> 0 <= gas_left s <= i64_max -> mem_size s < n < 2 ^ 33 ->
  (forall m, expands (memory s) n m -> expansion_cost (mem_size s) n <= gas_left s ->
    Q true (with_memory m (with_gas_left (gas_left s - expansion_cost (mem_size s) n) s))) ->
  (gas_left s < expansion_cost (mem_size s) n ->
    Q false (with_gas_left (gas_left s - expansion_cost (mem_size s) n) s)) ->
  wp (Instr.grow_memory n) Q QR s.
Proof.
  unfold mem_size. intros Hwf Hg Hn HQ HF.
  pose proof Hwf as (Hlen & Hs & Hmod & Hs33 & Hcap).
  pose proof (words_for_bound n) as Hwb.
  pose proof (Z.div_mod (Memory.m_size (memory s)) 32 ltac:(lia)) as Hdm.
  assert (Hcw : Memory.m_size (memory s) / 32 <= words_for n) by lia.
  assert (Hcost : expansion_cost (Memory.m_size (memory s)) n =
    memory_gas (words_for n) - memory_gas (Memory.m_size (memory s) / 32))
    by (unfold expansion_cost; rewrite Z.max_r by lia; done).
  pose proof (expansion_cost_range _ n ltac:(split; [apply Hs|exact Hs33]) ltac:(lia)) as Hcr.
  unfold Instr.grow_memory. rewrite num_words_spec by lia.
  apply wp_bind, wp_asks. unfold word_size.
  rewrite (to_i64_small (_ / 32)) by (unfold i64_min, i64_max; lia).
  apply wp_bind, wp_memory_cost; [lia|]. apply wp_bind, wp_memory_cost; [lia|].
  rewrite <- Hcost. unfold i64_max in Hg.
  apply wp_bind, wp_int64; [unfold i64_min, i64_max; lia|].
  apply wp_bind, wp_sub_gas; [unfold i64_min, i64_max; lia|].
  destruct (_ <? 0) eqn:?; bool_prop; [apply wp_ret, HF; lia|].
  apply wp_bind, wp_int64; [unfold i64_min, i64_max; lia|].
  rewrite u64_small by lia.
  destruct (memory_grow_spec (memory s) (words_for n * 32) Hwf) as (m & Hm & Hwf' & Hsz & Hb).
  { by rewrite Z.mod_mul. }
  { lia. }
  apply wp_bind. unfold wp, memory_grow. state_cbn. rewrite Hm. cbn.
  apply HQ; [|lia]. split; [done|]. split; [unfold expanded_size; lia|]. by rewrite Hsz.
Qed.

Lemma expands_refl m bound :
  Memory.wf m -> bound <= Memory.m_size m -> expands m bound m.
Proof.
  intros Hwf Hb. pose proof Hwf as (_ & _ & Hmod & _). split; [done|].
  rewrite expanded_size_none by done. split; [done|].
  rewrite Z.sub_diag. cbn. by rewrite app_nil_r.
Qed.

Lemma with_same_memory s : with_memory (memory s) (with_gas_left (gas_left s - 0) s) = s.
Proof. destruct s. unfold with_memory, with_gas_left. cbn. by rewrite Z.sub_0_r. Qed.

(** What [check_memory] does on each path. *)
Definition check_post (bound : Z) (Q : bool -> ExecutionState -> Prop) s : Prop :=
  (forall m, expands (memory s) bound m -> expansion_cost (mem_size s) bound <= gas_left s ->
    Q true (with_memory m (with_gas_left (gas_left s - expansion_cost (mem_size s) bound) s))) /\
  (gas_left s < expansion_cost (mem_size s) bound ->
    Q false (with_gas_left (gas_left s - expansion_cost (mem_size s) bound) s)).

Lemma wp_check_memory_u64 (offset : uint256) size (Q : bool -> _ -> Prop) QR s :
  Memory.wf (memory s) -> 0 <= gas_left s <= i64_max -> 0 <= size <= max_buffer_size ->
  (max_buffer_size < ⟦offset⟧ -> Q false s) ->
  (⟦offset⟧ <= max_buffer_size -> check_post (⟦offset⟧ + size) Q s) ->
  wp (Instr.check_memory_u64 offset size) Q QR s.
Proof.
  intros Hwf Hg Hsize HF HQ. unfold Instr.check_memory_u64.
  pose proof (u256_range offset) as Hr. rewrite u256_high_words.
  unfold max_buffer_size in *.
  destruct (⟦offset⟧ <? 2 ^ 64) eqn:Hlt; bool_prop; cbn [negb orb].
  2:{ apply wp_ret, HF. lia. }
  rewrite u256_word_0 by done. rewrite u256_to_u64_small by done.
  destruct (_ <? ⟦offset⟧) eqn:Hmax; bool_prop; [by apply wp_ret, HF|].
  destruct (HQ Hmax) as [HQ1 HQ2]. rewrite u64_small by lia.
  apply wp_bind, wp_asks.
  destruct (_ <? ⟦offset⟧ + size) eqn:Hgrow; bool_prop.
  - by apply wp_grow_memory; [..|unfold mem_size; lia| |].
  - apply wp_ret. pose proof Hwf as (_ & _ & Hmod & _).
    specialize (HQ1 (memory s)).
    rewrite expansion_cost_none, with_same_memory in HQ1 by (unfold mem_size; lia || done).
    apply HQ1; [|lia]. apply expands_refl; [done|lia].
Qed.

Lemma wp_check_memory (offset size : uint256) (Q : bool -> _ -> Prop) QR s :
  Memory.wf (memory s) -> 0 <= gas_left s <= i64_max ->
  (~ access_valid ⟦offset⟧ ⟦size⟧ -> Q false s) ->
  (access_valid ⟦offset⟧ ⟦size⟧ -> check_post (access_end ⟦offset⟧ ⟦size⟧) Q s) ->
  wp (Instr.check_memory offset size) Q QR s.
Proof.
  intros Hwf Hg HF HQ. unfold Instr.check_memory, Instr.u256_0, access_end, access_valid in *.
  pose proof (u256_range size) as Hr.
  rewrite u256_eqb_spec, u256_of_u64_spec, u256_high_words by lia.
  destruct (⟦size⟧ =? 0) eqn:Hz; bool_prop.
  - apply wp_ret. destruct (HQ (or_introl Hz)) as [HQ1 _].
    pose proof Hwf as (_ & Hs & Hmod & _). specialize (HQ1 (memory s)).
    rewrite expansion_cost_none, with_same_memory in HQ1 by (unfold mem_size; lia || done).
    apply HQ1; [|lia]. apply expands_refl; [done|lia].
  - unfold max_buffer_size in *.
    destruct (⟦size⟧ <? 2 ^ 64) eqn:Hlt; bool_prop; cbn [negb orb].
    2:{ apply wp_ret, HF. lia. }
    rewrite u256_word_0 by done. rewrite u256_to_u64_small by done.
    destruct (_ <? ⟦size⟧) eqn:Hmax; bool_prop; [apply wp_ret, HF; lia|].
    apply wp_check_memory_u64; unfold max_buffer_size; [done|done|lia| |].
    + intros. apply HF. lia.
    + intros. apply HQ. lia.
Qed.

(** The access is inside of the memory [m]. *)
Definition access_in (off size : Z) (m : Memory.Memory) : Prop :=
  size = 0 \/ (off + size <= Memory.m_size m /\ off <= max_buffer_size /\ size <= max_buffer_size).

Lemma expands_access_in m m' off size :
  0 <= off -> 0 <= size -> access_valid off size -> expands m (access_end off size) m' ->
  access_in off size m'.
Proof.
  unfold access_valid, access_end, access_in, expands, expanded_size.
  intros Ho Hs Hv (_ & Hm & _).
  destruct (size =? 0) eqn:?; bool_prop; [by left|]. right.
  pose proof (words_for_bound (off + size)). lia.
Qed.

Lemma expands_size_le m m' bound : expands m bound m' -> Memory.m_size m <= Memory.m_size m'.
Proof. unfold expands, expanded_size. intros (_ & ? & _). lia. Qed.

Lemma with_same_gas s : with_gas_left (gas_left s) s = s.
Proof. by destruct s. Qed.

(** The bound of an access and its cost are never negative. *)
Lemma access_cost_range s off size :
  Memory.wf (memory s) -> 0 <= off -> 0 <= size -> access_valid off size ->
  0 <= expansion_cost (mem_size s) (access_end off size) <= 2 ^ 48.
Proof.
  intros (_ & Hs & _ & Hs33 & _) Ho Hz Hv. apply expansion_cost_range; unfold mem_size; [lia|].
  unfold access_end, access_valid, max_buffer_size in *. destruct (size =? 0) eqn:?; bool_prop; lia.
Qed.

(** [require_memory] for proofs that only follow the invariant. *)
Lemma wp_require_memory offset size (Q : unit -> _ -> Prop) (QR : _ -> _ -> Prop) s :
  Memory.wf (memory s) -> 0 <= gas_left s <= i64_max ->
  (forall m g, Memory.wf m -> mem_size s <= Memory.m_size m -> 0 <= g <= gas_left s ->
    access_in ⟦offset⟧ ⟦size⟧ m -> access_valid ⟦offset⟧ ⟦size⟧ ->
    expands (memory s) (access_end ⟦offset⟧ ⟦size⟧) m ->
    g = gas_left s - expansion_cost (mem_size s) (access_end ⟦offset⟧ ⟦size⟧) ->
    Q tt (with_memory m (with_gas_left g s))) ->
  (forall g,
    ~ (access_valid ⟦offset⟧ ⟦size⟧ /\
       expansion_cost (mem_size s) (access_end ⟦offset⟧ ⟦size⟧) <= gas_left s) ->
    QR IVMC_OUT_OF_GAS (with_gas_left g s)) ->
  wp (Instr.require_memory offset size) Q QR s.
Proof.
  intros Hwf Hg HQ HF. unfold Instr.require_memory.
  pose proof (u256_range offset). pose proof (u256_range size).
  apply wp_bind, wp_check_memory; [done|done| |].
  - intros Hnv. apply wp_return_status. rewrite <- (with_same_gas s). apply HF. tauto.
  - intros Hv. pose proof (access_cost_range s ⟦offset⟧ ⟦size⟧ Hwf ltac:(lia) ltac:(lia) Hv). split.
    + intros m He Hc. apply wp_ret, HQ; try done.
      * apply He.
      * by eapply expands_size_le.
      * lia.
      * apply (expands_access_in (memory s)); [lia|lia|done..].
    + intros Hc. apply wp_return_status, HF. lia.
Qed.

Lemma wp_require_memory_u64 offset size (Q : unit -> _ -> Prop) (QR : _ -> _ -> Prop) s :
  Memory.wf (memory s) -> 0 <= gas_left s <= i64_max -> 0 < size <= max_buffer_size ->
  (forall m g, Memory.wf m -> mem_size s <= Memory.m_size m -> 0 <= g <= gas_left s ->
    ⟦offset⟧ + size <= Memory.m_size m -> ⟦offset⟧ <= max_buffer_size ->
    expands (memory s) (⟦offset⟧ + size) m ->
    g = gas_left s - expansion_cost (mem_size s) (⟦offset⟧ + size) ->
    Q tt (with_memory m (with_gas_left g s))) ->
  (forall g,
    ~ (⟦offset⟧ <= max_buffer_size /\
       expansion_cost (mem_size s) (⟦offset⟧ + size) <= gas_left s) ->
    QR IVMC_OUT_OF_GAS (with_gas_left g s)) ->
  wp (Instr.require_memory_u64 offset size) Q QR s.
Proof.
  intros Hwf Hg Hsize HQ HF. unfold Instr.require_memory_u64.
  pose proof (u256_range offset).
  apply wp_bind, wp_check_memory_u64; [done|done|lia| |].
  - intros Hno. apply wp_return_status. rewrite <- (with_same_gas s). apply HF. lia.
  - intros Ho.
    pose proof (access_cost_range s ⟦offset⟧ size Hwf ltac:(lia) ltac:(lia)
                  ltac:(right; lia)) as Hcr.
    unfold access_end in Hcr. destruct (size =? 0) eqn:?; bool_prop; [lia|]. split.
    + intros m He Hc. apply wp_ret, HQ; try done.
      * apply He.
      * by eapply expands_size_le.
      * lia.
      * destruct He as (_ & He & _). unfold expanded_size in He.
        pose proof (words_for_bound (⟦offset⟧ + size)). lia.
    + intros Hc. apply wp_return_status, HF. lia.
Qed.

(** An access inside of the memory changes nothing. *)
Lemma wp_require_memory_u64_inside offset size (Q : unit -> _ -> Prop)
    (QR : ivmc_status_code -> _ -> Prop) s :
  0 <= size <= max_buffer_size -> ⟦offset⟧ <= max_buffer_size ->
  ⟦offset⟧ + size <= Memory.m_size (memory s) ->
  Q tt s -> wp (Instr.require_memory_u64 offset size) Q QR s.
Proof.
  intros Hsize Ho Hin HQ. unfold Instr.require_memory_u64, Instr.check_memory_u64.
  pose proof (u256_range offset) as Hr. rewrite u256_high_words. unfold max_buffer_size in *.
  rewrite (proj2 (Z.ltb_lt _ _)) by lia. cbn [negb orb].
  rewrite u256_word_0, u256_to_u64_small, u64_small by lia.
  rewrite (proj2 (Z.ltb_ge (2 ^ 32 - 1) _)) by lia.
  apply wp_bind, wp_bind, wp_asks. rewrite (proj2 (Z.ltb_ge _ _)) by lia.
  by apply wp_ret, wp_ret.
Qed.
End Requirements.
