(* ===== verification/Safety.v ===== *)
(** * Absence of undefined behaviour in the instruction bodies

    Every generic instruction, started in a well-formed state with the stack
    items it requires and room for the one it may add, runs without an access
    out of bounds and without signed overflow, keeps the invariant, changes the
    stack height by the amount its traits announce and never increases the gas. *)
From stdpp Require Import base list tactics option.
From S2P Require Import Prelude Intx Ivmc Code ExecutionState Instructions InstructionsCalls Hoare.
From S2P Require Import MemoryRequirements.

(** [m'] is [m] with [bs] stored at [off]; storing nothing needs no address. *)
Definition stored (m : Memory.Memory) (off : Z) (bs : list byte) (m' : Memory.Memory)
    : Prop :=
  Memory.wf m' /\ Memory.m_size m' = Memory.m_size m /\
  match bs with
  | [] => Memory.bytes m' = Memory.bytes m
  | _ => overwrite (Memory.bytes m) off bs = Some (Memory.bytes m')
  end.

(** The [n] bytes of [bs] from [off], with zeros past its end. *)
Definition window (bs : list byte) (off n : Z) : list byte :=
  map (fun i => default Byte.x00 (nth_Z bs (off + Z.of_nat i))) (seq 0 (Z.to_nat n)).

Lemma length_window bs off n : length (window bs off n) = Z.to_nat n.
Proof. unfold window. by rewrite length_map, length_seq. Qed.

(** The clamped copy and the clearing of the rest give the window. *)
Lemma window_split bs off n :
  0 <= off -> 0 <= n ->
  let src := Z.min off (Z.of_nat (length bs)) in
  let copy_size := Z.min n (Z.of_nat (length bs) - src) in
  take (Z.to_nat copy_size) (drop (Z.to_nat src) bs) ++
    replicate (Z.to_nat (n - copy_size)) Byte.x00 = window bs off n.
Proof.
  intros Ho Hn src copy_size. apply list_eq_same_length with (Z.to_nat n).
  - apply length_window.
  - rewrite length_app, length_take, length_drop, length_replicate. lia.
  - intros i x y Hi Hx Hy. unfold window, nth_Z in Hy. rewrite list_lookup_fmap in Hy.
    rewrite lookup_seq_lt in Hy by lia. cbn in Hy. destruct (_ <? 0) eqn:?; [lia|].
    injection Hy as <-. rewrite lookup_app_Some in Hx.
    destruct Hx as [Hx|[Hlen Hx]].
    + rewrite lookup_take_Some, lookup_drop in Hx. destruct Hx as [Hx ?].
      replace (Z.to_nat (off + Z.of_nat i)) with (Z.to_nat src + i)%nat by lia. by rewrite Hx.
    + rewrite lookup_replicate in Hx. destruct Hx as [-> ?].
      rewrite length_take, length_drop in Hlen.
      rewrite lookup_ge_None_2; [done|]. lia.
Qed.

(** ** Rules for the shared parts of the bodies *)
Section Parts.
Context {E : Env} {ES : EnvSpec E}.
Implicit Types s : ExecutionState.

Lemma wp_cold_account addr (Q : bool -> _ -> Prop) QR s :
  (forall h b, Q b (with_host h s)) -> wp (Instr.cold_account addr) Q QR s.
Proof.
  intros HQ. unfold Instr.cold_account. wp_auto; [apply HQ|].
  replace s with (with_host (host s) s) by by destruct s. apply HQ.
Qed.

Lemma wp_charge_cold_account addr cost (Q : unit -> _ -> Prop) (QR : _ -> _ -> Prop) s :
  0 <= gas_left s <= i64_max -> 0 <= cost <= i64_max ->
  (forall h g, 0 <= g <= gas_left s -> Q tt (with_gas_left g (with_host h s))) ->
  (forall h g, QR IVMC_OUT_OF_GAS (with_gas_left g (with_host h s))) ->
  wp (Instr.charge_cold_account addr cost) Q QR s.
Proof.
  intros Hg Hc HQ HR. unfold Instr.charge_cold_account.
  apply wp_bind, wp_cold_account. intros h [].
  - apply wp_charge; state_cbn; [done|done|intros; apply HQ; lia|intros; apply HR].
  - apply wp_ret. specialize (HQ h (gas_left s)). destruct s. apply HQ. cbn in *. lia.
Qed.

Lemma wp_cold_storage key (Q : bool -> _ -> Prop) QR s :
  (forall h b, Q b (with_host h s)) -> wp (Instr.cold_storage key) Q QR s.
Proof.
  intros HQ. unfold Instr.cold_storage. wp_auto; [apply HQ|].
  replace s with (with_host (host s) s) by by destruct s. apply HQ.
Qed.

Lemma wp_write_zeros off n (Q : unit -> _ -> Prop) (QR : ivmc_status_code -> _ -> Prop) s :
  Memory.wf (memory s) -> 0 <= off -> 0 <= n < 2 ^ 64 ->
  (n = 0 \/ off + n <= Memory.m_size (memory s)) ->
  (forall m, stored (memory s) off (replicate (Z.to_nat n) Byte.x00) m ->
    Q tt (with_memory m s)) ->
  wp (if 0 <? u64 n
      then memory_write (u64 off) (replicate (Z.to_nat (u64 n)) Byte.x00) else mret tt) Q QR s.
Proof.
  intros Hwf Ho Hn Hin HQ. rewrite (u64_small n) by lia. destruct (0 <? n) eqn:?; bool_prop.
  - destruct Hin as [->|Hin]; [lia|]. pose proof Hwf as (_ & _ & _ & H33 & _).
    rewrite u64_small by lia.
    apply wp_memory_write; rewrite ?length_replicate; [done|done|lia|].
    intros m Hwm Hsz Hw. apply HQ. split; [done|]. split; [done|].
    destruct (Z.to_nat n) eqn:En; [lia|]. exact Hw.
  - apply wp_ret. replace n with 0 in HQ by lia.
    replace s with (with_memory (memory s) s) by by destruct s. by apply HQ.
Qed.

Lemma stored_app m m1 m2 off bs cs :
  stored m off bs m1 -> stored m1 (off + Z.of_nat (length bs)) cs m2 ->
  stored m off (bs ++ cs) m2.
Proof.
  unfold stored. intros (Hw1 & Hs1 & H1) (Hw2 & Hs2 & H2).
  split; [done|]. split; [congruence|].
  destruct bs as [|b bs]; cbn [app].
  - rewrite Z.add_0_r in H2. destruct cs; congruence.
  - destruct cs as [|c cs]; [rewrite app_nil_r; congruence|].
    change (b :: bs ++ c :: cs) with ((b :: bs) ++ c :: cs). by eapply overwrite_app.
Qed.

(** Copying [copy_size] bytes of [source] and clearing the rest of the [n]
    bytes at [dst]. *)
Lemma wp_copy_to_memory source dst src copy_size n (Q : unit -> _ -> Prop)
    (QR : ivmc_status_code -> _ -> Prop) s :
  Memory.wf (memory s) -> 0 <= dst -> 0 <= src -> 0 <= copy_size <= n -> n < 2 ^ 64 ->
  src + copy_size <= Z.of_nat (length source) ->
  (n = 0 \/ dst + n <= Memory.m_size (memory s)) ->
  (forall m, stored (memory s) dst
      (take (Z.to_nat copy_size) (drop (Z.to_nat src) source) ++
       replicate (Z.to_nat (n - copy_size)) Byte.x00) m -> Q tt (with_memory m s)) ->
  wp (Instr.copy_to_memory source dst src copy_size n) Q QR s.
Proof.
  intros Hwf Hd Hs Hc Hn Hsrc Hin HQ. unfold Instr.copy_to_memory. apply wp_bind.
  set (copied := take (Z.to_nat copy_size) (drop (Z.to_nat src) source)) in *.
  assert (Z.of_nat (length copied) = copy_size) as Hlen
    by (subst copied; rewrite length_take, length_drop; lia).
  assert (forall m, stored (memory s) dst copied m ->
    wp (if 0 <? u64 (n - copy_size)
        then memory_write (u64 (dst + copy_size))
               (replicate (Z.to_nat (u64 (n - copy_size))) Byte.x00) else mret tt)
      Q QR (with_memory m s)) as Hrest.
  { intros m Hm. pose proof Hm as (Hwm & Hsz & _).
    apply wp_write_zeros; state_cbn; [done|lia|lia|lia|].
    intros m' Hm'. specialize (HQ m'). destruct s. apply HQ.
    eapply stored_app; [exact Hm|]. by rewrite Hlen. }
  destruct (0 <? copy_size) eqn:?; bool_prop.
  - apply wp_bind. eapply wp_assume; [apply slice_Some; lia|]. fold copied.
    apply wp_memory_write; [done|done|lia|].
    intros m Hwm Hsz Hw. apply Hrest. split; [done|]. split; [done|].
    destruct copied; [cbn in Hlen; lia|done].
  - apply wp_ret.
    replace s with (with_memory (memory s) s) by by destruct s. apply Hrest.
    split; [done|]. split; [done|]. destruct copied; [done|cbn in Hlen; lia].
Qed.

(** An accepted offset is the number the code works with. *)
Lemma access_in_u64 off size m :
  access_in ⟦off⟧ ⟦size⟧ m -> access_valid ⟦off⟧ ⟦size⟧ -> ⟦size⟧ <> 0 ->
  u256_to_u64 off = ⟦off⟧ /\ u256_to_u64 size = ⟦size⟧ /\ ⟦off⟧ + ⟦size⟧ <= Memory.m_size m.
Proof.
  unfold access_in, access_valid, max_buffer_size. intros Ha Hv Hz.
  destruct Ha as [?|(? & ? & ?)]; [done|].
  rewrite !u256_to_u64_small by lia. done.
Qed.

Lemma size_u64 size : access_valid 0 ⟦size⟧ -> u256_to_u64 size = ⟦size⟧.
Proof.
  pose proof (u256_range size). unfold access_valid, max_buffer_size. intros.
  apply u256_to_u64_small. lia.
Qed.

Lemma access_size_u64 off size :
  access_valid ⟦off⟧ ⟦size⟧ -> u256_to_u64 size = ⟦size⟧ /\ 0 <= ⟦size⟧ <= max_buffer_size.
Proof.
  pose proof (u256_range size). intros [H0|[H1 H2]]; unfold max_buffer_size in *.
  - rewrite u256_to_u64_small by lia. lia.
  - rewrite u256_to_u64_small by lia. lia.
Qed.

Lemma access_in_mono off size m m' :
  access_in off size m -> Memory.m_size m <= Memory.m_size m' -> access_in off size m'.
Proof. unfold access_in. lia. Qed.

(** CALLDATACOPY and CODECOPY: the copied bytes are a window of the source,
    of which the first [n] bytes are visible. *)
Lemma wp_copy_window source n start (dst src size : uint256) (Q : unit -> _ -> Prop)
    (QR : ivmc_status_code -> _ -> Prop) s :
  start = (if u256_ltb (u256_of_u64 n) src then n else u256_to_u64 src) ->
  Memory.wf (memory s) -> access_in ⟦dst⟧ ⟦size⟧ (memory s) -> access_valid ⟦dst⟧ ⟦size⟧ ->
  0 <= n <= Z.of_nat (length source) -> n < 2 ^ 63 ->
  (forall m, stored (memory s) ⟦dst⟧ (window (take (Z.to_nat n) source) ⟦src⟧ ⟦size⟧) m ->
    Q tt (with_memory m s)) ->
  wp (Instr.copy_to_memory source (u256_to_u64 dst) start
        (Z.min (u256_to_u64 size) (u64 (n - start))) (u256_to_u64 size)) Q QR s.
Proof.
  intros -> Hwf Hin Hv Hn Hn63 HQ. pose proof (u256_range src). pose proof (u256_range dst).
  destruct (access_size_u64 _ _ Hv) as [Hsz Hs]. unfold max_buffer_size in *.
  assert ((if u256_ltb (u256_of_u64 n) src then n else u256_to_u64 src) = Z.min ⟦src⟧ n) as ->.
  { rewrite u256_ltb_spec, u256_of_u64_spec by lia.
    destruct (n <? ⟦src⟧) eqn:?; bool_prop; [lia|]. rewrite u256_to_u64_small; lia. }
  rewrite Hsz, u64_small by lia. pose proof (u256_to_u64_bound dst).
  assert (⟦size⟧ = 0 \/ u256_to_u64 dst = ⟦dst⟧ /\ ⟦dst⟧ + ⟦size⟧ <= Memory.m_size (memory s))
    as Hdst.
  { destruct (Z.eq_dec ⟦size⟧ 0) as [|Hz]; [by left|right].
    by destruct (access_in_u64 _ _ _ Hin Hv Hz) as (-> & _ & ?). }
  apply wp_copy_to_memory; [done|lia..|].
  intros m Hm. apply HQ. destruct Hdst as [Hz|[Hd _]].
  - rewrite Hz in *. replace (Z.min _ _) with 0 in Hm by lia. exact Hm.
  - rewrite Hd in Hm.
    pose proof (window_split (take (Z.to_nat n) source) ⟦src⟧ ⟦size⟧ ltac:(lia) ltac:(lia)) as Hw.
    cbn zeta in Hw. rewrite length_take in Hw.
    replace (Z.of_nat (Z.to_nat n `min` length source)) with n in Hw by lia.
    rewrite <- Hw, take_drop_commute, take_take, Nat.min_l by lia.
    rewrite <- take_drop_commute. exact Hm.
Qed.

(** The optional read of KECCAK256, LOG and the calls. *)
Lemma wp_read_input (b : bool) off size (Q : list byte -> _ -> Prop)
    (QR : ivmc_status_code -> _ -> Prop) s :
  Memory.wf (memory s) -> access_in ⟦off⟧ ⟦size⟧ (memory s) -> access_valid ⟦off⟧ ⟦size⟧ ->
  b = negb (u256_to_u64 size =? 0) \/ b = (0 <? u256_to_u64 size) ->
  (forall d, d = take (Z.to_nat ⟦size⟧) (drop (Z.to_nat ⟦off⟧) (Memory.bytes (memory s))) ->
    Z.of_nat (length d) = ⟦size⟧ -> Q d s) ->
  wp (if b then memory_read (u256_to_u64 off) (u256_to_u64 size) else mret []) Q QR s.
Proof.
  intros Hwf Hin Hv Hb HQ. pose proof (u256_range off). pose proof (u256_range size).
  destruct (access_size_u64 _ _ Hv) as [Hs _].
  assert (b = negb (⟦size⟧ =? 0)) as -> by 
    (rewrite Hs in Hb; destruct Hb as [->| ->]; [done|by destruct (Z.eqb_spec ⟦size⟧ 0); lia]).
  destruct (⟦size⟧ =? 0) eqn:Hz; bool_prop; cbn [negb].
  - apply wp_ret, HQ; rewrite Hz; [by rewrite take_0|done].
  - destruct (access_in_u64 _ _ _ Hin Hv Hz) as (-> & -> & Hend).
    apply wp_memory_read; [done|lia|lia|done|]. apply HQ; [done|].
    pose proof (memory_bytes_length _ Hwf). rewrite length_take, length_drop. lia.
Qed.
End Parts.

Section Arithmetic.
Context {E : Env} {ES : EnvSpec E}.

Ltac solve_safe n := open_safe; take_items n; wp_auto; safe_leaf.

Lemma add_safe : succeeds 2 (-1) Instr.add.
Proof. unfold Instr.add. solve_safe 2%nat. Qed.
Lemma sub_safe : succeeds 2 (-1) Instr.sub.
Proof. unfold Instr.sub. solve_safe 2%nat. Qed.
Lemma mul_safe : succeeds 2 (-1) Instr.mul.
Proof. unfold Instr.mul. solve_safe 2%nat. Qed.
Lemma div_safe : succeeds 2 (-1) Instr.div.
Proof. unfold Instr.div. solve_safe 2%nat. Qed.
Lemma sdiv_safe : succeeds 2 (-1) Instr.sdiv.
Proof. unfold Instr.sdiv. solve_safe 2%nat. Qed.
Lemma mod_safe : succeeds 2 (-1) Instr.mod_.
Proof. unfold Instr.mod_. solve_safe 2%nat. Qed.
Lemma smod_safe : succeeds 2 (-1) Instr.smod.
Proof. unfold Instr.smod. solve_safe 2%nat. Qed.
Lemma addmod_safe : succeeds 3 (-2) Instr.addmod.
Proof. unfold Instr.addmod. solve_safe 3%nat. Qed.
Lemma mulmod_safe : succeeds 3 (-2) Instr.mulmod.
Proof. unfold Instr.mulmod. solve_safe 3%nat. Qed.
Lemma signextend_safe : succeeds 2 (-1) Instr.signextend.
Proof. unfold Instr.signextend. solve_safe 2%nat. Qed.
Lemma lt_safe : succeeds 2 (-1) Instr.lt_.
Proof. unfold Instr.lt_. solve_safe 2%nat. Qed.
Lemma gt_safe : succeeds 2 (-1) Instr.gt_.
Proof. unfold Instr.gt_. solve_safe 2%nat. Qed.
Lemma slt_safe : succeeds 2 (-1) Instr.slt.
Proof. unfold Instr.slt. solve_safe 2%nat. Qed.
Lemma sgt_safe : succeeds 2 (-1) Instr.sgt.
Proof. unfold Instr.sgt. solve_safe 2%nat. Qed.
Lemma eq_safe : succeeds 2 (-1) Instr.eq_.
Proof. unfold Instr.eq_. solve_safe 2%nat. Qed.
Lemma iszero_safe : succeeds 1 0 Instr.iszero.
Proof. unfold Instr.iszero. solve_safe 1%nat. Qed.
Lemma and_safe : succeeds 2 (-1) Instr.and_.
Proof. unfold Instr.and_. solve_safe 2%nat. Qed.
Lemma or_safe : succeeds 2 (-1) Instr.or_.
Proof. unfold Instr.or_. solve_safe 2%nat. Qed.
Lemma xor_safe : succeeds 2 (-1) Instr.xor_.
Proof. unfold Instr.xor_. solve_safe 2%nat. Qed.
Lemma not_safe : succeeds 1 0 Instr.not_.
Proof. unfold Instr.not_. solve_safe 1%nat. Qed.
Lemma byte_safe : succeeds 2 (-1) Instr.byte_.
Proof. unfold Instr.byte_. solve_safe 2%nat. Qed.
Lemma shl_safe : succeeds 2 (-1) Instr.shl.
Proof. unfold Instr.shl. solve_safe 2%nat. Qed.
Lemma shr_safe : succeeds 2 (-1) Instr.shr.
Proof. unfold Instr.shr. solve_safe 2%nat. Qed.
Lemma sar_safe : succeeds 2 (-1) Instr.sar.
Proof. unfold Instr.sar. solve_safe 2%nat. Qed.
Lemma address_safe : succeeds 0 1 Instr.address_.
Proof. unfold Instr.address_. solve_safe 0%nat. Qed.
Lemma origin_safe : succeeds 0 1 Instr.origin.
Proof. unfold Instr.origin. solve_safe 0%nat. Qed.
Lemma caller_safe : succeeds 0 1 Instr.caller.
Proof. unfold Instr.caller. solve_safe 0%nat. Qed.
Lemma callvalue_safe : succeeds 0 1 Instr.callvalue.
Proof. unfold Instr.callvalue. solve_safe 0%nat. Qed.
Lemma calldatasize_safe : succeeds 0 1 Instr.calldatasize.
Proof. unfold Instr.calldatasize. solve_safe 0%nat. Qed.
Lemma codesize_safe : succeeds 0 1 Instr.codesize.
Proof. unfold Instr.codesize. solve_safe 0%nat. Qed.
Lemma gasprice_safe : succeeds 0 1 Instr.gasprice.
Proof. unfold Instr.gasprice. solve_safe 0%nat. Qed.
Lemma basefee_safe : succeeds 0 1 Instr.basefee.
Proof. unfold Instr.basefee. solve_safe 0%nat. Qed.
Lemma returndatasize_safe : succeeds 0 1 Instr.returndatasize.
Proof. unfold Instr.returndatasize. solve_safe 0%nat. Qed.
Lemma coinbase_safe : succeeds 0 1 Instr.coinbase.
Proof. unfold Instr.coinbase. solve_safe 0%nat. Qed.
Lemma timestamp_safe : succeeds 0 1 Instr.timestamp.
Proof. unfold Instr.timestamp. solve_safe 0%nat. Qed.
Lemma number_safe : succeeds 0 1 Instr.number.
Proof. unfold Instr.number. solve_safe 0%nat. Qed.
Lemma difficulty_safe : succeeds 0 1 Instr.difficulty.
Proof. unfold Instr.difficulty. solve_safe 0%nat. Qed.
Lemma gaslimit_safe : succeeds 0 1 Instr.gaslimit.
Proof. unfold Instr.gaslimit. solve_safe 0%nat. Qed.
Lemma chainid_safe : succeeds 0 1 Instr.chainid.
Proof. unfold Instr.chainid. solve_safe 0%nat. Qed.
Lemma selfbalance_safe : succeeds 0 1 Instr.selfbalance.
Proof. unfold Instr.selfbalance. solve_safe 0%nat. Qed.
Lemma pop_safe : succeeds 1 (-1) Instr.pop.
Proof. unfold Instr.pop. solve_safe 1%nat. Qed.
Lemma msize_safe : succeeds 0 1 Instr.msize.
Proof. unfold Instr.msize. solve_safe 0%nat. Qed.
Lemma gas_safe : succeeds 0 1 Instr.gas.
Proof. unfold Instr.gas. solve_safe 0%nat. Qed.
Lemma jumpdest_safe : succeeds 0 0 Instr.jumpdest.
Proof. unfold Instr.jumpdest. solve_safe 0%nat. Qed.
End Arithmetic.

(** ** Automation for bodies that charge gas and use memory *)
Ltac cost_unfold :=
  unfold additional_cold_account_access_cost, cold_sload_cost, warm_storage_read_cost,
    cold_account_access_cost in *.

(** Bounds of the costs charged. *)
Ltac pose_bounds :=
  repeat match goal with
  | |- context [num_words (u256_to_u64 ?x)] =>
      lazymatch goal with _ : 0 <= num_words (u256_to_u64 x) < _ |- _ => fail | _ =>
        pose proof (num_words_range (u256_to_u64 x) (u256_to_u64_bound x)) end
  | |- context [u256_to_u64 ?x] =>
      lazymatch goal with _ : 0 <= u256_to_u64 x < _ |- _ => fail | _ =>
        pose proof (u256_to_u64_bound x) end
  end.
Ltac cost_bound := pose_bounds; cost_unfold; unfold i64_max, i64_min in *; lia.

Ltac env_one :=
  lazymatch goal with
  | |- wp (Instr.charge_cold_account _ _) _ _ _ =>
      apply wp_charge_cold_account; [state_cbn; cost_bound|cost_bound|intros ? ? ?|intros ? ?]; state_cbn
  | |- wp (Instr.cold_storage _) _ _ _ => apply wp_cold_storage; intros ? ?; state_cbn
  | |- wp (Instr.require_memory _ _) _ _ _ =>
      apply wp_require_memory; [state_cbn; assumption|state_cbn; cost_bound
      |let m' := fresh "m'" in intros m' ? ? ? ? ? ? ? ->|intros ? ?];
      unfold mem_size in *; state_cbn
  | |- wp (Instr.require_memory_u64 _ _) _ _ _ =>
      apply wp_require_memory_u64;
      [state_cbn; assumption|state_cbn; cost_bound|unfold max_buffer_size; lia
      |let m' := fresh "m'" in intros m' ? ? ? ? ? ? ? ->|intros ? ?]; unfold mem_size in *; state_cbn
  | |- wp (if _ then memory_read (u256_to_u64 _) (u256_to_u64 _) else mret []) _ _ _ =>
      apply wp_read_input;
      [state_cbn; assumption|state_cbn; eauto using access_in_mono|eassumption
      |first [left; reflexivity|right; reflexivity]|intros ? ? ?]
  | |- wp (charge _) _ _ _ =>
      apply wp_charge; [state_cbn; cost_bound|cost_bound|intros ?; state_cbn|intros ?; state_cbn]
  | |- wp (int64 _) _ _ _ => apply wp_int64; [cost_bound|state_cbn]
  | |- _ => wp_one
  end.
Ltac env_auto := repeat env_one.
Ltac env_leaf := pose_bounds; cost_unfold; safe_leaf.

Ltac copy_window := eapply wp_copy_window;
  [reflexivity|state_cbn; assumption|state_cbn; assumption|eassumption| | |].

(** ** Instructions that read memory, storage and the environment *)
Section Environment.
Context {E : Env} {ES : EnvSpec E}.

Lemma exp_safe : safe 2 (-1) Instr.exp.
Proof.
  unfold Instr.exp. open_safe. take_items 2%nat.
  pose proof (count_significant_bytes_range x0).
  assert (forall b : bool, 0 <= intx_count_significant_bytes x0 * (if b then 50 else 10) <= 1600)
    as Hcost by (intros []; lia).
  wp_auto; specialize (Hcost (rev_geb rv IVMC_SPURIOUS_DRAGON));
    try env_leaf; unfold i64_max; lia.
Qed.

Lemma balance_safe : safe 1 0 Instr.balance.
Proof. unfold Instr.balance. open_safe. take_items 1%nat. env_auto; env_leaf. Qed.
Lemma extcodesize_safe : safe 1 0 Instr.extcodesize.
Proof. unfold Instr.extcodesize. open_safe. take_items 1%nat. env_auto; env_leaf. Qed.
Lemma extcodehash_safe : safe 1 0 Instr.extcodehash.
Proof. unfold Instr.extcodehash. open_safe. take_items 1%nat. env_auto; env_leaf. Qed.
Lemma sload_safe : safe 1 0 Instr.sload.
Proof. unfold Instr.sload. open_safe. take_items 1%nat. env_auto; env_leaf. Qed.

Lemma mload_safe : safe 1 0 Instr.mload.
Proof.
  unfold Instr.mload. open_safe. take_items 1%nat. env_auto; [|env_leaf].
  pose proof (u256_range x). unfold max_buffer_size in *.
  rewrite u256_to_u64_small by lia.
  apply wp_memory_read; state_cbn; [done|lia..|]. env_auto. env_leaf.
Qed.

Lemma mstore_safe : safe 2 (-2) Instr.mstore.
Proof.
  unfold Instr.mstore. open_safe. take_items 2%nat. env_auto; [|env_leaf].
  pose proof (u256_range x). unfold max_buffer_size in *.
  rewrite u256_to_u64_small by lia.
  apply wp_memory_write; state_cbn; rewrite ?length_be_store; [done|lia..|].
  intros. env_auto. env_leaf.
Qed.

Lemma mstore8_safe : safe 2 (-2) Instr.mstore8.
Proof.
  unfold Instr.mstore8. open_safe. take_items 2%nat. env_auto; [|env_leaf].
  pose proof (u256_range x). unfold max_buffer_size in *.
  rewrite u256_to_u64_small by lia.
  apply wp_memory_write; state_cbn; cbn [length]; [done|lia..|].
  intros. env_auto. env_leaf.
Qed.

Lemma keccak256_safe : safe 2 (-1) Instr.keccak256.
Proof.
  unfold Instr.keccak256. open_safe. take_items 2%nat. env_auto; env_leaf.
Qed.

Lemma calldataload_safe : succeeds 1 0 Instr.calldataload.
Proof.
  unfold Instr.calldataload. open_safe. take_items 1%nat.
  pose proof (ok_input _ Hmsg). env_auto; [env_leaf|].
  rewrite u256_ltb_spec, u256_of_u64_spec in Hif by (unfold msg_input_size in *; lia).
  bool_prop. unfold msg_input_size in *. pose proof (u256_range x).
  rewrite u256_to_u64_small by lia. rewrite (u64_small (⟦x⟧ + 32)) by lia.
  rewrite u64_small by lia.
  eapply wp_assume; [apply slice_Some; lia|]. apply wp_bind.
  eapply wp_assume; [apply overwrite_Some|].
  { lia. }
  { rewrite length_take, length_drop, length_replicate. lia. }
  env_auto. env_leaf.
Qed.

Lemma blockhash_safe : succeeds 1 0 Instr.blockhash.
Proof.
  unfold Instr.blockhash. open_safe. take_items 1%nat.
  env_one. env_one. env_one. env_one.
  pose proof (get_tx_context_ok h) as (_ & _ & _ & Hn & _). unfold i64_max in Hn.
  env_auto; env_leaf.
Qed.

Lemma sstore_cost_range r st cost :
  0 <= cost <= 2100 -> 0 <= Instr.sstore_cost r st cost <= 25000.
Proof.
  intros. unfold Instr.sstore_cost, warm_storage_read_cost, cold_sload_cost.
  destruct st; repeat case_match; lia.
Qed.

Lemma sstore_safe : safe 2 (-2) Instr.sstore.
Proof.
  unfold Instr.sstore. open_safe. take_items 2%nat. env_auto; try env_leaf.
  all: match goal with |- context [Instr.sstore_cost ?r ?st ?c] =>
    assert (0 <= Instr.sstore_cost r st c <= 25000)
      by (apply sstore_cost_range; unfold cold_sload_cost; try case_match; lia) end.
  all: env_auto; env_leaf.
Qed.

Lemma calldatacopy_safe : safe 3 (-3) Instr.calldatacopy.
Proof.
  unfold Instr.calldatacopy. open_safe. take_items 3%nat. env_auto; try env_leaf.
  pose proof (ok_input _ Hmsg). unfold msg_input_size in *. copy_window; [lia|lia|].
  intros m0 (Hwf0 & ? & _). env_auto. env_leaf.
Qed.

Lemma codecopy_safe : safe 3 (-3) Instr.codecopy.
Proof.
  unfold Instr.codecopy. open_safe. take_items 3%nat. env_auto; try env_leaf.
  copy_window; [lia|lia|].
  intros m0 (Hwf0 & ? & _). env_auto. env_leaf.
Qed.

Lemma returndatacopy_safe : safe 3 (-3) Instr.returndatacopy.
Proof.
  unfold Instr.returndatacopy. open_safe. take_items 3%nat. env_auto; try env_leaf.
  pose proof (u256_range x0). destruct (access_size_u64 _ _ ltac:(eassumption)) as [Hs ?].
  rewrite u256_ltb_spec, u256_of_u64_spec in Hif by lia. unfold max_buffer_size in *. bool_prop.
  rewrite Hs, (u256_to_u64_small x0) in * by lia. rewrite u64_small in Hif0 by lia.
  eapply wp_assume; [apply slice_Some; lia|].
  destruct (access_in_u64 x x1 m') as (Hx & _ & ?); [assumption..|lia|]. rewrite Hx.
  pose proof (u256_range x). pose proof (num_words_range ⟦x1⟧ ltac:(lia)).
  apply wp_memory_write; state_cbn; [done|lia|rewrite length_take; lia|].
  intros. env_auto. env_leaf.
Qed.

Lemma extcodecopy_safe : safe 4 (-4) Instr.extcodecopy.
Proof.
  unfold Instr.extcodecopy. open_safe. take_items 4%nat. env_auto; try env_leaf.
  destruct (access_size_u64 _ _ ltac:(eassumption)) as [Hs ?]. unfold max_buffer_size in *.
  bool_prop. pose proof (u256_range x0).
  pose proof (num_words_range (u256_to_u64 x2) ltac:(lia)).
  destruct (access_in_u64 x0 x2 m') as (Hx & _ & ?); [assumption..|lia|].
  rewrite Hx, Hs in *.
  match goal with |- context [copy_code ?a ?o ?n ?h] =>
    pose proof (copy_code_length a o n h ltac:(lia)) as Hlen;
    remember (copy_code a o n h) as copied end.
  apply wp_memory_write; state_cbn; [done|lia|lia|].
  intros m0 Hwf0 ? _. env_auto. 2: env_leaf. pose proof Hwf0 as (_ & _ & _ & ? & _).
  rewrite (u64_small (⟦x2⟧ - _)), u64_small by lia.
  apply wp_memory_write; state_cbn; [done|lia|rewrite length_replicate; lia|].
  intros m1 ? ? _. env_auto. env_leaf.
Qed.

Lemma dup_safe n : 1 <= n <= 16 -> succeeds n 1 (Instr.dup n).
Proof.
  intros Hn. unfold Instr.dup. open_safe.
  destruct (lookup_lt_is_Some_2 (Stack.items st) (Z.to_nat (n - 1)) ltac:(lia)) as [x Hx].
  apply wp_bind. eapply wp_stack_at; [done|lia|exact Hx|]. env_auto.
  env_leaf.
Qed.

Lemma swap_safe n : 1 <= n <= 16 -> succeeds (n + 1) 0 (Instr.swap n).
Proof.
  intros Hn. unfold Instr.swap. open_safe.
  destruct (lookup_lt_is_Some_2 (Stack.items st) (Z.to_nat n) ltac:(lia)) as [y Hy].
  destruct (lookup_lt_is_Some_2 (Stack.items st) (Z.to_nat 0) ltac:(lia)) as [x Hx].
  apply wp_bind. eapply wp_stack_at; [done|lia|exact Hx|].
  apply wp_bind. eapply wp_stack_at; [done|lia|exact Hy|].
  apply wp_bind. eapply wp_stack_set; [done|state_cbn; lia|]. intros st1 Hw1 Hi1. state_cbn.
  eapply wp_stack_set; state_cbn; [done|rewrite Hi1, length_insert; lia|].
  intros st2 Hw2 Hi2. state_cbn. rewrite Hi1 in Hi2. env_leaf.
Qed.
End Environment.
