(* ===== verification/SafetyControl.v ===== *)
(** * Absence of undefined behaviour: logging, halting and control flow

    The same property as Safety.v for LOG, whose number of stack items is a
    parameter, for the instructions that end the execution, and for those that
    compute the next code position. *)
From stdpp Require Import base list tactics option.
From S2P Require Import Prelude Intx Ivmc Code ExecutionState Instructions InstructionsCalls Hoare.
From S2P Require Import MemoryRequirements Safety.

Section Halting.
Context {E : Env}.

(** The output is empty or inside of the memory. *)
Definition output_ok (s : ExecutionState) : Prop :=
  output_size s = 0 \/
  (0 <= output_offset s /\ 0 <= output_size s /\ output_offset s + output_size s <= mem_size s).

(** The state when the execution ends normally. *)
Record halted (s s' : ExecutionState) : Prop := {
  ha_stack : Stack.wf (stack s');
  ha_memory : Memory.wf (memory s');
  ha_frame : same_frame s s';
  ha_output : output_ok s';
  ha_gas : 0 <= gas_left s' <= gas_left s
}.

(** A body that ends the execution with the status [code] and needs [req] items. *)
Definition halts (req : Z) (code : ivmc_status_code) (m : Instr ivmc_status_code) : Prop :=
  forall s, state_ok s -> req <= height s -> output_size s = 0 ->
  wp m (fun c s' => c = code /\ halted s s' /\ (is_failure c -> output_size s' = 0)) (failed s) s.

(** The end of an execution for any reason. *)
Record stopped (s s' : ExecutionState) : Prop := {
  sp_stack : Stack.wf (stack s');
  sp_memory : Memory.wf (memory s');
  sp_frame : same_frame s s';
  sp_output : output_ok s';
  sp_gas : ~ is_failure (status s') -> 0 <= gas_left s' <= gas_left s;
  sp_failure : is_failure (status s') -> output_size s' = 0
}.

(** A body that computes the next code position, [Next] of it holding, or
    ends the execution. *)
Definition moves (req change : Z) (m : Instr (option Z)) (Next : ExecutionState -> Z -> Prop)
    : Prop :=
  forall s, state_ok s -> req <= height s -> height s + change <= Stack.limit ->
  output_size s = 0 ->
  (exists a, analysis s = analysis_baseline a /\ Z.of_nat (length (jumpdest_map a)) < 2 ^ 64) ->
  wp m
    (fun o s' =>
       match o with
       | Some pos' => Next s pos' /\ state_ok s' /\ height s' = height s + change /\
           same_frame s s' /\ same_output s s' /\ gas_left s' = gas_left s
       | None => stopped s s' /\ is_failure (status s')
       end)
    (fun _ _ => False) s.

(** The position is marked in the map of the analysis. *)
Definition valid_jumpdest (s : ExecutionState) (pos : Z) : Prop :=
  match analysis s with
  | analysis_baseline a => nth_Z (jumpdest_map a) pos = Some true
  | _ => False
  end.
End Halting.

(** Closes the conjuncts of the postconditions of [moves]. *)
Ltac moves_leaf :=
  lazymatch goal with
  | |- stopped _ _ /\ _ =>
      split; [|split; discriminate]; constructor; state_cbn;
      [assumption|assumption|constructor; reflexivity|left; done
      |intros Hnf; exfalso; apply Hnf; split; discriminate|done]
  | |- _ /\ _ =>
      split; [|split; [constructor; state_cbn; first [assumption|lia]|]; split; [height_tac|];
        split; [constructor; reflexivity|]; split; [repeat split|reflexivity]]
  end.

Ltac halt_leaf :=
  pose_bounds; cost_unfold;
  lazymatch goal with
  | |- _ /\ halted _ _ /\ _ =>
      split; [reflexivity|]; split; [|intros Hfail; state_cbn; try done]; constructor; state_cbn;
      [assumption|assumption|constructor; reflexivity|unfold output_ok, mem_size; state_cbn; auto|lia]
  | |- failed _ _ _ => safe_leaf
  end.

Section Control.
Context {E : Env} {ES : EnvSpec E}.
Implicit Types s : ExecutionState.

Lemma stop_halts : halts 0 IVMC_SUCCESS Instr.stop.
Proof. intros s Hok Hreq Hout. open_state. unfold Instr.stop. env_auto. halt_leaf. Qed.

Lemma invalid_halts : halts 0 IVMC_INVALID_INSTRUCTION Instr.invalid.
Proof. intros s Hok Hreq Hout. open_state. unfold Instr.invalid. env_auto. halt_leaf. Qed.

Lemma return_halts c : ~ is_failure c -> halts 2 c (Instr.return_ c).
Proof.
  intros Hc s Hok Hreq Hout. open_state. take_items 2%nat. unfold Instr.return_.
  env_auto; halt_leaf.
  destruct (Z.eq_dec ⟦x0⟧ 0) as [Hz|Hz].
  - left. rewrite u256_to_u64_small; lia.
  - destruct (access_in_u64 x x0 m') as (-> & -> & ?); [assumption..|].
    pose proof (u256_range x). pose proof (u256_range x0). lia.
Qed.

Lemma selfdestruct_halts : halts 1 IVMC_SUCCESS Instr.selfdestruct.
Proof.
  intros s Hok Hreq Hout. open_state. take_items 1%nat. unfold Instr.selfdestruct.
  env_auto; halt_leaf.
Qed.

Lemma wp_pop_topics n (Q : list bytes32 -> _ -> Prop) (QR : ivmc_status_code -> _ -> Prop) s :
  Stack.wf (stack s) -> (n <= length (Stack.items (stack s)))%nat ->
  (forall st, Stack.wf st -> Stack.items st = drop n (Stack.items (stack s)) ->
    Q (map be_store (take n (Stack.items (stack s)))) (with_stack st s)) ->
  wp (Instr.pop_topics n) Q QR s.
Proof.
  revert Q s. induction n as [|n IH]; intros Q s Hwf Hlen HQ; cbn [Instr.pop_topics].
  - apply wp_ret. replace s with (with_stack (stack s) s) by by destruct s. by apply HQ.
  - destruct (Stack.items (stack s)) as [|x l] eqn:Hi; cbn [length] in Hlen; [lia|].
    apply wp_bind. eapply wp_stack_pop; [done|done|]. intros st Hw Hl.
    apply wp_bind, IH; state_cbn; rewrite ?Hl; [done|lia|].
    intros st' Hw' Hl'. apply wp_ret. exact (HQ _ Hw' Hl').
Qed.

Lemma log_safe n : 0 <= n <= 4 -> safe (n + 2) (- (n + 2)) (Instr.log n).
Proof.
  intros Hn. unfold Instr.log. open_safe. take_items 2%nat. env_auto; try env_leaf.
  destruct (access_size_u64 x x0 ltac:(assumption)) as [Hs Hb].
  unfold max_buffer_size in Hb.
  rewrite (to_i64_small (u256_to_u64 x0)) by (unfold i64_min, i64_max; lia).
  apply wp_int64; [unfold i64_min, i64_max; lia|]. env_one. env_one; [|env_leaf].
  apply wp_bind, wp_pop_topics; state_cbn.
  { assumption. }
  { match goal with H : Stack.items _ = l |- _ => rewrite H end. cbn [length] in Hreq. lia. }
  intros st2 Hw2 Hi2. state_cbn. env_auto. env_leaf.
Qed.

Lemma nth_Z_lookup {A} (l : list A) (i : Z) : 0 <= i -> nth_Z l i = l !! Z.to_nat i.
Proof. intros. unfold nth_Z. destruct (_ <? 0) eqn:?; [lia|done]. Qed.

(** The decision of [jump_impl]: the marked destinations and no others. *)
Lemma wp_jump_impl a dst (Q : option Z -> _ -> Prop) (QR : ivmc_status_code -> _ -> Prop) s :
  analysis s = analysis_baseline a -> Z.of_nat (length (jumpdest_map a)) < 2 ^ 64 ->
  (nth_Z (jumpdest_map a) ⟦dst⟧ = Some true -> Q (Some ⟦dst⟧) s) ->
  (nth_Z (jumpdest_map a) ⟦dst⟧ <> Some true ->
    Q None (with_status IVMC_BAD_JUMP_DESTINATION s)) ->
  wp (Instr.jump_impl dst) Q QR s.
Proof.
  intros Ha Hlen HQ HN. unfold Instr.jump_impl. apply wp_bind, wp_asks. rewrite Ha.
  pose proof (u256_range dst). rewrite u256_ltb_spec, u256_of_u64_spec by lia.
  destruct (⟦dst⟧ <? _) eqn:Hlt; bool_prop; cbn [negb].
  - rewrite u256_to_u64_small by lia. apply wp_bind.
    destruct (lookup_lt_is_Some_2 (jumpdest_map a) (Z.to_nat ⟦dst⟧) ltac:(lia)) as [b Hb].
    rewrite nth_Z_lookup, Hb in * by lia. eapply wp_assume; [reflexivity|].
    destruct b; cbn [negb]; [by apply wp_ret, HQ|].
    by apply wp_bind, wp_modify, wp_ret, HN.
  - apply wp_bind, wp_modify, wp_ret, HN.
    rewrite nth_Z_lookup by lia. rewrite lookup_ge_None_2; [done|lia].
Qed.

Ltac open_moves := intros s Hok Hreq Hlim Hout (a & Ha & Hmap); open_state.

Lemma jump_moves pos : moves 1 (-1) (Instr.jump pos) valid_jumpdest.
Proof.
  open_moves. take_items 1%nat. unfold Instr.jump. env_auto.
  eapply wp_jump_impl; state_cbn; [exact Ha|done|intros Hv|intros Hv].
  - moves_leaf. unfold valid_jumpdest. state_cbn. by rewrite Ha.
  - moves_leaf.
Qed.

Lemma jumpi_moves pos :
  moves 2 (-2) (Instr.jumpi pos) (fun s p => p = pos + 1 \/ valid_jumpdest s p).
Proof.
  open_moves. take_items 2%nat. unfold Instr.jumpi. env_auto.
  - eapply wp_jump_impl; state_cbn; [exact Ha|done|intros Hv|intros Hv].
    + moves_leaf. right. unfold valid_jumpdest. state_cbn. by rewrite Ha.
    + moves_leaf.
  - moves_leaf. by left.
Qed.

Lemma pc_moves pos : moves 0 1 (Instr.pc pos) (fun _ p => p = pos + 1).
Proof. open_moves. take_items 0%nat. unfold Instr.pc. env_auto. moves_leaf. done. Qed.

Lemma push_moves len pos s :
  1 <= len <= 32 -> 0 <= pos -> pos + 1 + len <= Z.of_nat (length (view_data (code s))) ->
  state_ok s -> height s + 1 <= Stack.limit ->
  wp (Instr.push len pos)
    (fun o s' => o = Some (pos + (len + 1)) /\ state_ok s' /\ height s' = height s + 1 /\
       same_frame s s' /\ same_output s s' /\ gas_left s' = gas_left s) (fun _ _ => False) s.
Proof.
  intros Hlen Hpos Hend Hok Hlim. open_state. take_items 0%nat. unfold Instr.push.
  env_one. env_one. apply wp_bind. eapply wp_assume; [apply slice_Some; lia|].
  env_auto. moves_leaf. done.
Qed.
End Control.
