(* ===== verification/SafetyCalls.v ===== *)
(** * Calls and creations: absence of undefined behaviour, and the gas they use

    The rules of the parts of [call] and [create]; the gas rules state exactly
    what the host is given: at most 63/64 of the available gas since Tangerine
    Whistle, plus the stipend that the charge of the transfer has paid for. *)
From stdpp Require Import base list tactics option.
From S2P Require Import Prelude Intx Ivmc Code ExecutionState Instructions InstructionsCalls Hoare.
From S2P Require Import MemoryRequirements Safety.

(** The gas a call that asks for [wanted] can have when [g] is left. *)
Definition callable_gas (r : ivmc_revision) (g wanted : Z) : Z :=
  if rev_geb r IVMC_TANGERINE_WHISTLE then Z.min wanted (g - g / 64) else wanted.

Definition stipend (has_value : bool) : Z := if has_value then 2300 else 0.

Lemma stipend_range b : 0 <= stipend b <= 2300.
Proof. unfold stipend. destruct b; lia. Qed.

Lemma callable_gas_range r g wanted :
  0 <= g -> 0 <= wanted -> (rev_geb r IVMC_TANGERINE_WHISTLE = false -> wanted <= g) ->
  0 <= callable_gas r g wanted <= g.
Proof.
  intros Hg Hw Hr. unfold callable_gas. pose proof (Z.div_pos g 64 Hg ltac:(lia)).
  pose proof (Z.div_mod g 64 ltac:(lia)). pose proof (Z.mod_pos_bound g 64 ltac:(lia)).
  destruct (rev_geb r _); [lia|]. specialize (Hr eq_refl). lia.
Qed.

Section CallParts.
Context {E : Env} {ES : EnvSpec E}.
Implicit Types s : ExecutionState.

Lemma clamp_gas_spec gas : Calls.clamp_gas gas = Z.min ⟦gas⟧ i64_max.
Proof.
  pose proof (u256_range gas). unfold Calls.clamp_gas, i64_max.
  rewrite u256_ltb_spec, u256_of_u64_spec by lia.
  destruct (⟦gas⟧ <? _) eqn:?; bool_prop; [|lia].
  rewrite u256_to_u64_small, to_i64_small by (unfold i64_min, i64_max; lia). lia.
Qed.

Lemma wp_call_cost kind has_value dst (Q : Z -> _ -> Prop) (QR : _ -> _ -> Prop) s :
  (forall h c, stipend has_value <= c <= 34000 -> Q c (with_host h s)) ->
  QR IVMC_STATIC_MODE_VIOLATION s ->
  wp (Calls.call_cost kind has_value dst) Q QR s.
Proof.
  intros HQ HR. unfold Calls.call_cost.
  assert (forall c, stipend has_value <= c <= 34000 -> Q c s) as HQ'.
  { intros. replace s with (with_host (host s) s) by by destruct s. by apply HQ. }
  wp_auto; try done; try (apply HQ); try (apply HQ'); unfold stipend in *; repeat case_match; subst; try done; lia.
Qed.

(** Before Tangerine Whistle the requested gas has to be left. *)
Definition gas_available (r : ivmc_revision) (available wanted : Z) : Prop :=
  rev_geb r IVMC_TANGERINE_WHISTLE = true \/ wanted <= available.

Lemma wp_limit_gas_exact gas (Q : Z -> _ -> Prop) (QR : _ -> _ -> Prop) s :
  0 <= gas_left s <= i64_max ->
  let wanted := Z.min ⟦gas⟧ i64_max in
  (let g := callable_gas (rev s) (gas_left s) wanted in
   gas_available (rev s) (gas_left s) wanted -> 0 <= g <= gas_left s -> Q g s) ->
  (~ gas_available (rev s) (gas_left s) wanted -> QR IVMC_OUT_OF_GAS s) ->
  wp (Calls.limit_gas gas) Q QR s.
Proof.
  intros Hg wanted HQ HR. subst wanted. unfold Calls.limit_gas. rewrite clamp_gas_spec.
  pose proof (u256_range gas). unfold i64_max in *.
  pose proof (callable_gas_range (rev s) (gas_left s) (Z.min ⟦gas⟧ (2 ^ 63 - 1))
                ltac:(lia) ltac:(lia)) as Hc.
  unfold callable_gas, gas_available in *.
  pose proof (Z.quot_div_nonneg (gas_left s) 64 ltac:(lia) ltac:(lia)) as Hq.
  pose proof (Z.div_pos (gas_left s) 64 ltac:(lia) ltac:(lia)).
  pose proof (Z.div_le_upper_bound (gas_left s) 64 (gas_left s) ltac:(lia) ltac:(lia)).
  wp_auto; rewrite ?Hq, ?Hif in *; bool_prop.
  - lia.
  - apply HQ; [by left|by apply Hc].
  - apply HR. intros [?|?]; [done|lia].
  - apply HQ; [by right|apply Hc; lia].
Qed.

Lemma wp_limit_gas gas (Q : Z -> _ -> Prop) (QR : _ -> _ -> Prop) s :
  0 <= gas_left s <= i64_max ->
  (let g := callable_gas (rev s) (gas_left s) (Z.min ⟦gas⟧ i64_max) in
   0 <= g <= gas_left s -> Q g s) ->
  QR IVMC_OUT_OF_GAS s ->
  wp (Calls.limit_gas gas) Q QR s.
Proof. intros Hg HQ HR. apply wp_limit_gas_exact; auto. Qed.

Lemma wp_create_gas (Q : Z -> _ -> Prop) (QR : ivmc_status_code -> _ -> Prop) s :
  0 <= gas_left s <= i64_max ->
  (let g := callable_gas (rev s) (gas_left s) (gas_left s) in 0 <= g <= gas_left s -> Q g s) ->
  wp Calls.create_gas Q QR s.
Proof.
  intros Hg HQ. unfold Calls.create_gas, i64_max in *.
  pose proof (callable_gas_range (rev s) (gas_left s) (gas_left s) ltac:(lia) ltac:(lia)) as Hc.
  unfold callable_gas in *.
  pose proof (Z.quot_div_nonneg (gas_left s) 64 ltac:(lia) ltac:(lia)) as Hq.
  pose proof (Z.div_pos (gas_left s) 64 ltac:(lia) ltac:(lia)).
  pose proof (Z.div_le_upper_bound (gas_left s) 64 (gas_left s) ltac:(lia) ltac:(lia)).
  rewrite (Z.min_r (gas_left s)) in * by lia.
  wp_auto; rewrite ?Hq, ?Hif in *; [lia|apply HQ, Hc; lia|apply HQ, Hc; lia].
Qed.

Lemma wp_add_stipend (has_value : bool) msg_gas (Q : Z -> _ -> Prop) (QR : _ -> _ -> Prop) s :
  0 <= msg_gas <= gas_left s -> gas_left s + stipend has_value <= i64_max ->
  Q (msg_gas + stipend has_value) (with_gas_left (gas_left s + stipend has_value) s) ->
  wp (Calls.add_stipend has_value msg_gas) Q QR s.
Proof.
  intros Hm Hg HQ. unfold Calls.add_stipend, stipend, i64_max in *. destruct has_value.
  - wp_one. wp_one; [lia|]. wp_one. apply wp_add_gas; [unfold i64_min, i64_max; lia|]. by wp_auto.
  - apply wp_ret. rewrite !Z.add_0_r in HQ. by destruct s.
Qed.

Lemma wp_too_poor value (Q : bool -> _ -> Prop) (QR : ivmc_status_code -> _ -> Prop) s :
  (forall h b, Q b (with_host h s)) -> wp (Calls.too_poor value) Q QR s.
Proof.
  intros HQ. unfold Calls.too_poor. wp_auto; [apply HQ|].
  replace s with (with_host (host s) s) by by destruct s. apply HQ.
Qed.

Lemma wp_pay_gas_used msg_gas g (Q : unit -> _ -> Prop) (QR : ivmc_status_code -> _ -> Prop) s :
  0 <= g <= msg_gas -> msg_gas <= gas_left s <= i64_max ->
  Q tt (with_gas_left (gas_left s - (msg_gas - g)) s) ->
  wp (Calls.pay_gas_used msg_gas g) Q QR s.
Proof.
  intros Hg Hm HQ. unfold Calls.pay_gas_used, i64_max in *. wp_one. wp_one; [lia|]. wp_one.
  apply wp_sub_gas; [unfold i64_min, i64_max; lia|]. by wp_auto.
Qed.

Lemma wp_host_call m (Q : ivmc_result -> _ -> Prop) (QR : ivmc_status_code -> _ -> Prop) s :
  0 <= msg_gas m -> (forall r h, result_ok m r -> Q r (with_host h s)) ->
  wp (host_do (host_call m)) Q QR s.
Proof. intros Hm HQ. apply wp_host_do, HQ, host_call_ok, Hm. Qed.

(** The copy of the call output into the memory. *)
Lemma wp_write_output d off size (Q : unit -> _ -> Prop) (QR : ivmc_status_code -> _ -> Prop) s :
  Memory.wf (memory s) -> access_in ⟦off⟧ ⟦size⟧ (memory s) -> access_valid ⟦off⟧ ⟦size⟧ ->
  (forall m, stored (memory s) ⟦off⟧ (take (Z.to_nat ⟦size⟧) d) m -> Q tt (with_memory m s)) ->
  wp (let copy_size := Z.min (u256_to_u64 size) (Z.of_nat (length d)) in
      if 0 <? copy_size then
        bs ← assume_some (slice d 0 copy_size); memory_write (u256_to_u64 off) bs
      else mret tt) Q QR s.
Proof.
  intros Hwf Hin Hv HQ. cbv zeta. pose proof (u256_range off).
  destruct (access_size_u64 _ _ Hv) as [Hs Hb]. rewrite Hs.
  assert (take (Z.to_nat ⟦size⟧) d =
          take (Z.to_nat (Z.min ⟦size⟧ (Z.of_nat (length d)))) (drop 0 d)) as Ht.
  { rewrite drop_0. destruct (Z.le_ge_cases ⟦size⟧ (Z.of_nat (length d))).
    - f_equal. lia.
    - rewrite !take_ge by lia. done. }
  destruct (0 <? _) eqn:Hc; bool_prop.
  - destruct (access_in_u64 _ _ _ Hin Hv ltac:(lia)) as (-> & _ & Hend).
    apply wp_bind. eapply wp_assume; [apply slice_Some; lia|].
    apply wp_memory_write; [done|lia|rewrite length_take, length_drop; lia|].
    intros m Hwm Hsz Hw. apply HQ. split; [done|]. split; [done|]. rewrite Ht.
    change (Z.to_nat 0) with 0%nat in Hw.
    destruct (take _ (drop 0 d)) eqn:He; [|done].
    apply (f_equal length) in He. rewrite length_take, drop_0 in He. cbn in He. lia.
  - apply wp_ret. replace s with (with_memory (memory s) s) by by destruct s. apply HQ.
    split; [done|]. split; [done|]. rewrite Ht.
    replace (Z.to_nat _) with 0%nat by lia. by rewrite take_0.
Qed.
End CallParts.

Section CallSafety.
Context {E : Env} {ES : EnvSpec E}.

(** The items [call] pops. *)
Definition call_items (kind : ivmc_call_kind) (static : bool) : Z :=
  if static || bool_decide (kind = IVMC_DELEGATECALL) then 6 else 7.

Ltac calls_one :=
  lazymatch goal with
  | |- wp (Calls.call_cost _ ?b _) _ _ _ =>
      apply wp_call_cost; [intros ? ? ?; pose proof (stipend_range b)|]; state_cbn
  | |- wp (Calls.limit_gas _) _ _ _ =>
      apply wp_limit_gas; [state_cbn; cost_bound|intros ? ?|]; state_cbn
  | |- wp (Calls.add_stipend ?b _) _ _ _ =>
      apply wp_add_stipend; state_cbn; [cost_bound|cost_bound|]
  | |- wp Calls.create_gas _ _ _ =>
      apply wp_create_gas; [state_cbn; cost_bound|intros ? ?]; state_cbn
  | |- wp (Calls.too_poor _) _ _ _ => apply wp_too_poor; intros ? ?; state_cbn
  | |- wp (host_do (host_call _)) _ _ _ =>
      apply wp_host_call; cbn [msg_gas];
      [cost_bound|intros ? ? (? & ? & ?); cbn [msg_gas] in *]; state_cbn
  | |- wp (if 0 <? Z.min (u256_to_u64 ?x) _ then _ else _) _ _ _ =>
      eapply (wp_write_output _ _ x); state_cbn;
      [assumption|eauto using access_in_mono|eassumption|intros ? (? & ? & _)]; state_cbn
  | |- wp (Calls.pay_gas_used _ _) _ _ _ =>
      apply wp_pay_gas_used; state_cbn; [cost_bound|cost_bound|]
  | |- wp (Calls.set_return_data _) _ _ _ => apply wp_modify; state_cbn
  | |- wp (int32 _) _ _ _ => apply wp_int32; [unfold i32_max; lia|state_cbn]
  | |- _ => env_one
  end.

Lemma call_safe kind static :
  safe (call_items kind static) (1 - call_items kind static) (Calls.call kind static).
Proof.
  unfold call_items, Calls.call. open_safe.
  pose proof (ok_depth _ Hmsg).
  destruct (static || bool_decide (kind = IVMC_DELEGATECALL)).
  - take_items 6%nat. repeat calls_one; env_leaf.
  - take_items 7%nat. repeat calls_one; env_leaf.
Qed.

Lemma create_safe kind :
  safe (if bool_decide (kind = IVMC_CREATE2) then 4 else 3)
    (if bool_decide (kind = IVMC_CREATE2) then -3 else -2) (Calls.create kind).
Proof.
  unfold Calls.create. open_safe. pose proof (ok_depth _ Hmsg).
  destruct (bool_decide (kind = IVMC_CREATE2)).
  - take_items 4%nat. repeat calls_one; env_leaf.
  - take_items 3%nat. repeat calls_one; env_leaf.
Qed.
End CallSafety.
