(* ===== verification/Baseline.v ===== *)
(** * The Baseline interpreter (lib/ivmone/baseline.cpp)

    [analyze] finds the valid jump destinations and pads the code; [execute]
    runs the padded code one instruction at a time, checking the requirements
    of each.  The interpreter loop takes fuel; [execute] is run with a fuel
    that the termination theorem shows to be enough. *)
From stdpp Require Import base list tactics option.
From S2P Require Import Prelude Intx Ivmc Code ExecutionState Instructions InstructionsCalls.
From S2P Require Import Traits Dispatch.

Module Baseline.
Section Baseline.
Context {E : Env}.

(** ** Code analysis *)

(** The [while (i < code_size)] loop: the final [i] and the bitmap. *)
Fixpoint scan (fuel : nat) (code : list byte) (i : Z) (map : list bool)
    : option (Z * list bool) :=
  match fuel with
  | O => None
  | S fuel' =>
      if i <? Z.of_nat (length code) then
        b ← nth_Z code i;
        let op := byte_to_Z b in
        if OP_PUSH1 <=? to_i8 op then
          let i := i + (op - (OP_PUSH1 - 1)) in
          scan fuel' code (i + 1) map
        else if op =? OP_JUMPDEST then
          scan fuel' code (i + 1) (<[Z.to_nat i := true]> map)
        else scan fuel' code (i + 1) map
      else Some (i, map)
  end.

Definition analyze (code : list byte) : option CodeAnalysis :=
  let code_size := Z.of_nat (length code) in
  '(i, map) ← scan (S (length code)) code 0 (replicate (length code) false);
  let padded := uninitialised_bytes 0 (i + 1) in
  padded ← overwrite padded 0 code;
  padded ← overwrite padded code_size [byte_of_Z OP_STOP];
  padded ← overwrite padded i [byte_of_Z OP_STOP];
  Some (mk_code_analysis padded map).

(** ** Execution *)
Definition check_requirements (table : list InstructionTableEntry) (op : Z)
    : Instr ivmc_status_code :=
  metrics ← assume_some (nth_Z table op);
  if te_gas_cost metrics =? undefined then return_status IVMC_UNDEFINED_INSTRUCTION
  else
    charge (te_gas_cost metrics);;
    stack_size ← asks (fun s => Stack.size (stack s));
    if stack_size =? Stack.limit then
      if te_can_overflow_stack metrics then return_status IVMC_STACK_OVERFLOW
      else mret IVMC_SUCCESS
    else if stack_size <? te_stack_height_required metrics
    then return_status IVMC_STACK_UNDERFLOW
    else mret IVMC_SUCCESS.

Definition exit_with (c : ivmc_status_code) : Instr (option Z) :=
  modify (with_status c);; mret None.

Definition invoke (f : InstrImpl) (pos : Z) : Instr (option Z) :=
  match f with
  | SucceedingInstrFn f => f;; mret (Some (pos + 1))
  | MayFailInstrFn f =>
      c ← call_body f;
      if bool_decide (c = IVMC_SUCCESS) then mret (Some (pos + 1)) else exit_with c
  | TerminatingInstrFn f => c ← call_body f; exit_with c
  | CodePositionInstrFn f => f pos
  end.

(** One iteration of the interpreter loop; [None] is [goto exit]. *)
Definition step (table : list InstructionTableEntry) (pos : Z) : Instr (option Z) :=
  c ← asks code;
  b ← assume_some (nth_Z (view_data c) pos);
  let op := byte_to_Z b in
  st ← call_body (check_requirements table op);
  if bool_decide (st = IVMC_SUCCESS) then
    f ← assume_some (op2fn op);
    invoke (instr_impl f) pos
  else exit_with st.

(** What the tracers are notified of. *)
Inductive trace_event :=
| execution_start (r : ivmc_revision) (m : ivmc_message) (c : bytes_view)
| instruction_start (pc : Z) (s : ExecutionState)
| execution_end (result : ivmc_result).

Inductive run_result :=
| Finished (s : ExecutionState) (trace : list trace_event)
| Stuck
| OutOfFuel.

Definition trace_instruction (tracing : bool) (pos : Z) (s : ExecutionState) : list trace_event :=
  let offset := u32 pos in
  if tracing && (offset <? view_size (code s)) then [instruction_start offset s] else [].

Fixpoint run (tracing : bool) (fuel : nat) (table : list InstructionTableEntry) (pos : Z)
    (s : ExecutionState) (trace : list trace_event) : run_result :=
  match fuel with
  | O => OutOfFuel
  | S fuel' =>
      let trace := trace ++ trace_instruction tracing pos s in
      match step table pos s with
      | Ok (Some pos') s' => run tracing fuel' table pos' s' trace
      | Ok None s' => Finished s' trace
      | Return _ _ | UB => Stuck
      end
  end.

(** The result built after [exit:]. *)
Definition final_gas (s : ExecutionState) : Z :=
  if bool_decide (status s = IVMC_SUCCESS) || bool_decide (status s = IVMC_REVERT)
  then gas_left s else 0.

Definition exit_result (s : ExecutionState) : option ivmc_result :=
  output ← (if negb (output_size s =? 0)
            then Memory.read (memory s) (output_offset s) (output_size s) else Some []);
  Some (mk_result (status s) (final_gas s) output address_zero).

Inductive exec_result :=
| Executed (r : ivmc_result) (s : ExecutionState) (trace : list trace_event)
| ExecStuck
| ExecOutOfFuel.

Definition start_state (s : ExecutionState) (a : CodeAnalysis) : ExecutionState :=
  with_code (mk_view (padded_code a) (view_size (code s)))
    (with_analysis (analysis_baseline a) s).

(** [execute<TracingEnabled>(vm, state, analysis)]. *)
Definition execute_with (tracing : bool) (fuel : nat) (s : ExecutionState) (a : CodeAnalysis)
    : exec_result :=
  let s := start_state s a in
  let start := if tracing then [execution_start (rev s) (msg s) (code s)] else [] in
  let table := get_baseline_instruction_table (rev s) in
  match run tracing fuel table 0 s start with
  | Finished s' trace =>
      match exit_result s' with
      | Some r => Executed r s' (trace ++ if tracing then [execution_end r] else [])
      | None => ExecStuck
      end
  | Stuck => ExecStuck
  | OutOfFuel => ExecOutOfFuel
  end.

(** The IVMC entry point. *)
Definition execute (tracing : bool) (fuel : nat) (h : host_state) (r : ivmc_revision)
    (m : ivmc_message) (c : list byte) : exec_result :=
  match analyze c with
  | Some a => execute_with tracing fuel (new_state m r h c) a
  | None => ExecStuck
  end.
End Baseline.
End Baseline.
