(* ===== verification/MemorySpec.v ===== *)
(** * The instructions that work on the memory

    What check_memory, the loads and stores and the copying instructions do
    to the memory as a list of bytes, and the gas they charge. *)
From stdpp Require Import base list tactics option.
From S2P Require Import Prelude Intx Ivmc Mock Code ExecutionState Instructions InstructionsCalls.
From S2P Require Import Dispatch Hoare Samples MemoryRequirements Safety.

(** The charge for copying [n] bytes, 3 for each word. *)
Definition copy_gas (n : Z) : Z := 3 * words_for n.

(** The [n] bytes of the memory at [off]. *)
Definition memory_slice (m : Memory.Memory) (off n : Z) : list byte :=
  take (Z.to_nat n) (drop (Z.to_nat off) (Memory.bytes m)).

(** Closes a path that fails because the access or the charge is too large. *)
Ltac not_affordable :=
  split; [reflexivity|]; unfold mem_size; state_cbn; intros [? ?];
  try match goal with H : ~ _ |- _ => apply H; split; [assumption|] end; lia.

Section Memory.
Context {E : Env} {ES : EnvSpec E}.
Implicit Types s : ExecutionState.

(** The memory and the gas after an access of [size] bytes at [off]. *)
Definition after_access (off size extra : Z) s (m : Memory.Memory) (g : Z) : Prop :=
  access_valid off size /\ expands (memory s) (access_end off size) m /\
  g = gas_left s - expansion_cost (mem_size s) (access_end off size) - extra /\ 0 <= g.

(** What check_memory answers, and the state it leaves. *)
Definition check_outcome (off size : Z) s (answer : bool) s' : Prop :=
  let bound := access_end off size in
  let cost := expansion_cost (mem_size s) bound in
  if answer then
    access_valid off size /\ cost <= gas_left s /\
    exists m, expands (memory s) bound m /\
      s' = with_memory m (with_gas_left (gas_left s - cost) s)
  else
    (~ access_valid off size /\ s' = s) \/
    (access_valid off size /\ gas_left s < cost /\ s' = with_gas_left (gas_left s - cost) s).

(** C13: check_memory accepts an access exactly when its size is zero or offset
    and size fit in 32 bits and the gas covers the quadratic cost of the
    expansion; it then charges that cost and extends the memory to whole words
    with zeros.  A rejected access leaves the memory alone, and an access out
    of range charges nothing. *)
Theorem check_memory_spec (offset size : uint256) s :
  Memory.wf (memory s) -> 0 <= gas_left s <= i64_max ->
  match Instr.check_memory offset size s with
  | Ok answer s' => check_outcome ⟦offset⟧ ⟦size⟧ s answer s'
  | _ => False
  end.
Proof.
  intros Hwf Hg.
  enough (wp (Instr.check_memory offset size) (check_outcome ⟦offset⟧ ⟦size⟧ s)
    (fun _ _ => False) s) as Hw by exact Hw.
  apply wp_check_memory; [done|done| |].
  - intros Hv. by left.
  - intros Hv. split.
    + intros m He Hc. split; [done|]. split; [done|]. by exists m.
    + intros Hc. by right.
Qed.

(** C16: Growing the memory appends zeros whatever the allocator returned and
    whatever an earlier use left in the buffer: a memory that was cleared for
    reuse reads as all zeros after it has grown again. *)
Theorem memory_reuse_is_clean m n k :
  Memory.wf m -> n mod 32 = 0 -> k mod 32 = 0 -> 0 < n < k -> k <= 2 ^ 33 ->
  exists m1 m2, Memory.grow (Memory.clear m) n = Some m1 /\ Memory.grow m1 k = Some m2 /\
    Memory.wf m2 /\ Memory.bytes m1 = replicate (Z.to_nat n) Byte.x00 /\
    Memory.bytes m2 = replicate (Z.to_nat k) Byte.x00.
Proof.
  intros Hwf Hn Hk Hnk Hmax. destruct (memory_clear_spec m Hwf) as [Hwc Hb].
  destruct (memory_grow_spec (Memory.clear m) n Hwc Hn) as (m1 & Hg1 & Hw1 & Hs1 & Hb1); [cbn; lia|].
  destruct (memory_grow_spec m1 k Hw1 Hk) as (m2 & Hg2 & Hw2 & Hs2 & Hb2); [lia|].
  exists m1, m2. split; [done|]. split; [done|]. split; [done|].
  rewrite Hb in Hb1. cbn in Hb1. rewrite Z.sub_0_r in Hb1. split; [done|].
  rewrite Hb2, Hb1, Hs1, <- replicate_add. f_equal. lia.
Qed.

Lemma stored_slice m off bs m' :
  stored m off bs m' -> 0 <= off -> off + Z.of_nat (length bs) <= Memory.m_size m ->
  memory_slice m' off (Z.of_nat (length bs)) = bs.
Proof.
  intros (Hw & Hs & Hst) Ho Hlen. unfold memory_slice. destruct bs as [|b bs]; [done|].
  pose proof (slice_overwrite _ _ _ _ Hst) as Hsl.
  pose proof (overwrite_length _ _ _ _ Hst). pose proof (memory_bytes_length _ Hw).
  rewrite slice_Some in Hsl by lia. by injection Hsl.
Qed.

Lemma expands_contains m bound m' off n :
  expands m bound m' -> off + n <= bound -> off + n <= Memory.m_size m'.
Proof.
  intros (_ & Hs & _) Hle. unfold expanded_size in Hs. pose proof (words_for_bound bound). lia.
Qed.

Ltac mem_start :=
  match goal with s : ExecutionState |- _ =>
    destruct s as [g st m mg h rv rd cd stt oo os an]; state_cbn end.

Lemma mstore_rule s x v l :
  Stack.wf (stack s) -> Stack.items (stack s) = x :: v :: l -> Memory.wf (memory s) ->
  0 <= gas_left s <= i64_max ->
  wp Instr.mstore
    (fun c s' => c = IVMC_SUCCESS /\ exists st m1 m2,
       Stack.wf st /\ Stack.items st = l /\
       after_access ⟦x⟧ 32 0 s m1 (gas_left s') /\ stored m1 ⟦x⟧ (be_digits 32 ⟦v⟧) m2 /\
       s' = with_stack st (with_memory m2 (with_gas_left (gas_left s') s)))
    (fun c _ => c = IVMC_OUT_OF_GAS) s.
Proof.
  intros Hst Hi Hm Hg. unfold Instr.mstore. mem_start. env_auto; [|done].
  pose proof (u256_range x). unfold max_buffer_size in *. rewrite u256_to_u64_small by lia.
  apply wp_memory_write; state_cbn; rewrite ?length_be_store; [done|lia..|].
  intros m2 Hw2 Hs2 Ho. env_auto. split; [done|]. eexists _, m', m2.
  split; [eassumption|]. split; [eassumption|]. state_cbn.
  assert (0 < 32) by lia.
  split; [|split; [|reflexivity]].
  - split; [right; unfold max_buffer_size; lia|]. split; [assumption|]. unfold mem_size. state_cbn.
    unfold access_end. cbn [Z.eqb]. lia.
  - rewrite <- be_store_spec. split; [done|]. split; [done|].
    destruct (be_store v) eqn:Hb; [|exact Ho].
    apply (f_equal length) in Hb. by rewrite length_be_store in Hb.
Qed.

(** C17: MSTORE and MLOAD round-trip: after a successful MSTORE of a word at
    an offset, MLOAD of that offset succeeds, charges nothing more, leaves the
    memory alone and puts the stored word on the stack. *)
Theorem mstore_mload s x v l c s1 st :
  Stack.wf (stack s) -> Stack.items (stack s) = x :: v :: l -> Memory.wf (memory s) ->
  0 <= gas_left s <= i64_max ->
  Instr.mstore s = Ok c s1 ->
  Stack.wf st -> Stack.items st = x :: l ->
  exists st', Instr.mload (with_stack st s1) = Ok IVMC_SUCCESS (with_stack st' s1) /\
    Stack.wf st' /\ Stack.items st' = v :: l.
Proof.
  intros Hst Hi Hm Hg Hrun Hst' Hi'. pose proof (mstore_rule s x v l Hst Hi Hm Hg) as Hw.
  unfold wp in Hw. rewrite Hrun in Hw.
  destruct Hw as (_ & st1 & m1 & m2 & Hst1 & Hi1 & Hacc & Hstored & Hs1).
  destruct Hacc as (Hv & He & Hgas & Hg1). pose proof (u256_range x).
  assert (0 <= ⟦x⟧ /\ ⟦x⟧ <= max_buffer_size) as [Hx Hx32]
    by (destruct Hv as [?|[? ?]]; [done|unfold max_buffer_size in *; lia]).
  pose proof Hstored as (Hwf2 & Hsz2 & _).
  assert (⟦x⟧ + 32 <= Memory.m_size m2) as Hend by (rewrite Hsz2; by eapply expands_contains).
  pose proof (stored_slice _ _ _ _ Hstored Hx ltac:(rewrite length_be_digits; lia)) as Hslice.
  rewrite length_be_digits in Hslice.
  assert (gas_left s1 <= gas_left s) as Hle.
  { pose proof (access_cost_range s ⟦x⟧ 32 Hm ltac:(lia) ltac:(lia) Hv). lia. }
  enough (wp Instr.mload (fun c s' => c = IVMC_SUCCESS /\ exists st', s' = with_stack st' s1 /\
    Stack.wf st' /\ Stack.items st' = v :: l) (fun _ _ => False) (with_stack st s1)) as Hwp.
  { unfold wp in Hwp. destruct (Instr.mload (with_stack st s1)) as [c' s'|c' s'|]; [|done|done].
    destruct Hwp as (-> & st' & -> & ? & ?). by exists st'. }
  assert (memory s1 = m2) as Hm2 by by rewrite Hs1.
  destruct s1 as [g1 st0 mm1 mg h rv rd cd stt oo os an]. state_cbn. subst mm1.
  unfold max_buffer_size in *. unfold Instr.mload. env_one. env_one. env_one. env_one.
  apply wp_require_memory_u64_inside; unfold max_buffer_size; state_cbn; [lia|lia|done|].
  rewrite u256_to_u64_small by lia. apply wp_bind, wp_memory_read; state_cbn; [done|lia|lia|done|].
  fold (memory_slice m2 ⟦x⟧ 32). change (Z.of_nat 32) with 32 in Hslice. rewrite Hslice.
  env_auto. split; [done|]. eexists. split; [reflexivity|]. split; [done|].
  rewrite <- be_store_spec, be_load_store in *. done.
Qed.

(** The access and [extra] gas can be paid for. *)
Definition affordable (off size extra : Z) s : Prop :=
  access_valid off size /\
  expansion_cost (mem_size s) (access_end off size) + extra <= gas_left s.

Lemma word_gas_spec off (size : uint256) :
  access_valid off ⟦size⟧ -> num_words (u256_to_u64 size) = words_for ⟦size⟧.
Proof.
  intros Hv. pose proof (u256_range size). unfold access_valid, max_buffer_size in *.
  rewrite u256_to_u64_small by lia. apply num_words_spec. lia.
Qed.

(** What CALLDATACOPY and CODECOPY copy from. *)
Definition copy_source (f : instr_fn) s : option (list byte) :=
  match f with
  | I_calldatacopy => Some (msg_input_data (msg s))
  | I_codecopy => Some (take (Z.to_nat (view_size (code s))) (view_data (code s)))
  | _ => None
  end.

(** C19: CALLDATACOPY and CODECOPY write to the memory the requested window of
    the call data or the code, with zeros past its end, for any 256-bit offset
    into it; they charge the expansion and 3 gas per word, and fail with out of
    gas exactly when the destination is out of range or that is not covered. *)
Theorem copy_instructions f body s dst src size l source :
  instr_impl f = MayFailInstrFn body -> copy_source f s = Some source -> state_ok s ->
  Stack.items (stack s) = dst :: src :: size :: l ->
  wp body
    (fun c s' => c = IVMC_SUCCESS /\ exists st m1 m2,
       Stack.wf st /\ Stack.items st = l /\
       after_access ⟦dst⟧ ⟦size⟧ (copy_gas ⟦size⟧) s m1 (gas_left s') /\
       stored m1 ⟦dst⟧ (window source ⟦src⟧ ⟦size⟧) m2 /\
       s' = with_stack st (with_memory m2 (with_gas_left (gas_left s') s)))
    (fun c _ => c = IVMC_OUT_OF_GAS /\ ~ affordable ⟦dst⟧ ⟦size⟧ (copy_gas ⟦size⟧) s) s.
Proof.
  intros Hf Hsrc Hok Hi. pose proof (words_for_bound ⟦size⟧). pose proof (u256_range size).
  unfold affordable, after_access. open_state.
  assert (access_valid ⟦dst⟧ ⟦size⟧ -> num_words (u256_to_u64 size) * 3 = copy_gas ⟦size⟧) as Hgas.
  { intros Hv. rewrite (word_gas_spec _ _ Hv). unfold copy_gas. lia. }
  unfold msg_input_size in *. pose proof (ok_input _ Hmsg). unfold msg_input_size in *.
  assert (0 <= copy_gas ⟦size⟧) by (unfold copy_gas; lia).
  destruct f; try discriminate Hsrc; injection Hsrc as <-; injection Hf as <-; state_cbn;
    [unfold Instr.calldatacopy|unfold Instr.codecopy]; env_auto;
    rewrite ?Hgas in * by assumption.
  all: lazymatch goal with
    | |- wp _ _ _ _ => unfold msg_input_size in *; copy_window; [lia|lia|]; intros m2 Hm2; env_auto; split; [done|];
        eexists _, m', m2; split; [eassumption|]; split; [eassumption|]; state_cbn;
        split; [split; [done|]; split; [done|]; unfold mem_size; state_cbn; lia|];
        split; [|reflexivity]
    | |- _ => not_affordable
    end.
  - unfold msg_input_size in Hm2. by rewrite firstn_all2 in Hm2 by lia.
  - exact Hm2.
Qed.
End Memory.

(** Ten bytes at 40: two words for a cost of 6. *)
Lemma check_memory_spec_witness :
  let s := sample_state (sample_message 100) IVMC_LONDON [] [] in
  match Instr.check_memory (sample_word 40) (sample_word 10) s with
  | Ok answer s' => check_outcome 40 10 s answer s' /\ gas_left s' = 94
  | _ => False
  end.
Proof.
  cbv zeta. pose proof (check_memory_spec (ES := Mock.env_spec) (sample_word 40) (sample_word 10)
    (sample_state (sample_message 100) IVMC_LONDON [] [])) as H.
  destruct (Instr.check_memory _ _ _) as [answer s'|? ?|] eqn:Hrun;
    [|apply H; [apply memory_new_spec|vm_compute; split; discriminate]..].
  split; [apply H; [apply memory_new_spec|vm_compute; split; discriminate]|].
  assert (match Instr.check_memory (sample_word 40) (sample_word 10)
    (sample_state (sample_message 100) IVMC_LONDON [] []) with
    | Ok _ s' => gas_left s' = 94 | _ => False end) as Hg by (vm_compute; reflexivity).
  rewrite Hrun in Hg. exact Hg.
Defined.

(** A memory that was grown to 64 bytes and written is reused. *)
Lemma memory_reuse_is_clean_witness :
  let grow := Memory.grow (E := Mock.env) in
  let fresh := Memory.new_memory (E := Mock.env) in
  exists m m1 m2,
    Memory.write (default fresh (grow fresh 64)) 3 [Byte.xff] = Some m /\
    grow (Memory.clear m) 32 = Some m1 /\ grow m1 96 = Some m2 /\
    Memory.bytes m2 = replicate 96 Byte.x00.
Proof.
  cbv zeta. destruct (memory_grow_spec (E := Mock.env) (Memory.new_memory (E := Mock.env)) 64) as (m0 & H0 & Hw0 & Hs0 & _);
    [apply memory_new_spec|reflexivity|cbn; lia|].
  destruct (memory_write_spec m0 3 [Byte.xff] Hw0) as (m & Hm & Hw & _); [lia|cbn; lia|].
  destruct (memory_reuse_is_clean (E := Mock.env) m 32 96 Hw) as (m1 & m2 & H1 & H2 & _ & _ & Hb);
    [reflexivity|reflexivity|lia|lia|].
  exists m, m1, m2. rewrite H0. split; [exact Hm|]. split; [exact H1|]. split; [exact H2|exact Hb].
Defined.

Lemma mstore_mload_witness :
  let s := sample_state (sample_message 100) IVMC_LONDON [33; 0xabcd; 7] [] in
  exists s1 st', Instr.mstore s = Ok IVMC_SUCCESS s1 /\
    Instr.mload (with_stack (sample_stack (map sample_word [33; 7])) s1) =
      Ok IVMC_SUCCESS (with_stack st' s1) /\
    Stack.items st' = [sample_word 0xabcd; sample_word 7].
Proof.
  cbv zeta.
  assert (match Instr.mstore (sample_state (sample_message 100) IVMC_LONDON [33; 0xabcd; 7] []) with
    | Ok IVMC_SUCCESS _ => true | _ => false end = true) as Hok by (vm_compute; reflexivity).
  destruct (Instr.mstore (sample_state (sample_message 100) IVMC_LONDON [33; 0xabcd; 7] []))
    as [[] s1|? ?|] eqn:Hrun; try discriminate Hok.
  destruct (sample_stack_spec (E := Mock.env) (map sample_word [33; 7])) as [Hw Hi]; [cbn; lia|].
  destruct (mstore_mload (ES := Mock.env_spec)
    (sample_state (sample_message 100) IVMC_LONDON [33; 0xabcd; 7] []) (sample_word 33)
    (sample_word 0xabcd) [sample_word 7] IVMC_SUCCESS s1
    (sample_stack (map sample_word [33; 7])))
    as (st' & Hload & _ & Hi'); [apply sample_wf; cbn; lia|apply sample_items; cbn; lia
    |apply memory_new_spec|vm_compute; split; discriminate|exact Hrun|exact Hw|exact Hi|].
  exists s1, st'. split; [reflexivity|]. split; [exact Hload|exact Hi'].
Defined.

(** Four bytes of call data and zeros. *)
Lemma copy_instructions_witness :
  let s := sample_state (sample_message_with 0 100 [Byte.x01; Byte.x02; Byte.x03; Byte.x04])
    IVMC_LONDON [0; 2; 5; 7] [] in
  wp Instr.calldatacopy
    (fun c s' => c = IVMC_SUCCESS /\ exists st m1 m2,
       Stack.wf st /\ Stack.items st = [sample_word 7] /\
       after_access 0 5 3 s m1 (gas_left s') /\
       stored m1 0 [Byte.x03; Byte.x04; Byte.x00; Byte.x00; Byte.x00] m2 /\
       s' = with_stack st (with_memory m2 (with_gas_left (gas_left s') s)))
    (fun c _ => c = IVMC_OUT_OF_GAS /\ ~ affordable 0 5 3 s) s.
Proof.
  apply (copy_instructions (ES := Mock.env_spec) I_calldatacopy Instr.calldatacopy
    (sample_state (sample_message_with 0 100 [Byte.x01; Byte.x02; Byte.x03; Byte.x04])
       IVMC_LONDON [0; 2; 5; 7] [])
    (sample_word 0) (sample_word 2) (sample_word 5) [sample_word 7]
    [Byte.x01; Byte.x02; Byte.x03; Byte.x04]); [reflexivity|reflexivity| |apply sample_items; cbn; lia].
  apply sample_state_ok; [vm_compute; split; discriminate|cbn; lia..].
Defined.
