(* ===== verification/DataSpec.v ===== *)
(** * The instructions that read byte strings

    CALLDATALOAD, RETURNDATACOPY, EXTCODECOPY and KECCAK256 as functions of
    the byte strings they read, and the output that RETURN and REVERT hand to
    the caller. *)
From stdpp Require Import base list tactics option.
From S2P Require Import Prelude Intx Ivmc Mock Code ExecutionState Instructions InstructionsCalls.
From S2P Require Import Dispatch Hoare Samples MemoryRequirements Safety SafetyControl MemorySpec.
From S2P Require Import Baseline.

Section Data.
Context {E : Env} {ES : EnvSpec E}.
Implicit Types s : ExecutionState.

Lemma calldataload_value (data : list byte) (x : Z) copied word :
  0 <= x <= Z.of_nat (length data) ->
  copied = take (Z.to_nat (Z.min (x + 32) (Z.of_nat (length data)) - x)) (drop (Z.to_nat x) data) ->
  word = take 0 (replicate 32 Byte.x00) ++ copied ++
    drop (0 + length copied) (replicate 32 Byte.x00) ->
  ⟦be_load word⟧ = be_value (window data x 32).
Proof.
  intros Hx Hc ->.
  pose proof (window_split data x 32 ltac:(lia) ltac:(lia)) as Hwin. cbn zeta in Hwin.
  assert (length copied = Z.to_nat (Z.min 32 (Z.of_nat (length data) - x))) as Hlen.
  { rewrite Hc, length_take, length_drop. lia. }
  rewrite take_0, drop_replicate. cbn [app Nat.add].
  rewrite be_load_spec by (rewrite length_app, length_replicate; lia).
  rewrite <- Hwin, Hlen, (Z.min_l x) by lia. f_equal. f_equal; [|f_equal; lia].
  rewrite Hc. f_equal. lia.
Qed.

(** C22: CALLDATALOAD replaces the index by the big-endian word at that place of
    the call data, read with zeros past its end, for every 256-bit index. *)
Theorem calldataload_instruction s x l :
  state_ok s -> Stack.items (stack s) = x :: l ->
  wp Instr.calldataload
    (fun _ s' => exists st z, s' = with_stack st s /\ Stack.wf st /\ Stack.items st = z :: l /\
       ⟦z⟧ = be_value (window (msg_input_data (msg s)) ⟦x⟧ 32))
    (fun _ _ => False) s.
Proof.
  intros Hok Hi. pose proof (u256_range x). open_state.
  pose proof (ok_input _ Hmsg) as Hin. unfold msg_input_size in Hin.
  unfold Instr.calldataload. env_auto.
  all: rewrite u256_ltb_spec, u256_of_u64_spec in Hif by (unfold msg_input_size in *; lia);
    bool_prop; unfold msg_input_size in *.
  - eexists _, _. split; [reflexivity|]. split; [done|]. split; [done|].
    unfold Instr.u256_0. rewrite u256_of_u64_spec by lia. unfold window.
    rewrite (map_ext_in _ (fun _ => Byte.x00)); [reflexivity|].
    intros i _. rewrite nth_Z_lookup by lia. rewrite lookup_ge_None_2; [done|lia].
  - rewrite u256_to_u64_small by lia. rewrite (u64_small (⟦x⟧ + 32)), u64_small by lia.
    eapply wp_assume; [apply slice_Some; lia|]. env_one.
    eapply wp_assume.
    { apply overwrite_Some; [done|]. rewrite length_take, length_drop, length_replicate. lia. }
    env_auto. eexists _, _. split; [reflexivity|]. split; [done|]. split; [done|].
    eapply calldataload_value; [|reflexivity|reflexivity]. lia.
Qed.

(** C20: RETURNDATACOPY copies exactly the requested bytes of the return data of
    the last call.  It decides in this order: out of gas exactly when the
    destination is not affordable; otherwise an invalid memory access exactly
    when the source window leaves the return data (even for zero bytes);
    otherwise out of gas exactly when the copy on top is not affordable. *)
Theorem returndatacopy_instruction s dst src size l :
  state_ok s -> Stack.items (stack s) = dst :: src :: size :: l ->
  let available := Z.of_nat (length (return_data s)) in
  wp Instr.returndatacopy
    (fun c s' => c = IVMC_SUCCESS /\ ⟦src⟧ + ⟦size⟧ <= available /\ exists st m1 m2,
       Stack.wf st /\ Stack.items st = l /\
       after_access ⟦dst⟧ ⟦size⟧ (copy_gas ⟦size⟧) s m1 (gas_left s') /\
       stored m1 ⟦dst⟧ (take (Z.to_nat ⟦size⟧) (drop (Z.to_nat ⟦src⟧) (return_data s))) m2 /\
       s' = with_stack st (with_memory m2 (with_gas_left (gas_left s') s)))
    (fun c _ =>
       (c = IVMC_OUT_OF_GAS /\ ~ affordable ⟦dst⟧ ⟦size⟧ 0 s) \/
       (affordable ⟦dst⟧ ⟦size⟧ 0 s /\
        ((c = IVMC_INVALID_MEMORY_ACCESS /\ available < ⟦src⟧ + ⟦size⟧) \/
         (c = IVMC_OUT_OF_GAS /\ ⟦src⟧ + ⟦size⟧ <= available /\
          ~ affordable ⟦dst⟧ ⟦size⟧ (copy_gas ⟦size⟧) s)))) s.
Proof.
  intros Hok Hi. cbv zeta. pose proof (words_for_bound ⟦size⟧). pose proof (u256_range size).
  pose proof (u256_range src). pose proof (u256_range dst).
  unfold affordable, after_access. open_state.
  assert (0 <= copy_gas ⟦size⟧) by (unfold copy_gas; lia).
  unfold Instr.returndatacopy. env_auto.
  all: try (left; not_affordable).
  all: destruct (access_size_u64 _ _ ltac:(eassumption)) as [Hs ?];
    rewrite u256_ltb_spec, u256_of_u64_spec in Hif by lia; unfold max_buffer_size in *; bool_prop.
  all: assert (expansion_cost (Memory.m_size m) (access_end ⟦dst⟧ ⟦size⟧) + 0 <= g) by lia.
  1: by right; split; [done|]; left; split; [done|lia].
  all: rewrite Hs, (u256_to_u64_small src) in * by lia; rewrite u64_small in Hif0 by lia.
  1: by right; split; [done|]; left; split; [done|lia].
  all: rewrite num_words_spec in * by lia.
  all: replace (words_for ⟦size⟧ * 3) with (copy_gas ⟦size⟧) in * by (unfold copy_gas; lia).
  3: by right; split; [done|]; right; split; [done|]; split; [lia|]; unfold mem_size; state_cbn; intros [? ?]; lia.
  - eapply wp_assume; [apply slice_Some; lia|].
    destruct (access_in_u64 dst size m') as (Hx & _ & ?); [assumption..|lia|]. rewrite Hx.
    apply wp_memory_write; state_cbn; [done|lia|rewrite length_take; lia|].
    intros m2 Hw2 Hs2 Ho. env_auto. split; [done|]. split; [lia|]. eexists _, m', m2.
    split; [eassumption|]. split; [eassumption|]. state_cbn.
    split; [split; [done|]; split; [done|]; unfold mem_size; state_cbn; lia|].
    split; [|reflexivity]. split; [done|]. split; [done|].
    destruct (take _ _) eqn:Ht; [|done]. apply (f_equal length) in Ht.
    rewrite length_take, length_drop in Ht. cbn in Ht. lia.
  - split; [done|]. split; [lia|]. eexists _, m', m'.
    split; [eassumption|]. split; [eassumption|]. state_cbn.
    split; [split; [done|]; split; [done|]; unfold mem_size; state_cbn; lia|].
    split; [|reflexivity]. split; [done|]. split; [done|].
    replace ⟦size⟧ with 0 by lia. by rewrite take_0.
Qed.

(** The gas of hashing [n] bytes, 6 for each word. *)
Definition keccak_gas (n : Z) : Z := 6 * words_for n.

(** C23: KECCAK256 replaces offset and size by the hash of that part of the
    memory, expanded with zeros; it charges the expansion and 6 gas per word,
    and fails with out of gas exactly when that is not affordable. *)
Theorem keccak256_instruction s off size l :
  state_ok s -> Stack.items (stack s) = off :: size :: l ->
  wp Instr.keccak256
    (fun c s' => c = IVMC_SUCCESS /\ exists st m1 z,
       Stack.wf st /\ Stack.items st = z :: l /\
       after_access ⟦off⟧ ⟦size⟧ (keccak_gas ⟦size⟧) s m1 (gas_left s') /\
       ⟦z⟧ = be_value (ethash_keccak256 (memory_slice m1 ⟦off⟧ ⟦size⟧)) /\
       s' = with_stack st (with_memory m1 (with_gas_left (gas_left s') s)))
    (fun c _ => c = IVMC_OUT_OF_GAS /\ ~ affordable ⟦off⟧ ⟦size⟧ (keccak_gas ⟦size⟧) s) s.
Proof.
  intros Hok Hi. pose proof (words_for_bound ⟦size⟧). pose proof (u256_range size).
  unfold affordable, after_access. open_state.
  assert (access_valid ⟦off⟧ ⟦size⟧ -> num_words (u256_to_u64 size) * 6 = keccak_gas ⟦size⟧) as Hgas.
  { intros Hv. rewrite (word_gas_spec _ _ Hv). unfold keccak_gas. lia. }
  assert (0 <= keccak_gas ⟦size⟧) by (unfold keccak_gas; lia).
  unfold Instr.keccak256. env_auto; rewrite ?Hgas in * by assumption; try not_affordable.
  split; [done|]. eexists _, m', _. split; [eassumption|]. split; [eassumption|]. state_cbn.
  split; [split; [done|]; split; [done|]; unfold mem_size; state_cbn; lia|].
  split; [|reflexivity]. subst. rewrite be_load_spec by (rewrite keccak_length; lia). done.
Qed.

(** C24: RETURN and REVERT hand the requested part of the memory, expanded with
    zeros, to the caller: the result built from the final state has the status
    of the instruction and exactly these bytes, and, as the expansion is the
    only charge, the gas that is left after it. *)
Theorem return_output c s off size l :
  c = IVMC_SUCCESS \/ c = IVMC_REVERT -> state_ok s -> Stack.items (stack s) = off :: size :: l ->
  wp (Instr.return_ c)
    (fun c' s' => c' = c /\ exists m1 r,
       after_access ⟦off⟧ ⟦size⟧ 0 s m1 (gas_left s') /\
       Baseline.exit_result (with_status c s') = Some r /\ res_status_code r = c /\
       res_output_data r = memory_slice m1 ⟦off⟧ ⟦size⟧ /\ res_gas_left r = gas_left s')
    (fun c' _ => c' = IVMC_OUT_OF_GAS /\ ~ affordable ⟦off⟧ ⟦size⟧ 0 s) s.
Proof.
  intros Hc Hok Hi. pose proof (u256_range off). pose proof (u256_range size).
  unfold affordable, after_access. open_state. unfold Instr.return_. env_auto; [|not_affordable].
  destruct (access_size_u64 _ _ ltac:(eassumption)) as [Hs ?].
  split; [done|]. exists m'. unfold Baseline.exit_result, Baseline.final_gas. state_cbn. rewrite Hs.
  eexists. split; [split; [done|]; split; [done|]; unfold mem_size; state_cbn; lia|].
  assert ((if negb (⟦size⟧ =? 0) then Memory.read m' (u256_to_u64 off) ⟦size⟧ else Some []) =
    Some (memory_slice m' ⟦off⟧ ⟦size⟧)) as ->.
  { destruct (⟦size⟧ =? 0) eqn:Hz; bool_prop; cbn [negb]; unfold memory_slice.
    - by rewrite Hz, take_0.
    - destruct (access_in_u64 off size m') as (-> & _ & ?); [assumption..|].
      apply memory_read_spec; [done|lia..]. }
  split; [reflexivity|]. cbn. split; [done|]. split; [done|]. by destruct Hc as [->| ->].
Qed.
End Data.

(** Two bytes of call data from the index 3. *)
Lemma calldataload_instruction_witness :
  let s := sample_state (sample_message_with 0 100 [Byte.x01; Byte.x02; Byte.x03; Byte.x04; Byte.x05])
    IVMC_LONDON [3; 7] [] in
  wp Instr.calldataload
    (fun _ s' => exists st z, s' = with_stack st s /\ Stack.wf st /\
       Stack.items st = [z; sample_word 7] /\ ⟦z⟧ = 0x0405 * 2 ^ 240)
    (fun _ _ => False) s.
Proof.
  apply (calldataload_instruction (ES := Mock.env_spec)
    (sample_state (sample_message_with 0 100 [Byte.x01; Byte.x02; Byte.x03; Byte.x04; Byte.x05])
      IVMC_LONDON [3; 7] []) (sample_word 3) [sample_word 7]); [|apply sample_items; cbn; lia].
  apply sample_state_ok; [vm_compute; split; discriminate|cbn; lia..].
Defined.

(** Three bytes from the index 1 of five. *)
Lemma returndatacopy_instruction_witness :
  let s := with_return_data [Byte.x01; Byte.x02; Byte.x03; Byte.x04; Byte.x05]
    (sample_state (sample_message 100) IVMC_LONDON [0; 1; 3] []) in
  wp Instr.returndatacopy
    (fun c s' => c = IVMC_SUCCESS /\ 1 + 3 <= 5 /\ exists st m1 m2,
       Stack.wf st /\ Stack.items st = [] /\
       after_access 0 3 3 s m1 (gas_left s') /\
       stored m1 0 [Byte.x02; Byte.x03; Byte.x04] m2 /\
       s' = with_stack st (with_memory m2 (with_gas_left (gas_left s') s)))
    (fun c _ =>
       (c = IVMC_OUT_OF_GAS /\ ~ affordable 0 3 0 s) \/
       (affordable 0 3 0 s /\
        ((c = IVMC_INVALID_MEMORY_ACCESS /\ 5 < 1 + 3) \/
         (c = IVMC_OUT_OF_GAS /\ 1 + 3 <= 5 /\ ~ affordable 0 3 3 s)))) s.
Proof.
  apply (returndatacopy_instruction (ES := Mock.env_spec)
    (with_return_data [Byte.x01; Byte.x02; Byte.x03; Byte.x04; Byte.x05]
      (sample_state (sample_message 100) IVMC_LONDON [0; 1; 3] []))
    (sample_word 0) (sample_word 1) (sample_word 3) []); [|apply (sample_items (sample_message 100)); cbn; lia].
  destruct (sample_state_ok 0 100 [] IVMC_LONDON [0; 1; 3] []) as [H1 H2 H3 H4 H5 H6 H7];
    [vm_compute; split; discriminate|cbn; lia..|].
  constructor; [exact H1|exact H2|exact H3|exact H4|cbn; lia|exact H6|exact H7].
Defined.

Lemma keccak256_instruction_witness :
  let s := sample_state (sample_message 100) IVMC_LONDON [0; 40; 7] [] in
  wp Instr.keccak256
    (fun c s' => c = IVMC_SUCCESS /\ exists st m1 z,
       Stack.wf st /\ Stack.items st = [z; sample_word 7] /\
       after_access 0 40 12 s m1 (gas_left s') /\
       ⟦z⟧ = be_value (ethash_keccak256 (Env := Mock.env) (memory_slice m1 0 40)) /\
       s' = with_stack st (with_memory m1 (with_gas_left (gas_left s') s)))
    (fun c _ => c = IVMC_OUT_OF_GAS /\ ~ affordable 0 40 12 s) s.
Proof.
  apply (keccak256_instruction (ES := Mock.env_spec)
    (sample_state (sample_message 100) IVMC_LONDON [0; 40; 7] []) (sample_word 0) (sample_word 40)
    [sample_word 7]); [|apply sample_items; cbn; lia].
  apply sample_state_ok; [vm_compute; split; discriminate|cbn; lia..].
Defined.

Lemma return_output_witness :
  let s := sample_state (sample_message 100) IVMC_LONDON [1; 3; 7] [] in
  wp (Instr.return_ IVMC_REVERT)
    (fun c' s' => c' = IVMC_REVERT /\ exists m1 r,
       after_access 1 3 0 s m1 (gas_left s') /\
       Baseline.exit_result (with_status IVMC_REVERT s') = Some r /\
       res_status_code r = IVMC_REVERT /\
       res_output_data r = memory_slice m1 1 3 /\ res_gas_left r = gas_left s')
    (fun c' _ => c' = IVMC_OUT_OF_GAS /\ ~ affordable 1 3 0 s) s.
Proof.
  apply (return_output (ES := Mock.env_spec) IVMC_REVERT
    (sample_state (sample_message 100) IVMC_LONDON [1; 3; 7] []) (sample_word 1) (sample_word 3)
    [sample_word 7]); [right; reflexivity| |apply sample_items; cbn; lia].
  apply sample_state_ok; [vm_compute; split; discriminate|cbn; lia..].
Defined.
