(* ===== verification/EnvironmentSpec.v ===== *)
(** * The instructions that ask and change the world through the host

    Account queries, storage, logs, self-destruction and block hashes: which
    host methods are called with which arguments and in which order, what is
    charged in each revision, and when the instructions fail. *)
From stdpp Require Import base list tactics option.
From S2P Require Import Prelude Intx Ivmc Mock Code ExecutionState Instructions InstructionsCalls.
From S2P Require Import Dispatch Hoare Samples MemoryRequirements Safety SafetyControl MemorySpec.

Section References.
Context {E : Env}.

(** Since Berlin the host is told about the access to an account or a storage
    key, and answers whether it was the first one. *)
Definition account_access (r : ivmc_revision) (addr : address) (h : host_state)
    : bool * host_state :=
  if rev_geb r IVMC_BERLIN
  then let p := access_account addr h in (bool_decide (fst p = IVMC_ACCESS_COLD), snd p)
  else (false, h).

Definition storage_access (r : ivmc_revision) (addr : address) (key : bytes32) (h : host_state)
    : bool * host_state :=
  if rev_geb r IVMC_BERLIN
  then let p := access_storage addr key h in (bool_decide (fst p = IVMC_ACCESS_COLD), snd p)
  else (false, h).

(** What the account queries ask the host, as a number. *)
Definition account_query (f : instr_fn) : option (address -> host_state -> Z * host_state) :=
  match f with
  | I_balance => Some (fun a h => let p := get_balance a h in (be_value (fst p), snd p))
  | I_extcodesize => Some get_code_size
  | I_extcodehash => Some (fun a h => let p := get_code_hash a h in (be_value (fst p), snd p))
  | _ => None
  end.

(** The costs of an SSTORE that changes nothing (or a slot that is already
    dirty), that changes a slot, and that creates one, per revision: the
    original rule, EIP-1283 of Constantinople, EIP-2200 and EIP-2929. *)
Definition sstore_schedule (r : ivmc_revision) : Z * Z * Z :=
  match r with
  | IVMC_FRONTIER | IVMC_HOMESTEAD | IVMC_TANGERINE_WHISTLE | IVMC_SPURIOUS_DRAGON
  | IVMC_BYZANTIUM | IVMC_PETERSBURG => (5000, 5000, 20000)
  | IVMC_CONSTANTINOPLE => (200, 5000, 20000)
  | IVMC_ISTANBUL => (800, 5000, 20000)
  | IVMC_BERLIN | IVMC_LONDON | IVMC_SHANGHAI => (100, 2900, 20000)
  end.

Definition sstore_charge (r : ivmc_revision) (st : ivmc_storage_status) (cold : bool) : Z :=
  let '(same, change, create) := sstore_schedule r in
  (if cold then 2100 else 0) +
  match st with
  | IVMC_STORAGE_UNCHANGED | IVMC_STORAGE_MODIFIED_AGAIN => same
  | IVMC_STORAGE_MODIFIED | IVMC_STORAGE_DELETED => change
  | IVMC_STORAGE_ADDED => create
  end.

(** The gas of SELFDESTRUCT in excess of its base cost, and the host after the
    queries: a cold beneficiary costs 2600; since Tangerine Whistle a
    beneficiary that does not exist yet costs 25000 (since Spurious Dragon
    only when there is a balance to send). *)
Definition selfdestruct_charge (r : ivmc_revision) (self beneficiary : address) (h : host_state)
    : Z * host_state :=
  let '(cold, h) := account_access r beneficiary h in
  let access := if cold then 2600 else 0 in
  if rev_geb r IVMC_SPURIOUS_DRAGON then
    let '(balance, h) := get_balance self h in
    if be_value balance =? 0 then (access, h)
    else let '(found, h) := account_exists beneficiary h in
         ((if found then access else access + 25000), h)
  else if rev_geb r IVMC_TANGERINE_WHISTLE then
    let '(found, h) := account_exists beneficiary h in
    ((if found then access else access + 25000), h)
  else (access, h).
End References.

Section Environment.
Context {E : Env} {ES : EnvSpec E}.
Implicit Types s : ExecutionState.

Lemma with_same_host s : with_host (host s) s = s.
Proof. by destruct s. Qed.

Lemma wp_cold_account_exact addr (Q : bool -> _ -> Prop) (QR : ivmc_status_code -> _ -> Prop) s :
  (let p := account_access (rev s) addr (host s) in Q (fst p) (with_host (snd p) s)) ->
  wp (Instr.cold_account addr) Q QR s.
Proof.
  unfold Instr.cold_account, account_access. intros HQ. wp_auto; cbn in HQ.
  - exact HQ.
  - by rewrite with_same_host in HQ.
Qed.

Lemma wp_cold_storage_exact key (Q : bool -> _ -> Prop) (QR : ivmc_status_code -> _ -> Prop) s :
  (let p := storage_access (rev s) (msg_recipient (msg s)) key (host s) in
   Q (fst p) (with_host (snd p) s)) ->
  wp (Instr.cold_storage key) Q QR s.
Proof.
  unfold Instr.cold_storage, storage_access. intros HQ. wp_auto; cbn in HQ.
  - exact HQ.
  - by rewrite with_same_host in HQ.
Qed.

Lemma wp_charge_cold_exact addr cost (Q : unit -> _ -> Prop) (QR : _ -> _ -> Prop) s :
  0 <= gas_left s <= i64_max -> 0 <= cost <= i64_max ->
  (let p := account_access (rev s) addr (host s) in
   let c := if fst p then cost else 0 in
   let s' := with_gas_left (gas_left s - c) (with_host (snd p) s) in
   (c <= gas_left s -> Q tt s') /\ (gas_left s < c -> QR IVMC_OUT_OF_GAS s')) ->
  wp (Instr.charge_cold_account addr cost) Q QR s.
Proof.
  intros Hg Hc HQ. unfold Instr.charge_cold_account. apply wp_bind, wp_cold_account_exact.
  cbv zeta in *. destruct (fst _).
  - destruct HQ as [HQ HR]. by apply wp_charge.
  - apply wp_ret. destruct HQ as [HQ _]. rewrite Z.sub_0_r in HQ. destruct s. apply HQ.
    cbn in *. lia.
Qed.

Ltac world_one :=
  lazymatch goal with
  | |- wp (Instr.charge_cold_account _ _) _ _ _ =>
      apply wp_charge_cold_exact; [state_cbn; cost_bound|cost_bound|cbv zeta; state_cbn];
      split; intros ?
  | |- wp (Instr.cold_storage _) _ _ _ => apply wp_cold_storage_exact; cbv zeta; state_cbn
  | |- _ => env_one
  end.
Ltac world_auto := repeat world_one.

(** C30: BALANCE, EXTCODESIZE and EXTCODEHASH replace an address by the answer
    of the host; since Berlin they announce the access first and charge 2500
    gas for a cold account, and fail with out of gas exactly when that is not
    left. *)
Theorem account_query_instructions f body query s x l :
  instr_impl f = MayFailInstrFn body -> account_query f = Some query ->
  state_ok s -> Stack.items (stack s) = x :: l ->
  let addr := be_digits 20 ⟦x⟧ in
  let '(cold, h) := account_access (rev s) addr (host s) in
  let cost := if cold then 2500 else 0 in
  wp body
    (fun c s' => c = IVMC_SUCCESS /\ cost <= gas_left s /\ exists st z,
       Stack.wf st /\ Stack.items st = z :: l /\ ⟦z⟧ = fst (query addr h) /\
       s' = with_stack st (with_gas_left (gas_left s - cost) (with_host (snd (query addr h)) s)))
    (fun c _ => c = IVMC_OUT_OF_GAS /\ gas_left s < cost) s.
Proof.
  intros Hf Hq Hok Hi. cbv zeta. destruct (account_access _ _ _) as [cold h'] eqn:Ha.
  open_state.
  destruct f; try discriminate Hq; injection Hf as <-; injection Hq as <-;
    [unfold Instr.balance|unfold Instr.extcodesize|unfold Instr.extcodehash];
    world_auto; rewrite be_trunc_address_spec, Ha in *; cbn [fst snd] in *; cost_unfold; destruct cold;
    try (split; [done|]; lia);
    (split; [done|]; split; [lia|]; eexists _, _; split; [eassumption|]; split; [eassumption|];
     split; [|reflexivity]).
  1, 2: apply be_load_spec; rewrite get_balance_length; lia.
  1, 2: apply u256_of_u64_spec, get_code_size_range.
  all: apply be_load_spec; rewrite get_code_hash_length; lia.
Qed.

(** Writing [bs] and clearing the rest of the [n] bytes at [dst]. *)
Lemma wp_write_cleared dst n bs (Q : unit -> _ -> Prop) (QR : ivmc_status_code -> _ -> Prop) s :
  Memory.wf (memory s) -> 0 <= dst -> dst + n <= Memory.m_size (memory s) ->
  Z.of_nat (length bs) <= n < 2 ^ 64 ->
  (forall m, stored (memory s) dst
     (bs ++ replicate (Z.to_nat (n - Z.of_nat (length bs))) Byte.x00) m -> Q tt (with_memory m s)) ->
  wp (memory_write dst bs;;
      if 0 <? u64 (n - Z.of_nat (length bs))
      then memory_write (u64 (dst + Z.of_nat (length bs)))
             (replicate (Z.to_nat (u64 (n - Z.of_nat (length bs)))) Byte.x00)
      else mret tt) Q QR s.
Proof.
  intros Hwf Hd Hend Hn HQ. apply wp_bind, wp_memory_write; [done|done|lia|].
  intros m Hwm Hsz Ho.
  assert (stored (memory s) dst bs m) as Hm.
  { split; [done|]. split; [done|]. destruct bs; [|exact Ho].
    rewrite overwrite_Some in Ho by (pose proof (memory_bytes_length _ Hwf); cbn in *; lia).
    injection Ho as <-. cbn. by rewrite Nat.add_0_r, take_drop. }
  apply wp_write_zeros; state_cbn; [done|lia|lia|right; lia|].
  intros m2 Hm2. specialize (HQ m2). destruct s. apply HQ. by eapply stored_app.
Qed.

(** Stops at [wp_write_cleared]. *)
Ltac copy_one :=
  lazymatch goal with
  | |- wp (memory_write _ _ ≫= _) _ _ _ => fail
  | |- _ => world_one
  end.

(** C21: EXTCODECOPY copies a window of another account's code to the memory:
    what the host answers for the place (capped, as a 256-bit place need not
    fit) and size asked for, followed by zeros.  It charges the expansion, 3 gas
    per word and, since Berlin, 2500 gas for a cold account, and fails with out
    of gas exactly when the sum is not affordable; a copy of no bytes asks for
    no code. *)
Theorem extcodecopy_instruction s x dst src size l :
  state_ok s -> Stack.items (stack s) = x :: dst :: src :: size :: l ->
  let addr := be_digits 20 ⟦x⟧ in
  let '(cold, h) := account_access (rev s) addr (host s) in
  let extra := copy_gas ⟦size⟧ + if cold then 2500 else 0 in
  let '(bs, h') := if ⟦size⟧ =? 0 then ([], h)
                   else copy_code addr (Z.min ⟦src⟧ max_buffer_size) ⟦size⟧ h in
  let zeros := replicate (Z.to_nat (⟦size⟧ - Z.of_nat (length bs))) Byte.x00 in
  wp Instr.extcodecopy
    (fun c s' => c = IVMC_SUCCESS /\ exists st m1 m2,
       Stack.wf st /\ Stack.items st = l /\
       after_access ⟦dst⟧ ⟦size⟧ extra s m1 (gas_left s') /\ stored m1 ⟦dst⟧ (bs ++ zeros) m2 /\
       s' = with_stack st (with_memory m2 (with_gas_left (gas_left s') (with_host h' s))))
    (fun c _ => c = IVMC_OUT_OF_GAS /\ ~ affordable ⟦dst⟧ ⟦size⟧ extra s) s.
Proof.
  intros Hok Hi. cbv zeta. destruct (account_access _ _ _) as [cold h0] eqn:Ha.
  pose proof (u256_range size). pose proof (u256_range src). pose proof (words_for_bound ⟦size⟧).
  pose proof (u256_range dst). destruct (if ⟦size⟧ =? 0 then _ else _) as [bs h'] eqn:Hbs.
  unfold affordable, after_access. open_state.
  assert (access_valid ⟦dst⟧ ⟦size⟧ -> num_words (u256_to_u64 size) * 3 = copy_gas ⟦size⟧) as Hgas.
  { intros Hv. rewrite (word_gas_spec _ _ Hv). unfold copy_gas. lia. }
  assert (0 <= copy_gas ⟦size⟧) by (unfold copy_gas; lia).
  assert ((if u256_ltb (u256_of_u64 max_buffer_size) src then max_buffer_size else u256_to_u64 src) =
    Z.min ⟦src⟧ max_buffer_size) as Hsrc.
  { rewrite u256_ltb_spec, u256_of_u64_spec by (unfold max_buffer_size; lia).
    destruct (_ <? _) eqn:?; bool_prop; unfold max_buffer_size in *; [lia|].
    rewrite u256_to_u64_small; lia. }
  unfold Instr.extcodecopy. repeat copy_one; rewrite ?be_trunc_address_spec in *;
    rewrite ?Hgas, ?Ha in * by assumption; cbn [fst snd] in *; cost_unfold.
  all: try (destruct cold; not_affordable).
  all: destruct (access_size_u64 _ _ ltac:(eassumption)) as [Hs ?]; rewrite Hs in *; bool_prop.
  - rewrite Hsrc. destruct (⟦size⟧ =? 0) eqn:Hz; bool_prop; [lia|]. rewrite Hbs. cbn [fst snd].
    destruct (access_in_u64 dst size m') as (Hx & ? & ?); [assumption..|]. rewrite Hx.
    pose proof (copy_code_length (be_digits 20 ⟦x⟧) (⟦src⟧ `min` max_buffer_size) ⟦size⟧ h0
      ltac:(lia)) as Hlen. rewrite Hbs in Hlen. cbn [fst] in Hlen.
    apply wp_write_cleared; state_cbn; [assumption|lia|lia|unfold max_buffer_size in *; lia|].
    intros m2 Hm2. apply wp_ret. split; [done|]. eexists _, m', m2.
    split; [eassumption|]. split; [eassumption|]. state_cbn.
    split; [split; [done|]; split; [done|]; destruct cold; lia|]. split; [exact Hm2|reflexivity].
  - destruct (⟦size⟧ =? 0) eqn:Hz; bool_prop; [|lia]. injection Hbs as <- <-.
    split; [done|]. eexists _, m', m'.
    split; [eassumption|]. split; [eassumption|]. state_cbn.
    split; [split; [done|]; split; [done|]; destruct cold; lia|]. split; [|reflexivity].
    rewrite Hz. split; [done|]. split; [done|]. reflexivity.
Qed.

(** C29: SLOAD replaces a key by the stored word of the executing account; since
    Berlin it announces the access first and charges 2000 gas for a cold key. *)
Theorem sload_instruction s x l :
  state_ok s -> Stack.items (stack s) = x :: l ->
  let self := msg_recipient (msg s) in
  let key := be_digits 32 ⟦x⟧ in
  let '(cold, h) := storage_access (rev s) self key (host s) in
  let cost := if cold then 2000 else 0 in
  wp Instr.sload
    (fun c s' => c = IVMC_SUCCESS /\ cost <= gas_left s /\ exists st z,
       Stack.wf st /\ Stack.items st = z :: l /\ be_digits 32 ⟦z⟧ = fst (get_storage self key h) /\
       s' = with_stack st (with_gas_left (gas_left s - cost)
              (with_host (snd (get_storage self key h)) s)))
    (fun c _ => c = IVMC_OUT_OF_GAS /\ gas_left s < cost) s.
Proof.
  intros Hok Hi. cbv zeta. destruct (storage_access _ _ _ _) as [cold h'] eqn:Ha.
  open_state. rewrite <- be_store_spec in *.
  assert (forall k h, be_digits 32 ⟦be_load (fst (get_storage (msg_recipient mg) k h))⟧ =
    fst (get_storage (msg_recipient mg) k h)) as Hval.
  { intros. rewrite <- be_store_spec. apply be_store_load, get_storage_length. }
  unfold Instr.sload. world_auto; rewrite Ha in *; cbn [fst snd] in *; cost_unfold; subst;
    try (split; [done|]; lia);
    (split; [done|]; split; [lia|]; eexists _, _; split; [eassumption|]; split; [eassumption|];
     split; [apply Hval|]; rewrite ?Z.sub_0_r; reflexivity).
Qed.

Lemma sstore_cost_charge r st cold :
  Instr.sstore_cost r st (if cold : bool then cold_sload_cost else 0) = sstore_charge r st cold \/
  (cold = true /\ rev_geb r IVMC_BERLIN = false).
Proof. destruct cold, r, st; cbn; auto. Qed.

Lemma storage_access_berlin r a k h :
  rev_geb r IVMC_BERLIN = false -> fst (storage_access r a k h) = false.
Proof. intros Hr. unfold storage_access. by rewrite Hr. Qed.

(** C12: SSTORE in every revision: a static call is refused; since Istanbul at
    most 2300 gas is refused as out of gas; both leave the state alone.
    Otherwise the key is announced (since Berlin), the word is stored, and the
    schedule of the revision for the answer of the host is charged, with 2100
    more for a cold key. *)
Theorem sstore_instruction s k v l :
  state_ok s -> Stack.items (stack s) = k :: v :: l ->
  let self := msg_recipient (msg s) in
  let key := be_digits 32 ⟦k⟧ in
  let '(cold, h) := storage_access (rev s) self key (host s) in
  let '(answer, h) := set_storage self key (be_digits 32 ⟦v⟧) h in
  let cost := sstore_charge (rev s) answer cold in
  let static := Instr.is_static (msg s) = true in
  let refused := rev_geb (rev s) IVMC_ISTANBUL = true /\ gas_left s <= 2300 in
  wp Instr.sstore
    (fun c s' => c = IVMC_SUCCESS /\ ~ static /\ ~ refused /\ cost <= gas_left s /\ exists st,
       Stack.wf st /\ Stack.items st = l /\
       s' = with_stack st (with_gas_left (gas_left s - cost) (with_host h s)))
    (fun c s' =>
       (static /\ c = IVMC_STATIC_MODE_VIOLATION /\ s' = s) \/
       (~ static /\ refused /\ c = IVMC_OUT_OF_GAS /\ s' = s) \/
       (~ static /\ ~ refused /\ gas_left s < cost /\ c = IVMC_OUT_OF_GAS)) s.
Proof.
  intros Hok Hi. cbv zeta. destruct (storage_access _ _ _ _) as [cold h'] eqn:Ha.
  destruct (set_storage _ _ _ _) as [answer h''] eqn:Hset. open_state.
  assert (Instr.sstore_cost rv answer (if cold : bool then cold_sload_cost else 0) =
    sstore_charge rv answer cold) as Hcost.
  { destruct (sstore_cost_charge rv answer cold) as [|[Hc Hr]]; [done|].
    pose proof (storage_access_berlin rv (msg_recipient mg) (be_digits 32 ⟦k⟧) h Hr) as Hf.
    rewrite Ha in Hf. cbn in Hf. congruence. }
  assert (0 <= sstore_charge rv answer cold <= 25000) as Hrange.
  { rewrite <- Hcost. apply sstore_cost_range. unfold cold_sload_cost. case_match; lia. }
  unfold Instr.sstore. world_auto; rewrite ?be_store_spec, ?Ha in *; cbn [fst snd] in *;
    rewrite ?Hset in *; cbn [fst snd] in *; rewrite ?Hcost in *; world_auto.
  - by left.
  - right. left. bool_prop. done.
  - split; [done|]. split; [done|]. split; [intros [Hr ?]; rewrite Hr in Hif0; cbn in Hif0; lia|].
    split; [done|]. eexists. split; [eassumption|]. split; [eassumption|]. reflexivity.
  - right. right. split; [done|].
    split; [intros [Hr ?]; rewrite Hr in Hif0; cbn in Hif0; lia|]. done.
Qed.

(** C31: SELFDESTRUCT is refused in a static call; otherwise it charges the
    beneficiary as [selfdestruct_charge] says, and only when that is covered
    destroys the executing account in favour of the beneficiary.  When it is
    not, it fails out of gas and the host has seen nothing but the queries: the
    access alone when that cannot be paid for, all of them otherwise. *)
Theorem selfdestruct_instruction s x l :
  state_ok s -> Stack.items (stack s) = x :: l ->
  let self := msg_recipient (msg s) in
  let beneficiary := be_digits 20 ⟦x⟧ in
  let '(cost, h) := selfdestruct_charge (rev s) self beneficiary (host s) in
  let '(cold, queried) := account_access (rev s) beneficiary (host s) in
  let access := if cold then 2600 else 0 in
  let static := Instr.is_static (msg s) = true in
  wp Instr.selfdestruct
    (fun c s' => c = IVMC_SUCCESS /\ ~ static /\ cost <= gas_left s /\
       s' = with_gas_left (gas_left s - cost)
              (with_host (host_selfdestruct self beneficiary h) s))
    (fun c s' =>
       (static /\ c = IVMC_STATIC_MODE_VIOLATION /\ s' = s) \/
       (~ static /\ gas_left s < cost /\ c = IVMC_OUT_OF_GAS /\
        host s' = if gas_left s <? access then queried else h)) s.
Proof.
  intros Hok Hi. cbv zeta. destruct (selfdestruct_charge _ _ _ _) as [cost h'] eqn:Hc.
  destruct (account_access _ _ _) as [cold h1] eqn:Ha.
  open_state. rewrite <- be_trunc_address_spec in *. unfold selfdestruct_charge in Hc.
  set (b := be_trunc_address x) in *. unfold i64_max in *.
  unfold Instr.selfdestruct. env_one. env_one. env_one. env_one. env_one; [by left|].
  env_one. env_one. env_one. fold b. 
  rewrite Ha in Hc.
  assert (rev_geb rv IVMC_SPURIOUS_DRAGON = negb (bool_decide (rv = IVMC_TANGERINE_WHISTLE)) &&
    rev_geb rv IVMC_TANGERINE_WHISTLE) as Hrev by by destruct rv.
  rewrite Hrev in Hc.
  world_auto; rewrite ?Ha in *; cbn [fst snd] in *; rewrite ?bytes32_to_bool_spec in *;
    rewrite ?andb_true_r, ?andb_false_r in Hc; cbn [negb] in Hc;
    repeat match type of Hc with context [let '(_, _) := ?p in _] =>
      rewrite (surjective_pairing p) in Hc; cbn [fst snd] in Hc end;
    repeat match goal with
    | H : negb _ = true |- _ => apply negb_true_iff in H; rewrite ?H in Hc
    | H : negb _ = false |- _ => apply negb_false_iff in H; rewrite ?H in Hc
    end;
    destruct cold; repeat case_match; injection Hc as <- <-; cost_unfold; world_auto; try lia.
  all: try (right; split; [done|]; split; [lia|]; split; [done|];
    first [done|bool_prop; lia]).
  all: split; [done|]; split; [done|]; split; [lia|].
  all: unfold with_gas_left, with_host; cbn; f_equal; lia.
Qed.

(** C32: LOGn is refused in a static call; otherwise it pays for the memory
    and 8 gas for each byte, and hands the host one log of the executing
    account with that part of the memory and the n topics in stack order.  It
    fails out of gas exactly when that is not affordable, and then logs nothing. *)
Theorem log_instruction n s off size topics l :
  0 <= n <= 4 -> Z.of_nat (length topics) = n ->
  state_ok s -> Stack.items (stack s) = off :: size :: topics ++ l ->
  let static := Instr.is_static (msg s) = true in
  wp (Instr.log n)
    (fun c s' => c = IVMC_SUCCESS /\ ~ static /\ exists st m1,
       Stack.wf st /\ Stack.items st = l /\
       after_access ⟦off⟧ ⟦size⟧ (8 * ⟦size⟧) s m1 (gas_left s') /\
       s' = with_stack st (with_memory m1 (with_gas_left (gas_left s')
              (with_host (emit_log (msg_recipient (msg s)) (memory_slice m1 ⟦off⟧ ⟦size⟧)
                 (map (fun t => be_digits 32 ⟦t⟧) topics) (host s)) s))))
    (fun c s' =>
       (static /\ c = IVMC_STATIC_MODE_VIOLATION /\ s' = s) \/
       (~ static /\ host s' = host s /\ c = IVMC_OUT_OF_GAS /\
        ~ affordable ⟦off⟧ ⟦size⟧ (8 * ⟦size⟧) s)) s.
Proof.
  intros Hn Hlen Hok Hi. cbv zeta. pose proof (u256_range size).
  unfold affordable, after_access. open_state. unfold Instr.log. env_auto; [by left| |].
  2: by right; split; [done|]; split; [done|]; not_affordable.
  destruct (access_size_u64 off size ltac:(assumption)) as [Hs Hb]. unfold max_buffer_size in Hb.
  replace (to_i64 (u256_to_u64 size) * 8) with (8 * ⟦size⟧)
    by (rewrite Hs, to_i64_small; unfold i64_min, i64_max; lia).
  env_auto. 2: by right; split; [done|]; split; [done|]; not_affordable.
  assert (Z.to_nat n = length topics) as -> by lia.
  match goal with H : Stack.items ?st = topics ++ l |- _ =>
    apply wp_pop_topics; state_cbn; [done|rewrite H, length_app; lia|];
    rewrite H, take_app_length, drop_app_length end.
  intros st2 Hw2 Hi2. env_auto. split; [done|]. split; [done|]. eexists _, m'.
  split; [eassumption|]. split; [eassumption|]. state_cbn.
  split; [split; [done|]; split; [done|]; unfold mem_size; state_cbn; lia|].
  subst. rewrite (map_ext be_store (fun t => be_digits 32 ⟦t⟧)) by (intros; apply be_store_spec).
  reflexivity.
Qed.

(** C33: BLOCKHASH answers with the hash the host has for one of the last 256
    blocks before the current one, and with zero for any other number. *)
Theorem blockhash_instruction s x l :
  state_ok s -> Stack.items (stack s) = x :: l ->
  let '(context, h) := get_tx_context (host s) in
  let current := block_number context in
  let recent := current - 256 <= ⟦x⟧ < current in
  let '(answer, h') := get_block_hash ⟦x⟧ h in
  wp Instr.blockhash
    (fun _ s' => exists st z, Stack.wf st /\ Stack.items st = z :: l /\
       ((recent /\ be_digits 32 ⟦z⟧ = answer /\ s' = with_stack st (with_host h' s)) \/
        (~ recent /\ ⟦z⟧ = 0 /\ s' = with_stack st (with_host h s))))
    (fun _ _ => False) s.
Proof.
  intros Hok Hi. destruct (get_tx_context (host s)) as [context h1] eqn:Hc. cbv zeta.
  destruct (get_block_hash ⟦x⟧ h1) as [answer h2] eqn:Hb. open_state.
  pose proof (get_tx_context_ok h) as (_ & _ & _ & Hn & _). pose proof (u256_range x).
  pose proof (get_block_hash_length ⟦x⟧ h1) as Hl. rewrite Hc in Hn. rewrite Hb in Hl.
  cbn [fst] in Hn, Hl. unfold i64_max in Hn.
  unfold Instr.blockhash. env_one. env_one. env_one. env_one. env_one. rewrite Hc. cbn [fst snd].
  env_one. env_one.
  rewrite (u64_small (block_number context)) by lia.
  rewrite u256_ltb_spec, u256_of_u64_spec by lia. env_one.
  destruct (⟦x⟧ <? block_number context) eqn:Hlt; cbn [andb]; bool_prop.
  - rewrite (u256_to_u64_small x), to_i64_small by (unfold i64_min, i64_max; lia).
    destruct (Z.max (block_number context - 256) 0 <=? ⟦x⟧) eqn:Hlow; bool_prop.
    + env_auto. rewrite Hb. eexists _, _. split; [eassumption|]. split; [eassumption|].
      left. split; [lia|]. rewrite Hb. split; [|reflexivity]. rewrite <- be_store_spec.
      by apply be_store_load.
    + env_auto. eexists _, _. split; [eassumption|]. split; [eassumption|].
      right. split; [lia|]. split; [|reflexivity].
      rewrite be_load_spec by (unfold bytes32_zero; rewrite length_replicate; lia). reflexivity.
  - env_auto. eexists _, _. split; [eassumption|]. split; [eassumption|].
    right. split; [lia|]. split; [|reflexivity].
    rewrite be_load_spec by (unfold bytes32_zero; rewrite length_replicate; lia). reflexivity.
Qed.
End Environment.

(** The cold account costs 2500 of the 3000 gas. *)
Lemma account_query_instructions_witness :
  let s := sample_state (sample_message 3000) IVMC_LONDON [5] [] in
  let x := sample_word 5 in
  let l := [] in
  (let query := fun a h => let p := get_balance (Host := env_host (Env := Mock.env)) a h in (be_value (fst p), snd p) in
    let addr := be_digits 20 ⟦x⟧ in
    let '(cold, h) := account_access (rev s) addr (host s) in
    let cost := if cold then 2500 else 0 in
    wp Instr.balance
      (fun c s' => c = IVMC_SUCCESS /\ cost <= gas_left s /\ exists st z,
         Stack.wf st /\ Stack.items st = z :: l /\ ⟦z⟧ = fst (query addr h) /\
         s' = with_stack st (with_gas_left (gas_left s - cost) (with_host (snd (query addr h)) s)))
      (fun c _ => c = IVMC_OUT_OF_GAS /\ gas_left s < cost) s) /\
  run_summary (Instr.balance s) = Some (IVMC_SUCCESS, 500).
Proof.
  cbv zeta. split; [|vm_compute; reflexivity].
  exact (account_query_instructions (ES := Mock.env_spec) I_balance Instr.balance _
    (sample_state (sample_message 3000) IVMC_LONDON [5] []) (sample_word 5) [] eq_refl eq_refl
    (sample_state_ok 0 3000 [] IVMC_LONDON [5] [] ltac:(unfold i64_max; lia) ltac:(cbn; lia)
       ltac:(cbn; lia) ltac:(cbn; lia))
    (sample_items (sample_message 3000) IVMC_LONDON [5] [] ltac:(cbn; lia))).
Defined.

(** A cold key. *)
Lemma sload_instruction_witness :
  let s := sample_state (sample_message 2500) IVMC_LONDON [7] [] in
  let x := sample_word 7 in
  let l := [] in
  (let self := msg_recipient (msg s) in
    let key := be_digits 32 ⟦x⟧ in
    let '(cold, h) := storage_access (rev s) self key (host s) in
    let cost := if cold then 2000 else 0 in
    wp Instr.sload
      (fun c s' => c = IVMC_SUCCESS /\ cost <= gas_left s /\ exists st z,
         Stack.wf st /\ Stack.items st = z :: l /\ be_digits 32 ⟦z⟧ = fst (get_storage self key h) /\
         s' = with_stack st (with_gas_left (gas_left s - cost)
                (with_host (snd (get_storage self key h)) s)))
      (fun c _ => c = IVMC_OUT_OF_GAS /\ gas_left s < cost) s) /\
  run_summary (Instr.sload s) = Some (IVMC_SUCCESS, 500).
Proof.
  cbv zeta. split; [|vm_compute; reflexivity].
  exact (sload_instruction (ES := Mock.env_spec) (sample_state (sample_message 2500) IVMC_LONDON [7] [])
    (sample_word 7) []
    (sample_state_ok 0 2500 [] IVMC_LONDON [7] [] ltac:(unfold i64_max; lia) ltac:(cbn; lia)
       ltac:(cbn; lia) ltac:(cbn; lia))
    (sample_items (sample_message 2500) IVMC_LONDON [7] [] ltac:(cbn; lia))).
Defined.

(** A new slot under a cold key. *)
Lemma sstore_instruction_witness :
  let s := sample_state (sample_message 30000) IVMC_LONDON [7; 1] [] in
  let k := sample_word 7 in
  let v := sample_word 1 in
  let l := [] in
  (let self := msg_recipient (msg s) in
    let key := be_digits 32 ⟦k⟧ in
    let '(cold, h) := storage_access (rev s) self key (host s) in
    let '(answer, h) := set_storage self key (be_digits 32 ⟦v⟧) h in
    let cost := sstore_charge (rev s) answer cold in
    let static := Instr.is_static (msg s) = true in
    let refused := rev_geb (rev s) IVMC_ISTANBUL = true /\ gas_left s <= 2300 in
    wp Instr.sstore
      (fun c s' => c = IVMC_SUCCESS /\ ~ static /\ ~ refused /\ cost <= gas_left s /\ exists st,
         Stack.wf st /\ Stack.items st = l /\
         s' = with_stack st (with_gas_left (gas_left s - cost) (with_host h s)))
      (fun c s' =>
         (static /\ c = IVMC_STATIC_MODE_VIOLATION /\ s' = s) \/
         (~ static /\ refused /\ c = IVMC_OUT_OF_GAS /\ s' = s) \/
         (~ static /\ ~ refused /\ gas_left s < cost /\ c = IVMC_OUT_OF_GAS)) s) /\
  run_summary (Instr.sstore s) = Some (IVMC_SUCCESS, 7900).
Proof.
  cbv zeta. split; [|vm_compute; reflexivity].
  exact (sstore_instruction (ES := Mock.env_spec) (sample_state (sample_message 30000) IVMC_LONDON [7; 1] [])
    (sample_word 7) (sample_word 1) []
    (sample_state_ok 0 30000 [] IVMC_LONDON [7; 1] [] ltac:(unfold i64_max; lia) ltac:(cbn; lia)
       ltac:(cbn; lia) ltac:(cbn; lia))
    (sample_items (sample_message 30000) IVMC_LONDON [7; 1] [] ltac:(cbn; lia))).
Defined.

(** The beneficiary exists and is cold. *)
Lemma selfdestruct_instruction_witness :
  let s := sample_state (sample_message 5000) IVMC_LONDON [9] [] in
  let x := sample_word 9 in
  (let self := msg_recipient (msg s) in
    let beneficiary := be_digits 20 ⟦x⟧ in
    let '(cost, h) := selfdestruct_charge (rev s) self beneficiary (host s) in
    let '(cold, queried) := account_access (rev s) beneficiary (host s) in
    let access := if cold then 2600 else 0 in
    let static := Instr.is_static (msg s) = true in
    wp Instr.selfdestruct
      (fun c s' => c = IVMC_SUCCESS /\ ~ static /\ cost <= gas_left s /\
         s' = with_gas_left (gas_left s - cost)
                (with_host (host_selfdestruct self beneficiary h) s))
      (fun c s' =>
         (static /\ c = IVMC_STATIC_MODE_VIOLATION /\ s' = s) \/
         (~ static /\ gas_left s < cost /\ c = IVMC_OUT_OF_GAS /\
          host s' = if gas_left s <? access then queried else h)) s) /\
  run_summary (Instr.selfdestruct s) = Some (IVMC_SUCCESS, 2400).
Proof.
  cbv zeta. split; [|vm_compute; reflexivity].
  exact (selfdestruct_instruction (ES := Mock.env_spec) (sample_state (sample_message 5000) IVMC_LONDON [9] [])
    (sample_word 9) []
    (sample_state_ok 0 5000 [] IVMC_LONDON [9] [] ltac:(unfold i64_max; lia) ltac:(cbn; lia)
       ltac:(cbn; lia) ltac:(cbn; lia))
    (sample_items (sample_message 5000) IVMC_LONDON [9] [] ltac:(cbn; lia))).
Defined.

(** LOG1 of one zero byte. *)
Lemma log_instruction_witness :
  let s := sample_state (sample_message 100) IVMC_LONDON [0; 1; 0xfeed; 7] [] in
  let n := 1 in
  let off := sample_word 0 in
  let size := sample_word 1 in
  let topics := [sample_word 0xfeed] in
  let l := [sample_word 7] in
  (let static := Instr.is_static (msg s) = true in
    wp (Instr.log n)
      (fun c s' => c = IVMC_SUCCESS /\ ~ static /\ exists st m1,
         Stack.wf st /\ Stack.items st = l /\
         after_access ⟦off⟧ ⟦size⟧ (8 * ⟦size⟧) s m1 (gas_left s') /\
         s' = with_stack st (with_memory m1 (with_gas_left (gas_left s')
                (with_host (emit_log (msg_recipient (msg s)) (memory_slice m1 ⟦off⟧ ⟦size⟧)
                   (map (fun t => be_digits 32 ⟦t⟧) topics) (host s)) s))))
      (fun c s' =>
         (static /\ c = IVMC_STATIC_MODE_VIOLATION /\ s' = s) \/
         (~ static /\ host s' = host s /\ c = IVMC_OUT_OF_GAS /\
        ~ affordable ⟦off⟧ ⟦size⟧ (8 * ⟦size⟧) s)) s) /\
  run_summary (Instr.log 1 s) = Some (IVMC_SUCCESS, 89).
Proof.
  cbv zeta. split; [|vm_compute; reflexivity].
  exact (log_instruction (ES := Mock.env_spec) 1
    (sample_state (sample_message 100) IVMC_LONDON [0; 1; 0xfeed; 7] []) (sample_word 0)
    (sample_word 1) [sample_word 0xfeed] [sample_word 7] ltac:(lia) eq_refl
    (sample_state_ok 0 100 [] IVMC_LONDON [0; 1; 0xfeed; 7] [] ltac:(unfold i64_max; lia) ltac:(cbn; lia)
       ltac:(cbn; lia) ltac:(cbn; lia))
    (sample_items (sample_message 100) IVMC_LONDON [0; 1; 0xfeed; 7] [] ltac:(cbn; lia))).
Defined.

(** The current block is 1000. *)
Lemma blockhash_instruction_witness :
  let s := sample_state (sample_message 100) IVMC_LONDON [744] [] in
  let x := sample_word 744 in
  let l := [] in
  (let '(context, h) := get_tx_context (host s) in
    let current := block_number context in
    let recent := current - 256 <= ⟦x⟧ < current in
    let '(answer, h') := get_block_hash ⟦x⟧ h in
    wp Instr.blockhash
      (fun _ s' => exists st z, Stack.wf st /\ Stack.items st = z :: l /\
         ((recent /\ be_digits 32 ⟦z⟧ = answer /\ s' = with_stack st (with_host h' s)) \/
          (~ recent /\ ⟦z⟧ = 0 /\ s' = with_stack st (with_host h s))))
      (fun _ _ => False) s) /\
  run_summary ((Instr.blockhash ;; mret IVMC_SUCCESS) s) = Some (IVMC_SUCCESS, 100).
Proof.
  cbv zeta. split; [|vm_compute; reflexivity].
  exact (blockhash_instruction (ES := Mock.env_spec) (sample_state (sample_message 100) IVMC_LONDON [744] []) (sample_word 744) []
    (sample_state_ok 0 100 [] IVMC_LONDON [744] [] ltac:(unfold i64_max; lia) ltac:(cbn; lia)
       ltac:(cbn; lia) ltac:(cbn; lia))
    (sample_items (sample_message 100) IVMC_LONDON [744] [] ltac:(cbn; lia))).
Defined.

(** Three bytes of the code of a cold account. *)
Lemma extcodecopy_instruction_witness :
  let s := sample_state (sample_message 3000) IVMC_LONDON [5; 0; 0; 3; 7] [] in
  wp Instr.extcodecopy
    (fun c s' => c = IVMC_SUCCESS /\ Stack.items (stack s') = [sample_word 7] /\
       exists m1, after_access 0 3 2503 s m1 (gas_left s'))
    (fun c _ => c = IVMC_OUT_OF_GAS) s.
Proof.
  cbv zeta. pose proof (extcodecopy_instruction (ES := Mock.env_spec)
    (sample_state (sample_message 3000) IVMC_LONDON [5; 0; 0; 3; 7] [])
    (sample_word 5) (sample_word 0) (sample_word 0) (sample_word 3) [sample_word 7]
    (sample_state_ok 0 3000 [] IVMC_LONDON [5; 0; 0; 3; 7] [] ltac:(unfold i64_max; lia) ltac:(cbn; lia)
       ltac:(cbn; lia) ltac:(cbn; lia))
    (sample_items (sample_message 3000) IVMC_LONDON [5; 0; 0; 3; 7] [] ltac:(cbn; lia))) as H.
  cbv zeta in H. match type of H with context [account_access ?r ?a ?h] =>
    assert (fst (account_access r a h) = true) as Hc by (vm_compute; reflexivity) end.
  destruct (account_access _ _ _) as [cold h]. cbn [fst] in Hc. subst cold.
  destruct (if ⟦sample_word 3⟧ =? 0 then _ else _) as [bs h'].
  eapply wp_mono; [exact H| |].
  - intros c s' (-> & st & m1 & m2 & _ & Hi & Hacc & _ & ->). split; [reflexivity|].
    split; [exact Hi|]. exists m1. exact Hacc.
  - intros c s' [-> _]. reflexivity.
Defined.
