(* ===== verification/CallSpec.v ===== *)
(** * Calls and creations: the messages they send and what they do with the result

    [call_prepared] is everything a call does and pays before the host is
    asked; the theorems give the message, the gas that moves, and the final
    state of every path. *)
From stdpp Require Import base list tactics option.
From S2P Require Import Prelude Intx Ivmc Mock Code ExecutionState Instructions InstructionsCalls.
From S2P Require Import Dispatch Hoare Samples MemoryRequirements Safety SafetyCalls MemorySpec DataSpec.
From S2P Require Import EnvironmentSpec.

Section References.
Context {E : Env}.

(** The transfer costs 9000, a CALL to an account that does not exist 25000
    (since Spurious Dragon only when it transfers value). *)
Definition call_charge (kind : ivmc_call_kind) (r : ivmc_revision) (has_value : bool)
    (dst : address) (h : host_state) : Z * host_state :=
  let transfer := if has_value then 9000 else 0 in
  if bool_decide (kind = IVMC_CALL) && (has_value || negb (rev_geb r IVMC_SPURIOUS_DRAGON))
  then let '(found, h) := account_exists dst h in
       ((if found then transfer else transfer + 25000), h)
  else (transfer, h).

(** Before the host is asked: the access to the callee, both memory areas and
    the costs of the call are paid for, [g] gas is left. *)
Definition call_prepared (s : ExecutionState) (kind : ivmc_call_kind) (dst : address)
    (has_value : bool) (in_off in_size out_off out_size : Z) (m2 : Memory.Memory)
    (h2 : host_state) (g : Z) : Prop :=
  let '(cold, h1) := account_access (rev s) dst (host s) in
  let '(cost, h) := call_charge kind (rev s) has_value dst h1 in
  access_valid in_off in_size /\ access_valid out_off out_size /\ h2 = h /\ 0 <= g /\
  exists m1, expands (memory s) (access_end in_off in_size) m1 /\
    expands m1 (access_end out_off out_size) m2 /\
    g = gas_left s - (if cold then 2500 else 0) -
        expansion_cost (mem_size s) (access_end in_off in_size) -
        expansion_cost (Memory.m_size m1) (access_end out_off out_size) - cost.

(** Value may not be transferred in a static call. *)
Definition forbidden_transfer (kind : ivmc_call_kind) (m : ivmc_message) (value : Z) : Prop :=
  kind = IVMC_CALL /\ Instr.is_static m = true /\ value <> 0.

(** The access to the callee and both memory areas can be paid for. *)
Definition area_gas (s : ExecutionState) (in_off in_size out_off out_size : Z) : Z :=
  let in_end := access_end in_off in_size in
  expansion_cost (mem_size s) in_end +
  expansion_cost (expanded_size (mem_size s) in_end) (access_end out_off out_size).

Definition areas_affordable (s : ExecutionState) (cold : bool)
    (in_off in_size out_off out_size : Z) : Prop :=
  access_valid in_off in_size /\ access_valid out_off out_size /\
  (if cold then 2500 else 0) + area_gas s in_off in_size out_off out_size <= gas_left s.

(** So can the call itself, and the gas it asks for, where that is a limit. *)
Definition call_affordable (s : ExecutionState) (cold : bool) (cost wanted : Z)
    (in_off in_size out_off out_size : Z) : Prop :=
  let g := gas_left s - (if cold then 2500 else 0) -
           area_gas s in_off in_size out_off out_size - cost in
  0 <= g /\ gas_available (rev s) g (Z.min wanted i64_max).

(** How a call fails before the host is asked to execute it, in the order of
    the tests; the host has answered queries only. *)
Definition call_failure (s : ExecutionState) (kind : ivmc_call_kind)
    (wanted : Z) (dst : address) (value in_off in_size out_off out_size : Z)
    (c : ivmc_status_code) (s' : ExecutionState) : Prop :=
  let '(cold, h1) := account_access (rev s) dst (host s) in
  let '(cost, h2) := call_charge kind (rev s) (negb (value =? 0)) dst h1 in
  let paid := areas_affordable s cold in_off in_size out_off out_size in
  let forbidden := forbidden_transfer kind (msg s) value in
  (c = IVMC_OUT_OF_GAS /\ ~ paid /\ host s' = h1) \/
  (c = IVMC_STATIC_MODE_VIOLATION /\ paid /\ forbidden /\ host s' = h1) \/
  (c = IVMC_OUT_OF_GAS /\ paid /\ ~ forbidden /\ host s' = h2 /\
   ~ call_affordable s cold cost wanted in_off in_size out_off out_size).

(** The call is allowed and everything before it paid for. *)
Definition call_allowed (s : ExecutionState) (kind : ivmc_call_kind)
    (wanted : Z) (dst : address) (value in_off in_size out_off out_size : Z) : Prop :=
  let '(cold, h1) := account_access (rev s) dst (host s) in
  let '(cost, _) := call_charge kind (rev s) (negb (value =? 0)) dst h1 in
  ~ forbidden_transfer kind (msg s) value /\
  areas_affordable s cold in_off in_size out_off out_size /\
  call_affordable s cold cost wanted in_off in_size out_off out_size.

(** Only a transfer asks for the balance. *)
Definition poor (self : address) (value : Z) (h : host_state) : bool * host_state :=
  if value =? 0 then (false, h)
  else let p := get_balance self h in (be_value (fst p) <? value, snd p).

(** The message of a call. *)
Definition call_message (kind : ivmc_call_kind) (static : bool) (m : ivmc_message)
    (dst : address) (value : Z) (input : list byte) (gas : Z) : ivmc_message :=
  mk_message kind
    (if static then IVMC_STATIC else msg_flags m)
    (msg_depth m + 1) gas
    (if bool_decide (kind = IVMC_CALL) then dst else msg_recipient m)
    (if bool_decide (kind = IVMC_DELEGATECALL) then msg_sender m else msg_recipient m)
    input
    (if bool_decide (kind = IVMC_DELEGATECALL) then msg_value m else be_digits 32 value)
    bytes32_zero dst.

(** The end of a call that the host is not asked to execute: zero on the
    stack, no return data, and only the preparation (less the stipend) paid. *)
Definition call_refused (s : ExecutionState) (m2 : Memory.Memory) (h3 : host_state) (g : Z)
    (l : list uint256) (s' : ExecutionState) : Prop :=
  exists st z, Stack.wf st /\ Stack.items st = z :: l /\ ⟦z⟧ = 0 /\
    s' = with_stack st (with_memory m2 (with_host h3 (with_gas_left g (with_return_data [] s)))).

(** The end of a call that was sent: whether it succeeded on the stack, its
    output as return data and its front in the output area, and the gas it
    used paid. *)
Definition call_returned (s : ExecutionState) (m2 : Memory.Memory) (h3 : host_state) (g : Z)
    (message : ivmc_message) (out_off out_size : Z) (l : list uint256) (s' : ExecutionState)
    : Prop :=
  let '(result, h4) := host_call message h3 in
  exists st z m3, Stack.wf st /\ Stack.items st = z :: l /\
    ⟦z⟧ = (if bool_decide (res_status_code result = IVMC_SUCCESS) then 1 else 0) /\
    stored m2 out_off (take (Z.to_nat out_size) (res_output_data result)) m3 /\
    s' = with_stack st (with_memory m3 (with_host h4
      (with_gas_left (g - (msg_gas message - res_gas_left result))
        (with_return_data (res_output_data result) s)))).

Definition call_outcome (s : ExecutionState) (kind : ivmc_call_kind) (static : bool)
    (wanted : Z) (dst : address) (value in_off in_size out_off out_size : Z) (l : list uint256)
    (s' : ExecutionState) : Prop :=
  let has_value := negb (value =? 0) in
  exists m2 h2 g, call_prepared s kind dst has_value in_off in_size out_off out_size m2 h2 g /\
    let gas := callable_gas (rev s) g (Z.min wanted i64_max) + stipend has_value in
    let g := g + stipend has_value in
    if 1024 <=? msg_depth (msg s) then call_refused s m2 h2 g l s'
    else let '(refused, h3) := poor (msg_recipient (msg s)) value h2 in
      if refused then call_refused s m2 h3 g l s'
      else call_returned s m2 h3 g
        (call_message kind static (msg s) dst value (memory_slice m2 in_off in_size) gas)
        out_off out_size l s'.
End References.

Section Calls.
Context {E : Env} {ES : EnvSpec E}.
Implicit Types s : ExecutionState.

Lemma wp_call_cost_exact kind has_value dst (Q : Z -> _ -> Prop) (QR : _ -> _ -> Prop) s :
  (let p := call_charge kind (rev s) has_value dst (host s) in
   stipend has_value <= fst p <= 34000 ->
   ~ (kind = IVMC_CALL /\ has_value = true /\ Instr.is_static (msg s) = true) ->
   Q (fst p) (with_host (snd p) s)) ->
  (kind = IVMC_CALL -> has_value = true -> Instr.is_static (msg s) = true ->
   QR IVMC_STATIC_MODE_VIOLATION s) ->
  wp (Calls.call_cost kind has_value dst) Q QR s.
Proof.
  intros HQ HR. unfold Calls.call_cost, call_charge, stipend in *.
  destruct (bool_decide (kind = IVMC_CALL)) eqn:Hk; cbn [andb] in HQ.
  - apply bool_decide_eq_true in Hk. wp_auto.
    + bool_prop. by apply HR.
    + rewrite (surjective_pairing (account_exists dst (host s))) in HQ. cbn [fst snd] in HQ.
      apply andb_false_iff in Hif.
      destruct (fst _); apply HQ; try (case_match; lia); intros (_ & ? & ?); intuition congruence.
    + cbv zeta in HQ. cbn [fst snd] in HQ. rewrite with_same_host in HQ.
      apply andb_false_iff in Hif.
      apply HQ; [case_match; lia|]. intros (_ & ? & ?). intuition congruence.
  - cbv zeta in HQ. cbn [fst snd] in HQ. rewrite with_same_host in HQ. wp_auto.
    apply bool_decide_eq_false in Hk. apply HQ; [case_match; lia|]. by intros [? _].
Qed.

Lemma wp_too_poor_exact value (Q : bool -> _ -> Prop) (QR : ivmc_status_code -> _ -> Prop) s :
  (let p := poor (msg_recipient (msg s)) ⟦value⟧ (host s) in Q (fst p) (with_host (snd p) s)) ->
  wp (Calls.too_poor value) Q QR s.
Proof.
  unfold Calls.too_poor, poor. intros HQ. unfold Instr.u256_0. wp_auto;
    rewrite u256_eqb_spec, u256_of_u64_spec in Hif by lia; bool_prop;
    cbv zeta in HQ.
  - rewrite (proj2 (Z.eqb_neq _ _)) in HQ by done. cbn [fst snd] in HQ.
    by rewrite u256_ltb_spec, be_load_spec by (rewrite get_balance_length; lia).
  - rewrite Hif, Z.eqb_refl in HQ. cbn [fst snd] in HQ. by rewrite with_same_host in HQ.
Qed.

Ltac call_one :=
  lazymatch goal with
  | |- wp (Instr.charge_cold_account _ _) _ _ _ =>
      apply wp_charge_cold_exact; [state_cbn; cost_bound|cost_bound|cbv zeta; state_cbn];
      match goal with Ha : account_access _ _ _ = (?cold, _), Hc : ?c = (if ?cold then _ else _) |- _ =>
        rewrite Ha; cbn [fst snd]; rewrite <- Hc end; split; intros ?
  | |- wp (Calls.call_cost _ ?b _) _ _ _ =>
      apply wp_call_cost_exact; cbv zeta; state_cbn; [intros ? ?; pose proof (stipend_range b)|intros ? ? ?]
  | |- wp (Calls.limit_gas _) _ _ _ =>
      apply wp_limit_gas_exact; [state_cbn; cost_bound|cbv zeta; intros ? ?|intros ?]; state_cbn
  | |- wp (Calls.add_stipend ?b _) _ _ _ =>
      apply wp_add_stipend; state_cbn; [cost_bound|cost_bound|]
  | |- wp Calls.create_gas _ _ _ =>
      apply wp_create_gas; [state_cbn; cost_bound|cbv zeta; intros ?]; state_cbn
  | |- wp (Calls.too_poor _) _ _ _ => apply wp_too_poor_exact; cbv zeta; state_cbn
  | |- wp (host_do (host_call ?m)) _ _ _ =>
      apply wp_host_do;
      match goal with |- context [host_call m ?h] =>
        let Hr := fresh "Hr" in
        pose proof (host_call_ok m h) as Hr; unfold result_ok in Hr; cbn [msg_gas] in Hr;
        destruct Hr as (? & ? & ?); [cost_bound|] end; state_cbn
  | |- wp (if 0 <? Z.min (u256_to_u64 ?x) _ then _ else _) _ _ _ =>
      eapply (wp_write_output _ _ x); state_cbn;
      [assumption|eauto using access_in_mono|eassumption
      |intros ? ?; let H := fresh in pose proof I as H;
       match goal with Hs : stored _ _ _ _ |- _ => pose proof Hs as (? & ? & _) end]; state_cbn
  | |- wp (Calls.pay_gas_used _ _) _ _ _ =>
      apply wp_pay_gas_used; state_cbn; [cost_bound|cost_bound|]
  | |- wp (Calls.set_return_data _) _ _ _ => apply wp_modify; state_cbn
  | |- wp (int32 _) _ _ _ => apply wp_int32; [unfold i32_max; lia|state_cbn]
  | |- _ => env_one
  end.
Ltac call_auto := repeat call_one.

(** Proves [call_prepared] from the hypotheses of the path. *)
Ltac prepared :=
  unfold call_prepared, mem_size; state_cbn;
  match goal with Ha : account_access _ _ _ = _ |- _ => rewrite Ha end;
  match goal with |- context [call_charge ?k ?r ?v ?d ?h] =>
    rewrite (surjective_pairing (call_charge k r v d h)); cbn [fst snd] end;
  split; [assumption|]; split; [assumption|]; split; [reflexivity|];
  split; [|eexists; split; [eassumption|]; split; [eassumption|];
           change 2500 with additional_cold_account_access_cost;
           match goal with Hc : ?c = (if _ then _ else _) |- _ => rewrite <- Hc end; reflexivity];
  lia.

Ltac refused :=
  unfold call_refused; eexists _, _; split; [eassumption|]; split; [eassumption|];
  split; [by apply u256_of_u64_spec|reflexivity].

(** Opens the conditions of a failure, or of an allowed call, on the path. *)
Ltac call_conditions :=
  unfold call_failure, call_allowed, call_affordable, areas_affordable, area_gas,
    forbidden_transfer, gas_available, mem_size in *; state_cbn;
  match goal with Ha : account_access _ _ _ = _ |- _ => rewrite Ha end;
  match goal with |- context [call_charge ?k ?r ?v ?d ?h] =>
    rewrite (surjective_pairing (call_charge k r v d h)); cbn [fst snd] end;
  change 2500 with additional_cold_account_access_cost;
  match goal with Hc : ?c = (if _ then _ else _) |- _ => rewrite <- Hc end;
  repeat match goal with H : expands _ _ _ |- _ =>
    let Hs := fresh "Hsz" in destruct H as (_ & Hs & _); rewrite ?Hs in * end.

Ltac areas_paid := split; [assumption|]; split; [assumption|]; lia.

Ltac not_forbidden :=
  intros (? & ? & ?);
  match goal with H : ~ (_ /\ negb _ = true /\ _) |- _ => apply H end;
  split; [assumption|]; split; [by apply negb_true_iff, Z.eqb_neq|assumption].

Ltac call_fails :=
  call_conditions;
  first
    [ left; split; [reflexivity|]; split; [|reflexivity]; intros (? & ? & ?);
      first [lia|match goal with H : ~ (_ /\ _) |- _ => apply H; split; [assumption|lia] end]
    | right; left; split; [reflexivity|]; split; [areas_paid|]; split; [|reflexivity];
      bool_prop; done
    | right; right; split; [reflexivity|]; split; [areas_paid|]; split; [not_forbidden|];
      split; [reflexivity|]; intros [? [?|?]];
      first [lia|match goal with H : ~ (_ \/ _) |- _ => apply H; first [by left|right; lia] end] ].

Ltac call_is_allowed :=
  call_conditions; split; [not_forbidden|]; split; [areas_paid|]; split; [lia|];
  match goal with H : _ \/ _ <= _ |- _ => destruct H; [by left|right; lia] end.

Ltac created_gas := unfold mem_size; state_cbn; rewrite ?Z.sub_0_r; reflexivity.

Definition takes_value (kind : ivmc_call_kind) (static : bool) : bool :=
  negb (static || bool_decide (kind = IVMC_DELEGATECALL)).

(** C10: CALL, CALLCODE, DELEGATECALL and STATICCALL: what they charge, what they
    send and what they do with the answer.  The message is the one of the
    call kind, carries the input area and at most all but a 64th of the gas
    left (with the stipend that the transfer has paid for); a depth of 1024 or a
    balance below the value refuses the call without asking the host;
    otherwise the success flag, the return data, the front of the output and
    the unused gas come back.  It fails before that exactly when, in this
    order: the access to the callee and the two memory areas cannot be paid for
    (out of gas); value would be transferred in a static call (a static mode
    violation); the call, or before Tangerine Whistle the gas asked for, cannot
    be paid for (out of gas); the host has then answered queries only. *)
Theorem call_instruction kind static s gas d v in_off in_size out_off out_size l :
  state_ok s ->
  Stack.items (stack s) = gas :: d :: (if takes_value kind static then [v] else []) ++
    in_off :: in_size :: out_off :: out_size :: l ->
  let value := if takes_value kind static then ⟦v⟧ else 0 in
  let dst := be_digits 20 ⟦d⟧ in
  wp (Calls.call kind static)
    (fun c s' => c = IVMC_SUCCESS /\
       call_allowed s kind ⟦gas⟧ dst value ⟦in_off⟧ ⟦in_size⟧ ⟦out_off⟧ ⟦out_size⟧ /\
       call_outcome s kind static ⟦gas⟧ dst value ⟦in_off⟧ ⟦in_size⟧ ⟦out_off⟧ ⟦out_size⟧ l s')
    (call_failure s kind ⟦gas⟧ dst value ⟦in_off⟧ ⟦in_size⟧ ⟦out_off⟧ ⟦out_size⟧) s.
Proof.
  intros Hok Hi value dst. open_state. pose proof (ok_depth _ Hmsg). pose proof (stack_items_length_le _ Hst) as Hlen.
  rewrite Hi, !length_cons, length_app in Hlen. cbn [length] in Hlen.
  assert (dst = be_trunc_address d) as Hd by by rewrite be_trunc_address_spec.
  assert (exists vw : uint256, ⟦vw⟧ = value /\ forall (Q : uint256 -> _ -> Prop) QR s',
    Stack.wf (stack s') ->
    Stack.items (stack s') = (if takes_value kind static then [v] else []) ++
      in_off :: in_size :: out_off :: out_size :: l ->
    (forall st', Stack.wf st' ->
       Stack.items st' = in_off :: in_size :: out_off :: out_size :: l -> Q vw (with_stack st' s')) ->
    wp (if static || bool_decide (kind = IVMC_DELEGATECALL) then mret Instr.u256_0 else stack_pop)
      Q QR s') as (vw & Hvw & Hpop).
  { unfold value, takes_value. destruct (static || _); cbn [negb].
    - exists Instr.u256_0. split; [by apply u256_of_u64_spec|]. intros Q QR s' Hw Hs HQ.
      apply wp_ret. specialize (HQ (stack s') Hw Hs). by destruct s'.
    - exists v. split; [done|]. intros Q QR s' Hw Hs HQ. eapply wp_stack_pop; [done|exact Hs|done]. }
  unfold Calls.call. clearbody dst value.
  env_one. env_one. env_one. env_one. cbv zeta. rewrite <- Hd. env_one.
  apply Hpop; state_cbn; [done|done|]. intros st2 Hw2 Hi2. state_cbn. cbv beta.
  rewrite u256_eqb_spec, Hvw. replace ⟦Instr.u256_0⟧ with 0 by (symmetry; by apply u256_of_u64_spec).
  clear Hpop.
  destruct (account_access rv dst h) as [cold h1] eqn:Ha.
  remember (if cold then additional_cold_account_access_cost else 0) as cold_cost eqn:Hcold.
  assert (0 <= cold_cost <= 2500) by (rewrite Hcold; cost_unfold; case_match; lia).
  pose proof Hm as (_ & Hsz0 & _).
  pose proof (expansion_cost_nonneg (Memory.m_size m) (access_end ⟦in_off⟧ ⟦in_size⟧) ltac:(lia)).
  pose proof (expansion_cost_nonneg (expanded_size (Memory.m_size m) (access_end ⟦in_off⟧ ⟦in_size⟧))
    (access_end ⟦out_off⟧ ⟦out_size⟧) ltac:(unfold expanded_size; lia)).
  call_auto.
  4-9: call_fails.
  all: split; [reflexivity|]; split; [call_is_allowed|]; exists m'0, (snd (call_charge kind rv (negb (value =? 0)) dst h1));
    eexists; split; [prepared|]; cbv zeta; state_cbn.
  - rewrite Hif. refused.
  - rewrite Hif, (surjective_pairing (poor _ _ _)). rewrite Hvw in *. rewrite Hif0. refused.
  - rewrite Hif, (surjective_pairing (poor _ _ _)). rewrite Hvw, be_store_spec, Hvw in *.
    rewrite Hif0. unfold call_returned, call_message.
    match goal with Hd : ?d = take _ _ |- _ => fold (memory_slice m'0 ⟦in_off⟧ ⟦in_size⟧) in Hd; subst d end.
    rewrite (surjective_pairing (host_call _ _)).
    eexists _, _, _. split; [eassumption|]. split; [eassumption|].
    split; [apply u256_of_bool_spec|]. split; [eassumption|]. reflexivity.
Qed.

(** The extra cost of CREATE2, hashing the init code. *)
Definition salt_gas (kind : ivmc_call_kind) (size : Z) : Z :=
  if bool_decide (kind = IVMC_CREATE2) then keccak_gas size else 0.

Definition create_message (kind : ivmc_call_kind) (m : ivmc_message) (endowment : Z)
    (init_code : list byte) (salt gas : Z) : ivmc_message :=
  mk_message kind 0 (msg_depth m + 1) gas address_zero (msg_recipient m) init_code
    (be_digits 32 endowment) (be_digits 32 salt) address_zero.

(** The end of a creation that was sent: the new address or zero on the
    stack, the output as return data, the gas it used paid. *)
Definition create_returned s (m1 : Memory.Memory) (h : host_state) (g : Z)
    (message : ivmc_message) (l : list uint256) s' : Prop :=
  let '(result, h') := host_call message h in
  exists st z, Stack.wf st /\ Stack.items st = z :: l /\
    ⟦z⟧ = (if bool_decide (res_status_code result = IVMC_SUCCESS)
           then be_value (res_create_address result) else 0) /\
    s' = with_stack st (with_memory m1 (with_host h'
      (with_gas_left (g - (msg_gas message - res_gas_left result))
        (with_return_data (res_output_data result) s)))).

Definition create_outcome s (kind : ivmc_call_kind) (endowment off size salt : Z)
    (l : list uint256) s' : Prop :=
  exists m1 g, after_access off size (salt_gas kind size) s m1 g /\
    if 1024 <=? msg_depth (msg s) then call_refused s m1 (host s) g l s'
    else let '(refused, h) := poor (msg_recipient (msg s)) endowment (host s) in
      if refused then call_refused s m1 h g l s'
      else create_returned s m1 h g
        (create_message kind (msg s) endowment (memory_slice m1 off size) salt
           (callable_gas (rev s) g g)) l s'.

(** C11: CREATE and CREATE2 are refused in a static call; otherwise they pay for
    the memory (and CREATE2 for hashing the init code), send the init code with
    all but a 64th of the gas, unless the depth or the balance forbids it, and
    leave the new address or zero; they fail out of gas exactly when the
    preparation is not affordable, and then the host has not been asked. *)
Theorem create_instruction kind s endowment off size salt l :
  state_ok s ->
  Stack.items (stack s) = endowment :: off :: size ::
    (if bool_decide (kind = IVMC_CREATE2) then [salt] else []) ++ l ->
  let salt_value := if bool_decide (kind = IVMC_CREATE2) then ⟦salt⟧ else 0 in
  let static := Instr.is_static (msg s) = true in
  wp (Calls.create kind)
    (fun c s' => c = IVMC_SUCCESS /\ ~ static /\
       create_outcome s kind ⟦endowment⟧ ⟦off⟧ ⟦size⟧ salt_value l s')
    (fun c s' =>
       (static /\ c = IVMC_STATIC_MODE_VIOLATION /\ s' = s) \/
       (~ static /\ host s' = host s /\ c = IVMC_OUT_OF_GAS /\
        ~ affordable ⟦off⟧ ⟦size⟧ (salt_gas kind ⟦size⟧) s)) s.
Proof.
  intros Hok Hi. cbv zeta. pose proof (stack_items_length_le _ (ok_stack _ Hok)) as Hlen.
  rewrite Hi, !length_cons, length_app in Hlen. cbn [length] in Hlen.
  pose proof (words_for_bound ⟦size⟧). pose proof (u256_range size).
  assert (0 <= keccak_gas ⟦size⟧) by (unfold keccak_gas; lia).
  unfold affordable, create_outcome, after_access, salt_gas. open_state.
  pose proof (ok_depth _ Hmsg).
  assert (access_valid ⟦off⟧ ⟦size⟧ -> num_words (u256_to_u64 size) * 6 = keccak_gas ⟦size⟧) as Hgas.
  { intros Hv. rewrite (word_gas_spec _ _ Hv). unfold keccak_gas. lia. }
  unfold Calls.create. destruct (bool_decide (kind = IVMC_CREATE2)); cbn [app] in Hi.
  all: call_auto; rewrite ?Hgas in * by assumption; try (by left); try (right; split; [done|]; split; [done|]; not_affordable).
  all: split; [reflexivity|]; split; [done|].
  all: exists m'; eexists; split; [split; [assumption|]; split; [assumption|]; split; [created_gas|lia]|].
  all: try rewrite (surjective_pairing (poor _ _ _));
    repeat match goal with H : fst (poor _ _ _) = _ |- _ => rewrite H end; try refused.
  all: unfold create_returned, create_message.
  all: match goal with Hd : ?d = take _ _ |- _ => fold (memory_slice m' ⟦off⟧ ⟦size⟧) in Hd; subst d end.
  all: rewrite ?be_store_spec in *; unfold Instr.u256_0 in *; rewrite ?u256_of_u64_spec in * by lia.
  all: rewrite (surjective_pairing (host_call _ _));
    match goal with H : bool_decide (res_status_code _ = IVMC_SUCCESS) = _ |- _ => rewrite H end;
    eexists _, _; split; [eassumption|]; split; [eassumption|]; split; [|reflexivity].
  all: try (apply be_load_spec; lia); apply u256_of_u64_spec; lia.
Qed.
End Calls.

(** A CALL with value 5 to a cold account and one with all areas empty. *)
Lemma call_instruction_witness :
  let s := sample_state (sample_message 50000) IVMC_LONDON [10000; 0xaa; 5; 0; 0; 0; 2; 7] [] in
  wp (Calls.call IVMC_CALL false)
    (fun c s' => c = IVMC_SUCCESS /\
       call_allowed s IVMC_CALL 10000 (be_digits 20 0xaa) 5 0 0 0 2 /\
       call_outcome s IVMC_CALL false 10000 (be_digits 20 0xaa) 5 0 0 0 2 [sample_word 7] s')
    (call_failure s IVMC_CALL 10000 (be_digits 20 0xaa) 5 0 0 0 2) s /\
  run_summary (Calls.call IVMC_CALL false s) = Some (IVMC_SUCCESS, 37722).
Proof.
  cbv zeta. split; [|vm_compute; reflexivity].
  exact (call_instruction (ES := Mock.env_spec) IVMC_CALL false
    (sample_state (sample_message 50000) IVMC_LONDON [10000; 0xaa; 5; 0; 0; 0; 2; 7] [])
    (sample_word 10000) (sample_word 0xaa) (sample_word 5) (sample_word 0) (sample_word 0)
    (sample_word 0) (sample_word 2) [sample_word 7]
    (sample_state_ok 0 50000 [] IVMC_LONDON [10000; 0xaa; 5; 0; 0; 0; 2; 7] []
       ltac:(unfold i64_max; lia) ltac:(cbn; lia) ltac:(cbn; lia) ltac:(cbn; lia))
    (sample_items (sample_message 50000) IVMC_LONDON [10000; 0xaa; 5; 0; 0; 0; 2; 7] []
       ltac:(cbn; lia))).
Defined.

(** CREATE2 with forty bytes of init code. *)
Lemma create_instruction_witness :
  let s := sample_state (sample_message 50000) IVMC_LONDON [0; 0; 40; 0x5a17] [] in
  wp (Calls.create IVMC_CREATE2)
    (fun c s' => c = IVMC_SUCCESS /\ ~ false = true /\
       create_outcome s IVMC_CREATE2 0 0 40 0x5a17 [] s')
    (fun c s' =>
       (false = true /\ c = IVMC_STATIC_MODE_VIOLATION /\ s' = s) \/
       (~ false = true /\ host s' = host s /\ c = IVMC_OUT_OF_GAS /\ ~ affordable 0 40 12 s)) s /\
  run_summary (Calls.create IVMC_CREATE2 s) = Some (IVMC_SUCCESS, 37681).
Proof.
  cbv zeta. split; [|vm_compute; reflexivity].
  exact (create_instruction (ES := Mock.env_spec) IVMC_CREATE2
    (sample_state (sample_message 50000) IVMC_LONDON [0; 0; 40; 0x5a17] [])
    (sample_word 0) (sample_word 0) (sample_word 40) (sample_word 0x5a17) []
    (sample_state_ok 0 50000 [] IVMC_LONDON [0; 0; 40; 0x5a17] []
       ltac:(unfold i64_max; lia) ltac:(cbn; lia) ltac:(cbn; lia) ltac:(cbn; lia))
    (sample_items (sample_message 50000) IVMC_LONDON [0; 0; 40; 0x5a17] [] ltac:(cbn; lia))).
Defined.
