(* ===== verification/BaselineAnalysis.v ===== *)
(** * The code analysis of the Baseline interpreter: specification

    [instr_start] is the reference: the positions where an instruction starts
    when the bytecode is read from the beginning, immediate data skipped.
    [analyze] always succeeds, marks exactly the JUMPDESTs among those
    positions, and its padded code ends in a STOP that every run off the end
    of the code reaches without leaving the buffer. *)
From stdpp Require Import base list tactics option.
From S2P Require Import Prelude Intx Ivmc Code ExecutionState Instructions Baseline.

(** The size of an instruction with its immediate data. *)
Definition instr_size (op : Z) : Z :=
  if (OP_PUSH1 <=? op) && (op <=? OP_PUSH32) then op - OP_PUSH1 + 2 else 1.

Inductive instr_start (code : list byte) : Z -> Prop :=
| start_first : instr_start code 0
| start_next i b :
    instr_start code i -> nth_Z code i = Some b -> instr_start code (i + instr_size (byte_to_Z b)).

(** A valid jump destination of the bytecode. *)
Definition is_jumpdest (code : list byte) (i : Z) : Prop :=
  instr_start code i /\ nth_Z code i = Some (byte_of_Z OP_JUMPDEST).

(** What [analyze] promises to the interpreter loop. *)
Record analysis_of (code : list byte) (a : CodeAnalysis) : Prop := {
  an_map_length : length (jumpdest_map a) = length code;
  an_map_spec : forall i, nth_Z (jumpdest_map a) i = Some true <-> is_jumpdest code i;
  an_code : forall i b, nth_Z code i = Some b -> nth_Z (padded_code a) i = Some b;
  an_start : forall i, instr_start code i ->
    (exists b, nth_Z code i = Some b /\
      i + instr_size (byte_to_Z b) + 1 <= Z.of_nat (length (padded_code a))) \/
    (nth_Z (padded_code a) i = Some (byte_of_Z OP_STOP) /\
     Z.of_nat (length code) <= i < Z.of_nat (length (padded_code a)));
  an_padding :
    Z.of_nat (length code) < Z.of_nat (length (padded_code a)) <= Z.of_nat (length code) + 33
}.

(** ** Instruction boundaries *)
Lemma nth_Z_Some {A} (l : list A) i x : nth_Z l i = Some x -> 0 <= i < Z.of_nat (length l).
Proof.
  unfold nth_Z. destruct (i <? 0) eqn:?; [done|]. intros H%lookup_lt_Some. bool_prop. lia.
Qed.

Lemma nth_Z_ge {A} (l : list A) i : Z.of_nat (length l) <= i -> nth_Z l i = None.
Proof. intros. unfold nth_Z. case_match; [done|]. apply lookup_ge_None_2. lia. Qed.

Lemma nth_Z_is_Some {A} (l : list A) i :
  0 <= i < Z.of_nat (length l) -> exists x, nth_Z l i = Some x.
Proof.
  intros. destruct (lookup_lt_is_Some_2 l (Z.to_nat i) ltac:(lia)) as [x Hx].
  exists x. unfold nth_Z. destruct (i <? 0) eqn:?; [lia|done].
Qed.

Lemma instr_size_bound op : 1 <= instr_size op <= 33.
Proof. unfold instr_size, OP_PUSH1, OP_PUSH32. case_match; bool_prop; lia. Qed.

Lemma instr_start_nonneg code i : instr_start code i -> 0 <= i.
Proof.
  induction 1 as [|i b _ IH]; [done|]. pose proof (instr_size_bound (byte_to_Z b)). lia.
Qed.

(** Instructions do not overlap. *)
Lemma instr_start_apart code i j b :
  instr_start code i -> instr_start code j -> nth_Z code i = Some b -> i < j ->
  i + instr_size (byte_to_Z b) <= j.
Proof.
  enough (forall n i j b, i + j < Z.of_nat n -> instr_start code i -> instr_start code j ->
    nth_Z code i = Some b -> i < j -> i + instr_size (byte_to_Z b) <= j) as H.
  { apply (H (S (Z.to_nat (i + j)))). lia. }
  clear. induction n as [|n IH]; intros i j b Hn Hi Hj Hb Hlt.
  - pose proof (instr_start_nonneg _ _ Hi). lia.
  - pose proof (instr_start_nonneg _ _ Hi). destruct Hj as [|k c Hk Hc]; [lia|].
    pose proof (instr_size_bound (byte_to_Z c)).
    destruct (Z.lt_trichotomy i k) as [Hik|[->|Hik]].
    + pose proof (IH i k b ltac:(lia) Hi Hk Hb Hik). lia.
    + simplify_eq. lia.
    + pose proof (IH k i c ltac:(lia) Hk Hi Hc Hik). lia.
Qed.

Lemma instr_start_limit code i : instr_start code i -> i <= Z.of_nat (length code) + 32.
Proof.
  destruct 1 as [|i b _ Hb]; [lia|]. pose proof (instr_size_bound (byte_to_Z b)).
  pose proof (nth_Z_Some _ _ _ Hb). lia.
Qed.

(** ** The scan *)
Lemma push_test op : 0 <= op < 256 ->
  (OP_PUSH1 <=? to_i8 op) = (OP_PUSH1 <=? op) && (op <=? OP_PUSH32).
Proof.
  intros. unfold to_i8, OP_PUSH1, OP_PUSH32. change (2 ^ 7) with 128. change (2 ^ 8) with 256.
  destruct (Z.lt_ge_cases op 128).
  - rewrite Z.mod_small by lia. lia.
  - replace ((op + 128) mod 256) with (op - 128); [lia|].
    apply (Z.mod_unique _ _ 1); lia.
Qed.

(** The bitmap is right below [i]. *)
Definition marks (code : list byte) (i : Z) (map : list bool) : Prop :=
  length map = length code /\
  forall j, nth_Z map j = Some true <-> is_jumpdest code j /\ j < i.

Lemma marks_step code i map b :
  marks code i map -> instr_start code i -> nth_Z code i = Some b ->
  marks code (i + instr_size (byte_to_Z b))
    (if byte_to_Z b =? OP_JUMPDEST then <[Z.to_nat i := true]> map else map).
Proof.
  intros [Hl Hm] Hi Hb. pose proof (instr_size_bound (byte_to_Z b)).
  pose proof (nth_Z_Some _ _ _ Hb) as Hr.
  split; [case_match; by rewrite ?length_insert|]. intros j.
  assert (is_jumpdest code j -> j < i + instr_size (byte_to_Z b) -> j < i \/ j = i) as Hj.
  { intros [Hs _] Hlt. destruct (Z.lt_trichotomy j i) as [?|[?|?]]; [auto..|].
    pose proof (instr_start_apart _ _ _ _ Hi Hs Hb ltac:(done)). lia. }
  destruct (byte_to_Z b =? OP_JUMPDEST) eqn:Hop; bool_prop.
  - assert (nth_Z (<[Z.to_nat i := true]> map) j = if decide (j = i) then Some true else nth_Z map j)
      as ->.
    { unfold nth_Z. destruct (decide (j = i)) as [->|]; (destruct (_ <? 0) eqn:?; [try lia; done|]).
      - bool_prop. rewrite list_lookup_insert_eq; [done|lia].
      - bool_prop. rewrite list_lookup_insert_ne; [done|lia]. }
    destruct (decide (j = i)) as [->|].
    + split; [intros _|done]. split; [|lia]. split; [done|].
      by rewrite <- Hop, byte_of_Z_to_Z.
    + rewrite Hm. split; [intros [? ?]; split; [done|lia]|].
      intros [Hjd Hlt]. split; [done|]. by destruct (Hj Hjd Hlt).
  - rewrite Hm. split; [intros [? ?]; split; [done|lia]|].
    intros [Hjd Hlt]. split; [done|]. destruct (Hj Hjd Hlt) as [?| ->]; [done|].
    destruct Hjd as [_ Hjd]. by simplify_eq.
Qed.

Lemma scan_spec fuel code i map :
  instr_start code i -> marks code i map -> Z.of_nat (length code) - i < Z.of_nat fuel ->
  (0 < fuel)%nat ->
  exists i' map', Baseline.scan fuel code i map = Some (i', map') /\ instr_start code i' /\
    Z.of_nat (length code) <= i' /\ marks code i' map'.
Proof.
  revert i map. induction fuel as [|fuel IH]; intros i map Hi Hm Hf Hf0; [lia|].
  cbn [Baseline.scan]. destruct (i <? _) eqn:Hlt; bool_prop; [|by exists i, map].
  pose proof (instr_start_nonneg _ _ Hi).
  destruct (nth_Z_is_Some code i ltac:(lia)) as [b Hb]. rewrite Hb. cbn.
  pose proof (marks_step _ _ _ _ Hm Hi Hb) as Hm'. pose proof (start_next _ _ _ Hi Hb) as Hi'.
  rewrite push_test by apply byte_to_Z_bound.
  unfold instr_size in Hm', Hi'. destruct (_ && _) eqn:Hpush.
  - bool_prop. destruct (_ =? OP_JUMPDEST) eqn:?; [unfold OP_PUSH1, OP_JUMPDEST in *; lia|].
    replace (i + (byte_to_Z b - (OP_PUSH1 - 1)) + 1) with (i + (byte_to_Z b - OP_PUSH1 + 2)) by lia.
    apply IH; [done|done|lia|lia].
  - destruct (_ =? OP_JUMPDEST); apply IH; (done || lia).
Qed.

(** ** The padded code *)
Section Analyze.
Context {E : Env}.

Lemma overwrite_one {A} (l : list A) i x :
  0 <= i < Z.of_nat (length l) -> overwrite l i [x] = Some (<[Z.to_nat i := x]> l).
Proof.
  intros Hi. rewrite overwrite_Some by (cbn; lia). f_equal. rewrite insert_take_drop by lia.
  cbn. by replace (Z.to_nat i + 1)%nat with (S (Z.to_nat i)) by lia.
Qed.

Lemma nth_Z_insert {A} (l : list A) i j x :
  0 <= i < Z.of_nat (length l) ->
  nth_Z (<[Z.to_nat i := x]> l) j = if decide (j = i) then Some x else nth_Z l j.
Proof.
  intros Hi. unfold nth_Z.
  destruct (decide (j = i)) as [->|]; (destruct (_ <? 0) eqn:?; bool_prop; [lia || done|]).
  - apply list_lookup_insert_eq. lia.
  - apply list_lookup_insert_ne. lia.
Qed.

(** The analysis is total, and right. *)
Lemma analyze_spec code : exists a, Baseline.analyze code = Some a /\ analysis_of code a.
Proof.
  destruct (scan_spec (S (length code)) code 0 (replicate (length code) false))
    as (i & map & Hscan & Hi & Hend & Hlen & Hmap); [constructor| |lia|lia|].
  { split; [apply length_replicate|]. intros j. split.
    - unfold nth_Z. destruct (_ <? 0); [done|].
      intros H. apply lookup_replicate in H as [? _]. done.
    - intros [[Hs _] ?]. pose proof (instr_start_nonneg _ _ Hs). lia. }
  pose proof (instr_start_limit _ _ Hi) as Hlim.
  set (code_size := Z.of_nat (length code)) in *.
  set (junk := uninitialised_bytes 0 (i + 1)).
  assert (length junk = Z.to_nat (i + 1)) as Hjunk by apply length_uninitialised_bytes.
  assert (overwrite junk 0 code = Some (code ++ drop (length code) junk)) as Hcopy
    by (rewrite overwrite_Some by lia; done).
  assert (length (code ++ drop (length code) junk) = Z.to_nat (i + 1)) as Hl0
    by (rewrite length_app, length_drop; lia).
  exists (mk_code_analysis
    (<[Z.to_nat i := byte_of_Z OP_STOP]>
      (<[Z.to_nat code_size := byte_of_Z OP_STOP]> (code ++ drop (length code) junk))) map).
  split.
  { unfold Baseline.analyze. rewrite Hscan. cbn [mbind option_bind]. fold code_size junk.
    rewrite Hcopy. cbn [mbind option_bind]. rewrite overwrite_one by lia.
    cbn [mbind option_bind]. rewrite overwrite_one by (rewrite length_insert; lia). done. }
  assert (forall j b, nth_Z code j = Some b ->
    nth_Z (<[Z.to_nat i := byte_of_Z OP_STOP]>
      (<[Z.to_nat code_size := byte_of_Z OP_STOP]> (code ++ drop (length code) junk))) j = Some b)
    as Hcode.
  { intros j b Hb. pose proof (nth_Z_Some _ _ _ Hb).
    rewrite nth_Z_insert by (rewrite length_insert; lia). rewrite decide_False by lia.
    rewrite nth_Z_insert by lia. rewrite decide_False by lia.
    unfold nth_Z in *. destruct (j <? 0); [done|]. by apply lookup_app_l_Some. }
  split; cbn [jumpdest_map padded_code]; rewrite ?length_insert, ?Hl0; [done| |exact Hcode| |lia].
  - intros j. rewrite Hmap. split; [by intros [? _]|]. intros [Hs Hb]. split; [done|].
    pose proof (nth_Z_Some _ _ _ Hb). lia.
  - intros j Hj. pose proof (instr_start_nonneg _ _ Hj).
    destruct (Z.lt_ge_cases j code_size) as [Hlt|Hge].
    + left. destruct (nth_Z_is_Some code j ltac:(lia)) as [b Hb]. exists b. split; [done|].
      pose proof (instr_start_apart _ _ _ _ Hj Hi Hb ltac:(lia)). lia.
    + right. assert (j = i) as ->.
      { pose proof (nth_Z_ge code i Hend). destruct (Z.lt_trichotomy j i) as [Hji|[?|Hji]].
        - destruct Hi as [|k b Hk Hb]; [lia|]. pose proof (nth_Z_Some _ _ _ Hb).
          pose proof (instr_start_apart _ _ _ _ Hk Hj Hb ltac:(lia)). lia.
        - done.
        - destruct Hj as [|k b Hk Hb]; [lia|]. pose proof (nth_Z_Some _ _ _ Hb).
          pose proof (instr_start_apart _ _ _ _ Hk Hi Hb ltac:(lia)). lia. }
      split; [|lia]. rewrite nth_Z_insert by (rewrite length_insert; lia).
      by rewrite decide_True.
Qed.

(** The padded code begins with the code. *)
Lemma padded_prefix code a : analysis_of code a -> take (length code) (padded_code a) = code.
Proof.
  intros Ha. apply list_eq. intros i. destruct (Nat.lt_ge_cases i (length code)) as [Hi|Hi].
  - rewrite lookup_take_lt by done. destruct (lookup_lt_is_Some_2 code i Hi) as [b Hb].
    pose proof (an_code _ _ Ha (Z.of_nat i) b) as Hc. unfold nth_Z in Hc.
    destruct (_ <? 0) eqn:?; [lia|]. rewrite Nat2Z.id in Hc. rewrite Hb. by apply Hc.
  - rewrite lookup_take_ge by done. symmetry. by apply lookup_ge_None_2.
Qed.
End Analyze.

(** ** Properties *)

(** C9: The Baseline analysis never fails, on any byte string: the map has one
    bit for each byte of the code and marks exactly the JUMPDEST bytes that are
    instructions when the code is read from its start (never one inside of
    immediate data); the padded code begins with the code; and from every
    instruction start the loop finds, inside of the buffer, either an
    instruction of the code with all its immediate data or a STOP, so that no
    run off the end leaves it. *)
Theorem baseline_analysis_exact {E : Env} code :
  exists a, Baseline.analyze code = Some a /\
    length (jumpdest_map a) = length code /\
    (forall i, nth_Z (jumpdest_map a) i = Some true <-> is_jumpdest code i) /\
    (forall i b, nth_Z code i = Some b -> nth_Z (padded_code a) i = Some b) /\
    (forall i, instr_start code i ->
       (exists b, nth_Z code i = Some b /\
          i + instr_size (byte_to_Z b) < Z.of_nat (length (padded_code a))) \/
       (Z.of_nat (length code) <= i /\ nth_Z (padded_code a) i = Some (byte_of_Z OP_STOP))).
Proof.
  destruct (analyze_spec code) as (a & Ha & Han). exists a. destruct Han as [H1 H2 H3 H4 _].
  repeat (split; [done|]). intros i Hi. destruct (H4 i Hi) as [(b & Hb & Hlt)|[Hs Hlt]].
  - left. exists b. split; [done|lia].
  - right. split; [lia|done].
Qed.
