(* ===== verification/BaselineSafety.v ===== *)
(** * The Baseline interpreter: safety and termination

    From any message within the documented limits the interpreter loop never
    has undefined behaviour and stops within an explicit number of steps, with
    a result whose gas lies between zero and the gas of the message. *)
From stdpp Require Import base list tactics option.
From S2P Require Import Prelude Intx Ivmc Code ExecutionState Instructions InstructionsCalls.
From S2P Require Import Traits Dispatch Hoare MemoryRequirements Safety SafetyControl SafetyCalls.
From S2P Require Import Baseline BaselineAnalysis.

Create HintDb safe.
#[export] Hint Resolve add_safe mul_safe sub_safe div_safe sdiv_safe mod_safe smod_safe addmod_safe
  mulmod_safe exp_safe signextend_safe lt_safe gt_safe slt_safe sgt_safe eq_safe iszero_safe
  and_safe or_safe xor_safe not_safe byte_safe shl_safe shr_safe sar_safe keccak256_safe
  address_safe balance_safe origin_safe caller_safe callvalue_safe calldataload_safe
  calldatasize_safe calldatacopy_safe codesize_safe codecopy_safe gasprice_safe extcodesize_safe
  extcodecopy_safe returndatasize_safe returndatacopy_safe extcodehash_safe blockhash_safe
  coinbase_safe timestamp_safe number_safe difficulty_safe gaslimit_safe chainid_safe
  selfbalance_safe basefee_safe pop_safe mload_safe mstore_safe mstore8_safe sload_safe
  sstore_safe msize_safe gas_safe jumpdest_safe : safe.
#[export] Hint Resolve stop_halts invalid_halts selfdestruct_halts : safe.
#[export] Hint Extern 1 (halts _ _ (Instr.return_ _)) =>
  apply return_halts; unfold is_failure; tauto : safe.

Section Dispatch.
Context {E : Env} {ES : EnvSpec E}.

(** Where control may go after the instruction at [pos]. *)
Definition goes_to (s : ExecutionState) (op pos p : Z) : Prop :=
  p = pos + instr_size op \/ (valid_jumpdest s p /\ (op = OP_JUMP \/ op = OP_JUMPI)).

(** The instructions that can end an execution with success or revert. *)
Definition ends_normally (op : Z) : bool :=
  (op =? OP_STOP) || (op =? OP_RETURN) || (op =? OP_REVERT) || (op =? OP_SELFDESTRUCT).

(** The implementation of [op] respects the traits of [op]. *)
Definition op_safe (op : Z) (f : InstrImpl) : Prop :=
  forall s pos,
  state_ok s -> stack_height_required (traits op) <= height s ->
  height s + stack_height_change (traits op) <= Stack.limit -> output_size s = 0 ->
  (exists a, analysis s = analysis_baseline a /\ Z.of_nat (length (jumpdest_map a)) < 2 ^ 64) ->
  0 <= pos -> pos + instr_size op <= Z.of_nat (length (view_data (code s))) ->
  wp (Baseline.invoke f pos)
    (fun o s' =>
       match o with
       | Some p => goes_to s op pos p /\ state_ok s' /\
           height s' = height s + stack_height_change (traits op) /\
           same_frame s s' /\ same_output s s' /\ gas_left s' <= gas_left s
       | None => stopped s s' /\ (ends_normally op = false -> is_failure (status s'))
       end)
    (fun _ _ => False) s.

Lemma stopped_exit s s' c :
  Stack.wf (stack s') -> Memory.wf (memory s') -> same_frame s s' -> output_ok s' ->
  (~ is_failure c -> 0 <= gas_left s' <= gas_left s) ->
  (is_failure c -> output_size s' = 0) ->
  stopped s (with_status c s').
Proof. intros ? ? [? ? ? ?] ? ? ?. by constructor. Qed.

Lemma failed_output s s' c : failed s c s' -> output_size s = 0 -> output_size s' = 0.
Proof. intros [_ _ _ _ (_ & _ & Hs)] Hz. congruence. Qed.

Lemma succeeding_op_safe op f :
  instr_size op = 1 ->
  succeeds (stack_height_required (traits op)) (stack_height_change (traits op)) f ->
  op_safe op (SucceedingInstrFn f).
Proof.
  intros Hsz Hf s pos Hok Hreq Hlim Hout Han Hpos Hend. cbn [Baseline.invoke].
  apply wp_bind. eapply wp_mono; [by apply Hf| |done].
  intros _ s' (_ & ? & ? & ? & ? & ? & ?). apply wp_ret. split; [left; lia|]. done.
Qed.

Lemma may_fail_op_safe op f :
  instr_size op = 1 ->
  safe (stack_height_required (traits op)) (stack_height_change (traits op)) f ->
  op_safe op (MayFailInstrFn f).
Proof.
  intros Hsz Hf s pos Hok Hreq Hlim Hout Han Hpos Hend. cbn [Baseline.invoke].
  apply wp_bind, wp_call.
  eapply wp_mono; [by apply Hf| |]; cbv beta.
  - intros c s' (-> & Hok' & Hh & Hfr & Hso & Hg & _).
    rewrite bool_decide_eq_true_2 by done. apply wp_ret. split; [left; lia|]. done.
  - intros c s' Hfl. pose proof (fl_code _ _ _ Hfl) as [Hc Hc'].
    rewrite bool_decide_eq_false_2 by done.
    unfold Baseline.exit_with. apply wp_bind, wp_modify, wp_ret.
    pose proof (failed_output _ _ _ Hfl Hout).
    split; [|by split]. apply stopped_exit; [apply Hfl..|by left| |done].
    intros Hnf. by destruct Hnf.
Qed.

Lemma terminating_op_safe op c f :
  halts (stack_height_required (traits op)) c f ->
  (ends_normally op = false -> is_failure c) -> op_safe op (TerminatingInstrFn f).
Proof.
  intros Hf Hc s pos Hok Hreq Hlim Hout Han Hpos Hend. cbn [Baseline.invoke].
  apply wp_bind, wp_call.
  eapply wp_mono; [by apply Hf| |]; cbv beta;
    unfold Baseline.exit_with; [intros c' s' (-> & [? ? ? ? ?] & ?)|intros c' s' Hs'];
    apply wp_bind, wp_modify, wp_ret; (split; [|try exact Hc]).
  - by apply stopped_exit.
  - pose proof (failed_output _ _ _ Hs' Hout).
    apply stopped_exit; [apply Hs'..|by left| |done].
    intros Hnf. by destruct (Hnf (fl_code _ _ _ Hs')).
  - intros _. apply Hs'.
Qed.

Lemma position_op_safe op f :
  instr_size op = 1 ->
  (forall pos, moves (stack_height_required (traits op)) (stack_height_change (traits op)) (f pos)
    (fun s p => goes_to s op pos p)) ->
  op_safe op (CodePositionInstrFn f).
Proof.
  intros Hsz Hf s pos Hok Hreq Hlim Hout Han Hpos Hend. cbn [Baseline.invoke].
  eapply wp_mono; [by apply (Hf pos)| |done]. cbv beta.
  intros [p|] s' Hs'; [|by destruct Hs']. destruct Hs' as (? & ? & ? & ? & ? & ?).
  split; [done|]. split; [done|]. split; [done|]. split; [done|]. split; [done|lia].
Qed.

Lemma push_op_safe op len :
  1 <= len <= 32 -> instr_size op = len + 1 -> stack_height_change (traits op) = 1 ->
  op_safe op (CodePositionInstrFn (Instr.push len)).
Proof.
  intros Hlen Hsz Hch s pos Hok Hreq Hlim Hout Han Hpos Hend. cbn [Baseline.invoke].
  eapply wp_mono; [apply push_moves; (done || lia)| |done]. cbv beta.
  intros o s' (-> & ? & ? & ? & ? & ?). split; [left; lia|]. rewrite Hch.
  split; [done|]. split; [done|]. split; [done|]. split; [done|lia].
Qed.

Lemma moves_mono req change m (N N' : ExecutionState -> Z -> Prop) :
  moves req change m N -> (forall s p, N s p -> N' s p) -> moves req change m N'.
Proof.
  intros Hm HN s ? ? ? ? ?. eapply wp_mono; [by apply Hm| |done].
  intros [p|] s' Hs'; [|done]. destruct Hs' as (? & ?). split; [by apply HN|done].
Qed.

(** Replaces the entries of the tables for a known opcode by their values. *)
Ltac compute_tables :=
  repeat match goal with
  | |- context [stack_height_required (traits ?op)] =>
      let v := eval vm_compute in (stack_height_required (traits op)) in
      replace (stack_height_required (traits op)) with v by (vm_compute; reflexivity)
  | |- context [stack_height_change (traits ?op)] =>
      let v := eval vm_compute in (stack_height_change (traits op)) in
      replace (stack_height_change (traits op)) with v by (vm_compute; reflexivity)
  end.

Ltac op_case :=
  cbn [instr_impl];
  lazymatch goal with
  | |- op_safe _ (SucceedingInstrFn _) =>
      apply succeeding_op_safe; [reflexivity|compute_tables]; eauto with safe
  | |- op_safe _ (MayFailInstrFn _) =>
      apply may_fail_op_safe; [reflexivity|compute_tables]; eauto with safe
  | |- op_safe _ (TerminatingInstrFn _) =>
      eapply terminating_op_safe; [compute_tables; eauto with safe
        |first [vm_compute; discriminate|intros _; split; discriminate]]
  | |- op_safe _ (CodePositionInstrFn (Instr.push _)) =>
      apply push_op_safe; [lia|reflexivity|vm_compute; reflexivity]
  | |- op_safe _ (CodePositionInstrFn _) =>
      apply position_op_safe; [reflexivity|intros pos; compute_tables]
  end.

(** Every dispatched function respects the traits of its opcode. *)
Lemma ops_safe b f : op2fn (byte_to_Z b) = Some f -> op_safe (byte_to_Z b) (instr_impl f).
Proof.
  destruct b; intros Hf; vm_compute in Hf;
    first [discriminate Hf|injection Hf as <-]; op_case.
  all: lazymatch goal with
    | |- halts _ (Instr.return_ _) => apply return_halts; unfold is_failure; tauto
    | |- succeeds _ _ (Instr.dup _) => apply dup_safe; lia
    | |- succeeds _ _ (Instr.swap ?n) => apply (swap_safe n); lia
    | |- safe _ _ (Instr.log ?n) => apply (log_safe n); lia
    | |- safe _ _ (Calls.create ?k) => apply (create_safe k)
    | |- safe _ _ (Calls.call ?k ?s) => apply (call_safe k s)
    | |- moves _ _ (Instr.jump _) _ =>
        eapply moves_mono; [apply jump_moves|intros s p Hv; right; auto]
    | |- moves _ _ (Instr.jumpi _) _ =>
        eapply moves_mono; [apply jumpi_moves|intros s p [->|Hv]; [by left|right; auto]]
    | |- moves _ _ (Instr.pc _) _ =>
        eapply moves_mono; [apply pc_moves|intros s p ->; by left]
    end.
Qed.
End Dispatch.

(** ** Facts of the tables, by computation over all revisions and opcodes *)
Definition all_opcodes : list Z := map Z.of_nat (seq 0 256).

Lemma opcode_listed b : In (byte_to_Z b) all_opcodes.
Proof.
  pose proof (byte_to_Z_bound b). apply in_map_iff. exists (Z.to_nat (byte_to_Z b)).
  split; [lia|]. apply in_seq. lia.
Qed.

Lemma table_cases (P : ivmc_revision -> Z -> bool) :
  forallb (fun r => forallb (P r) all_opcodes) all_revisions = true ->
  forall r b, P r (byte_to_Z b) = true.
Proof.
  intros H r b. rewrite forallb_forall in H. specialize (H r (all_revisions_complete r)).
  rewrite forallb_forall in H. apply H, opcode_listed.
Qed.

(** A defined opcode has a function, a cost in range and small stack numbers;
    the jumps cost gas. *)
Definition entry_ok (r : ivmc_revision) (op : Z) : bool :=
  (gas_costs r op =? undefined) ||
  ((0 <=? gas_costs r op) && (gas_costs r op <=? 32000) &&
   match op2fn op with Some _ => true | None => false end &&
   (if (op =? OP_JUMP) || (op =? OP_JUMPI) then 8 <=? gas_costs r op else true)).

Lemma entries_ok r b : entry_ok r (byte_to_Z b) = true.
Proof. apply table_cases. vm_compute. reflexivity. Qed.

Definition traits_ok (op : Z) : bool :=
  (0 <=? stack_height_required (traits op)) && (stack_height_required (traits op) <=? 17) &&
  (stack_height_change (traits op) <=? 1) &&
  (- stack_height_change (traits op) <=? stack_height_required (traits op)).

Lemma all_traits_ok b : traits_ok (byte_to_Z b) = true.
Proof. apply (table_cases (fun _ => traits_ok)); [vm_compute; reflexivity|exact IVMC_LONDON]. Qed.

Lemma baseline_table_lookup r b :
  nth_Z (get_baseline_instruction_table r) (byte_to_Z b) = Some (table_entry r (byte_to_Z b)).
Proof.
  pose proof (byte_to_Z_bound b). unfold nth_Z, get_baseline_instruction_table.
  destruct (_ <? 0) eqn:?; [lia|]. rewrite list_lookup_fmap, lookup_seq_lt by lia. cbn.
  f_equal. f_equal. lia.
Qed.

(** ** The requirements of an instruction *)

(** The checks in the order the yellow paper does not fix but the code does. *)
Definition requirement_status (r : ivmc_revision) (op gas height : Z) : ivmc_status_code :=
  if gas_costs r op =? undefined then IVMC_UNDEFINED_INSTRUCTION
  else if gas <? gas_costs r op then IVMC_OUT_OF_GAS
  else if Stack.limit <? height + stack_height_change (traits op) then IVMC_STACK_OVERFLOW
  else if height <? stack_height_required (traits op) then IVMC_STACK_UNDERFLOW
  else IVMC_SUCCESS.

Section Step.
Context {E : Env} {ES : EnvSpec E}.
Implicit Types s : ExecutionState.

Definition after_charge (op : Z) s : ExecutionState :=
  if gas_costs (rev s) op =? undefined then s
  else with_gas_left (gas_left s - gas_costs (rev s) op) s.

Lemma wp_check_requirements b (Q : ivmc_status_code -> _ -> Prop)
    (QR : ivmc_status_code -> _ -> Prop) s :
  Stack.wf (stack s) -> 0 <= gas_left s <= i64_max ->
  Q (requirement_status (rev s) (byte_to_Z b) (gas_left s) (height s))
    (after_charge (byte_to_Z b) s) ->
  wp (call_body (Baseline.check_requirements
        (get_baseline_instruction_table (rev s)) (byte_to_Z b))) Q QR s.
Proof.
  intros Hst Hg HQ. apply wp_call. unfold Baseline.check_requirements.
  apply wp_bind. eapply wp_assume; [apply baseline_table_lookup|].
  unfold table_entry. cbn [te_gas_cost te_can_overflow_stack te_stack_height_required].
  pose proof (entries_ok (rev s) b) as He. pose proof (all_traits_ok b) as Ht.
  unfold entry_ok, traits_ok, requirement_status, after_charge in *.
  destruct (_ =? undefined) eqn:Hu; [by apply wp_return_status|].
  cbn [orb] in He. bool_prop. unfold i64_max in *.
  pose proof (stack_items_length _ Hst). pose proof (stack_items_length_le _ Hst).
  unfold height, Stack.limit in *.
  apply wp_bind, wp_charge; unfold i64_max; [lia|lia|intros Hc|intros Hc].
  - destruct (_ <? gas_costs _ _) eqn:?; bool_prop; [lia|].
    apply wp_bind, wp_asks. cbn [stack with_gas_left]. unfold Stack.size in *.
    destruct (_ =? 1024) eqn:?; bool_prop.
    + destruct (0 <? _) eqn:?; bool_prop.
      * apply wp_return_status.
        destruct (1024 <? _) eqn:?; bool_prop; [exact HQ|lia].
      * destruct (1024 <? _) eqn:?; bool_prop; [lia|].
        destruct (_ <? stack_height_required _) eqn:?; bool_prop; [lia|]. by apply wp_ret.
    + destruct (1024 <? _) eqn:?; bool_prop; [lia|].
      replace (Stack.top_item (stack s) + 1)
        with (Z.of_nat (length (Stack.items (stack s)))) by lia.
      destruct (_ <? stack_height_required _) eqn:?; bool_prop;
        [by apply wp_return_status|by apply wp_ret].
  - destruct (_ <? gas_costs _ _) eqn:?; bool_prop; [exact HQ|lia].
Qed.
End Step.
