(* ===== verification/ControlSpec.v ===== *)
(** * Control flow, the stack instructions and the check before an instruction

    What [check_requirements] decides; JUMP and JUMPI against the destinations
    of the code, a definition that does not mention the bitmap; PUSH against the
    bytes of the code, also when the code ends inside of the immediate data; DUP
    and SWAP as operations on the list of items. *)
From stdpp Require Import base list tactics option.
From S2P Require Import Prelude Intx Ivmc Mock Code ExecutionState Instructions InstructionsCalls.
From S2P Require Import Traits Dispatch Hoare Samples MemoryRequirements Safety SafetyControl Baseline.
From S2P Require Import BaselineAnalysis BaselineSafety.

Section Control.
Context {E : Env} {ES : EnvSpec E}.
Implicit Types s : ExecutionState.

(** C14: The check before an instruction, for every revision and opcode byte:
    an opcode that the revision does not define fails as undefined, then the
    base cost is charged, then the height after the instruction is compared to
    the limit, then the height before it to what the instruction needs, in this
    order; only the gas changes, and the check always comes to an end. *)
Theorem check_requirements_spec b s :
  Stack.wf (stack s) -> 0 <= gas_left s <= i64_max ->
  let op := byte_to_Z b in
  wp (call_body (Baseline.check_requirements (get_baseline_instruction_table (rev s)) op))
    (fun c s' => c = requirement_status (rev s) op (gas_left s) (height s) /\
       s' = after_charge op s /\
       (c = IVMC_SUCCESS -> 0 <= gas_left s' /\ stack_height_required (traits op) <= height s /\
          height s + stack_height_change (traits op) <= Stack.limit))
    (fun (_ : ivmc_status_code) _ => False) s.
Proof.
  intros Hst Hg. cbv zeta. apply wp_check_requirements; [done|done|].
  split; [done|]. split; [done|]. unfold requirement_status, after_charge.
  repeat case_match; bool_prop; try discriminate.
  cbn [with_gas_left gas_left]. lia.
Qed.

(** ** Jumps *)

(** The analysis of the code [c] is the one the state refers to. *)
Definition analysed (c : list byte) s : Prop :=
  Z.of_nat (length c) < 2 ^ 63 /\
  exists a, analysis s = analysis_baseline a /\ analysis_of c a.

Lemma wp_jump_analysed c dst (Q : option Z -> _ -> Prop) (QR : ivmc_status_code -> _ -> Prop) s :
  analysed c s ->
  (is_jumpdest c ⟦dst⟧ -> Q (Some ⟦dst⟧) s) ->
  (~ is_jumpdest c ⟦dst⟧ -> Q None (with_status IVMC_BAD_JUMP_DESTINATION s)) ->
  wp (Instr.jump_impl dst) Q QR s.
Proof.
  intros (Hc & a & Ha & Han) HQ HN.
  eapply wp_jump_impl; [exact Ha|rewrite (an_map_length _ _ Han); lia|..];
    rewrite (an_map_spec _ _ Han); auto.
Qed.

(** C15: JUMP and JUMPI move to the destination exactly when it is the start of
    a JUMPDEST instruction of the code (a JUMPDEST byte inside of the immediate
    data of a PUSH is none), for every 256-bit destination; otherwise the
    execution ends with a bad jump destination.  JUMPI does so only when the
    condition is not zero, and moves to the next instruction, without a look at
    the destination, when it is.  Nothing but the stack and the status changes. *)
Theorem jump_instructions c s pos dst l :
  state_ok s -> analysed c s -> Stack.items (stack s) = dst :: l ->
  wp (Instr.jump pos)
    (fun o s' => exists st, Stack.wf st /\ Stack.items st = l /\
       ((is_jumpdest c ⟦dst⟧ /\ o = Some ⟦dst⟧ /\ s' = with_stack st s) \/
        (~ is_jumpdest c ⟦dst⟧ /\ o = None /\
         s' = with_status IVMC_BAD_JUMP_DESTINATION (with_stack st s))))
    (fun _ _ => False) s /\
  (forall cond l', l = cond :: l' ->
   wp (Instr.jumpi pos)
    (fun o s' => exists st, Stack.wf st /\ Stack.items st = l' /\
       ((⟦cond⟧ = 0 /\ o = Some (pos + 1) /\ s' = with_stack st s) \/
        (⟦cond⟧ <> 0 /\ is_jumpdest c ⟦dst⟧ /\ o = Some ⟦dst⟧ /\ s' = with_stack st s) \/
        (⟦cond⟧ <> 0 /\ ~ is_jumpdest c ⟦dst⟧ /\ o = None /\
         s' = with_status IVMC_BAD_JUMP_DESTINATION (with_stack st s))))
    (fun _ _ => False) s).
Proof.
  intros Hok Ha Hi. split; [|intros cond l' ->].
  - open_state. unfold Instr.jump. env_auto. eapply (wp_jump_analysed c); [exact Ha|..];
      intros Hj; eexists; (split; [eassumption|]; split; [eassumption|]); [left|right]; done.
  - open_state. unfold Instr.jumpi. env_auto.
    + rewrite u256_to_bool_spec in Hif. bool_prop.
      eapply (wp_jump_analysed c); [exact Ha|..]; intros Hj; eexists;
        (split; [eassumption|]; split; [eassumption|]); right; [left|right]; done.
    + rewrite u256_to_bool_spec in Hif. bool_prop.
      eexists. split; [eassumption|]. split; [eassumption|]. left. done.
Qed.

(** ** Immediate data and the stack *)

(** What the loop reads at [pos], the code having been padded. *)
Definition runs (c : list byte) s : Prop :=
  Z.of_nat (length c) < 2 ^ 62 /\ exists a, analysis_of c a /\ view_data (code s) = padded_code a.

Lemma push_opcode b len :
  op2fn (byte_to_Z b) = Some (I_push len) -> 1 <= len <= 32 /\ instr_size (byte_to_Z b) = len + 1.
Proof.
  destruct b; intros H; vm_compute in H; first [discriminate H|injection H as <-];
    (split; [lia|reflexivity]).
Qed.

(** Inside of the code, the padded code is the code. *)
Lemma padded_slice c a pos n :
  analysis_of c a -> 0 <= pos -> 0 <= n -> pos + n <= Z.of_nat (length c) ->
  take (Z.to_nat n) (drop (Z.to_nat pos) (padded_code a)) =
  take (Z.to_nat n) (drop (Z.to_nat pos) c).
Proof.
  intros Ha Hp Hn Hend. apply list_eq. intros i.
  destruct (Nat.lt_ge_cases i (Z.to_nat n)) as [Hi|Hi].
  - rewrite !lookup_take_lt, !lookup_drop by lia.
    destruct (lookup_lt_is_Some_2 c (Z.to_nat pos + i) ltac:(lia)) as [b Hb].
    pose proof (an_code _ _ Ha (Z.of_nat (Z.to_nat pos + i)) b) as Hc.
    rewrite !nth_Z_lookup, Nat2Z.id in Hc by lia. rewrite Hb. by apply Hc.
  - rewrite !lookup_take_ge by lia. done.
Qed.

(** C18: PUSH1 to PUSH32 push the big-endian number of the 1 to 32 bytes after
    the instruction and move behind them.  When the code ends before the data
    does, what is pushed cannot matter: the next instruction read is STOP. *)
Theorem push_instruction c s pos b len l :
  state_ok s -> runs c s -> instr_start c pos -> nth_Z c pos = Some b ->
  op2fn (byte_to_Z b) = Some (I_push len) ->
  Stack.items (stack s) = l -> Z.of_nat (length l) < Stack.limit ->
  wp (Instr.push len pos)
    (fun o s' => o = Some (pos + 1 + len) /\ 1 <= len <= 32 /\
       exists st z, s' = with_stack st s /\ Stack.wf st /\ Stack.items st = z :: l /\
       ((pos + 1 + len <= Z.of_nat (length c) /\
         ⟦z⟧ = be_value (take (Z.to_nat len) (drop (Z.to_nat (pos + 1)) c))) \/
        (Z.of_nat (length c) < pos + 1 + len /\
         nth_Z (view_data (code s)) (pos + 1 + len) = Some (byte_of_Z OP_STOP))))
    (fun (_ : ivmc_status_code) _ => False) s.
Proof.
  intros Hok (Hc & a & Ha & Hv) Hs Hb Hop Hi Hl. destruct (push_opcode _ _ Hop) as [Hlen Hsz].
  pose proof (instr_start_nonneg _ _ Hs) as Hpos. pose proof (nth_Z_Some _ _ _ Hb) as Hin.
  pose proof (start_next c pos b Hs Hb) as Hnext. rewrite Hsz in Hnext.
  destruct (an_start _ _ Ha pos Hs) as [(b' & Hb' & Hpad)|[_ ?]]; [|lia].
  assert (b' = b) as -> by congruence. rewrite Hsz in Hpad.
  replace (pos + (len + 1)) with (pos + 1 + len) in Hnext by lia.
  assert (Z.of_nat (length c) < pos + 1 + len ->
    nth_Z (view_data (code s)) (pos + 1 + len) = Some (byte_of_Z OP_STOP)) as Hstop.
  { intros Hend. rewrite Hv. destruct (an_start _ _ Ha _ Hnext) as [(x & Hx & _)|[? _]]; [|done].
    apply nth_Z_Some in Hx. lia. }
  open_state. rewrite Hv in *. unfold Instr.push. do 2 env_one. rewrite Hv.
  apply wp_bind. eapply wp_assume; [apply slice_Some; lia|].
  env_auto. split; [f_equal; lia|]. split; [done|].
  eexists _, _. split; [reflexivity|]. split; [eassumption|]. split; [eassumption|].
  destruct (Z.le_gt_cases (pos + 1 + len) (Z.of_nat (length c))) as [Hend|Hend]; [left|right; auto].
  split; [done|]. rewrite be_load_spec by (rewrite length_take; lia).
  f_equal. apply padded_slice; (done || lia).
Qed.

(** C35: POP drops the top item, DUP1 to DUP16 push a copy of the item of that
    number, SWAP1 to SWAP16 exchange the top item with the one that many places
    below, with every other item left where it was. *)
Theorem stack_instructions s n x l :
  state_ok s -> Stack.items (stack s) = x :: l -> 1 <= n <= 16 ->
  wp Instr.pop
    (fun _ s' => exists st, s' = with_stack st s /\ Stack.wf st /\ Stack.items st = l)
    (fun (_ : ivmc_status_code) _ => False) s /\
  (forall y, (x :: l) !! Z.to_nat (n - 1) = Some y -> height s < Stack.limit ->
   wp (Instr.dup n)
    (fun _ s' => exists st, s' = with_stack st s /\ Stack.wf st /\ Stack.items st = y :: x :: l)
    (fun (_ : ivmc_status_code) _ => False) s) /\
  (forall l1 y l2, l = l1 ++ y :: l2 -> Z.of_nat (length l1) = n - 1 ->
   wp (Instr.swap n)
    (fun _ s' => exists st, s' = with_stack st s /\ Stack.wf st /\
       Stack.items st = y :: l1 ++ x :: l2)
    (fun (_ : ivmc_status_code) _ => False) s).
Proof.
  intros Hok Hi Hn. split; [|split].
  - open_state. unfold Instr.pop. env_auto. eexists. done.
  - intros y Hy Hh. open_state. unfold Instr.dup. rewrite Hi in Hh.
    apply wp_bind. eapply wp_stack_at; [done|lia|state_cbn; rewrite Hi; exact Hy|].
    env_auto. eexists. split; [reflexivity|]. split; [done|]. congruence.
  - intros l1 y l2 -> Hl1. open_state. unfold Instr.swap.
    apply wp_bind. eapply wp_stack_at; [done|lia|state_cbn; rewrite Hi; reflexivity|].
    apply wp_bind. eapply wp_stack_at; [done|lia|state_cbn; rewrite Hi|].
    { replace (Z.to_nat n) with (S (length l1)) by lia. cbn. apply list_lookup_middle. done. }
    apply wp_bind. eapply wp_stack_set; [done|state_cbn; rewrite Hi; cbn; lia|].
    intros st1 Hw1 Hi1. state_cbn. rewrite Hi in Hi1.
    eapply wp_stack_set; state_cbn; [done|rewrite Hi1, length_insert; cbn; rewrite length_app; cbn; lia|].
    intros st2 Hw2 Hi2. state_cbn. eexists. split; [reflexivity|]. split; [done|].
    rewrite Hi2, Hi1. replace (Z.to_nat n) with (S (length l1 + 0)) by lia.
    change (y :: <[(length l1 + 0)%nat := x]> (l1 ++ y :: l2) = y :: l1 ++ x :: l2).
    by rewrite insert_app_r.
Qed.

(** C36: PC, MSIZE and GAS push the position of the instruction, the size of the
    memory in bytes and the gas left after the instruction was paid for, each
    as the number it is: none of them is ever truncated. *)
Theorem introspection_instructions s pos :
  state_ok s -> 0 <= pos < 2 ^ 64 -> height s < Stack.limit ->
  let pushes {A} (o : A) (n : Z) (o' : A) s' :=
    o' = o /\ exists st z, s' = with_stack st s /\ Stack.wf st /\
      Stack.items st = z :: Stack.items (stack s) /\ ⟦z⟧ = n in
  wp (Instr.pc pos) (pushes (Some (pos + 1)) pos) (fun (_ : ivmc_status_code) _ => False) s /\
  wp Instr.msize (pushes tt (mem_size s)) (fun (_ : ivmc_status_code) _ => False) s /\
  wp Instr.gas (pushes tt (gas_left s)) (fun (_ : ivmc_status_code) _ => False) s.
Proof.
  intros Hok Hpos Hh. cbv zeta. unfold i64_max in *. split; [|split]; open_state.
  - unfold Instr.pc. env_auto. split; [done|]. eexists _, _. split; [reflexivity|].
    split; [done|]. split; [done|]. rewrite u64_small, u256_of_u64_spec by lia. done.
  - destruct Hm as (? & ? & ? & ? & ?). unfold Instr.msize. env_auto. split; [done|].
    eexists _, _. split; [reflexivity|].
    split; [done|]. split; [done|]. rewrite u256_of_u64_spec by lia. done.
  - unfold Instr.gas. env_auto. split; [done|]. eexists _, _. split; [reflexivity|].
    split; [done|]. split; [done|]. unfold i64_max in *.
    rewrite u64_small, u256_of_u64_spec by lia. done.
Qed.
End Control.

Lemma check_requirements_spec_witness :
  let s := sample_state (sample_message 2) IVMC_LONDON [1; 2] [] in
  wp (call_body (Baseline.check_requirements (E := Mock.env) (get_baseline_instruction_table IVMC_LONDON) OP_ADD))
    (fun c s' => c = IVMC_OUT_OF_GAS /\ gas_left s' = -1)
    (fun (_ : ivmc_status_code) _ => False) s.
Proof.
  cbv zeta. eapply wp_mono; [eapply (check_requirements_spec (E := Mock.env) (byte_of_Z OP_ADD)
    (sample_state (sample_message 2) IVMC_LONDON [1; 2] []))| |done].
  - apply sample_wf. cbn. lia.
  - vm_compute. split; discriminate.
  - intros c s' (-> & -> & _). vm_compute. done.
Defined.

(** PUSH1 0x5b JUMPDEST. *)
Definition jump_code : list byte := [byte_of_Z OP_PUSH1; byte_of_Z OP_JUMPDEST; byte_of_Z OP_JUMPDEST].

Lemma jump_code_start : instr_start jump_code 2.
Proof. apply (start_next jump_code 0 (byte_of_Z OP_PUSH1)); [apply start_first|reflexivity]. Qed.

Lemma jump_code_jumpdest : is_jumpdest jump_code 2.
Proof. split; [apply jump_code_start|reflexivity]. Qed.

Lemma jump_code_data : ~ is_jumpdest jump_code 1.
Proof.
  intros [H _]. pose proof (instr_start_apart jump_code 0 1 (byte_of_Z OP_PUSH1)
    (start_first _) H eq_refl ltac:(lia)) as Hle. vm_compute in Hle. by apply Hle.
Qed.

(** The state in which [jump_code] runs, with the given items. *)
Definition jump_state (a : CodeAnalysis) (l : list Z) : @ExecutionState Mock.env :=
  @Baseline.start_state Mock.env (sample_state (sample_message 100) IVMC_LONDON l jump_code) a.

Lemma jump_state_ok a l :
  (length l <= 1024)%nat -> analysis_of jump_code a -> @state_ok Mock.env (jump_state a l).
Proof.
  intros Hl Ha. pose proof (an_padding _ _ Ha) as Hp. change (length jump_code) with 3%nat in Hp.
  destruct (sample_state_ok 0 100 [] IVMC_LONDON l jump_code) as [H1 H2 H3 H4 H5 H6 H7];
    [vm_compute; split; discriminate|done|cbn; lia..|].
  constructor; [exact H1|exact H2|exact H3|exact H4|exact H5|..];
    cbn [jump_state Baseline.start_state with_code with_analysis code view_data view_size] in *;
    cbn in *; lia.
Qed.

Lemma jump_instructions_witness :
  exists a, Baseline.analyze (E := Mock.env) jump_code = Some a /\
    wp (Instr.jump (E := Mock.env) 0) (fun o s' => o = Some 2 /\ status s' = IVMC_SUCCESS)
      (fun (_ : ivmc_status_code) _ => False) (jump_state a [2]) /\
    wp (Instr.jumpi (E := Mock.env) 0) (fun o s' => o = None /\ status s' = IVMC_BAD_JUMP_DESTINATION)
      (fun (_ : ivmc_status_code) _ => False) (jump_state a [1; 7]).
Proof.
  destruct (analyze_spec (E := Mock.env) jump_code) as (a & Ha & Han). exists a. split; [exact Ha|].
  assert (forall l, analysed jump_code (jump_state a l)) as Hs.
  { intros l. split; [reflexivity|]. exists a. split; [reflexivity|exact Han]. }
  split.
  - eapply wp_mono; [apply (proj1 (jump_instructions (ES := Mock.env_spec) jump_code (jump_state a [2]) 0
      (sample_word 2) [] (jump_state_ok a [2] ltac:(cbn; lia) Han) (Hs _)
      (sample_items (sample_message 100) IVMC_LONDON [2] jump_code ltac:(cbn; lia))))| |done].
    intros o s' (st & _ & _ & [(_ & -> & ->)|(Hn & _)]); [split; reflexivity|].
    destruct (Hn jump_code_jumpdest).
  - eapply wp_mono; [apply (proj2 (jump_instructions (ES := Mock.env_spec) jump_code (jump_state a [1; 7]) 0
      (sample_word 1) [sample_word 7] (jump_state_ok a [1; 7] ltac:(cbn; lia) Han) (Hs _)
      (sample_items (sample_message 100) IVMC_LONDON [1; 7] jump_code ltac:(cbn; lia))) (sample_word 7) [] eq_refl)| |done].
    intros o s' (st & _ & _ & [(Hc & _)|[(_ & Hn & _)|(_ & _ & -> & ->)]]);
      [vm_compute in Hc; discriminate Hc|destruct (jump_code_data Hn)|split; reflexivity].
Defined.

Lemma push_instruction_witness :
  exists a, Baseline.analyze (E := Mock.env) jump_code = Some a /\
    wp (Instr.push (E := Mock.env) 1 0)
      (fun o s' => o = Some 2 /\ exists z, Stack.items (stack s') = [z] /\ ⟦z⟧ = 0x5b)
      (fun (_ : ivmc_status_code) _ => False) (jump_state a []).
Proof.
  destruct (analyze_spec (E := Mock.env) jump_code) as (a & Ha & Han). exists a. split; [exact Ha|].
  eapply wp_mono; [apply (push_instruction (ES := Mock.env_spec) jump_code (jump_state a []) 0
    (byte_of_Z OP_PUSH1) 1 [] (jump_state_ok a [] ltac:(cbn; lia) Han))| |done].
  - split; [reflexivity|]. exists a. split; [exact Han|reflexivity].
  - apply start_first.
  - reflexivity.
  - reflexivity.
  - apply (sample_items (sample_message 100) IVMC_LONDON [] jump_code). cbn. lia.
  - reflexivity.
  - intros o s' (-> & _ & st & z & -> & _ & Hz & [[_ Hv]|[Hlt _]]); [|vm_compute in Hlt; discriminate Hlt].
    split; [reflexivity|]. exists z. split; [exact Hz|rewrite Hv; reflexivity].
Defined.

Lemma stack_instructions_witness :
  let s := sample_state (sample_message 100) IVMC_LONDON [1; 2; 3] [] in
  wp (Instr.swap (E := Mock.env) 2) (fun _ s' => Stack.items (stack s') = [sample_word 3; sample_word 2; sample_word 1])
    (fun (_ : ivmc_status_code) _ => False) s.
Proof.
  cbv zeta. eapply wp_mono; [apply (proj2 (proj2 (stack_instructions (E := Mock.env)
    (sample_state (sample_message 100) IVMC_LONDON [1; 2; 3] []) 2 (sample_word 1)
    [sample_word 2; sample_word 3]
    (sample_state_ok 0 100 [] IVMC_LONDON [1; 2; 3] [] ltac:(vm_compute; split; discriminate)
      ltac:(cbn; lia) ltac:(cbn; lia) ltac:(cbn; lia))
    (sample_items _ _ [1; 2; 3] _ ltac:(cbn; lia)) ltac:(lia)))
    [sample_word 2] (sample_word 3) [] eq_refl eq_refl)| |done].
  intros _ s' (st & -> & _ & Hi). exact Hi.
Defined.

Lemma introspection_instructions_witness :
  let s := sample_state (sample_message 100) IVMC_LONDON [] [] in
  wp (Instr.gas (E := Mock.env)) (fun _ s' => exists z, Stack.items (stack s') = [z] /\ ⟦z⟧ = 100)
    (fun (_ : ivmc_status_code) _ => False) s.
Proof.
  cbv zeta. eapply wp_mono; [apply (proj2 (proj2 (introspection_instructions (ES := Mock.env_spec)
    (sample_state (sample_message 100) IVMC_LONDON [] []) 0
    (sample_state_ok 0 100 [] IVMC_LONDON [] [] ltac:(vm_compute; split; discriminate)
      ltac:(cbn; lia) ltac:(cbn; lia) ltac:(cbn; lia)) ltac:(lia) eq_refl)))| |done].
  intros _ s' (_ & st & z & -> & _ & Hi & Hz). exists z. split; [exact Hi|exact Hz].
Defined.
