(* ===== verification/BaselineRun.v ===== *)
(** * The Baseline interpreter loop: invariant and termination

    [loop_inv] holds whenever the loop is about to execute an instruction.
    Every iteration either ends the execution or re-establishes it with a
    smaller [measure]: the position grows, or a jump has consumed gas. *)
From stdpp Require Import base list tactics option.
From S2P Require Import Prelude Intx Ivmc Code ExecutionState Instructions InstructionsCalls.
From S2P Require Import Traits Dispatch Hoare MemoryRequirements Safety SafetyControl SafetyCalls.
From S2P Require Import Baseline BaselineAnalysis BaselineSafety Mock Samples.

(** The code a client may pass to [execute]. *)
Definition code_ok (c : list byte) : Prop := Z.of_nat (length c) < 2 ^ 63 - 64.

Section Loop.
Context {E : Env} {ES : EnvSpec E}.
Implicit Types s : ExecutionState.

Record loop_inv (c : list byte) s (pos : Z) : Prop := {
  li_state : state_ok s;
  li_output : output_size s = 0;
  li_analysis : exists a, analysis s = analysis_baseline a /\ analysis_of c a /\
    view_data (code s) = padded_code a;
  li_code : code_ok c;
  li_start : instr_start c pos
}.

(** Bounds the iterations left: no position exceeds [length c + 32], and
    only a step that consumes gas moves it back. *)
Definition measure (c : list byte) s (pos : Z) : Z :=
  gas_left s * (Z.of_nat (length c) + 34) + (Z.of_nat (length c) + 33 - pos).

Lemma measure_pos c s pos : loop_inv c s pos -> 0 < measure c s pos.
Proof.
  intros [Hok _ _ _ Hst]. pose proof (ok_gas _ Hok). unfold measure.
  pose proof (instr_start_limit _ _ Hst). nia.
Qed.

(** The opcode the loop reads, and the room for its immediate data. *)
Lemma loop_opcode c s pos :
  loop_inv c s pos ->
  exists b, nth_Z (view_data (code s)) pos = Some b /\
    pos + instr_size (byte_to_Z b) <= Z.of_nat (length (view_data (code s))) /\
    (nth_Z c pos = Some b \/ (nth_Z c pos = None /\ byte_to_Z b = OP_STOP)).
Proof.
  intros [Hok _ (a & Ha & Han & Hv) _ Hst]. rewrite Hv.
  destruct (an_start _ _ Han pos Hst) as [(b & Hb & Hend)|[Hb Hend]].
  - exists b. split; [by apply (an_code _ _ Han)|]. split; [lia|by left].
  - eexists. split; [exact Hb|]. rewrite byte_to_Z_of_Z. split; [|right].
    + change (instr_size (OP_STOP mod 256)) with 1. lia.
    + split; [apply nth_Z_ge; lia|done].
Qed.

Lemma jump_cost r op : op = OP_JUMP \/ op = OP_JUMPI -> 8 <= gas_costs r op.
Proof. intros [->| ->]; destruct r; vm_compute; discriminate. Qed.

(** STOP never continues. *)
Lemma stop_stops op f pos s :
  op = OP_STOP -> op2fn op = Some f ->
  wp (Baseline.invoke (instr_impl f) pos) (fun o _ => o = None) (fun _ _ => False) s.
Proof. intros -> Hf. vm_compute in Hf. by injection Hf as <-. Qed.

(** Where the loop goes after the instruction at [pos]. *)
Definition next_position (c : list byte) (op pos p : Z) : Prop :=
  p = pos + instr_size op \/ ((op = OP_JUMP \/ op = OP_JUMPI) /\ is_jumpdest c p).

(** The loop goes on from [s'] at [p] after the instruction [op] at [pos]. *)
Record continues (c : list byte) s pos op s' p : Prop := {
  ct_inv : loop_inv c s' p;
  ct_read : nth_Z c pos = Some (byte_of_Z op);
  ct_requirement : requirement_status (rev s) op (gas_left s) (height s) = IVMC_SUCCESS;
  ct_height : height s' = height s + stack_height_change (traits op);
  ct_frame : same_frame s s';
  ct_output : same_output s s';
  ct_gas : gas_left s' <= gas_left s - gas_costs (rev s) op;
  ct_next : next_position c op pos p;
  ct_measure : measure c s' p < measure c s pos
}.

(** The loop ends with the instruction [op]. *)
Record ends s op s' : Prop := {
  en_stopped : stopped s s';
  en_abnormal : ends_normally op = false -> is_failure (status s');
  en_requirement : requirement_status (rev s) op (gas_left s) (height s) <> IVMC_SUCCESS ->
    is_failure (status s')
}.

Definition step_post (c : list byte) s pos op (o : option Z) s' : Prop :=
  match o with
  | Some p => continues c s pos op s' p
  | None => ends s op s'
  end.

Lemma stopped_frame s s1 s2 :
  same_frame s s1 -> gas_left s1 <= gas_left s -> stopped s1 s2 -> stopped s s2.
Proof.
  intros [? ? ? ?] Hg [? ? [? ? ? ?] ? Hsg ?]. constructor; [done|done| |done| |done].
  - constructor; congruence.
  - intros Hnf. specialize (Hsg Hnf). lia.
Qed.

Lemma requirement_failure r op gas h :
  requirement_status r op gas h <> IVMC_SUCCESS -> is_failure (requirement_status r op gas h).
Proof. unfold requirement_status. repeat case_match; split; done. Qed.

Lemma requirement_success r op gas h :
  requirement_status r op gas h = IVMC_SUCCESS <->
  gas_costs r op <> undefined /\ gas_costs r op <= gas /\
  h + stack_height_change (traits op) <= Stack.limit /\ stack_height_required (traits op) <= h.
Proof.
  unfold requirement_status. repeat case_match; bool_prop; (split; [done || lia|]); intros; lia || done.
Qed.

(** A step whose requirements hold is the invocation after the charge. *)
Lemma step_requirement c s pos b (Q : option Z -> _ -> Prop) (QR : ivmc_status_code -> _ -> Prop) :
  loop_inv c s pos -> nth_Z (view_data (code s)) pos = Some b ->
  let op := byte_to_Z b in
  let st := requirement_status (rev s) op (gas_left s) (height s) in
  (st <> IVMC_SUCCESS -> Q None (with_status st (after_charge op s))) ->
  (forall f, st = IVMC_SUCCESS -> op2fn op = Some f ->
    wp (Baseline.invoke (instr_impl f) pos) Q QR
      (with_gas_left (gas_left s - gas_costs (rev s) op) s)) ->
  wp (Baseline.step (get_baseline_instruction_table (rev s)) pos) Q QR s.
Proof.
  intros [Hok _ _ _ _] Hb op st HF HQ. unfold Baseline.step.
  apply wp_bind, wp_asks, wp_bind. eapply wp_assume; [exact Hb|].
  apply wp_bind, wp_check_requirements; [apply Hok|apply Hok|]. fold op. fold st.
  destruct (decide (st = IVMC_SUCCESS)) as [Hst|Hst].
  - rewrite bool_decide_eq_true_2 by done. pose proof (entries_ok (rev s) b) as He.
    fold op in He. unfold entry_ok in He.
    pose proof (proj1 (requirement_success _ _ _ _) Hst) as (Hu & _).
    apply Z.eqb_neq in Hu. rewrite Hu in He. cbn [orb] in He. bool_prop.
    destruct (op2fn op) as [f|] eqn:Hf; [|done]. apply wp_bind. eapply wp_assume; [reflexivity|].
    unfold after_charge. rewrite (proj2 (Z.eqb_neq _ _)) by done. by apply HQ.
  - rewrite bool_decide_eq_false_2 by done. unfold Baseline.exit_with.
    apply wp_bind, wp_modify, wp_ret. by apply HF.
Qed.

Lemma step_spec c s pos :
  loop_inv c s pos ->
  exists b, nth_Z (view_data (code s)) pos = Some b /\
    (nth_Z c pos = Some b \/ (nth_Z c pos = None /\ byte_to_Z b = OP_STOP)) /\
    wp (Baseline.step (get_baseline_instruction_table (rev s)) pos)
      (step_post c s pos (byte_to_Z b)) (fun _ _ => False) s.
Proof.
  intros Hinv. destruct (loop_opcode _ _ _ Hinv) as (b & Hb & Hend & Hcb).
  exists b. split; [done|]. split; [done|].
  pose proof Hinv as [Hok Hout (a & Ha & Han & Hv) Hc Hst].
  pose proof (ok_gas _ Hok) as Hg. pose proof (instr_start_nonneg _ _ Hst).
  eapply step_requirement; [done|done|cbv zeta|]; set (op := byte_to_Z b) in *.
  { intros Hreq. pose proof (requirement_failure _ _ _ _ Hreq) as Hf. constructor; [|done|done].
    unfold after_charge. case_match;
      (constructor; [apply Hok|apply Hok|by constructor|by left| |done]); by intros Hnf. }
  intros f Hreq Hf. pose proof (proj1 (requirement_success _ _ _ _) Hreq) as (Hu & Hcost & Hlim & Hneed).
  pose proof (entries_ok (rev s) b) as He. fold op in He. unfold entry_ok in He.
  rewrite (proj2 (Z.eqb_neq _ _) Hu) in He. cbn [orb] in He. bool_prop.
  set (s1 := with_gas_left (gas_left s - gas_costs (rev s) op) s).
  assert (state_ok s1) as Hok1.
  { destruct Hok. constructor; cbn; (done || lia). }
  assert (exists a, analysis s1 = analysis_baseline a /\ Z.of_nat (length (jumpdest_map a)) < 2 ^ 64)
    as Hmap.
  { exists a. split; [done|]. rewrite (an_map_length _ _ Han). unfold code_ok in Hc. lia. }
  pose proof (ops_safe b f Hf s1 pos Hok1 Hneed Hlim Hout Hmap ltac:(done) Hend) as Hsafe.
  assert (wp (Baseline.invoke (instr_impl f) pos) (fun o _ => op = OP_STOP -> o = None)
    (fun _ _ => False) s1) as Hstop.
  { destruct (Z.eq_dec op OP_STOP) as [Hop|Hop].
    - eapply wp_mono; [by apply (stop_stops op)| |]; done.
    - by eapply wp_mono; [exact Hsafe| |]. }
  eapply wp_mono; [exact (wp_conj _ _ _ _ _ _ Hsafe Hstop)| |by intros ? ? [? ?]].
  cbv beta. fold op. intros [p|] s' [Hs' Hns]; cbn [step_post].
  - destruct Hs' as (Hgo & Hok' & Hh & Hfr & Hso & Hg').
    assert (same_frame s s') as Hfr' by (destruct Hfr; by constructor).
    assert (op <> OP_STOP) as Hop by (intros Hop; by specialize (Hns Hop)).
    destruct Hcb as [Hcb|[_ Hcb]]; [|done]. cbn [gas_left with_gas_left s1] in Hg'.
    assert (next_position c op pos p) as Hnext.
    { destruct Hgo as [->|[Hv' Hj]]; [by left|right; split; [done|]].
      unfold valid_jumpdest in Hv'. cbn in Hv'. rewrite Ha in Hv'. by apply (an_map_spec _ _ Han). }
    assert (instr_start c p /\ measure c s' p < measure c s pos) as [Hp Hmeas].
    { unfold measure. pose proof (nth_Z_Some _ _ _ Hcb).
      destruct Hnext as [->|[Hj [Hs1 _]]].
      - split; [by apply start_next|]. pose proof (instr_size_bound op). fold op. nia.
      - split; [done|]. pose proof (instr_start_nonneg _ _ Hs1).
        pose proof (jump_cost (rev s) op Hj). nia. }
    constructor; try done; [|by unfold op; rewrite byte_of_Z_to_Z].
    constructor; [done|by destruct Hso as (_ & _ & ->)| |done|done].
    exists a. destruct Hfr' as [_ _ Hcode Hana]. by rewrite Hana, Hcode.
  - destruct Hs' as [Hs' Hab]. constructor; [|done|by intros Hnr].
    eapply (stopped_frame s s1); [by constructor|cbn; lia|done].
Qed.

(** ** The loop

    Enough fuel always finishes. *)
Lemma run_spec tracing fuel c s pos tr :
  loop_inv c s pos -> measure c s pos < Z.of_nat fuel ->
  exists s' tr', stopped s s' /\
    Baseline.run tracing fuel (get_baseline_instruction_table (rev s)) pos s tr =
      Baseline.Finished s' tr'.
Proof.
  revert s pos tr. induction fuel as [|fuel IH]; intros s pos tr Hinv Hf.
  { pose proof (measure_pos _ _ _ Hinv). lia. }
  cbn [Baseline.run]. destruct (step_spec _ _ _ Hinv) as (b & _ & Hcb & Hstep).
  assert (0 <= gas_costs (rev s) (byte_to_Z b) \/ gas_costs (rev s) (byte_to_Z b) = undefined) as Hc0.
  { pose proof (entries_ok (rev s) b) as He. unfold entry_ok in He.
    destruct (_ =? undefined) eqn:?; cbn [orb] in He; bool_prop; auto. }
  unfold wp in Hstep.
  destruct (Baseline.step _ pos s) as [[p|] s1|? ?|]; cbn [step_post] in Hstep;
    [|by exists s1, (tr ++ Baseline.trace_instruction tracing pos s); split; [apply Hstep|]|done|done].
  destruct Hstep as [Hinv1 _ Hreq _ Hfr _ Hg _ Hm].
  apply requirement_success in Hreq as [Hreq _].
  destruct (IH s1 p (tr ++ Baseline.trace_instruction tracing pos s) Hinv1 ltac:(lia))
    as (s' & tr' & Hst & Hrun).
  exists s', tr'. split; [eapply stopped_frame; [done|lia|done]|].
  destruct Hfr as [_ Hrev _ _]. by rewrite Hrev in Hrun.
Qed.

(** Tracing only observes. *)
Lemma run_tracing fuel table pos s tr1 tr2 :
  match Baseline.run true fuel table pos s tr1, Baseline.run false fuel table pos s tr2 with
  | Baseline.Finished s1 _, Baseline.Finished s2 tr => s1 = s2 /\ tr = tr2
  | Baseline.Stuck, Baseline.Stuck | Baseline.OutOfFuel, Baseline.OutOfFuel => True
  | _, _ => False
  end.
Proof.
  revert pos s tr1 tr2. induction fuel as [|fuel IH]; intros pos s tr1 tr2; [done|].
  cbn [Baseline.run]. cbn [Baseline.trace_instruction andb]. rewrite app_nil_r.
  destruct (Baseline.step table pos s) as [[p|] s1|? ?|]; [apply IH|done|done|done].
Qed.

(** ** The entry point *)
Record client_ok (m : ivmc_message) (c : list byte) : Prop := {
  co_msg : msg_ok m;
  co_gas : 0 <= msg_gas m <= i64_max;
  co_code : code_ok c
}.

(** Iterations that are enough for a message and a code. *)
Definition enough_fuel (m : ivmc_message) (c : list byte) : nat :=
  Z.to_nat (msg_gas m * (Z.of_nat (length c) + 34) + Z.of_nat (length c) + 34).

Lemma start_inv h r m c a :
  client_ok m c -> analysis_of c a -> loop_inv c (Baseline.start_state (new_state m r h c) a) 0.
Proof.
  intros [Hm Hg Hc] Ha. pose proof (an_padding _ _ Ha). unfold code_ok in *.
  constructor; [|done| |done|constructor].
  - constructor; [apply stack_new_spec|apply memory_new_spec|done|done|done|..]; cbn; lia.
  - by exists a.
Qed.

(** The result of an execution that has stopped. *)
Record result_of_stop (s s' : ExecutionState) (r : ivmc_result) : Prop := {
  rs_status : res_status_code r = status s';
  rs_gas : 0 <= res_gas_left r <= gas_left s;
  rs_failure : is_failure (res_status_code r) -> res_gas_left r = 0 /\ res_output_data r = [];
  rs_output : res_output_size r = output_size s'
}.

Lemma exit_result_spec s s' :
  stopped s s' -> 0 <= gas_left s ->
  exists r, Baseline.exit_result s' = Some r /\ result_of_stop s s' r.
Proof.
  intros [_ Hm _ Ho Hg Hf] Hg0. unfold Baseline.exit_result.
  assert (exists d, (if negb (output_size s' =? 0)
    then Memory.read (memory s') (output_offset s') (output_size s') else Some []) = Some d /\
    Z.of_nat (length d) = output_size s') as (d & -> & Hd).
  { destruct (output_size s' =? 0) eqn:Hz; bool_prop; cbn [negb].
    - exists []. by rewrite Hz.
    - destruct Ho as [?|(? & ? & ?)]; [lia|]. unfold mem_size in *.
      rewrite memory_read_spec by done. eexists. split; [done|].
      pose proof (memory_bytes_length _ Hm). rewrite length_take, length_drop. lia. }
  eexists. split; [reflexivity|]. unfold Baseline.final_gas. constructor; cbn.
  - done.
  - repeat case_bool_decide; cbn; try lia; apply Hg; intros [? ?]; congruence.
  - intros [Hn1 Hn2]. rewrite !bool_decide_eq_false_2 by done. split; [done|].
    rewrite Hf in Hd by done. destruct d; [done|cbn in Hd; lia].
  - done.
Qed.

(** More fuel changes nothing. *)
Lemma run_more_fuel tracing fuel fuel' table pos s tr s' tr' :
  Baseline.run tracing fuel table pos s tr = Baseline.Finished s' tr' -> (fuel <= fuel')%nat ->
  Baseline.run tracing fuel' table pos s tr = Baseline.Finished s' tr'.
Proof.
  revert fuel' pos s tr. induction fuel as [|fuel IH]; intros fuel' pos s tr Hrun Hle; [done|].
  destruct fuel' as [|fuel']; [lia|]. cbn [Baseline.run] in *.
  destruct (Baseline.step table pos s) as [[p|] s1|? ?|]; try done. apply IH; [done|lia].
Qed.

Lemma execute_more fuel fuel' h r m c res s tr :
  Baseline.execute false fuel h r m c = Baseline.Executed res s tr -> (fuel <= fuel')%nat ->
  Baseline.execute false fuel' h r m c = Baseline.Executed res s tr.
Proof.
  unfold Baseline.execute, Baseline.execute_with. cbv zeta. intros Hex Hle.
  destruct (Baseline.analyze c) as [a|]; [|done].
  destruct (Baseline.run false fuel _ _ _ _) as [s' tr'| |] eqn:Hrun; [|done|done].
  by rewrite (run_more_fuel _ _ fuel' _ _ _ _ _ _ Hrun Hle).
Qed.

(** ** Properties *)

(** C2: The Baseline interpreter is total and free of undefined behaviour: for
    every message and code within the limits of the interface, in every
    revision and with or without tracing, [enough_fuel] iterations end the
    execution without an out-of-bounds access, a signed overflow or a failed
    assertion, and the result gives back between none and all of the gas; a
    failed execution gives back no gas and no output. *)
Theorem baseline_execute_total tracing fuel h r m c :
  client_ok m c -> (enough_fuel m c <= fuel)%nat ->
  exists res s tr,
    Baseline.execute tracing fuel h r m c = Baseline.Executed res s tr /\
    0 <= res_gas_left res <= msg_gas m /\
    (is_failure (res_status_code res) -> res_gas_left res = 0 /\ res_output_data res = []).
Proof.
  intros Hok Hfuel. unfold Baseline.execute.
  destruct (analyze_spec c) as (a & -> & Ha). unfold Baseline.execute_with. cbv zeta.
  pose proof (start_inv h r _ _ _ Hok Ha) as Hinv.
  destruct (run_spec tracing fuel c _ 0
    (if tracing then [Baseline.execution_start r m (mk_view (padded_code a) (Z.of_nat (length c)))]
     else []) Hinv) as (s' & tr & Hst & Hrun).
  { unfold measure, enough_fuel in *. cbn [gas_left with_code with_analysis new_state
      Baseline.start_state]. pose proof (co_gas _ _ Hok). nia. }
  cbn [rev msg code with_code with_analysis new_state Baseline.start_state view_size] in *.
  rewrite Hrun.
  destruct (exit_result_spec _ _ Hst) as (res & -> & Hres); [apply (ok_gas _ (li_state _ _ _ Hinv))|].
  do 3 eexists. split; [reflexivity|]. split; [apply Hres|apply Hres].
Qed.


(** Tracing does not change an execution: with the same fuel the traced
    and the untraced interpreter agree on the result and on the final state,
    and the untraced one notifies nobody. *)
Lemma execute_tracing fuel h r m c :
  match Baseline.execute true fuel h r m c, Baseline.execute false fuel h r m c with
  | Baseline.Executed res1 s1 _, Baseline.Executed res2 s2 tr2 =>
      res1 = res2 /\ s1 = s2 /\ tr2 = []
  | Baseline.ExecStuck, Baseline.ExecStuck
  | Baseline.ExecOutOfFuel, Baseline.ExecOutOfFuel => True
  | _, _ => False
  end.
Proof.
  unfold Baseline.execute. destruct (Baseline.analyze c) as [a|]; [|done].
  unfold Baseline.execute_with. cbv zeta.
  pose proof (run_tracing fuel (get_baseline_instruction_table r) 0
    (Baseline.start_state (new_state m r h c) a)
    [Baseline.execution_start r m (mk_view (padded_code a) (Z.of_nat (length c)))] []) as Hrun.
  cbn [rev msg code with_code with_analysis new_state Baseline.start_state view_size] in *.
  do 2 destruct (Baseline.run _ _ _ _ _ _); try done.
  destruct Hrun as [-> ->]. by destruct (Baseline.exit_result s0).
Qed.
End Loop.

(** PUSH1 1; PUSH1 0; SSTORE; STOP *)
Definition sample_code : list byte :=
  [Byte.x60; Byte.x01; Byte.x60; Byte.x00; Byte.x55; Byte.x00].

Lemma sample_client_ok gas : 0 <= gas <= i64_max -> client_ok (sample_message gas) sample_code.
Proof.
  intros Hg. constructor; [by apply sample_msg_ok|exact Hg|unfold code_ok; cbn; lia].
Qed.

Lemma baseline_execute_total_witness :
  exists res s tr,
    Baseline.execute (E := Mock.env) true
      (enough_fuel (sample_message 40000) sample_code) Mock.empty_host IVMC_LONDON
      (sample_message 40000) sample_code = Baseline.Executed res s tr /\
    0 <= res_gas_left res <= 40000 /\
    (is_failure (res_status_code res) -> res_gas_left res = 0 /\ res_output_data res = []).
Proof.
  apply (baseline_execute_total (ES := Mock.env_spec)); [|lia].
  apply sample_client_ok. unfold i64_max. lia.
Defined.

