(* ===== verification/Analysis.v ===== *)
(** * The Advanced code analysis (analysis.hpp, analysis.cpp, get_op_table in instructions.cpp)

    [get_op_table] gives the function, base gas cost and stack metrics of each
    opcode, and [analyze] turns bytecode into a table of instructions split
    into basic blocks, each opened by a BEGINBLOCK instruction that carries
    the gas cost and the stack requirements of its block. *)
From stdpp Require Import base list tactics option.
From S2P Require Import Prelude Intx Ivmc Code ExecutionState Instructions Traits.

(** ** limits.hpp *)
Definition max_code_size : Z := 0x6000.
Definition max_instruction_base_cost : Z := 32000.
Definition max_instruction_stack_increase : Z := 1.

(** ** The instruction tables *)
Definition OPX_BEGINBLOCK : Z := OP_JUMPDEST.

Definition instruction_implementation_entries : list (Z * option exec_fn) :=
  [
    (OP_STOP, Some X_stop); (OP_ADD, Some (X_op I_add)); (OP_MUL, Some (X_op I_mul));
    (OP_SUB, Some (X_op I_sub)); (OP_DIV, Some (X_op I_div)); (OP_SDIV, Some (X_op I_sdiv));
    (OP_MOD, Some (X_op I_mod)); (OP_SMOD, Some (X_op I_smod));
    (OP_ADDMOD, Some (X_op I_addmod)); (OP_MULMOD, Some (X_op I_mulmod));
    (OP_EXP, Some (X_op I_exp)); (OP_SIGNEXTEND, Some (X_op I_signextend));
    (OP_LT, Some (X_op I_lt)); (OP_GT, Some (X_op I_gt)); (OP_SLT, Some (X_op I_slt));
    (OP_SGT, Some (X_op I_sgt)); (OP_EQ, Some (X_op I_eq)); (OP_ISZERO, Some (X_op I_iszero));
    (OP_AND, Some (X_op I_and)); (OP_OR, Some (X_op I_or)); (OP_XOR, Some (X_op I_xor));
    (OP_NOT, Some (X_op I_not)); (OP_BYTE, Some (X_op I_byte)); (OP_SHL, Some (X_op I_shl));
    (OP_SHR, Some (X_op I_shr)); (OP_SAR, Some (X_op I_sar));
    (OP_KECCAK256, Some (X_op I_keccak256)); (OP_ADDRESS, Some (X_op I_address));
    (OP_BALANCE, Some (X_op I_balance)); (OP_ORIGIN, Some (X_op I_origin));
    (OP_CALLER, Some (X_op I_caller)); (OP_CALLVALUE, Some (X_op I_callvalue));
    (OP_CALLDATALOAD, Some (X_op I_calldataload)); (OP_CALLDATASIZE, Some (X_op I_calldatasize));
    (OP_CALLDATACOPY, Some (X_op I_calldatacopy)); (OP_CODESIZE, Some (X_op I_codesize));
    (OP_CODECOPY, Some (X_op I_codecopy)); (OP_GASPRICE, Some (X_op I_gasprice));
    (OP_EXTCODESIZE, Some (X_op I_extcodesize)); (OP_EXTCODECOPY, Some (X_op I_extcodecopy));
    (OP_RETURNDATASIZE, Some (X_op I_returndatasize));
    (OP_RETURNDATACOPY, Some (X_op I_returndatacopy));
    (OP_EXTCODEHASH, Some (X_op I_extcodehash)); (OP_BLOCKHASH, Some (X_op I_blockhash));
    (OP_COINBASE, Some (X_op I_coinbase)); (OP_TIMESTAMP, Some (X_op I_timestamp));
    (OP_NUMBER, Some (X_op I_number)); (OP_DIFFICULTY, Some (X_op I_difficulty));
    (OP_GASLIMIT, Some (X_op I_gaslimit)); (OP_CHAINID, Some (X_op I_chainid));
    (OP_SELFBALANCE, Some (X_op I_selfbalance)); (OP_BASEFEE, Some (X_op I_basefee));
    (OP_POP, Some (X_op I_pop)); (OP_MLOAD, Some (X_op I_mload));
    (OP_MSTORE, Some (X_op I_mstore)); (OP_MSTORE8, Some (X_op I_mstore8));
    (OP_SLOAD, Some (X_op I_sload)); (OP_SSTORE, Some X_sstore); (OP_JUMP, Some X_jump);
    (OP_JUMPI, Some X_jumpi); (OP_PC, Some X_pc); (OP_MSIZE, Some (X_op I_msize));
    (OP_GAS, Some X_gas); (OPX_BEGINBLOCK, Some X_beginblock)
  ]
  ++ map (fun op => (op, Some X_push_small)) (opcode_range OP_PUSH1 OP_PUSH8)
  ++ map (fun op => (op, Some X_push_full)) (opcode_range OP_PUSH9 OP_PUSH32)
  ++ map (fun op => (op, Some (X_op (I_dup (op - OP_DUP1 + 1))))) (opcode_range OP_DUP1 OP_DUP16)
  ++ map (fun op => (op, Some (X_op (I_swap (op - OP_SWAP1 + 1)))))
       (opcode_range OP_SWAP1 OP_SWAP16)
  ++ map (fun op => (op, Some (X_op (I_log (op - OP_LOG0))))) (opcode_range OP_LOG0 OP_LOG4)
  ++ [
    (OP_CREATE, Some (X_create IVMC_CREATE)); (OP_CALL, Some (X_call IVMC_CALL false));
    (OP_CALLCODE, Some (X_call IVMC_CALLCODE false));
    (OP_RETURN, Some (X_return IVMC_SUCCESS));
    (OP_DELEGATECALL, Some (X_call IVMC_DELEGATECALL false));
    (OP_CREATE2, Some (X_create IVMC_CREATE2)); (OP_STATICCALL, Some (X_call IVMC_CALL true));
    (OP_REVERT, Some (X_return IVMC_REVERT)); (OP_INVALID, Some X_invalid);
    (OP_SELFDESTRUCT, Some X_selfdestruct)
  ].

(** The entries not assigned are null pointers. *)
Definition instruction_implementations : list (option exec_fn) :=
  assign_all instruction_implementation_entries (replicate 256 None).

Record op_table_entry := mk_op_entry {
  op_fn : option exec_fn;
  op_gas_cost : Z;
  op_stack_req : Z;
  op_stack_change : Z
}.

Definition op_entry (r : ivmc_revision) (i : Z) : op_table_entry :=
  let gas_cost := gas_costs r i in
  if gas_cost =? undefined then mk_op_entry (Some X_undefined) 0 0 0
  else mk_op_entry (nth (Z.to_nat i) instruction_implementations None) gas_cost
         (stack_height_required (traits i)) (stack_height_change (traits i)).

Definition get_op_table (r : ivmc_revision) : list op_table_entry :=
  map (fun i => op_entry r (Z.of_nat i)) (seq 0 256).

(** ** Basic blocks *)
Definition u32_max : Z := 2 ^ 32 - 1.
Definition i16_max : Z := 2 ^ 15 - 1.
Definition to_i16 (z : Z) : Z := (z + 2 ^ 15) mod 2 ^ 16 - 2 ^ 15.

(** [clamp<To>(x)], with the maximum of [To] and the conversion to it. *)
Definition clamp (max : Z) (cast : Z -> Z) (x : Z) : Z := if x <=? max then cast x else max.

Record block_analysis := mk_block_analysis {
  ba_gas_cost : Z;
  ba_stack_req : Z;
  ba_stack_max_growth : Z;
  ba_stack_change : Z;
  ba_begin_block_index : Z
}.

Definition new_block_analysis (index : Z) : block_analysis := mk_block_analysis 0 0 0 0 index.

Definition close (b : block_analysis) : block_info :=
  mk_block_info (clamp u32_max u32 (ba_gas_cost b)) (clamp i16_max to_i16 (ba_stack_req b))
    (clamp i16_max to_i16 (ba_stack_max_growth b)).

(** The update of the block for one instruction. *)
Definition add_instruction (b : block_analysis) (info : op_table_entry) : block_analysis :=
  let stack_req := Z.max (ba_stack_req b) (op_stack_req info - ba_stack_change b) in
  let stack_change := ba_stack_change b + op_stack_change info in
  let stack_max_growth := Z.max (ba_stack_max_growth b) stack_change in
  let gas_cost := ba_gas_cost b + op_gas_cost info in
  mk_block_analysis gas_cost stack_req stack_max_growth stack_change (ba_begin_block_index b).

(** ** The analysis *)
Section Analyze.
Context {E : Env}.

(** [std::lower_bound] on a sorted range: the index of the first element
    that is not less than the value. *)
Fixpoint lower_bound (l : list Z) (v : Z) : nat :=
  match l with
  | [] => O
  | x :: l' => if x <? v then S (lower_bound l' v) else O
  end.

(** -1 when the offset is not a JUMPDEST. *)
Definition find_jumpdest (a : AdvancedCodeAnalysis) (offset : Z) : option Z :=
  let it := lower_bound (jumpdest_offsets a) offset in
  match jumpdest_offsets a !! it with
  | Some o => if o =? offset then jumpdest_targets a !! it else Some (-1)
  | None => Some (-1)
  end.

(** The loop of a small push: [n] bytes from [code_pos], most significant first. *)
Fixpoint small_push (n : nat) (code : list byte) (code_pos value insert_bit_pos : Z)
    : option Z :=
  match n with
  | O => Some value
  | S n' =>
      b ← nth_Z code code_pos;
      let value := Z.lor value (u64 (Z.shiftl (byte_to_Z b) insert_bit_pos)) in
      small_push n' code (code_pos + 1) value (u64 (insert_bit_pos - 8))
  end.

(** The loop of a large push: bytes into the native representation, downwards. *)
Fixpoint large_push (n : nat) (code : list byte) (code_pos insert_pos : Z)
    (value_bytes : list byte) : option (list byte) :=
  match n with
  | O => Some value_bytes
  | S n' =>
      b ← nth_Z code code_pos;
      value_bytes ← overwrite value_bytes insert_pos [b];
      large_push n' code (code_pos + 1) (insert_pos - 1) value_bytes
  end.

(** The variables of [analyze]. *)
Record analyze_state := mk_analyze_state {
  an_instrs : list instruction;
  an_push_values : list uint256;
  an_jumpdest_offsets : list Z;
  an_jumpdest_targets : list Z;
  an_block : block_analysis
}.

Definition set_arg (i : instruction) (a : instruction_argument) : instruction :=
  mk_instruction (fn i) a.

(** [analysis.instrs.back().arg = a]. *)
Definition set_back_arg (l : list instruction) (a : instruction_argument)
    : option (list instruction) :=
  i ← l !! Nat.pred (length l);
  Some (<[Nat.pred (length l) := set_arg i a]> l).

(** [analysis.instrs\[block.begin_block_index\].arg.block = block.close()]. *)
Definition save_block (l : list instruction) (b : block_analysis) : option (list instruction) :=
  i ← nth_Z l (ba_begin_block_index b);
  Some (<[Z.to_nat (ba_begin_block_index b) := set_arg i (arg_block (close b))]> l).

Definition is_terminator (opcode : Z) : bool :=
  (opcode =? OP_JUMP) || (opcode =? OP_JUMPI) || (opcode =? OP_STOP) || (opcode =? OP_RETURN) ||
  (opcode =? OP_REVERT) || (opcode =? OP_SELFDESTRUCT).

(** The instructions that get the gas cost of the block so far. *)
Definition needs_gas_number (opcode : Z) : bool :=
  (opcode =? OP_GAS) || (opcode =? OP_CALL) || (opcode =? OP_CALLCODE) ||
  (opcode =? OP_DELEGATECALL) || (opcode =? OP_STATICCALL) || (opcode =? OP_CREATE) ||
  (opcode =? OP_CREATE2) || (opcode =? OP_SSTORE).

(** The [switch (opcode)]: the new code position, instructions and push values.
    Pointers into the code and into the value are positions: that
    [code_pos + push_size] may lie past the end of the code, and that the last
    [insert_pos--] may leave the value, matters only where they are followed. *)
Definition analyze_argument (code : list byte) (opcode code_pos : Z) (block : block_analysis)
    (instrs : list instruction) (push_values : list uint256)
    : option (Z * list instruction * list uint256) :=
  let code_end := Z.of_nat (length code) in
  if is_terminator opcode then Some (code_pos, instrs, push_values)
  else if (OP_PUSH1 <=? opcode) && (opcode <=? OP_PUSH8) then
    let push_size := opcode - OP_PUSH1 + 1 in
    let push_end := Z.min (code_pos + push_size) code_end in
    let n := push_end - code_pos in
    value ← small_push (Z.to_nat n) code code_pos 0 ((push_size - 1) * 8);
    instrs ← set_back_arg instrs (arg_small_push_value value);
    Some (code_pos + n, instrs, push_values)
  else if (OP_PUSH9 <=? opcode) && (opcode <=? OP_PUSH32) then
    let push_size := opcode - OP_PUSH1 + 1 in
    let push_end := code_pos + push_size in
    let n := Z.min push_end code_end - code_pos in
    value_bytes ← large_push (Z.to_nat n) code code_pos (push_size - 1)
                    (replicate 32 Byte.x00);
    instrs ← set_back_arg instrs (arg_push_value (length push_values));
    Some (code_pos + n, instrs, push_values ++ [u256_of_native_bytes value_bytes])
  else if needs_gas_number opcode then
    instrs ← set_back_arg instrs (arg_number (ba_gas_cost block));
    Some (code_pos, instrs, push_values)
  else if opcode =? OP_PC then
    instrs ← set_back_arg instrs (arg_number (code_pos - 1));
    Some (code_pos, instrs, push_values)
  else Some (code_pos, instrs, push_values).

(** One iteration of [while (code_pos != code_end)]. *)
Definition analyze_step (op_tbl : list op_table_entry) (beginblock_fn : exec_fn)
    (code : list byte) (code_pos : Z) (st : analyze_state) : option (Z * analyze_state) :=
  b ← nth_Z code code_pos;
  let opcode := byte_to_Z b in
  let code_pos := code_pos + 1 in
  opcode_info ← nth_Z op_tbl opcode;
  f ← op_fn opcode_info;
  let block := add_instruction (an_block st) opcode_info in
  let is_jumpdest := opcode =? OP_JUMPDEST in
  let offsets := if is_jumpdest then an_jumpdest_offsets st ++ [to_i32 (code_pos - 1)]
                 else an_jumpdest_offsets st in
  let targets := if is_jumpdest
                 then an_jumpdest_targets st ++ [to_i32 (Z.of_nat (length (an_instrs st)) - 1)]
                 else an_jumpdest_targets st in
  let instrs := if is_jumpdest then an_instrs st
                else an_instrs st ++ [new_instruction f] in
  '(code_pos, instrs, push_values) ←
    analyze_argument code opcode code_pos block instrs (an_push_values st);
  let next_is_jumpdest :=
    match nth_Z code code_pos with
    | Some b' => byte_to_Z b' =? OP_JUMPDEST
    | None => false
    end in
  if is_terminator opcode || next_is_jumpdest then
    instrs ← save_block instrs block;
    let instrs := instrs ++ [new_instruction beginblock_fn] in
    Some (code_pos, mk_analyze_state instrs push_values offsets targets
                      (new_block_analysis (Z.of_nat (length instrs) - 1)))
  else Some (code_pos, mk_analyze_state instrs push_values offsets targets block).

Fixpoint analyze_loop (fuel : nat) (op_tbl : list op_table_entry) (beginblock_fn : exec_fn)
    (code : list byte) (code_pos : Z) (st : analyze_state) : option analyze_state :=
  match fuel with
  | O => None
  | S fuel' =>
      if code_pos =? Z.of_nat (length code) then Some st
      else
        '(code_pos, st) ← analyze_step op_tbl beginblock_fn code code_pos st;
        analyze_loop fuel' op_tbl beginblock_fn code code_pos st
  end.

Definition analyze (r : ivmc_revision) (code : list byte) : option AdvancedCodeAnalysis :=
  let op_tbl := get_op_table r in
  bb ← nth_Z op_tbl OPX_BEGINBLOCK;
  opx_beginblock_fn ← op_fn bb;
  st ← analyze_loop (S (length code)) op_tbl opx_beginblock_fn code 0
         (mk_analyze_state [new_instruction opx_beginblock_fn] [] [] [] (new_block_analysis 0));
  instrs ← save_block (an_instrs st) (an_block st);
  stop ← nth_Z op_tbl OP_STOP;
  stop_fn ← op_fn stop;
  Some (mk_advanced_code_analysis (instrs ++ [new_instruction stop_fn]) (an_push_values st)
          (an_jumpdest_offsets st) (an_jumpdest_targets st)).
End Analyze.
