(* ===== verification/BlockSpec.v ===== *)
(** * Basic blocks: the summary of a block and the immediate data

    A block is summarised by its gas cost, the stack height it requires and
    its greatest growth.  [block_enters] is the reference: the requirements of
    every instruction of the block, checked one after the other.  The loops
    that read the immediate data of PUSH compute the big-endian number of the
    data, with zeros past the end of the code. *)
From stdpp Require Import base list tactics option.
From S2P Require Import Prelude Intx Ivmc Mock Code ExecutionState Instructions Traits Safety.
From S2P Require Import BaselineAnalysis BaselineSafety Analysis.

(** ** Summaries *)

(** The instructions of a block can run from the height [h]. *)
Fixpoint stack_enters (ops : list op_table_entry) (h : Z) : Prop :=
  match ops with
  | [] => True
  | i :: ops' =>
      op_stack_req i <= h /\ h + op_stack_change i <= Stack.limit /\
      stack_enters ops' (h + op_stack_change i)
  end.

Definition block_cost (ops : list op_table_entry) : Z :=
  foldr (fun i n => op_gas_cost i + n) 0 ops.

(** The block can be entered with [gas] at the height [h]. *)
Definition block_enters (ops : list op_table_entry) (gas h : Z) : Prop :=
  block_cost ops <= gas /\ stack_enters ops h.

Definition summary (b : block_analysis) (ops : list op_table_entry) : block_analysis :=
  fold_left add_instruction ops b.

(** What BEGINBLOCK tests. *)
Definition info_enters (info : block_info) (gas h : Z) : Prop :=
  bi_gas_cost info <= gas /\ bi_stack_req info <= h /\ h + bi_stack_max_growth info <= Stack.limit.

Lemma summary_cost b ops : ba_gas_cost (summary b ops) = ba_gas_cost b + block_cost ops.
Proof.
  revert b. induction ops as [|i ops IH]; intros b; cbn [summary fold_left block_cost foldr]; [lia|].
  fold (summary (add_instruction b i) ops). rewrite IH. unfold block_cost. cbn. lia.
Qed.

Lemma summary_stack b ops h :
  ba_stack_req (summary b ops) <= h /\ h + ba_stack_max_growth (summary b ops) <= Stack.limit <->
  ba_stack_req b <= h /\ h + ba_stack_max_growth b <= Stack.limit /\
  stack_enters ops (h + ba_stack_change b).
Proof.
  revert b. induction ops as [|i ops IH]; intros b; cbn [summary fold_left stack_enters]; [tauto|].
  fold (summary (add_instruction b i) ops). rewrite IH. unfold add_instruction.
  cbn [ba_stack_req ba_stack_max_growth ba_stack_change]. rewrite Z.add_assoc.
  split; intros (? & ? & ?); repeat split; (tauto || lia).
Qed.

Lemma summary_bounds b ops :
  0 <= ba_stack_req b -> 0 <= ba_stack_max_growth b ->
  0 <= ba_stack_req (summary b ops) /\ 0 <= ba_stack_max_growth (summary b ops).
Proof.
  revert b. induction ops as [|i ops IH]; intros b Hr Hg; [done|].
  cbn [summary fold_left]. apply IH; cbn; lia.
Qed.

Lemma to_i16_small z : 0 <= z <= i16_max -> to_i16 z = z.
Proof. unfold to_i16, i16_max. intros. rewrite Z.mod_small; lia. Qed.

(** Clamping to 16 bits does not change a comparison with a stack height. *)
Lemma clamp_i16 z h : 0 <= z -> h <= 1024 -> clamp i16_max to_i16 z <= h <-> z <= h.
Proof.
  intros. unfold clamp. destruct (z <=? i16_max) eqn:?; bool_prop.
  - by rewrite to_i16_small.
  - unfold i16_max in *. lia.
Qed.

(** The check of the summary is the check of every instruction. *)
Lemma close_enters ops gas h idx :
  0 <= block_cost ops <= u32_max -> 0 <= h <= Stack.limit ->
  info_enters (close (summary (new_block_analysis idx) ops)) gas h <-> block_enters ops gas h.
Proof.
  intros Hc Hh. unfold info_enters, block_enters, close. cbn [bi_gas_cost bi_stack_req bi_stack_max_growth].
  pose proof (summary_bounds (new_block_analysis idx) ops) as [Hr Hg]; [done|done|].
  pose proof (summary_stack (new_block_analysis idx) ops h) as Hs.
  rewrite summary_cost. cbn [new_block_analysis ba_gas_cost ba_stack_req ba_stack_max_growth
    ba_stack_change] in *. rewrite !Z.add_0_r in Hs. unfold Stack.limit in *.
  assert (clamp u32_max u32 (0 + block_cost ops) = block_cost ops) as ->.
  { unfold clamp, u32, u32_max in *. destruct (_ <=? _) eqn:?; bool_prop; [|lia].
    rewrite Z.mod_small; lia. }
  set (req := ba_stack_req _) in *. set (growth := ba_stack_max_growth _) in *.
  pose proof (clamp_i16 req h Hr ltac:(lia)). pose proof (clamp_i16 growth (1024 - h) Hg ltac:(lia)).
  assert (h + clamp i16_max to_i16 growth <= 1024 <-> h + growth <= 1024) as Hgr by lia.
  assert (0 <= h /\ h <= 1024) as Hb by lia. cbn [ba_gas_cost] in *. tauto.
Qed.

(** ** Facts of the table *)
Definition op_entry_ok (r : ivmc_revision) (op : Z) : bool :=
  let i := op_entry r op in
  (0 <=? op_gas_cost i) && (op_gas_cost i <=? max_instruction_base_cost) &&
  (op_stack_change i <=? max_instruction_stack_increase) &&
  match op_fn i with Some _ => true | None => false end.

Lemma op_entries_ok r b : op_entry_ok r (byte_to_Z b) = true.
Proof. apply table_cases. vm_compute. reflexivity. Qed.

Lemma op_table_lookup r b :
  nth_Z (get_op_table r) (byte_to_Z b) = Some (op_entry r (byte_to_Z b)).
Proof.
  pose proof (byte_to_Z_bound b). unfold nth_Z, get_op_table.
  destruct (_ <? 0) eqn:?; [lia|]. rewrite list_lookup_fmap, lookup_seq_lt by lia. cbn.
  do 2 f_equal. lia.
Qed.

Lemma beginblock_entry r :
  exists i, nth_Z (get_op_table r) OPX_BEGINBLOCK = Some i /\ op_fn i = Some X_beginblock.
Proof. destruct r; eexists; (split; [vm_compute; reflexivity|reflexivity]). Qed.

Lemma stop_entry r :
  exists i, nth_Z (get_op_table r) OP_STOP = Some i /\ op_fn i = Some X_stop.
Proof. destruct r; eexists; (split; [vm_compute; reflexivity|reflexivity]). Qed.

(** A defined entry of the table is the requirement of the instruction. *)
Lemma op_entry_defined r op :
  gas_costs r op <> undefined ->
  op_gas_cost (op_entry r op) = gas_costs r op /\
  op_stack_req (op_entry r op) = stack_height_required (traits op) /\
  op_stack_change (op_entry r op) = stack_height_change (traits op).
Proof. intros Hu. unfold op_entry. by rewrite (proj2 (Z.eqb_neq _ _) Hu). Qed.

(** ** Immediate data *)
Lemma be_value_app bs cs :
  be_value (bs ++ cs) = be_value bs * 256 ^ Z.of_nat (length cs) + be_value cs.
Proof. rewrite !be_value_rev, rev_app_distr, le_value_app, length_rev. lia. Qed.

Lemma be_value_zeros n : be_value (replicate n Byte.x00) = 0.
Proof.
  induction n as [|n IH]; [done|]. rewrite replicate_S_end, be_value_app, IH. done.
Qed.

Lemma le_value_zeros n : le_value (replicate n Byte.x00) = 0.
Proof. induction n as [|n IH]; [done|]. cbn. rewrite IH. done. Qed.

Lemma be_value_singleton b : be_value [b] = byte_to_Z b.
Proof. unfold be_value. cbn. lia. Qed.

(** Or-ing a byte below a multiple of its place adds it. *)
Lemma lor_byte v b m :
  0 <= m -> v mod 256 ^ (m + 1) = 0 -> 0 <= b < 256 ->
  Z.lor v (Z.shiftl b (8 * m)) = v + b * 256 ^ m.
Proof.
  intros Hm Hv Hb. rewrite Z.shiftl_mul_pow2 by lia.
  replace (256 ^ m) with (2 ^ (8 * m)) by (rewrite Z.pow_mul_r by lia; reflexivity).
  replace (256 ^ (m + 1)) with (2 ^ (8 * m + 8)) in Hv
    by (replace (8 * m + 8) with (8 * (m + 1)) by lia; rewrite Z.pow_mul_r by lia; reflexivity).
  pose proof (Z.pow_pos_nonneg 2 (8 * m + 8) ltac:(lia) ltac:(lia)) as Hp.
  pose proof (Z.pow_pos_nonneg 2 (8 * m) ltac:(lia) ltac:(lia)) as Hp'.
  rewrite <- Z.lxor_lor, <- Z.add_nocarry_lxor; [done|..].
  all: apply Z.bits_inj'; intros i Hi; rewrite Z.land_spec, Z.bits_0;
    apply (proj1 (Z.mod_divide v (2 ^ (8 * m + 8)) ltac:(lia))) in Hv; destruct Hv as [k ->];
    destruct (Z.lt_ge_cases i (8 * m + 8)) as [Hlow|Hhigh];
    [rewrite Z.mul_pow2_bits_low by lia; done|].
  all: rewrite <- (Z.shiftl_mul_pow2 b), (Z.shiftl_spec b) by lia;
    rewrite (Z.bits_above_log2 b), andb_false_r; [done|lia|].
  all: destruct (Z.eq_dec b 0) as [->|]; [cbn; lia|];
    pose proof (proj1 (Z.log2_lt_pow2 b 8 ltac:(lia)) ltac:(lia)); lia.
Qed.

(** The bytes of [code] from [pos], [n] of them. *)
Definition data_at (code : list byte) (pos : Z) (n : nat) : list byte :=
  take n (drop (Z.to_nat pos) code).

Lemma data_at_S code pos n b :
  nth_Z code pos = Some b -> data_at code pos (S n) = b :: data_at code (pos + 1) n.
Proof.
  intros Hb. pose proof (nth_Z_Some _ _ _ Hb). unfold data_at.
  unfold nth_Z in Hb. destruct (pos <? 0) eqn:?; [done|]. bool_prop.
  rewrite (drop_S _ _ _ Hb). cbn. by replace (Z.to_nat (pos + 1)) with (S (Z.to_nat pos)) by lia.
Qed.

Lemma length_data_at code pos n :
  0 <= pos -> pos + Z.of_nat n <= Z.of_nat (length code) -> length (data_at code pos n) = n.
Proof. intros. unfold data_at. rewrite length_take, length_drop. lia. Qed.

Section Push.
Context {E : Env} {ES : EnvSpec E}.

Lemma small_push_spec n code pos v m :
  0 <= pos -> pos + Z.of_nat n <= Z.of_nat (length code) -> Z.of_nat n <= m <= 8 ->
  0 <= v < 2 ^ 64 -> v mod 256 ^ m = 0 ->
  small_push n code pos v (u64 (8 * (m - 1))) =
    Some (v + be_value (data_at code pos n) * 256 ^ (m - Z.of_nat n)).
Proof.
  revert pos v m. induction n as [|n IH]; intros pos v m Hpos Hend Hm Hv Hmod; cbn [small_push].
  { unfold data_at. rewrite take_0. f_equal. cbn. lia. }
  destruct (nth_Z_is_Some code pos ltac:(lia)) as [b Hb]. rewrite Hb. cbn [mbind option_bind].
  pose proof (byte_to_Z_bound b) as Hbb.
  rewrite (u64_small (8 * (m - 1))) by lia.
  pose proof (Z.pow_le_mono_r 256 (m - 1) 7 ltac:(lia) ltac:(lia)) as Hp.
  pose proof (Z.pow_pos_nonneg 256 (m - 1) ltac:(lia) ltac:(lia)) as Hp0.
  assert (256 ^ m = 256 * 256 ^ (m - 1)) as Hpm
    by (rewrite <- Z.pow_succ_r by lia; f_equal; lia).
  rewrite (u64_small (Z.shiftl _ _)).
  2:{ rewrite Z.shiftl_mul_pow2 by lia. replace (2 ^ (8 * (m - 1))) with (256 ^ (m - 1))
        by (rewrite Z.pow_mul_r by lia; reflexivity). change (256 ^ 7) with (2 ^ 56) in Hp. nia. }
  rewrite lor_byte; [|lia|by replace (m - 1 + 1) with m by lia|done].
  pose proof (Z.div_mod v (256 ^ m) ltac:(nia)) as Hdiv. rewrite Hmod in Hdiv.
  assert (v + byte_to_Z b * 256 ^ (m - 1) < 2 ^ 64) as Hv'.
  { assert (2 ^ 64 = 256 ^ (8 - m) * 256 ^ m) as H64
      by (rewrite <- Z.pow_add_r by lia; replace (8 - m + m) with 8 by lia; reflexivity).
    assert (v / 256 ^ m < 256 ^ (8 - m)) by (apply Z.div_lt_upper_bound; nia). nia. }
  replace (8 * (m - 1) - 8) with (8 * (m - 1 - 1)) by lia.
  rewrite IH; [|lia|lia|lia|nia|].
  2:{ rewrite Hdiv, Hpm. replace (256 * 256 ^ (m - 1) * (v / (256 * 256 ^ (m - 1))) + 0 +
        byte_to_Z b * 256 ^ (m - 1)) with
        ((256 * (v / (256 * 256 ^ (m - 1))) + byte_to_Z b) * 256 ^ (m - 1)) by lia.
      apply Z.mod_mul. lia. }
  rewrite (data_at_S _ _ _ _ Hb). change (b :: ?l) with ([b] ++ l).
  rewrite be_value_app, be_value_singleton, length_data_at by lia.
  f_equal. replace (m - Z.of_nat (S n)) with (m - 1 - Z.of_nat n) by lia.
  replace (256 ^ (m - 1)) with (256 ^ Z.of_nat n * 256 ^ (m - 1 - Z.of_nat n))
    by (rewrite <- Z.pow_add_r by lia; f_equal; lia). lia.
Qed.

Lemma large_push_spec n code pos q rest :
  0 <= pos -> pos + Z.of_nat n <= Z.of_nat (length code) -> (n <= q)%nat ->
  large_push n code pos (Z.of_nat q - 1) (replicate q Byte.x00 ++ rest) =
    Some (replicate (q - n) Byte.x00 ++ List.rev (data_at code pos n) ++ rest).
Proof.
  revert pos q rest. induction n as [|n IH]; intros pos q rest Hpos Hend Hq; cbn [large_push].
  { unfold data_at. rewrite take_0. cbn. by rewrite Nat.sub_0_r. }
  destruct (nth_Z_is_Some code pos ltac:(lia)) as [b Hb]. rewrite Hb. cbn [mbind option_bind].
  destruct q as [|q]; [lia|]. rewrite overwrite_Some.
  2: lia.
  2:{ rewrite length_app, length_replicate. cbn. lia. }
  cbn [mbind option_bind].
  replace (Z.to_nat (Z.of_nat (S q) - 1)) with q by lia.
  rewrite replicate_S_end, <- app_assoc. rewrite take_app_le by (rewrite length_replicate; lia).
  rewrite take_ge by (rewrite length_replicate; lia).
  rewrite drop_app_ge by (rewrite length_replicate; cbn; lia).
  rewrite length_replicate. cbn [length]. replace (q + 1 - q)%nat with 1%nat by lia. cbn [app drop].
  replace (Z.of_nat (S q) - 1 - 1) with (Z.of_nat q - 1) by lia.
  rewrite IH by lia. rewrite (data_at_S _ _ _ _ Hb). cbn [List.rev].
  rewrite <- app_assoc. done.
Qed.
End Push.

(** ** Properties *)

(** C7: The three numbers the analysis keeps for a basic block, saturated to
    32 and 16 bits, decide whether the block can run: with a cost that fits in
    32 bits they allow entering it, with some gas and at some height, exactly
    when the gas covers the base costs of all its instructions and every
    instruction, one after the other, finds its operands and stays below the
    stack limit. *)
Theorem block_check_exact ops gas h idx :
  0 <= block_cost ops <= u32_max -> 0 <= h <= Stack.limit ->
  let info := close (fold_left add_instruction ops (new_block_analysis idx)) in
  (bi_gas_cost info <= gas /\ bi_stack_req info <= h /\
   h + bi_stack_max_growth info <= Stack.limit) <->
  (block_cost ops <= gas /\ stack_enters ops h).
Proof. apply close_enters. Qed.

(** PUSH1; PUSH1; ADD at two heights. *)
Lemma block_check_exact_witness :
  let ops := [op_entry IVMC_LONDON OP_PUSH1; op_entry IVMC_LONDON OP_PUSH1; op_entry IVMC_LONDON OP_ADD] in
  let info := close (fold_left add_instruction ops (new_block_analysis 0)) in
  ((bi_gas_cost info <= 9 /\ bi_stack_req info <= 1022 /\ 1022 + bi_stack_max_growth info <= Stack.limit) <->
   (block_cost ops <= 9 /\ stack_enters ops 1022)) /\
  bi_gas_cost info = 9 /\ bi_stack_req info = 0 /\ bi_stack_max_growth info = 2.
Proof.
  cbv zeta. split; [|vm_compute; repeat split].
  apply (block_check_exact [op_entry IVMC_LONDON OP_PUSH1; op_entry IVMC_LONDON OP_PUSH1;
    op_entry IVMC_LONDON OP_ADD] 9 1022 0); vm_compute; split; discriminate.
Defined.
