(* ===== verification/AnalysisSpec.v ===== *)
(** * The Advanced code analysis: specification

    [follows] is the reference: the instruction table that stands for the code
    from a position on, block by block, with the argument each instruction
    must carry.  [analyze] always succeeds and produces such a table, and
    [find_jumpdest] maps exactly the valid jump destinations of the bytecode
    to the BEGINBLOCK of their block. *)
From Stdlib Require Import Sorted.
From stdpp Require Import base list tactics option.
From S2P Require Import Prelude Intx Ivmc Mock Code ExecutionState Instructions Traits Safety.
From S2P Require Import BaselineAnalysis BaselineSafety Analysis BlockSpec.

(** ** The reference *)
Definition next_pos (c : list byte) (q op : Z) : Z :=
  Z.min (q + instr_size op) (Z.of_nat (length c)).

Definition is_jumpdest_at (c : list byte) (q : Z) : bool :=
  match nth_Z c q with Some b => byte_to_Z b =? OP_JUMPDEST | None => false end.

(** The instruction before [q] ends its block. *)
Definition closes (c : list byte) (op q : Z) : bool := is_terminator op || is_jumpdest_at c q.

Definition is_small_push (op : Z) : bool := (OP_PUSH1 <=? op) && (op <=? OP_PUSH8).
Definition is_large_push (op : Z) : bool := (OP_PUSH9 <=? op) && (op <=? OP_PUSH32).

(** The number PUSH puts on the stack: its immediate data, zeros past the end. *)
Definition push_data (c : list byte) (q op : Z) : Z :=
  be_value (window c (q + 1) (op - OP_PUSH1 + 1)).

Section Reference.
Context {E : Env}.

(** [a] is the argument of [op] at [q]; [k] is the gas cost of the block up to
    it, itself included. *)
Definition arg_ok (c : list byte) (pvs : list uint256) (op q k : Z) (a : instruction_argument)
    : Prop :=
  if is_small_push op then a = arg_small_push_value (push_data c q op)
  else if is_large_push op then
    exists j v, a = arg_push_value j /\ pvs !! j = Some v /\ ⟦v⟧ = push_data c q op
  else if needs_gas_number op then a = arg_number k
  else if op =? OP_PC then a = arg_number q
  else True.

(** JUMPDEST has no instruction of its own. *)
Definition emits (op : Z) (f : exec_fn) (a : instruction_argument) : list instruction :=
  if op =? OP_JUMPDEST then [] else [mk_instruction f a].

Definition block_summary (ops : list op_table_entry) : block_info :=
  close (summary (new_block_analysis 0) ops).

Definition begin_block (ops : list op_table_entry) : instruction :=
  mk_instruction X_beginblock (arg_block (block_summary ops)).

(** [follows q k tbl ops]: the table [tbl] stands for the code from [q] on,
    when the instructions of the block before [q] cost [k], and [ops] are the
    instructions left of the block. *)
Inductive follows (r : ivmc_revision) (c : list byte) (pvs : list uint256)
    : Z -> Z -> list instruction -> list op_table_entry -> Prop :=
| follows_end k i : fn i = X_stop -> follows r c pvs (Z.of_nat (length c)) k [i] []
| follows_next q k b f a tl ops :
    nth_Z c q = Some b ->
    let op := byte_to_Z b in
    let k' := k + op_gas_cost (op_entry r op) in
    op_fn (op_entry r op) = Some f -> arg_ok c pvs op q k' a ->
    closes c op (next_pos c q op) = false ->
    follows r c pvs (next_pos c q op) k' tl ops ->
    follows r c pvs q k (emits op f a ++ tl) (op_entry r op :: ops)
| follows_close q k b f a tl ops :
    nth_Z c q = Some b ->
    let op := byte_to_Z b in
    let k' := k + op_gas_cost (op_entry r op) in
    op_fn (op_entry r op) = Some f -> arg_ok c pvs op q k' a ->
    closes c op (next_pos c q op) = true ->
    follows r c pvs (next_pos c q op) 0 tl ops ->
    follows r c pvs q k (emits op f a ++ begin_block ops :: tl) [op_entry r op].

(** The block at [q] begins at the index [t] of the table. *)
Definition block_at r c pvs (tbl : list instruction) (q t : Z) : Prop :=
  0 <= t /\
  exists tl ops, drop (Z.to_nat t) tbl = begin_block ops :: tl /\ follows r c pvs q 0 tl ops.

(** What [analyze] promises to the interpreter. *)
Record advanced_analysis_of (r : ivmc_revision) (c : list byte) (a : AdvancedCodeAnalysis)
    : Prop := {
  aa_start : block_at r c (push_values a) (instrs a) 0 0;
  aa_jumpdest : forall d, is_jumpdest c d ->
    exists t, find_jumpdest a d = Some t /\ block_at r c (push_values a) (instrs a) d t;
  aa_no_jumpdest : forall d, ~ is_jumpdest c d -> find_jumpdest a d = Some (-1)
}.

(** A code whose blocks cannot overflow 32-bit gas costs. *)
Definition code_small (c : list byte) : Prop :=
  max_instruction_base_cost * Z.of_nat (length c) <= u32_max.
End Reference.

(** ** Immediate data *)
Lemma window_within c q n m :
  0 <= q -> n = Z.min m (Z.of_nat (length c) - q) -> 0 <= n -> 0 <= m ->
  window c q m = data_at c q (Z.to_nat n) ++ replicate (Z.to_nat (m - n)) Byte.x00.
Proof.
  intros Hq Hn Hn0 Hm. pose proof (window_split c q m Hq Hm) as Hw. cbn zeta in Hw.
  rewrite <- Hw. unfold data_at. replace (Z.min q (Z.of_nat (length c))) with q by lia.
  by rewrite <- Hn.
Qed.

Lemma push_data_value c q op n :
  let m := op - OP_PUSH1 + 1 in
  0 <= q < Z.of_nat (length c) -> n = Z.min m (Z.of_nat (length c) - (q + 1)) -> 0 <= m ->
  push_data c q op =
    be_value (data_at c (q + 1) (Z.to_nat n)) * 256 ^ (m - n).
Proof.
  intros m Hq Hn Hm. unfold push_data. fold m.
  rewrite (window_within c (q + 1) n m) by lia.
  rewrite be_value_app, be_value_zeros, length_replicate. rewrite Z2Nat.id by lia. lia.
Qed.

Lemma close_summary_index ops idx : close (summary (new_block_analysis idx) ops) = block_summary ops.
Proof.
  unfold block_summary.
  assert (forall b b', ba_gas_cost b = ba_gas_cost b' -> ba_stack_req b = ba_stack_req b' ->
    ba_stack_max_growth b = ba_stack_max_growth b' -> ba_stack_change b = ba_stack_change b' ->
    close (summary b ops) = close (summary b' ops)) as H; [|by apply H].
  induction ops as [|i ops IH]; intros b b' Hg Hr Hm Hc; cbn [summary fold_left].
  - unfold close. congruence.
  - apply IH; cbn; congruence.
Qed.

Section Argument.
Context {E : Env} {ES : EnvSpec E}.

Lemma set_back_snoc l f a' :
  set_back_arg (l ++ [new_instruction f]) a' = Some (l ++ [mk_instruction f a']).
Proof.
  unfold set_back_arg. rewrite length_app. cbn [length].
  replace (Nat.pred (length l + 1)) with (length l) by lia.
  rewrite lookup_app_r, Nat.sub_diag by lia. cbn [lookup list_lookup].
  cbn [mbind option_bind]. do 2 f_equal.
  rewrite insert_app_r_alt by lia. by rewrite Nat.sub_diag.
Qed.

Lemma small_push_argument c q op :
  0 <= q < Z.of_nat (length c) -> is_small_push op = true ->
  let n := Z.min (q + 1 + (op - OP_PUSH1 + 1)) (Z.of_nat (length c)) - (q + 1) in
  small_push (Z.to_nat n) c (q + 1) 0 ((op - OP_PUSH1 + 1 - 1) * 8) = Some (push_data c q op).
Proof.
  intros Hq Hop n. unfold is_small_push, OP_PUSH1, OP_PUSH8 in *. bool_prop.
  rewrite (push_data_value c q op n) by (unfold OP_PUSH1; lia). unfold OP_PUSH1.
  rewrite <- (u64_small ((op - 96 + 1 - 1) * 8)) by lia.
  replace ((op - 96 + 1 - 1) * 8) with (8 * (op - 96 + 1 - 1)) by lia.
  rewrite small_push_spec; [|lia|lia|lia|lia|].
  2:{ apply Z.mod_0_l, Z.pow_nonzero; lia. }
  by rewrite Z2Nat.id by lia.
Qed.

Lemma large_push_argument c q op :
  0 <= q < Z.of_nat (length c) -> is_large_push op = true ->
  let n := Z.min (q + 1 + (op - OP_PUSH1 + 1)) (Z.of_nat (length c)) - (q + 1) in
  exists bs, large_push (Z.to_nat n) c (q + 1) (op - OP_PUSH1 + 1 - 1) (replicate 32 Byte.x00) =
      Some bs /\ length bs = 32%nat /\ le_value bs = push_data c q op.
Proof.
  intros Hq Hop n. unfold is_large_push, OP_PUSH1, OP_PUSH9, OP_PUSH32 in *. bool_prop.
  rewrite (push_data_value c q op n) by (unfold OP_PUSH1; lia). unfold OP_PUSH1.
  set (m := op - 96 + 1) in *.
  replace (replicate 32 Byte.x00)
    with (replicate (Z.to_nat m) Byte.x00 ++ replicate (32 - Z.to_nat m) Byte.x00)
    by (rewrite <- replicate_add; f_equal; lia).
  replace (m - 1) with (Z.of_nat (Z.to_nat m) - 1) by lia.
  rewrite large_push_spec by lia. eexists. split; [reflexivity|].
  pose proof (length_data_at c (q + 1) (Z.to_nat n) ltac:(lia) ltac:(lia)) as Hlen.
  rewrite !length_app, !length_replicate, length_rev. split; [lia|].
  rewrite !le_value_app, le_value_zeros, le_value_zeros, length_replicate, <- be_value_rev.
  rewrite Nat2Z.inj_sub, !Z2Nat.id by lia. lia.
Qed.

(** The [switch]: the argument of the instruction just added is the reference's,
    and the position moves past the immediate data. *)
Lemma analyze_argument_spec c b q block l f pvs :
  0 <= q -> nth_Z c q = Some b ->
  let op := byte_to_Z b in
  exists a pvs',
    (forall pvs'', prefix pvs' pvs'' -> arg_ok c pvs'' op q (ba_gas_cost block) a) /\
    prefix pvs pvs' /\
    analyze_argument c op (q + 1) block
      (if op =? OP_JUMPDEST then l else l ++ [new_instruction f]) pvs =
      Some (next_pos c q op, l ++ emits op f a, pvs').
Proof.
  intros Hq Hb op. pose proof (nth_Z_Some _ _ _ Hb) as Hlen.
  unfold analyze_argument, arg_ok, next_pos, emits, instr_size. cbv zeta.
  fold (is_small_push op) (is_large_push op).
  destruct (is_terminator op) eqn:Ht.
  { exists (arg_block empty_block_info), pvs. unfold is_terminator in Ht.
    rewrite !orb_true_iff, !Z.eqb_eq in Ht.
    destruct Ht as [[[[[Hop|Hop]|Hop]|Hop]|Hop]|Hop]; rewrite Hop; cbn; (split; [done|]);
      (split; [done|]); do 2 f_equal; f_equal; lia. }
  destruct (is_small_push op) eqn:Hs.
  { rewrite small_push_argument by done. unfold is_small_push, OP_PUSH1, OP_PUSH8, OP_PUSH32 in *.
    bool_prop. destruct (op =? OP_JUMPDEST) eqn:Hj; [unfold OP_JUMPDEST in *; bool_prop; lia|].
    cbn [mbind option_bind]. rewrite set_back_snoc. cbn [mbind option_bind].
    exists (arg_small_push_value (push_data c q op)), pvs. split; [done|]. split; [done|].
    destruct (_ && _) eqn:Hp; [|apply andb_false_iff in Hp; bool_prop; lia].
    do 3 f_equal. lia. }
  destruct (is_large_push op) eqn:Hl.
  { destruct (large_push_argument c q op) as (bs & -> & Hbs & Hv); [done|done|].
    unfold is_large_push, OP_PUSH1, OP_PUSH9, OP_PUSH32 in *.
    bool_prop. destruct (op =? OP_JUMPDEST) eqn:Hj; [unfold OP_JUMPDEST in *; bool_prop; lia|].
    cbn [mbind option_bind]. rewrite set_back_snoc. cbn [mbind option_bind].
    exists (arg_push_value (length pvs)), (pvs ++ [u256_of_native_bytes bs]).
    split; [|split; [by eexists|]].
    - intros pvs'' [l' ->]. eexists _, (u256_of_native_bytes bs). split; [done|].
      rewrite u256_of_native_bytes_spec by done. split; [|done].
      rewrite <- app_assoc, lookup_app_r, Nat.sub_diag by lia. done.
    - destruct (_ && _) eqn:Hp; [|apply andb_false_iff in Hp; bool_prop; lia].
      do 3 f_equal. lia. }
  assert ((OP_PUSH1 <=? op) && (op <=? OP_PUSH32) = false) as ->.
  { apply andb_false_iff. unfold is_small_push, is_large_push, OP_PUSH1, OP_PUSH8, OP_PUSH9,
      OP_PUSH32 in *. apply andb_false_iff in Hs, Hl. rewrite !Z.leb_gt in *. lia. }
  replace (Z.min (q + 1) (Z.of_nat (length c))) with (q + 1) by lia.
  destruct (needs_gas_number op) eqn:Hg.
  { destruct (op =? OP_JUMPDEST) eqn:Hj.
    { apply Z.eqb_eq in Hj. rewrite Hj in Hg. done. }
    rewrite set_back_snoc. eexists _, pvs. split; [done|]. by split. }
  destruct (op =? OP_PC) eqn:Hpc.
  { destruct (op =? OP_JUMPDEST) eqn:Hj.
    { bool_prop. unfold OP_PC, OP_JUMPDEST in *. lia. }
    rewrite set_back_snoc. eexists _, pvs. split; [done|]. split; [done|].
    by replace (q + 1 - 1) with q by lia. }
  exists (arg_block empty_block_info), pvs. split; [done|]. split; [done|].
  destruct (op =? OP_JUMPDEST); [by rewrite app_nil_r|done].
Qed.
End Argument.

(** ** Jump destinations *)
Section Destinations.
Context {E : Env}.

Lemma lower_bound_spec l v :
  StronglySorted Z.lt l ->
  (In v l -> l !! lower_bound l v = Some v) /\ (~ In v l -> l !! lower_bound l v <> Some v).
Proof.
  intros Hs. split; [|intros Hn Hv; by apply Hn, list_elem_of_In, (list_elem_of_lookup_2 _ _ _ Hv)].
  induction Hs as [|x l Hs IH Hx]; [done|]. cbn [lower_bound]. intros [->|Hin].
  - destruct (v <? v) eqn:?; bool_prop; [lia|done].
  - rewrite List.Forall_forall in Hx. pose proof (Hx v Hin).
    destruct (x <? v) eqn:?; bool_prop; [cbn; by apply IH|lia].
Qed.

Lemma find_jumpdest_spec (a : AdvancedCodeAnalysis) (P : Z -> Z -> Prop) v :
  StronglySorted Z.lt (jumpdest_offsets a) ->
  Forall2 P (jumpdest_offsets a) (jumpdest_targets a) ->
  (In v (jumpdest_offsets a) -> exists t, find_jumpdest a v = Some t /\ P v t) /\
  (~ In v (jumpdest_offsets a) -> find_jumpdest a v = Some (-1)).
Proof.
  intros Hs HP. destruct (lower_bound_spec _ v Hs) as [Hin Hnot]. unfold find_jumpdest.
  split; intros Hv.
  - rewrite (Hin Hv), Z.eqb_refl. destruct (Forall2_lookup_l _ _ _ _ _ HP (Hin Hv)) as (t & -> & Ht).
    by exists t.
  - specialize (Hnot Hv). destruct (_ !! _) as [o|] eqn:Ho; [|done].
    destruct (o =? v) eqn:He; [|done]. bool_prop. congruence.
Qed.
End Destinations.

Lemma to_i32_small z : 0 <= z <= i32_max -> to_i32 z = z.
Proof. unfold to_i32, i32_max. intros. rewrite Z.mod_small; lia. Qed.

(** ** The loop *)
Section Loop.
Context {E : Env} {ES : EnvSpec E}.
Context (r : ivmc_revision) (c : list byte).
Hypothesis Hc : Z.of_nat (length c) < 2 ^ 29.

(** The destinations from [q] on, in increasing order, and their blocks. *)
Record destinations (pvs : list uint256) (tbl : list instruction) (q : Z) (offs tgts : list Z)
    : Prop := {
  de_sorted : StronglySorted Z.lt offs;
  de_offsets : forall d, In d offs <-> is_jumpdest c d /\ q <= d;
  de_targets : Forall2 (block_at r c pvs tbl) offs tgts
}.

(** The variables between two iterations: the open block begins with [bb] at
    the end of [pre], and [cur] are its instructions so far. *)
Record loop_state (q : Z) (st : analyze_state) (pre : list instruction) (bb : instruction)
    (cur : list instruction) : Prop := {
  ls_range : 0 <= q <= Z.of_nat (length c);
  ls_start : q < Z.of_nat (length c) -> instr_start c q;
  ls_instrs : an_instrs st = pre ++ bb :: cur;
  ls_begin : fn bb = X_beginblock;
  ls_index : ba_begin_block_index (an_block st) = Z.of_nat (length pre);
  ls_jumpdest : is_jumpdest_at c q = true ->
    cur = [] /\ an_block st = new_block_analysis (Z.of_nat (length pre));
  ls_length : Z.of_nat (length (an_instrs st)) <= 2 * q + 1
}.

(** The outcome of the loop from there, closed by the code after it. *)
Record loop_result (q : Z) (st : analyze_state) (pre cur : list instruction)
    (st' : analyze_state) (tbl : list instruction) : Prop := {
  lr_saved : exists body, save_block (an_instrs st') (an_block st') = Some body /\
    tbl = body ++ [new_instruction X_stop];
  lr_table : exists tl ops,
    tbl = pre ++ mk_instruction X_beginblock (arg_block (close (summary (an_block st) ops))) ::
      cur ++ tl /\
    follows r c (an_push_values st') q (ba_gas_cost (an_block st)) tl ops;
  lr_pushes : prefix (an_push_values st) (an_push_values st');
  lr_jumps : exists offs tgts,
    an_jumpdest_offsets st' = an_jumpdest_offsets st ++ offs /\
    an_jumpdest_targets st' = an_jumpdest_targets st ++ tgts /\
    destinations (an_push_values st') tbl q offs tgts
}.

Lemma save_block_spec pre bb cur block :
  ba_begin_block_index block = Z.of_nat (length pre) -> fn bb = X_beginblock ->
  save_block (pre ++ bb :: cur) block =
    Some (pre ++ mk_instruction X_beginblock (arg_block (close block)) :: cur).
Proof.
  intros Hi Hf. unfold save_block, nth_Z. rewrite Hi. destruct (_ <? 0) eqn:?; [lia|].
  rewrite Nat2Z.id, lookup_app_r, Nat.sub_diag by lia. cbn [lookup list_lookup mbind option_bind].
  rewrite insert_app_r_alt, Nat.sub_diag by lia. cbn. unfold set_arg. by rewrite Hf.
Qed.

(** The lists of destinations after the instruction [op] at [q]. *)
Definition jump_offsets (st : analyze_state) (op q : Z) : list Z :=
  if op =? OP_JUMPDEST then an_jumpdest_offsets st ++ [q] else an_jumpdest_offsets st.
Definition jump_targets (st : analyze_state) (op : Z) (pre : list instruction) : list Z :=
  if op =? OP_JUMPDEST then an_jumpdest_targets st ++ [Z.of_nat (length pre)]
  else an_jumpdest_targets st.

Lemma analyze_step_spec q st pre bb cur b :
  loop_state q st pre bb cur -> nth_Z c q = Some b ->
  let op := byte_to_Z b in
  let block := add_instruction (an_block st) (op_entry r op) in
  exists f a pvs,
    op_fn (op_entry r op) = Some f /\ prefix (an_push_values st) pvs /\
    (forall pvs', prefix pvs pvs' -> arg_ok c pvs' op q (ba_gas_cost block) a) /\
    analyze_step (get_op_table r) X_beginblock c q st = Some (next_pos c q op,
      if closes c op (next_pos c q op) then
        mk_analyze_state
          ((pre ++ mk_instruction X_beginblock (arg_block (close block)) :: cur ++ emits op f a) ++
             [new_instruction X_beginblock]) pvs (jump_offsets st op q) (jump_targets st op pre)
          (new_block_analysis (Z.of_nat (length (pre ++ bb :: cur ++ emits op f a))))
      else
        mk_analyze_state (pre ++ bb :: cur ++ emits op f a) pvs (jump_offsets st op q)
          (jump_targets st op pre) block).
Proof.
  intros Hst Hb op block. pose proof (nth_Z_Some _ _ _ Hb) as Hq.
  pose proof (op_entries_ok r b) as He. fold op in He. unfold op_entry_ok in He. bool_prop.
  destruct (op_fn (op_entry r op)) as [f|] eqn:Hf; [|done].
  destruct (analyze_argument_spec c b q block (pre ++ bb :: cur) f (an_push_values st)
    ltac:(lia) Hb) as (a & pvs & Ha & Hp & Harg). fold op in Ha, Harg.
  exists f, a, pvs. split; [done|]. split; [done|]. split; [done|].
  unfold analyze_step. rewrite Hb. cbn [mbind option_bind]. fold op.
  pose proof (op_table_lookup r b) as Htbl. fold op in Htbl. rewrite Htbl.
  cbn [mbind option_bind]. rewrite Hf. cbn [mbind option_bind].
  fold block. rewrite (ls_instrs _ _ _ _ _ Hst), Harg. cbn [mbind option_bind].
  fold (is_jumpdest_at c (next_pos c q op)). fold (closes c op (next_pos c q op)).
  rewrite <- app_assoc, <- app_comm_cons.
  assert ((op =? OP_JUMPDEST) = true -> cur = []) as Hcur.
  { intros Hj. apply (ls_jumpdest _ _ _ _ _ Hst). unfold is_jumpdest_at. by rewrite Hb. }
  pose proof (ls_length _ _ _ _ _ Hst) as Hlen.
  rewrite (ls_instrs _ _ _ _ _ Hst), length_app in Hlen. cbn [length] in Hlen.
  assert ((if op =? OP_JUMPDEST then an_jumpdest_offsets st ++ [to_i32 (q + 1 - 1)]
    else an_jumpdest_offsets st) = jump_offsets st op q) as ->.
  { unfold jump_offsets. rewrite to_i32_small by (unfold i32_max; lia).
    by replace (q + 1 - 1) with q by lia. }
  assert ((if op =? OP_JUMPDEST then an_jumpdest_targets st ++
    [to_i32 (Z.of_nat (length (pre ++ bb :: cur)) - 1)] else an_jumpdest_targets st) =
    jump_targets st op pre) as ->.
  { unfold jump_targets. destruct (op =? OP_JUMPDEST) eqn:Hj; [|done].
    rewrite (Hcur eq_refl), length_app in *. cbn [length] in *.
    rewrite to_i32_small by (unfold i32_max; lia). do 2 f_equal. lia. }
  destruct (closes c op (next_pos c q op)); [|done].
  rewrite save_block_spec; [|by rewrite <- (ls_index _ _ _ _ _ Hst)|apply Hst].
  cbn [mbind option_bind]. do 3 f_equal. rewrite !length_app. cbn [length]. rewrite !length_app. cbn [length]. f_equal. lia.
Qed.

Lemma next_pos_spec q b :
  nth_Z c q = Some b -> instr_start c q ->
  q < next_pos c q (byte_to_Z b) <= Z.of_nat (length c) /\
  (next_pos c q (byte_to_Z b) < Z.of_nat (length c) -> instr_start c (next_pos c q (byte_to_Z b))).
Proof.
  intros Hb Hs. pose proof (nth_Z_Some _ _ _ Hb). pose proof (instr_size_bound (byte_to_Z b)).
  unfold next_pos. split; [lia|]. intros Hlt. rewrite Z.min_l by lia. by apply start_next.
Qed.

Lemma is_jumpdest_from q b d :
  nth_Z c q = Some b -> instr_start c q ->
  is_jumpdest c d /\ q <= d <->
  (d = q /\ byte_to_Z b = OP_JUMPDEST) \/ (is_jumpdest c d /\ next_pos c q (byte_to_Z b) <= d).
Proof.
  intros Hb Hs. pose proof (next_pos_spec q b Hb Hs) as [Hn _]. split.
  - intros [[Hd Hdb] Hle]. pose proof (nth_Z_Some _ _ _ Hdb).
    destruct (Z.eq_dec d q) as [->|Hne].
    + left. split; [done|]. rewrite Hb in Hdb. injection Hdb as ->. by rewrite byte_to_Z_of_Z.
    + right. split; [done|]. unfold next_pos.
      pose proof (instr_start_apart c q d b Hs Hd Hb ltac:(lia)). lia.
  - intros [[-> Hj]|[Hd Hle]]; [|split; [done|lia]]. split; [|lia]. split; [done|].
    by rewrite <- Hj, byte_of_Z_to_Z.
Qed.

(** The open block after a step. *)
Lemma loop_state_next q st pre bb cur b f a pvs offs tgts :
  loop_state q st pre bb cur -> nth_Z c q = Some b ->
  let op := byte_to_Z b in let q' := next_pos c q op in
  closes c op q' = false ->
  loop_state q' (mk_analyze_state (pre ++ bb :: cur ++ emits op f a) pvs offs tgts
    (add_instruction (an_block st) (op_entry r op))) pre bb (cur ++ emits op f a).
Proof.
  intros Hst Hb op q' Hcl. pose proof (nth_Z_Some _ _ _ Hb) as Hq.
  destruct (next_pos_spec q b Hb) as [Hn Hs]; [apply Hst; lia|]. fold op q' in Hn, Hs.
  pose proof (ls_length _ _ _ _ _ Hst) as Hlen. rewrite (ls_instrs _ _ _ _ _ Hst) in Hlen.
  constructor; cbn [an_instrs an_block add_instruction ba_begin_block_index];
    [lia|done|done|apply Hst|apply Hst| |].
  - intros Hj. unfold closes in Hcl. by rewrite Hj, orb_true_r in Hcl.
  - rewrite app_comm_cons, app_assoc, length_app. unfold emits. case_match; cbn; lia.
Qed.

(** The block begun by a step. *)
Lemma loop_state_begin q st pre bb cur b f a bb' pvs offs tgts :
  loop_state q st pre bb cur -> nth_Z c q = Some b ->
  let op := byte_to_Z b in let q' := next_pos c q op in
  let pre' := pre ++ bb' :: cur ++ emits op f a in
  loop_state q' (mk_analyze_state (pre' ++ [new_instruction X_beginblock]) pvs offs tgts
    (new_block_analysis (Z.of_nat (length (pre ++ bb :: cur ++ emits op f a)))))
    pre' (new_instruction X_beginblock) [].
Proof.
  intros Hst Hb op q' pre'. pose proof (nth_Z_Some _ _ _ Hb) as Hq.
  destruct (next_pos_spec q b Hb) as [Hn Hs]; [apply Hst; lia|]. fold op q' in Hn, Hs.
  pose proof (ls_length _ _ _ _ _ Hst) as Hlen. rewrite (ls_instrs _ _ _ _ _ Hst) in Hlen.
  assert (length pre' = length (pre ++ bb :: cur ++ emits op f a)) as Hpre
    by (unfold pre'; rewrite !length_app; cbn; lia).
  constructor; cbn [an_instrs an_block new_block_analysis ba_begin_block_index];
    [lia|done|done|done|by rewrite Hpre|by rewrite Hpre|].
  rewrite length_app, Hpre, app_comm_cons, app_assoc, length_app. unfold emits.
  case_match; cbn [length]; lia.
Qed.

(** The destinations found by a step and by the iterations after it. *)
Lemma destinations_step q st pre b tbl offs tgts pvs :
  nth_Z c q = Some b -> instr_start c q ->
  let op := byte_to_Z b in
  (op = OP_JUMPDEST -> block_at r c pvs tbl q (Z.of_nat (length pre))) ->
  destinations pvs tbl (next_pos c q op) offs tgts ->
  exists offs' tgts',
    jump_offsets st op q ++ offs = an_jumpdest_offsets st ++ offs' /\
    jump_targets st op pre ++ tgts = an_jumpdest_targets st ++ tgts' /\
    destinations pvs tbl q offs' tgts'.
Proof.
  intros Hb Hs op Hblock [Hsort Hoffs Htgts]. unfold jump_offsets, jump_targets.
  pose proof (fun d => is_jumpdest_from q b d Hb Hs) as Hfrom. fold op in Hfrom.
  pose proof (next_pos_spec q b Hb Hs) as [Hn _]. fold op in Hn.
  destruct (op =? OP_JUMPDEST) eqn:Hj; bool_prop.
  - exists (q :: offs), (Z.of_nat (length pre) :: tgts). rewrite <- !app_assoc.
    split; [done|]. split; [done|]. constructor.
    + constructor; [done|]. apply List.Forall_forall. intros d Hd%Hoffs. lia.
    + intros d. rewrite Hfrom, <- Hoffs. cbn. intuition congruence.
    + constructor; [by apply Hblock|done].
  - exists offs, tgts. split; [done|]. split; [done|]. constructor; [done| |done].
    intros d. rewrite Hfrom, <- Hoffs. tauto.
Qed.

Lemma block_at_split pvs pre tl ops q tbl :
  tbl = pre ++ begin_block ops :: tl -> follows r c pvs q 0 tl ops ->
  block_at r c pvs tbl q (Z.of_nat (length pre)).
Proof.
  intros -> Hf. split; [lia|]. exists tl, ops. rewrite Nat2Z.id, drop_app_length. done.
Qed.

Lemma loop_result_end st pre bb cur :
  loop_state (Z.of_nat (length c)) st pre bb cur ->
  exists tbl, loop_result (Z.of_nat (length c)) st pre cur st tbl.
Proof.
  intros Hst. eexists. constructor.
  - eexists. split; [|reflexivity]. rewrite (ls_instrs _ _ _ _ _ Hst). apply save_block_spec; apply Hst.
  - exists [new_instruction X_stop], []. rewrite <- app_assoc. split; [done|]. by constructor.
  - done.
  - exists [], []. rewrite !app_nil_r. split; [done|]. split; [done|].
    constructor; [constructor| |done]. intros d. split; [done|].
    intros [[_ Hd] ?]. apply nth_Z_Some in Hd. lia.
Qed.

(** The instruction at [q] in front of the result of the iterations after it. *)
Lemma loop_result_prepend q st pre bb cur b st' body tbl tl ops offs tgts :
  loop_state q st pre bb cur -> nth_Z c q = Some b ->
  let op := byte_to_Z b in
  save_block (an_instrs st') (an_block st') = Some body /\ tbl = body ++ [new_instruction X_stop] ->
  tbl = pre ++ mk_instruction X_beginblock (arg_block (close (summary (an_block st) ops))) ::
    cur ++ tl ->
  follows r c (an_push_values st') q (ba_gas_cost (an_block st)) tl ops ->
  prefix (an_push_values st) (an_push_values st') ->
  an_jumpdest_offsets st' = jump_offsets st op q ++ offs ->
  an_jumpdest_targets st' = jump_targets st op pre ++ tgts ->
  destinations (an_push_values st') tbl (next_pos c q op) offs tgts ->
  loop_result q st pre cur st' tbl.
Proof.
  intros Hst Hb op Hsave Htbl Hfo Hp Ho Ht Hde. pose proof (nth_Z_Some _ _ _ Hb).
  constructor; [by exists body|by exists tl, ops|done|]. rewrite Ho, Ht.
  apply destinations_step; [done|apply Hst; lia| |done]. fold op. intros Hop.
  destruct (ls_jumpdest _ _ _ _ _ Hst) as [-> Hblk].
  { unfold is_jumpdest_at. rewrite Hb. by apply Z.eqb_eq. }
  rewrite Hblk in Htbl, Hfo. rewrite close_summary_index in Htbl.
  by apply (block_at_split _ pre tl ops).
Qed.

Lemma analyze_loop_spec fuel q st pre bb cur :
  loop_state q st pre bb cur -> Z.of_nat (length c) - q < Z.of_nat fuel ->
  exists st' tbl, analyze_loop fuel (get_op_table r) X_beginblock c q st = Some st' /\
    loop_result q st pre cur st' tbl.
Proof.
  revert q st pre bb cur. induction fuel as [|fuel IH]; intros q st pre bb cur Hst Hfuel;
    pose proof (ls_range _ _ _ _ _ Hst) as Hq; [lia|]. cbn [analyze_loop].
  destruct (q =? Z.of_nat (length c)) eqn:Hend; bool_prop.
  { subst q. destruct (loop_result_end st pre bb cur Hst) as [tbl Htbl]. by exists st, tbl. }
  destruct (nth_Z_is_Some c q ltac:(lia)) as [b Hb].
  pose proof (ls_start _ _ _ _ _ Hst ltac:(lia)) as Hs.
  destruct (analyze_step_spec q st pre bb cur b Hst Hb) as (f & a & pvs & Hf & Hp & Harg & ->).
  cbn [mbind option_bind]. pose proof (next_pos_spec q b Hb Hs) as [Hn _].
  set (op := byte_to_Z b) in *. set (block := add_instruction (an_block st) (op_entry r op)) in *.
  destruct (closes c op (next_pos c q op)) eqn:Hcl.
  - set (bb' := mk_instruction X_beginblock (arg_block (close block))).
    destruct (IH _ _ _ _ _ (loop_state_begin q st pre bb cur b f a bb' pvs
      (jump_offsets st op q) (jump_targets st op pre) Hst Hb)) as (st' & tbl & Hrun & Hres); [fold op; lia|].
    fold op in Hrun, Hres. exists st', tbl. split; [exact Hrun|].
    destruct Hres as [[body Hsave] (tl & ops & Htbl & Hfo) Hpv (offs & tgts & Ho & Ht & Hde)].
    cbn [an_push_values an_jumpdest_offsets an_jumpdest_targets an_block] in *.
    rewrite close_summary_index in Htbl. cbn [app] in Htbl.
    eapply (loop_result_prepend q st pre bb cur b _ body _ (emits op f a ++ begin_block ops :: tl)
      [op_entry r op]); fold op; [done|done|done| | |by etrans|exact Ho|exact Ht|exact Hde].
    + rewrite Htbl. cbn [summary fold_left]. fold block.
      by rewrite <- !app_assoc, <- app_comm_cons, <- app_assoc.
    + apply follows_close; try done. by apply Harg.
  - destruct (IH _ _ _ _ _ (loop_state_next q st pre bb cur b f a pvs
      (jump_offsets st op q) (jump_targets st op pre) Hst Hb Hcl)) as (st' & tbl & Hrun & Hres); [fold op; lia|].
    fold op in Hrun, Hres. exists st', tbl. split; [exact Hrun|].
    destruct Hres as [[body Hsave] (tl & ops & Htbl & Hfo) Hpv (offs & tgts & Ho & Ht & Hde)].
    cbn [an_push_values an_jumpdest_offsets an_jumpdest_targets an_block] in *. fold block in Htbl, Hfo.
    eapply (loop_result_prepend q st pre bb cur b _ body _ (emits op f a ++ tl)
      (op_entry r op :: ops)); fold op; [done|done|done| | |by etrans|exact Ho|exact Ht|exact Hde].
    + rewrite Htbl. cbn [summary fold_left]. fold block. by rewrite <- app_assoc.
    + apply follows_next; try done. by apply Harg.
Qed.

Lemma analyze_total :
  exists a, analyze r c = Some a /\ advanced_analysis_of r c a.
Proof.
  unfold analyze. destruct (beginblock_entry r) as (bb & -> & Hbb). cbn [mbind option_bind].
  rewrite Hbb. cbn [mbind option_bind].
  set (st0 := mk_analyze_state _ _ _ _ _).
  destruct (analyze_loop_spec (S (length c)) 0 st0 [] (new_instruction X_beginblock) [])
    as (st & tbl & -> & [(body & Hsave & Htbl) (tl & ops & Ht & Hfo) _ (offs & tgts & Ho & Hg & [Hs Hd Hf2])]).
  { constructor; cbn; (done || lia || (intros; by constructor)). }
  { lia. }
  cbn [mbind option_bind]. rewrite Hsave. cbn [mbind option_bind].
  destruct (stop_entry r) as (stop & -> & Hstop). cbn [mbind option_bind]. rewrite Hstop.
  cbn [mbind option_bind]. rewrite <- Htbl. eexists. split; [reflexivity|].
  cbn [an_jumpdest_offsets an_jumpdest_targets st0 app] in Ho, Hg.
  assert (forall d, In d offs <-> is_jumpdest c d) as Hd'.
  { intros d. rewrite Hd. split; [by intros []|]. intros Hj. split; [done|].
    by apply (instr_start_nonneg c), Hj. }
  constructor; cbn [push_values instrs].
  - cbn [an_block st0 app] in Ht. rewrite close_summary_index in Ht.
    apply (block_at_split _ [] tl ops 0 tbl Ht). exact Hfo.
  - intros d Hj. apply (find_jumpdest_spec _ (block_at r c (an_push_values st) tbl)); cbn; rewrite ?Ho, ?Hg; [done|done|].
    by apply Hd'.
  - intros d Hj. apply (find_jumpdest_spec _ (block_at r c (an_push_values st) tbl)); cbn; rewrite ?Ho, ?Hg; [done|done|].
    by rewrite Hd'.
Qed.
End Loop.

(** ** The sizes of the tables *)
Section Sizes.
Context {E : Env}.
Implicit Types st : analyze_state.

Lemma set_back_arg_length l a l' : set_back_arg l a = Some l' -> length l' = length l.
Proof.
  unfold set_back_arg. destruct (_ !! _); [|done]. intros [= <-]. apply length_insert.
Qed.

Lemma save_block_length l b l' : save_block l b = Some l' -> length l' = length l.
Proof. unfold save_block. destruct (nth_Z _ _); [|done]. intros [= <-]. apply length_insert. Qed.

(** The argument of an instruction consumes no less than it stores. *)
Lemma analyze_argument_length c op pos b l pvs pos' l' pvs' :
  0 <= pos <= Z.of_nat (length c) ->
  analyze_argument c op pos b l pvs = Some (pos', l', pvs') ->
  pos <= pos' <= Z.of_nat (length c) /\ length l' = length l /\
  (length pvs' <= S (length pvs))%nat.
Proof.
  intros Hpos. unfold analyze_argument. unfold OP_PUSH1, OP_PUSH9, OP_PUSH32.
  destruct (is_terminator op); [intros [= <- <- <-]; lia|].
  destruct (_ && _) eqn:Hs; [bool_prop|destruct (_ && (op <=? 0x7f)) eqn:Hl; [bool_prop|]].
  - destruct (small_push _ _ _ _ _); [|done]. cbn [mbind option_bind].
    destruct (set_back_arg _ _) eqn:Hb; [|done]. cbn [mbind option_bind].
    intros [= <- <- <-]. apply set_back_arg_length in Hb. lia.
  - destruct (large_push _ _ _ _ _); [|done]. cbn [mbind option_bind].
    destruct (set_back_arg _ _) eqn:Hb; [|done]. cbn [mbind option_bind].
    intros [= <- <- <-]. apply set_back_arg_length in Hb. rewrite length_app. cbn. lia.
  - destruct (needs_gas_number op); [|destruct (op =? OP_PC)]; [| |intros [= <- <- <-]; lia];
      (destruct (set_back_arg _ _) eqn:Hb; [|done]); cbn [mbind option_bind];
      intros [= <- <- <-]; apply set_back_arg_length in Hb; lia.
Qed.

(** What [st] has stored for the first [pos] bytes. *)
Definition sizes_ok (pos : Z) st : Prop :=
  Z.of_nat (length (an_push_values st)) <= pos /\
  Z.of_nat (length (an_instrs st)) <= 2 * pos + 1.

Lemma analyze_step_sizes tbl bb c pos st pos' st' :
  0 <= pos -> sizes_ok pos st -> analyze_step tbl bb c pos st = Some (pos', st') ->
  pos < pos' <= Z.of_nat (length c) /\ sizes_ok pos' st'.
Proof.
  intros Hpos [Hp Hi]. unfold analyze_step.
  destruct (nth_Z c pos) as [b|] eqn:Hb; [|done]. apply nth_Z_Some in Hb.
  cbn [mbind option_bind]. destruct (nth_Z tbl _) as [info|]; [|done].
  cbn [mbind option_bind]. destruct (op_fn info) as [f|]; [|done]. cbn [mbind option_bind].
  destruct (analyze_argument _ _ _ _ _ _) as [[[p l] pvs]|] eqn:Ha; [|done].
  apply analyze_argument_length in Ha as (Hp' & Hl & Hv); [|lia]. cbn [mbind option_bind].
  assert (length l <= S (length (an_instrs st)))%nat as Hl'.
  { rewrite Hl. case_match; rewrite ?length_app; cbn; lia. }
  destruct (_ || _).
  - destruct (save_block _ _) eqn:Hs; [|done]. cbn [mbind option_bind].
    apply save_block_length in Hs. intros [= <- <-]. unfold sizes_ok.
    cbn [an_push_values an_instrs]. rewrite length_app. cbn. lia.
  - intros [= <- <-]. unfold sizes_ok. cbn [an_push_values an_instrs]. lia.
Qed.

Lemma analyze_loop_sizes fuel tbl bb c pos st st' :
  0 <= pos <= Z.of_nat (length c) -> sizes_ok pos st ->
  analyze_loop fuel tbl bb c pos st = Some st' -> sizes_ok (Z.of_nat (length c)) st'.
Proof.
  revert pos st. induction fuel as [|fuel IH]; intros pos st Hpos Hst; cbn [analyze_loop]; [done|].
  destruct (pos =? _) eqn:Hend; bool_prop; [intros [= <-]; by rewrite <- Hend|].
  destruct (analyze_step _ _ _ _ _) as [[p s]|] eqn:Hs; [|done]. cbn [mbind option_bind].
  apply analyze_step_sizes in Hs as [Hp ?]; [|lia|done]. apply IH; [lia|done].
Qed.

Lemma analyze_sizes r c a :
  analyze r c = Some a ->
  (length (push_values a) <= length c)%nat /\ (length (instrs a) <= 2 * length c + 2)%nat.
Proof.
  unfold analyze. destruct (beginblock_entry r) as (bb & -> & Hbb). cbn [mbind option_bind].
  rewrite Hbb. cbn [mbind option_bind].
  destruct (analyze_loop _ _ _ _ _ _) as [st|] eqn:Hl; [|done]. cbn [mbind option_bind].
  apply analyze_loop_sizes in Hl as [Hp Hi]; [|lia|split; cbn; lia].
  destruct (save_block _ _) eqn:Hs; [|done]. apply save_block_length in Hs. cbn [mbind option_bind].
  destruct (stop_entry r) as (stop & -> & Hstop). cbn [mbind option_bind]. rewrite Hstop.
  cbn [mbind option_bind]. intros [= <-]. cbn [push_values instrs]. rewrite length_app. cbn. lia.
Qed.
End Sizes.

(** The assertion of the FIXME at the end of analyze(), that the instruction
    table has at most [code_size + 1] entries, does not hold: every block has an
    entry of its own. *)
Lemma instrs_exceed_reserved :
  let code := [Byte.x56; Byte.x56] in
  (fun a => length (instrs a)) <$> analyze (E := Mock.env) IVMC_LONDON code = Some 6%nat /\
  (length code + 1 < 6)%nat.
Proof. split; [vm_compute; reflexivity|cbn; lia]. Qed.

(** ** Properties *)


(** PUSH1 2; JUMPDEST; PUSH9 truncated. *)
Definition analysis_sample : list byte :=
  [Byte.x60; Byte.x02; Byte.x5b; Byte.x68; Byte.x5b].

