(* ===== verification/Frame.v ===== *)
(** * What an instruction body depends on

    The two interpreters run the same bodies in states that differ in the
    analysis, in the bytes past the end of the code and in the gas: the
    Advanced interpreter has already paid for the rest of the block.  A body is
    [transparent] when the analysis and the padding do not matter, and
    [gas_framed] when less gas changes nothing but the gas left, as long as it
    is enough. *)
From stdpp Require Import base list tactics option.
From S2P Require Import Prelude Intx Ivmc Code ExecutionState Instructions InstructionsCalls Hoare.
From S2P Require Import MemoryRequirements.

(** The outcome with the state mapped. *)
Definition map_outcome {S R A} (f : S -> S) (o : outcome S R A) : outcome S R A :=
  match o with
  | Ok a s => Ok a (f s)
  | Return r s => Return r (f s)
  | UB => UB
  end.

Section Frame.
Context {E : Env}.
Implicit Types s : ExecutionState.

(** ** Transparency *)
Definition seen (ca : bytes_view) (aa : analysis_ptr) s : ExecutionState :=
  with_code ca (with_analysis aa s).

(** Two views of the same code, with different bytes past its end. *)
Record same_code (c ca : bytes_view) : Prop := {
  sc_size : view_size ca = view_size c;
  sc_range : 0 <= view_size c < 2 ^ 63;
  sc_left : view_size c <= Z.of_nat (length (view_data c));
  sc_right : view_size c <= Z.of_nat (length (view_data ca));
  sc_bytes : take (Z.to_nat (view_size c)) (view_data ca) =
    take (Z.to_nat (view_size c)) (view_data c)
}.

(** What a body leaves alone. *)
Definition keeps s s' : Prop :=
  code s' = code s /\ output_offset s' = output_offset s /\ output_size s' = output_size s.

Lemma keeps_refl s : keeps s s.
Proof. by repeat split. Qed.

Lemma keeps_trans s1 s2 s3 : keeps s1 s2 -> keeps s2 s3 -> keeps s1 s3.
Proof. unfold keeps. intros (-> & -> & ->). done. Qed.

Definition outcome_keeps {A} s (o : outcome ExecutionState ivmc_status_code A) : Prop :=
  match o with
  | Ok _ s' | Return _ s' => keeps s s'
  | UB => True
  end.

Definition transparent {A} (m : Instr A) : Prop :=
  forall ca aa s, same_code (code s) ca ->
    m (seen ca aa s) = map_outcome (seen ca aa) (m s) /\
    outcome_keeps s (m s).

Lemma transparent_ret {A} (a : A) : transparent (mret a).
Proof. intros ca aa s _. split; [done|apply keeps_refl]. Qed.

Lemma transparent_bind {A B} (m : Instr A) (k : A -> Instr B) :
  transparent m -> (forall a, transparent (k a)) -> transparent (m ≫= k).
Proof.
  intros Hm Hk ca aa s Hc. destruct (Hm ca aa s Hc) as [He Hs].
  unfold mbind, M_bind. rewrite He. destruct (m s) as [a s'|c s'|]; cbn in *; [|done|done].
  destruct (Hk a ca aa s') as [He' Hs']; [by rewrite (proj1 Hs)|].
  split; [done|]. destruct (k a s'); cbn in *; [by eapply keeps_trans|by eapply keeps_trans|done].
Qed.

Lemma transparent_asks {A} (f : ExecutionState -> A) :
  (forall ca aa s, f (seen ca aa s) = f s) -> transparent (asks f).
Proof. intros Hf ca aa s _. unfold asks. rewrite Hf. split; [done|apply keeps_refl]. Qed.

(** A body that looks at the code depends on the code only. *)
Lemma transparent_asks_code {A} (k : bytes_view -> Instr A) :
  (forall c ca s, same_code c ca -> k ca s = k c s) -> (forall c, transparent (k c)) ->
  transparent (asks code ≫= k).
Proof.
  intros Hk Ht ca aa s Hc. unfold mbind, M_bind, asks. cbn [code seen with_code].
  rewrite (Hk (code s) ca) by done. by apply Ht.
Qed.

Lemma transparent_modify f :
  (forall ca aa s, f (seen ca aa s) = seen ca aa (f s) /\ keeps s (f s)) ->
  transparent (modify f).
Proof.
  intros Hf ca aa s _. unfold modify. destruct (Hf ca aa s) as [-> Hc]. by split.
Qed.

Lemma transparent_return {A} c : transparent (return_status c : Instr A).
Proof. intros ca aa s _. split; [done|apply keeps_refl]. Qed.

Lemma transparent_ub {A} : transparent (undefined_behaviour : Instr A).
Proof. done. Qed.

Lemma transparent_assume {A} (o : option A) : transparent (assume_some o).
Proof. destruct o; [apply transparent_ret|apply transparent_ub]. Qed.

Ltac primitive := intros ca aa s _; cbn [seen with_code with_analysis stack memory host gas_left];
  repeat case_match; (split; [done|]); by repeat split.

Lemma transparent_pop : transparent stack_pop.
Proof. unfold stack_pop. primitive. Qed.
Lemma transparent_push x : transparent (stack_push x).
Proof. unfold stack_push. primitive. Qed.
Lemma transparent_at i : transparent (stack_at i).
Proof. unfold stack_at. primitive. Qed.
Lemma transparent_set i x : transparent (stack_set i x).
Proof. unfold stack_set. primitive. Qed.
Lemma transparent_read off n : transparent (memory_read off n).
Proof. unfold memory_read. primitive. Qed.
Lemma transparent_write off bs : transparent (memory_write off bs).
Proof. unfold memory_write. primitive. Qed.
Lemma transparent_memory_grow n : transparent (memory_grow n).
Proof. unfold memory_grow. primitive. Qed.
Lemma transparent_host_do {A} (f : host_state -> A * host_state) : transparent (host_do f).
Proof. unfold host_do. primitive. Qed.
Lemma transparent_host_run f : transparent (host_run f).
Proof. unfold host_run. primitive. Qed.
Lemma transparent_int32 z : transparent (int32 z).
Proof. unfold int32. primitive. Qed.
Lemma transparent_int64 z : transparent (int64 z).
Proof. unfold int64. primitive. Qed.
Lemma transparent_sub_gas z : transparent (sub_gas z).
Proof.
  unfold sub_gas, mbind, M_bind, mret, M_ret, get, int64, modify.
  intros ca aa s _; cbn [seen with_code with_analysis gas_left].
  destruct (in_i64 _); (split; [done|]); by repeat split.
Qed.
Lemma transparent_add_gas z : transparent (add_gas z).
Proof.
  unfold add_gas, mbind, M_bind, mret, M_ret, get, int64, modify.
  intros ca aa s _; cbn [seen with_code with_analysis gas_left].
  destruct (in_i64 _); (split; [done|]); by repeat split.
Qed.
End Frame.

Create HintDb transparent.
#[export] Hint Resolve transparent_ret transparent_return transparent_ub transparent_assume
  transparent_pop transparent_push transparent_at transparent_set transparent_read transparent_write
  transparent_memory_grow transparent_host_do transparent_host_run transparent_int32
  transparent_int64 transparent_sub_gas transparent_add_gas : transparent.

(** Follows the structure of a body. *)
Ltac transparent_one :=
  lazymatch goal with
  | |- transparent (_ ≫= _) => apply transparent_bind; [|intros ?]
  | |- transparent (if ?b then _ else _) => destruct b
  | |- transparent (match ?x with _ => _ end) => destruct x
  | |- transparent (asks _) => apply transparent_asks; reflexivity
  | |- transparent (modify _) => apply transparent_modify; intros; repeat split
  | |- transparent (let _ := _ in _) => cbv zeta
  | |- transparent _ => solve [auto with transparent]
  end.
Ltac solve_transparent := repeat transparent_one.

Section Bodies.
Context {E : Env}.

Lemma transparent_stack_top : transparent stack_top.
Proof. apply transparent_at. Qed.
Lemma transparent_set_top x : transparent (set_top x).
Proof. apply transparent_set. Qed.
Lemma transparent_charge z : transparent (charge z).
Proof. unfold charge. solve_transparent. Qed.
Lemma transparent_check_memory_u64 off n : transparent (Instr.check_memory_u64 off n).
Proof.
  unfold Instr.check_memory_u64, Instr.grow_memory, Instr.memory_cost. solve_transparent.
Qed.
#[local] Hint Resolve transparent_check_memory_u64 : transparent.
Lemma transparent_check_memory off n : transparent (Instr.check_memory off n).
Proof. unfold Instr.check_memory. solve_transparent. Qed.
#[local] Hint Resolve transparent_check_memory : transparent.
Lemma transparent_require_memory off n : transparent (Instr.require_memory off n).
Proof. unfold Instr.require_memory. solve_transparent. Qed.
Lemma transparent_require_memory_u64 off n : transparent (Instr.require_memory_u64 off n).
Proof. unfold Instr.require_memory_u64. solve_transparent. Qed.
Lemma transparent_cold_account a : transparent (Instr.cold_account a).
Proof. unfold Instr.cold_account. solve_transparent. Qed.
Lemma transparent_cold_storage k : transparent (Instr.cold_storage k).
Proof. unfold Instr.cold_storage. solve_transparent. Qed.
#[local] Hint Resolve transparent_charge transparent_cold_account : transparent.
Lemma transparent_charge_cold_account a n : transparent (Instr.charge_cold_account a n).
Proof. unfold Instr.charge_cold_account. solve_transparent. Qed.
Lemma transparent_copy_to_memory source dst src n k :
  transparent (Instr.copy_to_memory source dst src n k).
Proof. unfold Instr.copy_to_memory. solve_transparent. Qed.
Lemma transparent_pop_topics n : transparent (Instr.pop_topics n).
Proof. induction n; cbn [Instr.pop_topics]; solve_transparent. Qed.
End Bodies.

#[export] Hint Resolve transparent_stack_top transparent_set_top transparent_charge
  transparent_check_memory transparent_require_memory transparent_require_memory_u64
  transparent_cold_account transparent_cold_storage transparent_charge_cold_account
  transparent_copy_to_memory transparent_pop_topics : transparent.

(** ** Every body is transparent *)
Section Transparent.
Context {E : Env}.

Lemma same_code_slice c ca src n :
  same_code c ca -> 0 <= src -> 0 <= n -> src + n <= view_size c ->
  slice (view_data ca) src n = slice (view_data c) src n.
Proof.
  intros [_ Hr Hl Hl' Hb] Hs Hn Hle. rewrite !slice_Some by lia. f_equal.
  assert (forall l : list byte, take (Z.to_nat n) (drop (Z.to_nat src) l) =
    take (Z.to_nat n) (drop (Z.to_nat src) (take (Z.to_nat (view_size c)) l))) as H.
  { intros l. rewrite !take_drop_commute, take_take. do 2 f_equal. lia. }
  by rewrite (H (view_data ca)), (H (view_data c)), Hb.
Qed.

Lemma copy_same_code c ca dst src n k :
  same_code c ca -> 0 <= src -> src + n <= view_size c ->
  Instr.copy_to_memory (view_data ca) dst src n k = Instr.copy_to_memory (view_data c) dst src n k.
Proof.
  intros Hc Hs Hle. unfold Instr.copy_to_memory. destruct (0 <? n) eqn:?; [|done]. bool_prop.
  by rewrite (same_code_slice c ca) by (done || lia).
Qed.

Lemma transparent_codesize : transparent Instr.codesize.
Proof.
  unfold Instr.codesize. apply transparent_asks_code; [|intros c; solve_transparent].
  intros c ca s Hc. by rewrite (sc_size _ _ Hc).
Qed.

Lemma transparent_codecopy {ES : EnvSpec E} : transparent Instr.codecopy.
Proof.
  unfold Instr.codecopy. do 4 (apply transparent_bind; [solve_transparent|intros ?]).
  apply transparent_asks_code; [|intros c; solve_transparent].
  intros c ca s Hc. rewrite (sc_size _ _ Hc). pose proof (sc_range _ _ Hc) as Hr.
  set (src := if u256_ltb _ _ then _ else _).
  assert (0 <= src <= view_size c) as Hsrc.
  { subst src. rewrite u256_ltb_spec, u256_of_u64_spec by lia. pose proof (u256_range a0).
    destruct (_ <? _) eqn:?; bool_prop; [lia|]. rewrite u256_to_u64_small; lia. }
  rewrite (u64_small (view_size c - src)) by lia.
  by rewrite (copy_same_code c ca) by (done || lia).
Qed.

Lemma transparent_call kind static : transparent (Calls.call kind static).
Proof.
  unfold Calls.call, Calls.call_cost, Calls.limit_gas, Calls.add_stipend, Calls.set_return_data,
    Calls.too_poor, Calls.pay_gas_used. solve_transparent.
Qed.

Lemma transparent_selfdestruct : transparent Instr.selfdestruct.
Proof. unfold Instr.selfdestruct. solve_transparent. Qed.

Lemma transparent_sstore : transparent Instr.sstore.
Proof. unfold Instr.sstore. solve_transparent. Qed.

Lemma transparent_create kind : transparent (Calls.create kind).
Proof.
  unfold Calls.create, Calls.set_return_data, Calls.too_poor, Calls.create_gas, Calls.pay_gas_used.
  solve_transparent.
Qed.
End Transparent.
