(* ===== verification/GasFrame.v ===== *)
(** * Running a body with less gas

    [gas_framed]: a body that succeeds with at least [R] gas left does the same
    when it starts with [R] less, and ends with [R] less; with less gas left it
    fails, and a body that fails still fails.  The Advanced interpreter relies
    on it when it pays for a whole block before running it. *)
From stdpp Require Import base list tactics option.
From S2P Require Import Prelude Intx Ivmc Code ExecutionState Instructions InstructionsCalls Hoare.
From S2P Require Import MemoryRequirements Frame.

Section GasFrame.
Context {E : Env} {ES : EnvSpec E}.
Implicit Types s : ExecutionState.

(** A state in which a body may start. *)
Definition startable s : Prop := 0 <= gas_left s <= i64_max /\ Memory.wf (memory s).

(** A body never gives gas back and keeps the memory well formed. *)
Definition mono {A} (m : Instr A) : Prop :=
  forall s, startable s ->
    match m s with
    | Ok _ s1 => 0 <= gas_left s1 <= gas_left s /\ Memory.wf (memory s1)
    | _ => True
    end.

(** The outcomes with all of the gas and with [R] less. *)
Definition frame_post {A} (R : Z) (full less : outcome ExecutionState ivmc_status_code A) : Prop :=
  match full, less with
  | UB, _ | _, UB => True
  | Ok a s1, Ok b s2 =>
      b = a /\ exists g, 0 <= g /\ gas_left s1 = g + R /\ s2 = with_gas_left g s1
  | Ok _ s1, Return c _ => gas_left s1 < R /\ c <> IVMC_SUCCESS
  | Return c _, Return c' _ => c <> IVMC_SUCCESS /\ c' <> IVMC_SUCCESS
  | Return _ _, Ok _ _ => False
  end.

Definition framed {A} (m : Instr A) : Prop :=
  forall s R g, startable s -> 0 <= R -> 0 <= g -> gas_left s = g + R ->
    frame_post R (m s) (m (with_gas_left g s)).

Definition gas_framed {A} (m : Instr A) : Prop := mono m /\ framed m.

(** Sequencing: the continuation matters only after values that the first
    body can produce. *)
Lemma gas_framed_bind_when {A B} (m : Instr A) (k : A -> Instr B) :
  gas_framed m -> (forall a s s1, startable s -> m s = Ok a s1 -> gas_framed (k a)) ->
  gas_framed (m ≫= k).
Proof.
  intros [Hmono Hframe] Hk. split.
  - intros s Hs. specialize (Hmono s Hs). unfold mbind, M_bind.
    destruct (m s) as [a s1|c s1|] eqn:Hm; [|done|done].
    destruct (Hk a s s1 Hs Hm) as [Hmono' _]. specialize (Hmono' s1).
    unfold startable in *. destruct (k a s1); [|done|done]. (destruct Hmono'; [split; lia || tauto|]; split; [lia|done]).
  - intros s R g Hs HR Hg Hgas. specialize (Hframe s R g Hs HR Hg Hgas). specialize (Hmono s Hs).
    unfold mbind, M_bind. destruct (m s) as [a s1|c s1|] eqn:Hm; [| |done].
    + destruct (Hk a s s1 Hs Hm) as [Hmono' Hframe'].
      assert (startable s1) as Hs1 by (unfold startable in *; split; lia || tauto).
      destruct (m (with_gas_left g s)) as [b s2|c2 s2|]; cbn in Hframe.
      * destruct Hframe as (-> & g2 & Hg2 & Hgas2 & ->). by apply Hframe'.
      * specialize (Hmono' s1 Hs1). destruct (k a s1) as [b' s1'|c' ?|] eqn:Hk1; cbn;
          [split; [lia|apply Hframe]| |done].
        split; [|apply Hframe]. specialize (Hframe' s1 0 (gas_left s1) Hs1).
        rewrite with_same_gas, Hk1 in Hframe'. unfold startable in Hs1. cbn in Hframe'.
        by destruct (Hframe' ltac:(lia) ltac:(lia) ltac:(lia)).
      * by destruct (k a s1).
    + by destruct (m (with_gas_left g s)) as [b s2|c2 s2|].
Qed.

Lemma gas_framed_bind {A B} (m : Instr A) (k : A -> Instr B) :
  gas_framed m -> (forall a, gas_framed (k a)) -> gas_framed (m ≫= k).
Proof. intros Hm Hk. by apply gas_framed_bind_when. Qed.

(** A body that does not look at the gas. *)
Lemma gas_framed_oblivious {A} (m : Instr A) :
  (forall s g, m (with_gas_left g s) = map_outcome (with_gas_left g) (m s)) ->
  (forall s a s1, Memory.wf (memory s) -> m s = Ok a s1 ->
    gas_left s1 = gas_left s /\ Memory.wf (memory s1)) ->
  (forall s c s1, m s = Return c s1 -> c <> IVMC_SUCCESS) -> gas_framed m.
Proof.
  intros Hm Hs Hr. split.
  - intros s [Hg Hwf]. specialize (Hs s). destruct (m s) as [a s1|? ?|]; [|done|done].
    destruct (Hs a s1 Hwf eq_refl) as [-> ?]. split; [lia|done].
  - intros s R g [_ Hwf] HR Hg Hgas. specialize (Hs s). rewrite Hm.
    destruct (m s) as [a s1|c s1|] eqn:Hms; cbn; [|split; by eapply Hr|done].
    destruct (Hs a s1 Hwf eq_refl) as [-> ?]. split; [done|]. by exists g.
Qed.

Ltac oblivious := apply gas_framed_oblivious; [intros s g|intros s ? ? ?|intros s ? ?];
  cbn [with_gas_left stack memory host]; repeat case_match; try done;
  intros [=]; subst; (split; [done|]); try done.

Lemma gas_framed_ret {A} (a : A) : gas_framed (mret a).
Proof. apply gas_framed_oblivious; [done| |done]. by intros s ? ? ? [= _ <-]. Qed.
Lemma gas_framed_return {A} c : c <> IVMC_SUCCESS -> gas_framed (return_status c : Instr A).
Proof. intros Hc. apply gas_framed_oblivious; [done|done|]. by intros ? ? ? [= <- _]. Qed.
Lemma gas_framed_ub {A} : gas_framed (undefined_behaviour : Instr A).
Proof. by apply gas_framed_oblivious. Qed.
Lemma gas_framed_assume {A} (o : option A) : gas_framed (assume_some o).
Proof. destruct o; [apply gas_framed_ret|apply gas_framed_ub]. Qed.
Lemma gas_framed_asks {A} (f : ExecutionState -> A) :
  (forall s g, f (with_gas_left g s) = f s) -> gas_framed (asks f).
Proof.
  intros Hf. apply gas_framed_oblivious; unfold asks; [intros; by rewrite Hf| |done].
  by intros s ? ? ? [= _ <-].
Qed.
Lemma gas_framed_pop : gas_framed stack_pop.
Proof. unfold stack_pop. oblivious. Qed.
Lemma gas_framed_push x : gas_framed (stack_push x).
Proof. unfold stack_push. oblivious. Qed.
Lemma gas_framed_at i : gas_framed (stack_at i).
Proof. unfold stack_at. oblivious. Qed.
Lemma gas_framed_set i x : gas_framed (stack_set i x).
Proof. unfold stack_set. oblivious. Qed.
Lemma gas_framed_read off n : gas_framed (memory_read off n).
Proof. unfold memory_read. oblivious. Qed.
Lemma write_wf m off bs m' : Memory.wf m -> Memory.write m off bs = Some m' -> Memory.wf m'.
Proof.
  unfold Memory.wf, Memory.write, overwrite. intros Hwf H. destruct (_ && _) eqn:Hb; [|done].
  injection H as <-. cbn. bool_prop. rewrite !length_app, length_take, length_drop. lia.
Qed.
Lemma gas_framed_write off bs : gas_framed (memory_write off bs).
Proof. unfold memory_write. oblivious. by eapply write_wf. Qed.
Lemma gas_framed_host_do {A} (f : host_state -> A * host_state) : gas_framed (host_do f).
Proof. unfold host_do. oblivious. Qed.
Lemma gas_framed_host_run f : gas_framed (host_run f).
Proof. unfold host_run. oblivious. Qed.
Lemma gas_framed_int64 z : gas_framed (int64 z).
Proof. unfold int64. oblivious. Qed.
Lemma gas_framed_int32 z : gas_framed (int32 z).
Proof. unfold int32. oblivious. Qed.

(** The value of a 64-bit expression is in range. *)
Lemma gas_framed_int64_then {A} z (k : Z -> Instr A) :
  (i64_min <= z <= i64_max -> gas_framed (k z)) -> gas_framed (int64 z ≫= k).
Proof.
  intros Hk. apply gas_framed_bind_when; [apply gas_framed_int64|]. intros a s s1 _.
  unfold int64, in_i64. destruct (_ && _) eqn:Hz; [|done]. intros [= <- _]. bool_prop. by apply Hk.
Qed.

Lemma gas_framed_int32_then {A} z (k : Z -> Instr A) :
  (- 2 ^ 31 <= z <= i32_max -> gas_framed (k z)) -> gas_framed (int32 z ≫= k).
Proof.
  intros Hk. apply gas_framed_bind_when; [apply gas_framed_int32|]. intros a s s1 _.
  unfold int32. destruct (_ && _) eqn:Hz; [|done]. intros [= <- _]. bool_prop. by apply Hk.
Qed.

(** ** Paying *)
Lemma charge_eq c s :
  charge c s = if in_i64 (gas_left s - c)
    then if gas_left s - c <? 0 then Return IVMC_OUT_OF_GAS (with_gas_left (gas_left s - c) s)
         else Ok tt (with_gas_left (gas_left s - c) s)
    else UB.
Proof.
  unfold charge, sub_gas, mbind, M_bind, get, int64, modify, mret, M_ret.
  destruct (in_i64 _); [|done]. by destruct (_ <? 0).
Qed.

Lemma framed_charge c : framed (charge c).
Proof.
  intros s R g [Hgs _] HR Hg Hgas. rewrite !charge_eq. cbn [gas_left with_gas_left].
  destruct (in_i64 (gas_left s - c)) eqn:Hi; [|done].
  destruct (in_i64 (g - c)) eqn:Hi'; [|by destruct (_ <? 0)].
  destruct (gas_left s - c <? 0) eqn:Hn, (g - c <? 0) eqn:Hn'; bool_prop; cbn;
    [by split|lia|split; [lia|done]|].
  split; [done|]. exists (g - c). split; [lia|]. split; [lia|done].
Qed.

Lemma gas_framed_charge c : 0 <= c -> gas_framed (charge c).
Proof.
  intros Hc. split; [|apply framed_charge]. intros s [Hg Hwf]. rewrite charge_eq.
  destruct (in_i64 _); [|done]. destruct (_ <? 0) eqn:?; [done|]. bool_prop. cbn. split; [lia|done].
Qed.

(** ** Memory requirements *)
Lemma mono_wp {A} (m : Instr A) :
  (forall s, startable s -> wp m (fun _ s1 => 0 <= gas_left s1 <= gas_left s /\
    Memory.wf (memory s1)) (fun _ _ => True) s) -> mono m.
Proof. intros Hm s Hs. specialize (Hm s Hs). unfold wp in Hm. by destruct (m s). Qed.

(** [require_memory] charges: the cost is computed first, and the memory
    grows after the charge. *)
Definition expand (n : Z) : Instr unit :=
  let new_words := num_words n in
  current_size ← asks (fun s => Memory.m_size (memory s));
  new_cost ← Instr.memory_cost new_words;
  current_cost ← Instr.memory_cost (to_i64 (current_size / word_size));
  cost ← int64 (new_cost - current_cost);
  charge cost;;
  bytes_needed ← int64 (new_words * word_size);
  memory_grow (u64 bytes_needed).

Definition require (ok : bool) : Instr unit :=
  if ok then mret tt else return_status IVMC_OUT_OF_GAS.

Lemma bind_assoc {A B C} (m : Instr A) (k : A -> Instr B) (l : B -> Instr C) s :
  ((m ≫= k) ≫= l) s = (m ≫= (fun a => k a ≫= l)) s.
Proof. unfold mbind, M_bind. by destruct (m s). Qed.

Lemma bind_ext {A B} (m : Instr A) (k k' : A -> Instr B) :
  (forall a s, k a s = k' a s) -> forall s, (m ≫= k) s = (m ≫= k') s.
Proof. intros H s. unfold mbind, M_bind. by destruct (m s). Qed.

Lemma expand_eq n s : (Instr.grow_memory n ≫= require) s = expand n s.
Proof.
  unfold Instr.grow_memory, expand. cbv zeta.
  do 4 (rewrite bind_assoc; revert s; apply bind_ext; intros ? s).
  unfold charge. rewrite !bind_assoc. revert s. apply bind_ext. intros [] s; [done|].
  unfold memory_grow, require, mbind, M_bind, mret, M_ret.
  destruct (int64 _ s) as [z s1|? ?|]; [|done|done]. by destruct (Memory.grow _ _).
Qed.

(** The cost depends on the size of the memory only. *)
Lemma memory_cost_pure w :
  (exists v, forall s, Instr.memory_cost w s = Ok v s) \/ (forall s, Instr.memory_cost w s = UB).
Proof.
  unfold Instr.memory_cost, mbind, M_bind, int64.
  do 3 (destruct (in_i64 _); [|by right]). left. by eexists.
Qed.

Lemma bind_Ok {A B} (m : Instr A) (k : A -> Instr B) s a s1 :
  m s = Ok a s1 -> (m ≫= k) s = k a s1.
Proof. unfold mbind, M_bind. by intros ->. Qed.

Lemma bind_UB {A B} (m : Instr A) (k : A -> Instr B) s : m s = UB -> (m ≫= k) s = UB.
Proof. unfold mbind, M_bind. by intros ->. Qed.

Lemma expand_cases n cs :
  (forall s, Memory.m_size (memory s) = cs -> expand n s = UB) \/
  exists cost, forall s, Memory.m_size (memory s) = cs -> expand n s =
    (charge cost;; bytes_needed ← int64 (num_words n * word_size); memory_grow (u64 bytes_needed)) s.
Proof.
  assert (forall s, Memory.m_size (memory s) = cs ->
    asks (fun s => Memory.m_size (memory s)) s = (Ok cs s : outcome _ ivmc_status_code _)) as Hasks
    by (intros s <-; done).
  destruct (memory_cost_pure (num_words n)) as [[v Hv]|Hv].
  2:{ left. intros s Hs. unfold expand. cbv zeta. rewrite (bind_Ok _ _ _ _ _ (Hasks s Hs)).
      by rewrite (bind_UB _ _ _ (Hv s)). }
  destruct (memory_cost_pure (to_i64 (cs / word_size))) as [[w Hw]|Hw].
  2:{ left. intros s Hs. unfold expand. cbv zeta. rewrite (bind_Ok _ _ _ _ _ (Hasks s Hs)).
      rewrite (bind_Ok _ _ _ _ _ (Hv s)). by rewrite (bind_UB _ _ _ (Hw s)). }
  assert (forall s, Memory.m_size (memory s) = cs -> expand n s = (cost ← int64 (v - w);
    charge cost;; bytes_needed ← int64 (num_words n * word_size); memory_grow (u64 bytes_needed)) s)
    as Hexp.
  { intros s Hs. unfold expand. cbv zeta. rewrite (bind_Ok _ _ _ _ _ (Hasks s Hs)).
    rewrite (bind_Ok _ _ _ _ _ (Hv s)). by rewrite (bind_Ok _ _ _ _ _ (Hw s)). }
  destruct (in_i64 (v - w)) eqn:Hi; [right; exists (v - w)|left]; intros s Hs; rewrite (Hexp s Hs).
  - rewrite (bind_Ok _ _ s (v - w) s); [done|]. unfold int64. by rewrite Hi.
  - rewrite bind_UB; [done|]. unfold int64. by rewrite Hi.
Qed.

Lemma framed_expand n : framed (expand n).
Proof.
  intros s R g [Hgs _] HR Hg Hgas.
  destruct (expand_cases n (Memory.m_size (memory s))) as [HU|[cost Hcost]]; [by rewrite HU|].
  rewrite !Hcost by done. unfold mbind, M_bind. rewrite !charge_eq.
  cbn [gas_left with_gas_left]. unfold int64, memory_grow.
  destruct (in_i64 (gas_left s - cost)) eqn:Hi; [|done].
  destruct (in_i64 (g - cost)) eqn:Hi'; [|by repeat case_match].
  destruct (gas_left s - cost <? 0) eqn:Hn, (g - cost <? 0) eqn:Hn'; bool_prop; try done; try lia;
    destruct (in_i64 (_ * _)); try done; cbn [memory with_gas_left];
    destruct (Memory.grow _ _); cbn; try done; try (by split); try (split; [lia|done]).
  split; [done|]. exists (g - cost). split; [lia|]. split; [lia|done].
Qed.

(** Bodies that agree everywhere. *)
Lemma framed_ext {A} (m m' : Instr A) : (forall s, m s = m' s) -> framed m' -> framed m.
Proof. intros He Hf s R g Hs HR Hg Hgas. rewrite !He. by apply Hf. Qed.

Lemma framed_require_check off n :
  framed (Instr.check_memory_u64 off n ≫= require).
Proof.
  unfold Instr.check_memory_u64. destruct (_ || _).
  { apply (framed_ext _ (return_status IVMC_OUT_OF_GAS)); [done|by apply gas_framed_return]. }
  cbv zeta. intros s R g Hs HR Hg Hgas. unfold mbind, M_bind, asks. cbn [memory with_gas_left].
  destruct (_ <? _).
  - pose proof (framed_expand (u64 (u256_to_u64 off + n)) s R g Hs HR Hg Hgas) as Hf.
    rewrite <- !expand_eq in Hf. exact Hf.
  - cbn. split; [done|]. exists g. split; [done|]. by split.
Qed.

Lemma gas_framed_require_memory_u64 off n :
  0 < n <= max_buffer_size -> gas_framed (Instr.require_memory_u64 off n).
Proof.
  intros Hn. split; [|exact (framed_require_check off n)].
  apply mono_wp. intros s [Hg Hwf]. by apply wp_require_memory_u64.
Qed.

Lemma gas_framed_require_memory off size : gas_framed (Instr.require_memory off size).
Proof.
  split; [apply mono_wp; intros s [Hg Hwf]; by apply wp_require_memory|].
  unfold Instr.require_memory, Instr.check_memory. fold require. destruct (u256_eqb _ _).
  { apply (framed_ext _ (mret tt)); [done|apply gas_framed_ret]. }
  destruct (_ || _); [|exact (framed_require_check off (u256_to_u64 size))].
  apply (framed_ext _ (return_status IVMC_OUT_OF_GAS)); [done|by apply gas_framed_return].
Qed.

(** An accepted size is small. *)
Lemma gas_framed_require_memory_then {A} off size (k : unit -> Instr A) :
  (u256_to_u64 size <= max_buffer_size -> gas_framed (k tt)) ->
  gas_framed (Instr.require_memory off size ≫= k).
Proof.
  intros Hk. apply gas_framed_bind_when; [apply gas_framed_require_memory|].
  intros [] s s1 Hs Hrun. apply Hk. pose proof (u256_range size).
  assert (wp (Instr.require_memory off size) (fun _ _ => access_valid ⟦off⟧ ⟦size⟧)
    (fun _ _ => True) s) as Hw by (by apply wp_require_memory; try apply Hs).
  unfold wp in Hw. rewrite Hrun in Hw. unfold access_valid, max_buffer_size in *.
  rewrite u256_to_u64_small; lia.
Qed.
End GasFrame.

Create HintDb gas_framed.
#[export] Hint Extern 1 (gas_framed (return_status _)) =>
  apply gas_framed_return; discriminate : gas_framed.
#[export] Hint Resolve gas_framed_ret gas_framed_ub gas_framed_assume
  gas_framed_pop gas_framed_push gas_framed_at gas_framed_set gas_framed_read gas_framed_write
  gas_framed_host_do gas_framed_host_run gas_framed_require_memory : gas_framed.
#[export] Hint Extern 1 (gas_framed (Instr.require_memory_u64 _ _)) =>
  apply gas_framed_require_memory_u64; unfold max_buffer_size; lia : gas_framed.

(** Follows the structure of a body; leaves the sign of the charges. *)
Ltac gas_framed_one :=
  lazymatch goal with
  | |- gas_framed (int64 _ ≫= _) => apply gas_framed_int64_then; intros ?
  | |- gas_framed (int32 _ ≫= _) => apply gas_framed_int32_then; intros ?
  | |- gas_framed (Instr.require_memory _ _ ≫= _) =>
      apply gas_framed_require_memory_then; intros ?
  | |- gas_framed (_ ≫= _) => apply gas_framed_bind; [|intros ?]
  | |- gas_framed (if ?b then _ else _) => destruct b
  | |- gas_framed (match ?x with _ => _ end) => destruct x
  | |- gas_framed (asks _) => apply gas_framed_asks; reflexivity
  | |- gas_framed (charge _) => apply gas_framed_charge
  | |- gas_framed (let _ := _ in _) => cbv zeta
  | |- gas_framed _ => solve [auto with gas_framed]
  end.
Ltac solve_gas_framed := repeat gas_framed_one.

Section Parts.
Context {E : Env} {ES : EnvSpec E}.

Lemma gas_framed_stack_top : gas_framed stack_top.
Proof. apply gas_framed_at. Qed.
Lemma gas_framed_set_top x : gas_framed (set_top x).
Proof. apply gas_framed_set. Qed.
Lemma gas_framed_cold_account a : gas_framed (Instr.cold_account a).
Proof. unfold Instr.cold_account. solve_gas_framed. Qed.
Lemma gas_framed_cold_storage k : gas_framed (Instr.cold_storage k).
Proof. unfold Instr.cold_storage. solve_gas_framed. Qed.
#[local] Hint Resolve gas_framed_cold_account : gas_framed.
Lemma gas_framed_charge_cold_account a n : 0 <= n -> gas_framed (Instr.charge_cold_account a n).
Proof. intros Hn. unfold Instr.charge_cold_account. solve_gas_framed. done. Qed.
Lemma gas_framed_copy_to_memory source dst src n k :
  gas_framed (Instr.copy_to_memory source dst src n k).
Proof. unfold Instr.copy_to_memory. solve_gas_framed. Qed.
Lemma gas_framed_pop_topics n : gas_framed (Instr.pop_topics n).
Proof. induction n; cbn [Instr.pop_topics]; solve_gas_framed. Qed.

(** The charges are never negative. *)
Lemma word_charge x k : 0 <= k -> 0 <= num_words (u256_to_u64 x) * k.
Proof.
  intros Hk. pose proof (num_words_range (u256_to_u64 x) (u256_to_u64_bound x)). nia.
Qed.
End Parts.

#[export] Hint Resolve gas_framed_stack_top gas_framed_set_top gas_framed_cold_account
  gas_framed_cold_storage gas_framed_copy_to_memory gas_framed_pop_topics : gas_framed.
#[export] Hint Extern 1 (gas_framed (Instr.charge_cold_account _ _)) =>
  apply gas_framed_charge_cold_account; unfold additional_cold_account_access_cost,
    cold_account_access_cost, warm_storage_read_cost; lia : gas_framed.
