(* ===== verification/Counterpart.v ===== *)
(** * The two instruction tables

    [counterpart] gives the function of the Advanced interpreter that stands
    for a function of the Baseline interpreter.  The tables of the two
    interpreters are built apart and agree on it for every opcode of every
    revision; the functions that both run unchanged are transparent and
    framed. *)
From stdpp Require Import base list tactics option.
From S2P Require Import Prelude Intx Ivmc Mock Code ExecutionState Instructions InstructionsCalls.
From S2P Require Import Traits Dispatch Hoare Frame GasFrame BaselineAnalysis BaselineSafety Analysis.
From S2P Require Import BlockSpec AnalysisSpec.

Definition counterpart (f : instr_fn) : exec_fn :=
  match f with
  | I_stop => X_stop
  | I_sstore => X_sstore
  | I_jump => X_jump
  | I_jumpi => X_jumpi
  | I_pc => X_pc
  | I_gas => X_gas
  | I_jumpdest => X_beginblock
  | I_push len => if len <=? 8 then X_push_small else X_push_full
  | I_create kind => X_create kind
  | I_call kind static => X_call kind static
  | I_return status => X_return status
  | I_invalid => X_invalid
  | I_selfdestruct => X_selfdestruct
  | f => X_op f
  end.

(** What the interpreters assume of the opcode of a function. *)
Definition shape_ok (op : Z) (f : instr_fn) : bool :=
  match f with
  | I_push len => (op =? OP_PUSH1 + len - 1) && (1 <=? len) && (len <=? 32)
  | _ => instr_size op =? 1
  end &&
  match f with
  | I_jumpdest => op =? OP_JUMPDEST
  | I_stop => (op =? OP_STOP) && is_terminator op
  | I_jump => (op =? OP_JUMP) && is_terminator op
  | I_jumpi => (op =? OP_JUMPI) && is_terminator op
  | I_return c => is_terminator op && (bool_decide (c = IVMC_SUCCESS) || bool_decide (c = IVMC_REVERT))
  | I_selfdestruct => is_terminator op
  | I_pc => (op =? OP_PC) && negb (is_terminator op) && negb (needs_gas_number op)
  | I_gas | I_sstore | I_call _ _ | I_create _ => needs_gas_number op && negb (is_terminator op)
  | _ => negb (is_terminator op)
  end &&
  match f with I_jumpdest => true | _ => negb (op =? OP_JUMPDEST) end &&
  match f with
  | I_jump | I_selfdestruct => stack_height_required (traits op) =? 1
  | I_jumpi | I_return _ => stack_height_required (traits op) =? 2
  | _ => true
  end.

Definition tables_agree (r : ivmc_revision) (op : Z) : bool :=
  (gas_costs r op =? undefined) ||
  match op2fn op, op_fn (op_entry r op) with
  | Some f, Some x => bool_decide (x = counterpart f) && shape_ok op f
  | _, _ => false
  end.

Lemma all_tables_agree r b : tables_agree r (byte_to_Z b) = true.
Proof. apply table_cases. vm_compute. reflexivity. Qed.

Lemma counterpart_entry r b f :
  let op := byte_to_Z b in
  gas_costs r op <> undefined -> op2fn op = Some f ->
  op_fn (op_entry r op) = Some (counterpart f) /\ shape_ok op f = true.
Proof.
  intros op Hu Hf. pose proof (all_tables_agree r b) as H. fold op in H. unfold tables_agree in H.
  rewrite (proj2 (Z.eqb_neq _ _) Hu), Hf in H. cbn [orb] in H.
  destruct (op_fn (op_entry r op)) as [x|]; [|done]. bool_prop.
  match goal with H : bool_decide _ = true |- _ => apply bool_decide_eq_true_1 in H as -> end. done.
Qed.

Lemma undefined_entry r op :
  gas_costs r op = undefined -> op_entry r op = mk_op_entry (Some X_undefined) 0 0 0.
Proof. unfold op_entry. by intros ->. Qed.

(** ** The bodies both interpreters run *)
Section Bodies.
Context {E : Env} {ES : EnvSpec E}.

Definition generic_body (F : InstrImpl) : Prop :=
  match F with
  | SucceedingInstrFn m => transparent m /\ gas_framed m
  | MayFailInstrFn m => transparent m /\ gas_framed m
  | _ => False
  end.

#[local] Hint Resolve transparent_codesize transparent_codecopy : transparent.

Ltac solve_generic :=
  split;
  [solve_transparent
  |solve_gas_framed; try lia; try (apply word_charge; lia)].

Lemma exp_generic : generic_body (MayFailInstrFn Instr.exp).
Proof.
  cbn [generic_body]. unfold Instr.exp. solve_generic.
  all: try match goal with |- context [intx_count_significant_bytes ?x] =>
    pose proof (count_significant_bytes_range x) end; destruct (rev_geb _ _); lia.
Qed.

Lemma log_generic n : generic_body (MayFailInstrFn (Instr.log n)).
Proof.
  cbn [generic_body]. unfold Instr.log. solve_generic.
  pose proof (u256_to_u64_bound a1). unfold max_buffer_size in *.
  rewrite to_i64_small by (unfold i64_min, i64_max; lia). lia.
Qed.

Lemma generic_bodies f x : counterpart f = X_op x -> x = f /\ generic_body (instr_impl f).
Proof.
  destruct f; cbn [counterpart]; try discriminate; try (case_match; discriminate);
    intros [= <-]; (split; [reflexivity|]); cbn [instr_impl];
    first [apply exp_generic|apply log_generic|cbn [generic_body]].
  all: try (unfold Instr.add, Instr.mul, Instr.sub, Instr.div, Instr.sdiv, Instr.mod_, Instr.smod,
    Instr.addmod, Instr.mulmod, Instr.signextend, Instr.lt_, Instr.gt_, Instr.slt, Instr.sgt,
    Instr.eq_, Instr.iszero, Instr.and_, Instr.or_, Instr.xor_, Instr.not_, Instr.byte_, Instr.shl,
    Instr.shr, Instr.sar, Instr.keccak256, Instr.address_, Instr.balance, Instr.origin, Instr.caller,
    Instr.callvalue, Instr.calldataload, Instr.calldatasize, Instr.calldatacopy,
    Instr.gasprice, Instr.extcodesize, Instr.extcodecopy, Instr.returndatasize,
    Instr.returndatacopy, Instr.extcodehash, Instr.blockhash, Instr.coinbase, Instr.timestamp,
    Instr.number, Instr.difficulty, Instr.gaslimit, Instr.chainid, Instr.selfbalance, Instr.basefee,
    Instr.pop, Instr.mload, Instr.mstore, Instr.mstore8, Instr.sload, Instr.msize, Instr.dup,
    Instr.swap; solve_generic).
  all: unfold Instr.codesize, Instr.codecopy; solve_gas_framed;
    first [apply word_charge; lia|unfold cold_sload_cost, warm_storage_read_cost; lia].
Qed.
End Bodies.

(** ** Properties *)

(** C34: The two interpreters agree about every opcode of every revision: it is
    undefined for both, or defined for both with the same base cost, the same
    stack requirement and the same effect on the height, and the functions they
    run are counterparts of each other. *)
Theorem instruction_tables_agree r b :
  let op := byte_to_Z b in
  exists e i,
    nth_Z (get_baseline_instruction_table r) op = Some e /\ nth_Z (get_op_table r) op = Some i /\
    ((te_gas_cost e = undefined /\ op_fn i = Some X_undefined) \/
     (te_gas_cost e <> undefined /\ te_gas_cost e = op_gas_cost i /\
      te_stack_height_required e = op_stack_req i /\
      te_can_overflow_stack e = (0 <? op_stack_change i) /\
      exists f, op2fn op = Some f /\ op_fn i = Some (counterpart f))).
Proof.
  cbv zeta. exists (table_entry r (byte_to_Z b)), (op_entry r (byte_to_Z b)).
  split; [apply baseline_table_lookup|]. split; [apply op_table_lookup|].
  destruct (Z.eq_dec (gas_costs r (byte_to_Z b)) undefined) as [Hu|Hu]; [left|right].
  - by rewrite undefined_entry.
  - destruct (op_entry_defined r _ Hu) as (Hg & Hs & Hc).
    pose proof (entries_ok r b) as He. unfold entry_ok in He. rewrite (proj2 (Z.eqb_neq _ _) Hu) in He.
    cbn [orb] in He. bool_prop. destruct (op2fn (byte_to_Z b)) as [f|] eqn:Hf; [|done]. pose proof (counterpart_entry r b f Hu Hf) as [Hx _].
    rewrite Hg, Hs, Hc. by repeat (split; [done|]); exists f.
Qed.
