(* ===== verification/Advanced.v ===== *)
(** * The Advanced interpreter (instructions.cpp, execution.cpp)

    The functions of the instruction table take a pointer to an instruction
    (its index in [instrs]) and the state, and return the next pointer, null
    ([None]) to stop.  [execute] follows the pointers. *)
From stdpp Require Import base list tactics option.
From S2P Require Import Prelude Intx Ivmc Code ExecutionState Instructions InstructionsCalls.
From S2P Require Import Traits Dispatch Baseline Analysis.

Module Advanced.
Section Advanced.
Context {E : Env}.

(** [AdvancedExecutionState] (analysis.hpp). *)
Record AdvancedExecutionState := mk_adv_state {
  base : ExecutionState;
  current_block_cost : Z
}.

Definition new_adv_state (message : ivmc_message) (r : ivmc_revision) (h : host_state)
    (c : list byte) : AdvancedExecutionState :=
  mk_adv_state (new_state message r h c) 0.

Definition reset_adv (s : AdvancedExecutionState) (message : ivmc_message) (r : ivmc_revision)
    (h : host_state) (c : list byte) : AdvancedExecutionState :=
  mk_adv_state (with_analysis analysis_null (reset (base s) message r h c)) 0.

Definition AdvInstr (A : Type) : Type := M AdvancedExecutionState ivmc_status_code A.

Definition next_instr := AdvInstr (option Z).

(** A computation on the generic part of the state. *)
Definition on_base {A} (m : Instr A) : AdvInstr A := fun s =>
  match m (base s) with
  | Ok a b => Ok a (mk_adv_state b (current_block_cost s))
  | Return c b => Return c (mk_adv_state b (current_block_cost s))
  | UB => UB
  end.

Definition exit (c : ivmc_status_code) : next_instr :=
  on_base (modify (with_status c));; mret None.

(** [instr->arg]. *)
Definition instr_arg (instr : Z) : AdvInstr instruction_argument := fun s =>
  match analysis (base s) with
  | analysis_advanced a =>
      match nth_Z (instrs a) instr with
      | Some i => Ok (arg i) s
      | None => UB
      end
  | _ => UB
  end.

(** Reading a member of the argument union. *)
Definition arg_number_of (a : instruction_argument) : AdvInstr Z :=
  assume_some (match a with arg_number n => Some n | _ => None end).
Definition arg_small_push_value_of (a : instruction_argument) : AdvInstr Z :=
  assume_some (match a with arg_small_push_value v => Some v | _ => None end).
Definition arg_push_value_of (a : instruction_argument) : AdvInstr nat :=
  assume_some (match a with arg_push_value v => Some v | _ => None end).
Definition arg_block_of (a : instruction_argument) : AdvInstr block_info :=
  assume_some (match a with arg_block b => Some b | _ => None end).

Definition advanced_analysis : AdvInstr AdvancedCodeAnalysis := fun s =>
  match analysis (base s) with
  | analysis_advanced a => Ok a s
  | _ => UB
  end.

(** [op<instr_fn>] for the two signatures it is overloaded on. *)
Definition op (f : InstrImpl) (instr : Z) : next_instr :=
  match f with
  | SucceedingInstrFn f => on_base f;; mret (Some (instr + 1))
  | MayFailInstrFn f =>
      status_code ← on_base (call_body f);
      if bool_decide (status_code = IVMC_SUCCESS) then mret (Some (instr + 1))
      else exit status_code
  | _ => undefined_behaviour
  end.

Definition op_stop (_ : Z) : next_instr := exit IVMC_SUCCESS.

(** [state.current_block_cost - instr->arg.number] in [int64_t]. *)
Definition gas_correction (instr : Z) : AdvInstr Z :=
  a ← instr_arg instr;
  n ← arg_number_of a;
  s ← get;
  on_base (int64 (current_block_cost s - n)).

(** The shape of [op_sstore], [op_call] and [op_create]. *)
Definition with_correction (f : Instr ivmc_status_code) (instr : Z) : next_instr :=
  gas_left_correction ← gas_correction instr;
  on_base (add_gas gas_left_correction);;
  c ← on_base (call_body f);
  if negb (bool_decide (c = IVMC_SUCCESS)) then exit c
  else
    negative ← on_base (sub_gas gas_left_correction);
    if negative : bool then exit IVMC_OUT_OF_GAS else mret (Some (instr + 1)).

Definition op_sstore (instr : Z) : next_instr := with_correction Instr.sstore instr.

Definition op_jump (_ : Z) : next_instr :=
  dst ← on_base stack_pop;
  if u256_ltb (u256_of_u64 i32_max) dst then exit IVMC_BAD_JUMP_DESTINATION
  else
    a ← advanced_analysis;
    pc ← assume_some (find_jumpdest a (to_i32 (u256_to_u64 dst)));
    if pc <? 0 then exit IVMC_BAD_JUMP_DESTINATION else mret (Some pc).

Definition op_jumpi (instr : Z) : next_instr :=
  cond ← on_base (stack_at 1);
  next ← (if negb (u256_eqb cond Instr.u256_0) then op_jump instr
          else on_base stack_pop;; mret (Some (instr + 1)));
  on_base stack_pop;;
  mret next.

Definition op_pc (instr : Z) : next_instr :=
  a ← instr_arg instr;
  n ← arg_number_of a;
  on_base (stack_push (u256_of_u64 (u64 n)));;
  mret (Some (instr + 1)).

Definition op_gas (instr : Z) : next_instr :=
  correction ← gas_correction instr;
  s ← get;
  g ← on_base (int64 (gas_left (base s) + correction));
  on_base (stack_push (u256_of_u64 (u64 g)));;
  mret (Some (instr + 1)).

Definition op_push_small (instr : Z) : next_instr :=
  a ← instr_arg instr;
  v ← arg_small_push_value_of a;
  on_base (stack_push (u256_of_u64 v));;
  mret (Some (instr + 1)).

Definition op_push_full (instr : Z) : next_instr :=
  a ← instr_arg instr;
  i ← arg_push_value_of a;
  an ← advanced_analysis;
  v ← assume_some (push_values an !! i);
  on_base (stack_push v);;
  mret (Some (instr + 1)).

Definition op_invalid (_ : Z) : next_instr := exit IVMC_INVALID_INSTRUCTION.

Definition op_return (status_code : ivmc_status_code) (_ : Z) : next_instr :=
  offset ← on_base (stack_at 0);
  size ← on_base (stack_at 1);
  ok ← on_base (Instr.check_memory offset size);
  if negb ok then exit IVMC_OUT_OF_GAS
  else
    s ← get;
    let n := u256_to_u64 size in
    on_base (modify (with_output
      (if negb (n =? 0) then u256_to_u64 offset else output_offset (base s)) n));;
    exit status_code.

Definition op_call (kind : ivmc_call_kind) (static : bool) (instr : Z) : next_instr :=
  with_correction (Calls.call kind static) instr.

Definition op_create (kind : ivmc_call_kind) (instr : Z) : next_instr :=
  with_correction (Calls.create kind) instr.

Definition op_undefined (_ : Z) : next_instr := exit IVMC_UNDEFINED_INSTRUCTION.

Definition op_selfdestruct (_ : Z) : next_instr :=
  c ← on_base (call_body Instr.selfdestruct); exit c.

Definition opx_beginblock (instr : Z) : next_instr :=
  a ← instr_arg instr;
  block ← arg_block_of a;
  negative ← on_base (sub_gas (bi_gas_cost block));
  if negative : bool then exit IVMC_OUT_OF_GAS
  else
    s ← get;
    let size := Stack.size (stack (base s)) in
    if size <? bi_stack_req block then exit IVMC_STACK_UNDERFLOW
    else if Stack.limit <? size + bi_stack_max_growth block then exit IVMC_STACK_OVERFLOW
    else
      modify (fun s => mk_adv_state (base s) (bi_gas_cost block));;
      mret (Some (instr + 1)).

Definition exec (f : exec_fn) : Z -> next_instr :=
  match f with
  | X_op f => op (instr_impl f)
  | X_stop => op_stop
  | X_sstore => op_sstore
  | X_jump => op_jump
  | X_jumpi => op_jumpi
  | X_pc => op_pc
  | X_gas => op_gas
  | X_push_small => op_push_small
  | X_push_full => op_push_full
  | X_invalid => op_invalid
  | X_return status_code => op_return status_code
  | X_call kind static => op_call kind static
  | X_create kind => op_create kind
  | X_undefined => op_undefined
  | X_selfdestruct => op_selfdestruct
  | X_beginblock => opx_beginblock
  end.

(** [instr->fn(instr, state)]. *)
Definition step (instr : Z) : next_instr :=
  a ← advanced_analysis;
  i ← assume_some (nth_Z (instrs a) instr);
  exec (fn i) instr.

Inductive run_result :=
| Finished (s : AdvancedExecutionState)
| Stuck
| OutOfFuel.

(** [while (instr != nullptr) instr = instr->fn(instr, state);] *)
Fixpoint run (fuel : nat) (instr : Z) (s : AdvancedExecutionState) : run_result :=
  match fuel with
  | O => OutOfFuel
  | S fuel' =>
      match step instr s with
      | Ok (Some next) s' => run fuel' next s'
      | Ok None s' => Finished s'
      | Return _ _ | UB => Stuck
      end
  end.

Definition exit_result (s : ExecutionState) : option ivmc_result :=
  output ← Memory.read (memory s) (output_offset s) (output_size s);
  Some (mk_result (status s) (Baseline.final_gas s) output address_zero).

Inductive exec_result :=
| Executed (r : ivmc_result) (s : AdvancedExecutionState)
| ExecStuck
| ExecOutOfFuel.

(** [execute(state, analysis)]. *)
Definition execute_with (fuel : nat) (s : AdvancedExecutionState) (a : AdvancedCodeAnalysis)
    : exec_result :=
  let s := mk_adv_state (with_analysis (analysis_advanced a) (base s)) (current_block_cost s) in
  match run fuel 0 s with
  | Finished s' =>
      match exit_result (base s') with
      | Some r => Executed r s'
      | None => ExecStuck
      end
  | Stuck => ExecStuck
  | OutOfFuel => ExecOutOfFuel
  end.

(** The IVMC entry point. *)
Definition execute (fuel : nat) (h : host_state) (r : ivmc_revision) (m : ivmc_message)
    (c : list byte) : exec_result :=
  match analyze r c with
  | Some a => execute_with fuel (new_adv_state m r h c) a
  | None => ExecStuck
  end.
End Advanced.
End Advanced.
