(* ===== verification/BlockRun.v ===== *)
(** * Basic blocks at run time

    How the Baseline interpreter relates to the blocks of the Advanced
    analysis: an execution whose block cannot be entered fails sooner or later
    ([doomed_fails]), and BEGINBLOCK decides exactly that ([begin_block_step]).
    [paired] relates the states of the two interpreters inside of a block. *)
From stdpp Require Import base list tactics option.
From S2P Require Import Prelude Intx Ivmc Mock Code ExecutionState Instructions InstructionsCalls.
From S2P Require Import Traits Dispatch Hoare MemoryRequirements SafetyControl Frame GasFrame.
From S2P Require Import Baseline BaselineAnalysis BaselineSafety.
From S2P Require Import BaselineRun Analysis BlockSpec AnalysisSpec Counterpart Advanced.

Section BlockRun.
Context {E : Env} {ES : EnvSpec E}.
Context (r : ivmc_revision) (c : list byte) (A : AdvancedCodeAnalysis).
Hypothesis Hsmall : code_small c.
Implicit Types s : ExecutionState.

Abbreviation table := (get_baseline_instruction_table r).
Abbreviation follows := (follows r c (push_values A)).
Abbreviation code_end := (Z.of_nat (length c)).

(** ** Blocks *)

(** The position in the code for a position of the interpreter, which may lie
    in the padding. *)
Definition clip (p : Z) : Z := Z.min p code_end.

Lemma follows_inv q k tbl ops :
  follows q k tbl ops ->
  (q = code_end /\ ops = [] /\ exists i, tbl = [i] /\ fn i = X_stop) \/
  exists b f a tl ops', nth_Z c q = Some b /\
    let op := byte_to_Z b in let k' := k + op_gas_cost (op_entry r op) in
    op_fn (op_entry r op) = Some f /\ arg_ok c (push_values A) op q k' a /\
    tbl = emits op f a ++ tl /\ ops = op_entry r op :: ops' /\
    ((closes c op (next_pos c q op) = false /\ follows (next_pos c q op) k' tl ops') \/
     (closes c op (next_pos c q op) = true /\ ops' = [] /\ exists tl' ops'',
        tl = begin_block ops'' :: tl' /\ follows (next_pos c q op) 0 tl' ops'')).
Proof.
  intros H. inversion H; subst; [left|right|right].
  - split; [done|]. split; [done|]. by exists i.
  - exists b, f, a, tl, ops0. split; [done|]. cbv zeta. do 4 (split; [done|]). by left.
  - exists b, f, a, (begin_block ops0 :: tl), []. split; [done|]. cbv zeta.
    do 4 (split; [done|]). right. split; [done|]. split; [done|]. by exists tl, ops0.
Qed.

Lemma entry_cost b : 0 <= op_gas_cost (op_entry r (byte_to_Z b)) <= max_instruction_base_cost.
Proof. pose proof (op_entries_ok r b) as H. unfold op_entry_ok in H. bool_prop. lia. Qed.

Lemma block_cost_cons i ops : block_cost (i :: ops) = op_gas_cost i + block_cost ops.
Proof. done. Qed.

Lemma follows_cost q k tbl ops :
  follows q k tbl ops -> 0 <= q <= code_end ->
  0 <= block_cost ops <= max_instruction_base_cost * (code_end - q).
Proof.
  intros H. unfold max_instruction_base_cost.
  induction H as [k i|q k b f a tl ops Hb op k' Hf Ha Hc H IH|q k b f a tl ops Hb op k' Hf Ha Hc H IH];
    intros Hq; [cbn; lia|..];
    rewrite block_cost_cons; pose proof (nth_Z_Some _ _ _ Hb);
    pose proof (entry_cost b) as Hcost; fold op in Hcost; unfold max_instruction_base_cost in Hcost;
    pose proof (instr_size_bound op) as Hsz; unfold next_pos in *.
  - specialize (IH ltac:(lia)). lia.
  - change (block_cost []) with 0. lia.
Qed.

(** The requirements of a defined instruction are those of its entry. *)
Lemma requirement_entry b gas h :
  let op := byte_to_Z b in
  requirement_status r op gas h = IVMC_SUCCESS ->
  op_gas_cost (op_entry r op) <= gas /\ op_stack_req (op_entry r op) <= h /\
  h + op_stack_change (op_entry r op) <= Stack.limit.
Proof.
  intros op Hreq. apply requirement_success in Hreq as (Hu & Hg & Hl & Hn).
  destruct (op_entry_defined r op Hu) as (-> & -> & ->). done.
Qed.

Lemma entry_requirement b gas h :
  let op := byte_to_Z b in gas_costs r op <> undefined ->
  op_gas_cost (op_entry r op) <= gas -> op_stack_req (op_entry r op) <= h ->
  h + op_stack_change (op_entry r op) <= Stack.limit ->
  requirement_status r op gas h = IVMC_SUCCESS.
Proof.
  intros op Hu. destruct (op_entry_defined r op Hu) as (-> & -> & ->). intros.
  by apply requirement_success.
Qed.

(** ** Doomed executions *)

(** The block cannot be completed from here. *)
Definition doomed s (p : Z) : Prop :=
  exists k tbl ops, follows (clip p) k tbl ops /\ ~ block_enters ops (gas_left s) (height s).

Lemma terminator_closes op q : is_terminator op = true -> closes c op q = true.
Proof. unfold closes. by intros ->. Qed.

Lemma ends_normally_terminator op : ends_normally op = true -> is_terminator op = true.
Proof.
  unfold ends_normally, is_terminator. rewrite !orb_true_iff. tauto.
Qed.

Lemma clip_inside p b : nth_Z c p = Some b -> clip p = p.
Proof. intros H%nth_Z_Some. unfold clip. lia. Qed.

Lemma doomed_step s p b s' p' :
  doomed s p -> nth_Z c p = Some b -> rev s = r -> continues c s p (byte_to_Z b) s' p' ->
  doomed s' p'.
Proof.
  intros (k & tbl & ops & Hfo & Hnot) Hb Hr Hct. rewrite (clip_inside p b Hb) in Hfo.
  pose proof (nth_Z_Some _ _ _ Hb) as Hp.
  apply follows_inv in Hfo as [(Hq & _ & _)|(b' & f & a & tl & ops' & Hb' & Hrest)]; [lia|].
  rewrite Hb in Hb'. injection Hb' as <-. cbv zeta in Hrest. set (op := byte_to_Z b) in *.
  destruct Hrest as (Hf & Ha & -> & -> & Htl).
  pose proof (ct_requirement _ _ _ _ _ _ Hct) as Hreq. rewrite Hr in Hreq.
  pose proof (requirement_entry b _ _ Hreq) as (Hcost & Hneed & Hlim). fold op in Hcost, Hneed, Hlim.
  pose proof (ct_gas _ _ _ _ _ _ Hct) as Hgas. rewrite Hr in Hgas.
  apply requirement_success in Hreq as (Hu & _).
  destruct (op_entry_defined r op Hu) as (Hgc & Hrq & Hch).
  destruct Htl as [(Hcl & Hfo)|(Hcl & -> & _)].
  - destruct (ct_next _ _ _ _ _ _ Hct) as [->|[Hj _]].
    2:{ rewrite terminator_closes in Hcl; [done|]. by destruct Hj as [->| ->]. }
    do 3 eexists. split; [exact Hfo|]. intros [Hc Hs]. apply Hnot. split.
    + rewrite block_cost_cons. lia.
    + cbn [stack_enters]. rewrite Hch in *. rewrite (ct_height _ _ _ _ _ _ Hct) in Hs. done.
  - destruct Hnot. split; [rewrite block_cost_cons; cbn; lia|]. by cbn [stack_enters].
Qed.

Lemma doomed_end s p b s' :
  loop_inv c s p -> doomed s p -> (nth_Z c p = Some b \/ nth_Z c p = None) -> rev s = r ->
  ends s (byte_to_Z b) s' -> is_failure (status s').
Proof.
  intros Hinv (k & tbl & ops & Hfo & Hnot) Hb Hr Hen.
  pose proof (instr_start_nonneg _ _ (li_start _ _ _ Hinv)) as Hp0.
  apply follows_inv in Hfo as [(_ & -> & _)|(b' & f & a & tl & ops' & Hb' & Hrest)].
  { destruct Hnot. pose proof (ok_gas _ (li_state _ _ _ Hinv)). split; [cbn; lia|done]. }
  assert (nth_Z c p = Some b') as Hpb.
  { pose proof (nth_Z_Some _ _ _ Hb'). unfold clip in *. by rewrite Z.min_l in Hb' by lia. }
  destruct Hb as [Hb|Hb]; [|congruence]. rewrite Hb in Hpb. injection Hpb as <-.
  cbv zeta in Hrest. set (op := byte_to_Z b) in *. destruct Hrest as (Hf & Ha & -> & -> & Htl).
  destruct (decide (requirement_status (rev s) op (gas_left s) (height s) = IVMC_SUCCESS)) as [Hreq|Hreq];
    [|by apply (en_requirement _ _ _ Hen)].
  rewrite Hr in Hreq.
  pose proof (requirement_entry b _ _ Hreq) as (Hcost & Hneed & Hlim). fold op in Hcost, Hneed, Hlim.
  destruct (ends_normally op) eqn:He; [|by apply (en_abnormal _ _ _ Hen)].
  destruct Htl as [(Hcl & _)|(_ & -> & _)].
  - rewrite terminator_closes in Hcl; [done|by apply ends_normally_terminator].
  - destruct Hnot. split; [rewrite block_cost_cons; cbn; lia|]. by cbn [stack_enters].
Qed.

(** An execution in a block that cannot be completed fails. *)
Lemma doomed_fails fuel s p tr s' tr' :
  loop_inv c s p -> rev s = r -> doomed s p ->
  Baseline.run false fuel table p s tr = Baseline.Finished s' tr' -> is_failure (status s').
Proof.
  revert s p tr. induction fuel as [|fuel IH]; intros s p tr Hinv Hr Hd Hrun; [done|].
  cbn [Baseline.run] in Hrun. destruct (step_spec _ _ _ Hinv) as (b & _ & Hcb & Hstep).
  rewrite Hr in Hstep. unfold wp in Hstep.
  destruct (Baseline.step table p s) as [[p'|] s1|? ?|]; cbn [step_post] in Hstep; [| |done|done].
  - assert (nth_Z c p = Some b) as Hb.
    { pose proof (ct_read _ _ _ _ _ _ Hstep) as Hb. by rewrite byte_of_Z_to_Z in Hb. }
    eapply (IH s1 p'); [apply Hstep| |by eapply doomed_step|exact Hrun].
    by rewrite (sf_rev _ _ (ct_frame _ _ _ _ _ _ Hstep)).
  - injection Hrun as <- _. eapply doomed_end; [exact Hinv|exact Hd| |exact Hr|exact Hstep].
    destruct Hcb as [?|[? _]]; [by left|by right].
Qed.

(** ** The state of the Advanced interpreter *)

(** A failed state, without output. *)
Definition broken s : Prop := is_failure (status s) /\ output_size s = 0 /\ output_offset s = 0.

(** The state [s] of the Baseline interpreter as the Advanced one has it: its
    own analysis, the unpadded code, [g] gas left and the cost [n] of the
    current block. *)
Definition adv s (g n : Z) : Advanced.AdvancedExecutionState :=
  Advanced.mk_adv_state
    (seen (mk_view c code_end) (analysis_advanced A) (with_gas_left g s)) n.

Lemma instr_at (ix : Z) i tl :
  0 <= ix -> drop (Z.to_nat ix) (instrs A) = i :: tl ->
  nth_Z (instrs A) ix = Some i /\ drop (Z.to_nat (ix + 1)) (instrs A) = tl.
Proof.
  intros Hix Hd. split.
  - unfold nth_Z. destruct (ix <? 0) eqn:?; [lia|].
    rewrite <- (Nat.add_0_r (Z.to_nat ix)), <- lookup_drop, Hd. done.
  - replace (Z.to_nat (ix + 1)) with (Z.to_nat ix + 1)%nat by lia. by rewrite <- drop_drop, Hd.
Qed.

(** The instruction the Advanced interpreter runs. *)
Lemma step_at (t : Advanced.AdvancedExecutionState) (ix : Z) i tl :
  analysis (Advanced.base t) = analysis_advanced A -> 0 <= ix ->
  drop (Z.to_nat ix) (instrs A) = i :: tl ->
  Advanced.step ix t = Advanced.exec (fn i) ix t /\ Advanced.instr_arg ix t = Ok (arg i) t.
Proof.
  intros Ha Hix Hd. destruct (instr_at _ _ _ Hix Hd) as [Hn _].
  unfold Advanced.step, Advanced.advanced_analysis, Advanced.instr_arg, mbind, M_bind.
  rewrite Ha, Hn. done.
Qed.

Lemma block_summary_cost ops :
  0 <= block_cost ops <= u32_max -> bi_gas_cost (block_summary ops) = block_cost ops.
Proof.
  intros Hc. unfold block_summary, close. cbn [bi_gas_cost]. rewrite summary_cost.
  cbn [new_block_analysis ba_gas_cost]. unfold clamp, u32, u32_max in *.
  destruct (_ <=? _) eqn:?; bool_prop; [|lia]. rewrite Z.mod_small; lia.
Qed.

Lemma adv_exit cc (t : Advanced.AdvancedExecutionState) :
  Advanced.exit cc t = Ok None (Advanced.mk_adv_state (with_status cc (Advanced.base t))
    (Advanced.current_block_cost t)).
Proof. done. Qed.

Lemma sub_gas_eq n s :
  in_i64 (gas_left s - n) = true ->
  sub_gas n s = Ok (gas_left s - n <? 0) (with_gas_left (gas_left s - n) s).
Proof. intros Hi. unfold sub_gas, mbind, M_bind, get, int64, modify, mret, M_ret. by rewrite Hi. Qed.

(** BEGINBLOCK checks what the instructions of its block require, and pays
    for all of them. *)
Lemma begin_block_step s (ix n : Z) ops tl :
  state_ok s -> output_size s = 0 -> output_offset s = 0 ->
  0 <= ix -> drop (Z.to_nat ix) (instrs A) = begin_block ops :: tl ->
  0 <= block_cost ops <= u32_max ->
  (block_enters ops (gas_left s) (height s) /\
   Advanced.step ix (adv s (gas_left s) n) =
     Ok (Some (ix + 1)) (adv s (gas_left s - block_cost ops) (block_cost ops))) \/
  (~ block_enters ops (gas_left s) (height s) /\
   exists t, Advanced.step ix (adv s (gas_left s) n) = Ok None t /\
     broken (Advanced.base t)).
Proof.
  intros Hok Hz Ho Hix Hd Hcost. set (t := adv s (gas_left s) n).
  destruct (step_at t ix _ _ eq_refl Hix Hd) as [-> Harg]. cbn [fn begin_block Advanced.exec].
  pose proof (stack_items_length _ (ok_stack _ Hok)) as Hh.
  pose proof (stack_items_length_le _ (ok_stack _ Hok)) as Hlim.
  pose proof (close_enters ops (gas_left s) (height s) 0 Hcost) as Henter.
  specialize (Henter ltac:(unfold height, Stack.limit; lia)).
  fold (block_summary ops) in Henter. unfold info_enters in Henter.
  pose proof (ok_gas _ Hok) as Hg. pose proof (block_summary_cost ops Hcost) as Hbc.
  assert (Advanced.on_base (sub_gas (block_cost ops)) t =
    Ok (gas_left s - block_cost ops <? 0) (adv s (gas_left s - block_cost ops) n)) as Hsub.
  { unfold Advanced.on_base. rewrite sub_gas_eq; [done|].
    apply in_i64_true. cbn. unfold i64_min, i64_max, u32_max in *. lia. }
  unfold Advanced.opx_beginblock, mbind, M_bind. rewrite Harg.
  cbn [arg begin_block Advanced.arg_block_of assume_some mret M_ret]. rewrite Hbc, Hsub in *.
  destruct (gas_left s - block_cost ops <? 0) eqn:Hneg; bool_prop.
  { right. split; [rewrite <- Henter; lia|]. eexists. split; [apply adv_exit|]. by repeat split. }
  cbn [get adv Advanced.base stack with_gas_left seen with_code with_analysis]. rewrite <- Hh.
  fold (height s). destruct (height s <? _) eqn:Hreq; bool_prop.
  { right. split; [rewrite <- Henter; lia|]. eexists. split; [apply adv_exit|]. by repeat split. }
  destruct (Stack.limit <? _) eqn:Hov; bool_prop.
  { right. split; [rewrite <- Henter; lia|]. eexists. split; [apply adv_exit|]. by repeat split. }
  left. split; [apply Henter; lia|]. done.
Qed.
End BlockRun.
