(* ===== verification/Pairing.v ===== *)
(** * One instruction in both interpreters

    [ready] relates a Baseline state about to execute the instruction at [p]
    to an Advanced state about to execute the instruction [ix] of its table:
    in the middle of a block, whose remaining cost the Advanced interpreter
    has already paid; before the BEGINBLOCK of a block; or at the end of the
    code.  Every instruction preserves it, unless it ends both executions, or
    the Advanced one has failed early and the Baseline one is doomed. *)
From stdpp Require Import base list tactics option.
From S2P Require Import Prelude Intx Ivmc Mock Code ExecutionState Instructions InstructionsCalls.
From S2P Require Import Traits Dispatch Hoare MemoryRequirements Safety SafetyControl Frame GasFrame.
From S2P Require Import Baseline BaselineAnalysis BaselineSafety.
From S2P Require Import BaselineRun Analysis BlockSpec AnalysisSpec Counterpart Advanced BlockRun.

(** What a client sees of a state that ended normally. *)
Record same_result {E : Env} (s t : ExecutionState) : Prop := {
  sr_gas : gas_left t = gas_left s;
  sr_host : host t = host s;
  sr_memory : memory t = memory s;
  sr_size : output_size t = output_size s;
  sr_offset : output_size s <> 0 -> output_offset t = output_offset s;
  sr_no_output : output_size s = 0 -> output_offset t = 0
}.

(** Both executions failed, or both ended the same way. *)
Definition agree {E : Env} (s t : ExecutionState) : Prop :=
  (is_failure (status s) /\ broken t) \/
  (status t = status s /\ same_result s t).

Section Pairing.
Context {E : Env} {ES : EnvSpec E}.
Context (r : ivmc_revision) (c : list byte) (A : AdvancedCodeAnalysis).
Hypothesis Hsmall : code_small c.
Hypothesis Hanalysis : advanced_analysis_of r c A.
Implicit Types s : ExecutionState.
Implicit Types t : Advanced.AdvancedExecutionState.

Abbreviation table := (get_baseline_instruction_table r).
Abbreviation follows := (follows r c (push_values A)).
Abbreviation code_end := (Z.of_nat (length c)).
Abbreviation adv := (adv c A).
Abbreviation clip := (clip c).
Abbreviation doomed := (doomed r c A).

(** The invariant of the Baseline side. *)
Record base_inv s (p : Z) : Prop := {
  bi_loop : loop_inv c s p;
  bi_rev : rev s = r;
  bi_view : view_size (code s) = code_end;
  bi_offset : output_offset s = 0
}.

(** Inside of a block: [ops] are the instructions left of it, [k] the cost of
    those before. *)
Record mid s (p ix : Z) t (k : Z) (tbl : list instruction) (ops : list op_table_entry) (g : Z)
    : Prop := {
  mi_index : 0 <= ix;
  mi_table : drop (Z.to_nat ix) (instrs A) = tbl;
  mi_follows : follows (clip p) k tbl ops;
  mi_stack : stack_enters ops (height s);
  mi_gas : 0 <= g /\ gas_left s = g + block_cost ops;
  mi_cost : 0 <= k /\ k + block_cost ops <= u32_max;
  mi_state : t = adv s g (k + block_cost ops)
}.

Definition begins s (p ix : Z) t : Prop :=
  block_at r c (push_values A) (instrs A) (clip p) ix /\ exists n, t = adv s (gas_left s) n.

Record at_end s (p ix : Z) t : Prop := {
  ae_position : code_end <= p;
  ae_index : 0 <= ix;
  ae_table : exists i, drop (Z.to_nat ix) (instrs A) = [i] /\ fn i = X_stop;
  ae_analysis : analysis (Advanced.base t) = analysis_advanced A;
  ae_result : same_result s (Advanced.base t)
}.

Definition ready s (p ix : Z) t : Prop :=
  (exists k tbl ops g, mid s p ix t k tbl ops g) \/ begins s p ix t \/ at_end s p ix t.

Lemma base_inv_same_code s p :
  base_inv s p -> same_code (code s) (mk_view c code_end).
Proof.
  intros [[_ _ (a & _ & Ha & Hv) Hc _] _ Hview _]. unfold code_ok in Hc.
  pose proof (an_padding _ _ Ha). constructor; cbn [view_size view_data]; rewrite ?Hview, ?Hv; try lia.
  rewrite Nat2Z.id. apply list_eq_same_length with (length c); rewrite ?length_take; [lia|lia|].
  intros i x y Hi Hx Hy. rewrite lookup_take_lt in Hx, Hy by lia.
  pose proof (an_code _ _ Ha (Z.of_nat i) x) as Hp. unfold nth_Z in Hp.
  destruct (_ <? 0) eqn:?; [lia|]. rewrite Nat2Z.id in Hp. specialize (Hp Hx). congruence.
Qed.

(** The block after an instruction: the rest of it, or the next one. *)
Definition rest_at (q k : Z) (tl : list instruction) (ops : list op_table_entry) : Prop :=
  follows q k tl ops \/
  (ops = [] /\ exists tl' ops', tl = begin_block ops' :: tl' /\ follows q 0 tl' ops').

Lemma rest_ready s p ix k tl ops g :
  rest_at (clip p) k tl ops -> 0 <= ix -> drop (Z.to_nat ix) (instrs A) = tl ->
  stack_enters ops (height s) -> 0 <= g -> gas_left s = g + block_cost ops ->
  0 <= k -> k + block_cost ops <= u32_max ->
  ready s p ix (adv s g (k + block_cost ops)).
Proof.
  intros [Hfo|(-> & tl' & ops' & -> & Hfo)] Hix Hd Hs Hg Hgas Hk Hn.
  - left. by exists k, tl, ops, g.
  - right. left. split; [split; [done|]; by exists tl', ops'|].
    change (block_cost []) with 0 in *. exists (k + 0). f_equal. lia.
Qed.

Lemma rest_doomed s p k tl ops :
  rest_at (clip p) k tl ops -> 0 <= gas_left s -> gas_left s < block_cost ops -> doomed s p.
Proof.
  intros [Hfo|(-> & _)] Hg Hlt; [|cbn in Hlt; lia].
  do 3 eexists. split; [exact Hfo|]. intros [Hc _]. lia.
Qed.

(** ** One step *)
Section Step.
Context (s : ExecutionState) (p ix k g : Z) (b : byte) (f : instr_fn) (a : instruction_argument).
Context (tl : list instruction) (ops : list op_table_entry).

Let op := byte_to_Z b.
Let e := op_entry r op.
Let R := block_cost ops.
Let n := k + op_gas_cost e + R.

(** The instruction [op] at [p], implemented by [f], is the next one of an open
    block whose rest is [ops]; the Baseline interpreter has charged it. *)
Record site : Prop := {
  si_inv : base_inv s p;
  si_code : nth_Z c p = Some b;
  si_requirement : requirement_status r op (gas_left s) (height s) = IVMC_SUCCESS;
  si_fn : op2fn op = Some f;
  si_index : 0 <= ix;
  si_table : drop (Z.to_nat ix) (instrs A) = emits op (counterpart f) a ++ tl;
  si_arg : arg_ok c (push_values A) op p (k + op_gas_cost e) a;
  si_rest : rest_at (next_pos c p op) (k + op_gas_cost e) tl ops;
  si_open : closes c op (next_pos c p op) = false ->
    follows (next_pos c p op) (k + op_gas_cost e) tl ops;
  si_closed : is_terminator op = true -> ops = [] /\ exists tl' ops',
    tl = begin_block ops' :: tl' /\ follows (next_pos c p op) 0 tl' ops';
  si_stack : stack_enters ops (height s + op_stack_change e);
  si_gas : 0 <= g /\ gas_left s = g + op_gas_cost e + R;
  si_cost : 0 <= k /\ n <= u32_max
}.

Hypothesis Hsite : site.

(** The Baseline state after the charge. *)
Definition charged : ExecutionState := with_gas_left (gas_left s - op_gas_cost e) s.

Definition t0 : Advanced.AdvancedExecutionState := adv charged g n.

(** The Advanced interpreter follows the Baseline one to the position [p']. *)
Definition follows_to s2 (p' : Z) : Prop :=
  ready s2 p' ix t0 \/
  (exists ix' t1, Advanced.step ix t0 = Ok (Some ix') t1 /\ ready s2 p' ix' t1) \/
  (exists t1, Advanced.step ix t0 = Ok None t1 /\ broken (Advanced.base t1) /\
     doomed s2 p').

Definition step_match (o : option Z) s2 : Prop :=
  match o with
  | Some p' => continues c s p op s2 p' -> base_inv s2 p' -> follows_to s2 p'
  | None => ends s op s2 -> exists t1, Advanced.step ix t0 = Ok None t1 /\
      agree s2 (Advanced.base t1)
  end.

Lemma site_defined : gas_costs r op <> undefined.
Proof. by apply (requirement_success r op (gas_left s) (height s)), Hsite. Qed.

Lemma site_counterpart : op_fn e = Some (counterpart f) /\ shape_ok op f = true.
Proof. apply counterpart_entry; [apply site_defined|apply Hsite]. Qed.

Lemma site_rest_cost : 0 <= R.
Proof.
  pose proof (nth_Z_Some _ _ _ (si_code Hsite)). pose proof (instr_size_bound op).
  unfold R. destruct (si_rest Hsite) as [Hfo|[Hops _]]; [|by rewrite Hops].
  apply (follows_cost r c A) in Hfo; [lia|unfold next_pos; lia].
Qed.

Lemma charged_ok : state_ok charged /\ gas_left charged = g + R.
Proof.
  destruct (si_inv Hsite) as [[Hok _ _ _ _] _ _ _]. destruct (si_gas Hsite) as [Hg Hgas].
  pose proof (entry_cost r b) as Hc. fold op e in Hc. pose proof site_rest_cost.
  split; [|cbn; lia]. destruct Hok. constructor; cbn; (done || lia).
Qed.

(** The instruction after this one. *)
Lemma site_advance s2 p' g2 :
  op <> OP_JUMPDEST -> continues c s p op s2 p' -> p' = p + instr_size op ->
  0 <= g2 -> gas_left s2 = g2 + R -> ready s2 p' (ix + 1) (adv s2 g2 n).
Proof.
  intros Hj Hct -> Hg2 Hgas2. pose proof (si_table Hsite) as Hd. unfold emits in Hd.
  rewrite (proj2 (Z.eqb_neq _ _) Hj) in Hd.
  destruct (instr_at A _ _ _ (si_index Hsite) Hd) as [_ Hd'].
  destruct (op_entry_defined r op site_defined) as (_ & _ & Hch).
  pose proof (entry_cost r b) as Hc. fold op e in Hc. destruct (si_cost Hsite).
  apply (rest_ready s2 _ _ (k + op_gas_cost e) tl ops); try done; try lia.
  - apply Hsite.
  - pose proof (si_index Hsite). lia.
  - rewrite (ct_height _ _ _ _ _ _ Hct), <- Hch. apply Hsite.
Qed.

Lemma site_doomed s2 p' :
  continues c s p op s2 p' -> p' = p + instr_size op -> gas_left s2 < R -> doomed s2 p'.
Proof.
  intros Hct -> Hlt. eapply rest_doomed; [apply (si_rest Hsite)| |exact Hlt].
  apply (ok_gas _ (li_state _ _ _ (ct_inv _ _ _ _ _ _ Hct))).
Qed.

(** The Advanced step runs the counterpart. *)
Lemma site_step :
  op <> OP_JUMPDEST ->
  Advanced.step ix t0 = Advanced.exec (counterpart f) ix t0 /\
  Advanced.instr_arg ix t0 = Ok a t0.
Proof.
  intros Hj. pose proof (si_table Hsite) as Hd. unfold emits in Hd.
  rewrite (proj2 (Z.eqb_neq _ _) Hj) in Hd. by apply (step_at A t0 ix _ _ eq_refl (si_index Hsite) Hd).
Qed.

(** ** Instructions with the same body *)

(** The next position is the one after this instruction, and either the
    Advanced interpreter takes the same step with [R] less gas, or it fails and
    less than [R] is left. *)
Definition body_match (o : option Z) s2 : Prop :=
  match o with
  | Some p' => p' = p + 1 /\
      ((exists g2, 0 <= g2 /\ gas_left s2 = g2 + R /\
          Advanced.step ix t0 = Ok (Some (ix + 1)) (adv s2 g2 n)) \/
       (gas_left s2 < R /\ exists t1, Advanced.step ix t0 = Ok None t1 /\
          broken (Advanced.base t1)))
  | None => exists t1, Advanced.step ix t0 = Ok None t1 /\ broken (Advanced.base t1)
  end.

Lemma body_step_match o s2 :
  op <> OP_JUMPDEST -> instr_size op = 1 -> is_terminator op = false ->
  body_match o s2 -> step_match o s2.
Proof.
  intros Hj Hsz Ht. destruct o as [p'|]; cbn [body_match step_match].
  - intros [-> Hor] Hct Hbi. right.
    destruct Hor as [(g2 & Hg2 & Hgas & Hst)|(Hlt & t1 & Hst & Hf)].
    + left. do 2 eexists. split; [exact Hst|]. by apply (site_advance s2 (p + 1) g2); rewrite ?Hsz.
    + right. exists t1. split; [done|]. split; [done|].
      by apply (site_doomed s2 (p + 1)); rewrite ?Hsz.
  - intros (t1 & Hst & Hf) Hen. exists t1. split; [done|]. left. split; [|done].
    apply (en_abnormal _ _ _ Hen). destruct (ends_normally op) eqn:He; [|done].
    apply ends_normally_terminator in He. congruence.
Qed.

(** [op<>] on a transparent body is the Baseline dispatch of the same body. *)
Lemma adv_op (F : InstrImpl) s1 m :
  generic_body F -> same_code (code s1) (mk_view c code_end) ->
  Advanced.op F ix (Advanced.mk_adv_state
    (seen (mk_view c code_end) (analysis_advanced A) s1) m) =
  match Baseline.invoke F p s1 with
  | Ok o s2 => Ok (match o with Some _ => Some (ix + 1) | None => None end)
      (Advanced.mk_adv_state (seen (mk_view c code_end) (analysis_advanced A) s2) m)
  | Return cc s2 => Return cc
      (Advanced.mk_adv_state (seen (mk_view c code_end) (analysis_advanced A) s2) m)
  | UB => UB
  end.
Proof.
  intros HF Hc. destruct F as [body|body|body|body]; [..|done|done];
    destruct HF as [Htr _]; destruct (Htr _ (analysis_advanced A) s1 Hc) as [He _];
    cbn [Advanced.op Baseline.invoke]; unfold mbind, M_bind, Advanced.on_base, call_body;
    cbn [Advanced.base]; rewrite He; destruct (body s1) as [x s2|x s2|]; cbn [map_outcome]; try done;
    by case_bool_decide.
Qed.

Lemma site_no_output : output_size charged = 0 /\ output_offset charged = 0.
Proof. by destruct (si_inv Hsite) as [[_ Hout _ _ _] _ _ Hoff]. Qed.

(** A failure before any output was set. *)
Lemma site_broken s2 :
  keeps charged s2 -> is_failure (status s2) ->
  broken (seen (mk_view c code_end) (analysis_advanced A) s2).
Proof.
  intros (_ & Ho & Hz) Hf. destruct site_no_output as [Hz0 Ho0].
  split; [done|]. cbn. split; congruence.
Qed.

Lemma invoke_keeps (F : InstrImpl) s1 :
  generic_body F -> same_code (code s1) (mk_view c code_end) ->
  outcome_keeps s1 (Baseline.invoke F p s1).
Proof.
  intros HF Hc. destruct F as [body|body|body|body]; [..|done|done];
    destruct HF as [Htr _]; destruct (Htr _ (analysis_advanced A) s1 Hc) as [_ Hk];
    cbn [Baseline.invoke]; unfold mbind, M_bind, call_body;
    destruct (body s1) as [x s2|x s2|]; cbn in *; try done; by case_bool_decide.
Qed.

(** Dispatching a framed body with [R] less gas. *)
Lemma invoke_framed (F : InstrImpl) s1 g1 :
  generic_body F -> startable s1 -> 0 <= g1 -> 0 <= R -> gas_left s1 = g1 + R ->
  match Baseline.invoke F p s1, Baseline.invoke F p (with_gas_left g1 s1) with
  | Ok (Some p') s2, Ok (Some _) s3 => p' = p + 1 /\
      exists g2, 0 <= g2 /\ gas_left s2 = g2 + R /\ s3 = with_gas_left g2 s2
  | Ok (Some p') s2, Ok None _ => p' = p + 1 /\ gas_left s2 < R
  | Ok None _, Ok (Some _) _ => False
  | _, _ => True
  end.
Proof.
  intros HF Hs Hg HR Hgas. destruct F as [body|body|body|body]; [..|done|done]; destruct HF as [_ [_ Hfr]];
    specialize (Hfr s1 R g1 Hs HR Hg Hgas); cbn [Baseline.invoke];
    unfold mbind, M_bind, mret, M_ret, call_body, Baseline.exit_with, modify, mbind, M_bind.
  - destruct (body s1) as [x s2|x s2|], (body (with_gas_left g1 s1)) as [y s3|y s3|]; cbn in Hfr; try done.
    destruct Hfr as [_ Hfr]. done.
  - destruct (body s1) as [x s2|x s2|], (body (with_gas_left g1 s1)) as [y s3|y s3|]; cbn in Hfr; try done;
      try (case_bool_decide; done).
    + destruct Hfr as (-> & g2 & Hg2 & Hgas2 & ->). case_bool_decide; [|done]. split; [done|]. by exists g2.
    + destruct Hfr as [Hlt Hy]. case_bool_decide; (rewrite bool_decide_eq_false_2 by done); done.
    + destruct Hfr as [Hx Hy]. by rewrite !bool_decide_eq_false_2 by done.
Qed.

Lemma site_op_safe : op_safe op (instr_impl f).
Proof. apply ops_safe, Hsite. Qed.

(** The state after the charge, with any gas, is one the bodies are safe in. *)
Lemma site_invoke_safe g1 :
  0 <= g1 <= i64_max ->
  wp (Baseline.invoke (instr_impl f) p)
    (fun o s2 =>
       match o with
       | None => is_terminator op = false -> is_failure (status s2)
       | Some _ => 0 <= gas_left s2 <= i64_max
       end)
    (fun _ _ => False) (with_gas_left g1 charged).
Proof.
  intros Hg1. destruct charged_ok as [Hok Hgas].
  destruct (si_inv Hsite) as [Hinv _ _ _].
  destruct (loop_opcode _ _ _ Hinv) as (b' & _ & Hend & Hb).
  pose proof Hinv as [Hok0 Hout (ba & Hba & Han & Hv) Hc Hst].
  assert (b' = b) as ->.
  { pose proof (si_code Hsite) as Hb'. destruct Hb as [Hb|[Hb _]]; congruence. }
  pose proof (si_requirement Hsite) as Hreq. apply requirement_success in Hreq as (_ & _ & Hl & Hn).
  eapply wp_mono; [apply site_op_safe| |done].
  - destruct Hok. constructor; cbn in *; (done || lia).
  - exact Hn.
  - exact Hl.
  - exact Hout.
  - exists ba. split; [exact Hba|]. rewrite (an_map_length _ _ Han). unfold code_ok in Hc. lia.
  - apply (instr_start_nonneg _ _ Hst).
  - exact Hend.
  - cbv beta. intros [p'|] s2 Hs2.
    { destruct Hs2 as (_ & Hok2 & _). apply (ok_gas _ Hok2). }
    destruct Hs2 as [_ Hf]. intros Ht. apply Hf.
    destruct (ends_normally op) eqn:He; [|done]. apply ends_normally_terminator in He. congruence.
Qed.

Lemma site_generic :
  generic_body (instr_impl f) -> counterpart f = X_op f -> op <> OP_JUMPDEST ->
  is_terminator op = false ->
  wp (Baseline.invoke (instr_impl f) p) body_match (fun _ _ => False) charged.
Proof.
  intros HF Hcf Hj Ht. destruct charged_ok as [Hok Hgas]. destruct (si_gas Hsite) as [Hg _].
  pose proof site_rest_cost as HR. pose proof (ok_gas _ Hok) as Hgr.
  pose proof (site_invoke_safe g ltac:(lia)) as Hw2.
  pose proof (site_invoke_safe (gas_left charged) Hgr) as Hw1. rewrite with_same_gas in Hw1.
  pose proof (invoke_framed _ charged g HF ltac:(split; [lia|apply Hok]) Hg HR Hgas) as Hfr.
  pose proof (adv_op _ (with_gas_left g charged) n HF (base_inv_same_code _ _ (si_inv Hsite))) as Hadv.
  pose proof (invoke_keeps _ (with_gas_left g charged) HF (base_inv_same_code _ _ (si_inv Hsite))) as Hkeep.
  destruct (site_step Hj) as [Hstep _]. rewrite Hcf in Hstep. cbn [Advanced.exec] in Hstep.
  unfold wp, body_match in *. unfold t0 in *. rewrite Hstep.
  unfold adv at 1 3 4. unfold BlockRun.adv. rewrite Hadv.
  destruct (Baseline.invoke _ p charged) as [[p'|] s2|? ?|]; [| |done|done];
    destruct (Baseline.invoke _ p (with_gas_left g charged)) as [[p''|] s3|? ?|]; try done.
  - destruct Hfr as (-> & g2 & Hg2 & Hgas2 & ->). split; [done|]. left. by exists g2.
  - destruct Hfr as [-> Hlt]. split; [done|]. right. split; [done|]. eexists. split; [done|].
    by apply site_broken; [|apply Hw2].
  - eexists. split; [done|]. by apply site_broken; [|apply Hw2].
Qed.

(** ** Instructions with a gas correction *)
Lemma arg_gas_number q k' : needs_gas_number op = true -> arg_ok c (push_values A) op q k' a ->
  a = arg_number k'.
Proof.
  unfold needs_gas_number. rewrite !orb_true_iff, !Z.eqb_eq. intros Hop.
  assert (exists v, op = v /\ In v [OP_GAS; OP_CALL; OP_CALLCODE; OP_DELEGATECALL; OP_STATICCALL;
    OP_CREATE; OP_CREATE2; OP_SSTORE]) as (v & Hv & Hin) by (exists op; cbn; intuition).
  rewrite Hv. clear Hop Hv. cbn in Hin. decompose [or False] Hin; subst v; by intros.
Qed.

Lemma site_correction :
  op <> OP_JUMPDEST -> needs_gas_number op = true -> Advanced.gas_correction ix t0 = Ok R t0.
Proof.
  intros Hj Hn. destruct (site_step Hj) as [_ Harg].
  pose proof (arg_gas_number p (k + op_gas_cost e) Hn (si_arg Hsite)) as Ha.
  pose proof site_rest_cost as HR. destruct (si_cost Hsite) as [Hk Hnc].
  unfold Advanced.gas_correction, mbind, M_bind. rewrite Harg, Ha.
  cbn [Advanced.arg_number_of assume_some mret M_ret get].
  unfold Advanced.on_base, int64. cbn [t0 adv BlockRun.adv Advanced.current_block_cost Advanced.base].
  replace (n - (k + op_gas_cost e)) with R by (unfold n; lia).
  rewrite in_i64_true; [done|]. pose proof (entry_cost r b) as Hc. fold op e in Hc.
  unfold n, u32_max, i64_min, i64_max in *. lia.
Qed.

Lemma site_corrected (body : Instr ivmc_status_code) :
  instr_impl f = MayFailInstrFn body -> transparent body ->
  (forall i, Advanced.exec (counterpart f) i = Advanced.with_correction body i) ->
  op <> OP_JUMPDEST -> is_terminator op = false -> needs_gas_number op = true ->
  wp (Baseline.invoke (instr_impl f) p) body_match (fun _ _ => False) charged.
Proof.
  intros HF Htr Hex Hj Ht Hn. destruct charged_ok as [Hok Hgas]. destruct (si_gas Hsite) as [Hg _].
  pose proof site_rest_cost as HR. pose proof (ok_gas _ Hok) as Hgr.
  pose proof (site_invoke_safe (gas_left charged) Hgr) as Hw. rewrite with_same_gas in Hw.
  destruct (site_step Hj) as [Hstep _]. rewrite Hex in Hstep.
  pose proof (site_correction Hj Hn) as Hcorr.
  assert (Advanced.on_base (add_gas R) t0 = Ok tt (adv charged (gas_left charged) n)) as Hadd.
  { unfold Advanced.on_base, add_gas, mbind, M_bind, get, int64, modify.
    cbn [t0 adv BlockRun.adv Advanced.base gas_left seen with_code with_analysis with_gas_left].
    rewrite in_i64_true by (unfold i64_min, i64_max in *; lia). by rewrite <- Hgas. }
  assert (adv charged (gas_left charged) n = Advanced.mk_adv_state
    (seen (mk_view c code_end) (analysis_advanced A) charged) n) as Hsame
    by (unfold adv, BlockRun.adv; by rewrite with_same_gas).
  destruct (Htr _ (analysis_advanced A) charged (base_inv_same_code _ _ (si_inv Hsite))) as [He Hkeep].
  assert (forall s2, 0 <= gas_left s2 <= i64_max ->
    Advanced.on_base (sub_gas R) (Advanced.mk_adv_state
      (seen (mk_view c code_end) (analysis_advanced A) s2) n) =
    Ok (gas_left s2 - R <? 0) (adv s2 (gas_left s2 - R) n)) as Hsub.
  { intros s2 Hs2. unfold Advanced.on_base. rewrite sub_gas_eq; [done|].
    apply in_i64_true. cbn. unfold i64_min, i64_max in *. lia. }
  unfold wp, body_match. rewrite Hstep. unfold Advanced.with_correction.
  unfold mbind, M_bind. rewrite Hcorr, Hadd, Hsame.
  assert (Advanced.on_base (call_body body) (Advanced.mk_adv_state
    (seen (mk_view c code_end) (analysis_advanced A) charged) n) =
    match body charged with
    | Ok cc s2 | Return cc s2 => Ok cc (Advanced.mk_adv_state
        (seen (mk_view c code_end) (analysis_advanced A) s2) n)
    | UB => UB
    end) as Hbody.
  { unfold Advanced.on_base, call_body. cbn [Advanced.base]. rewrite He. by destruct (body charged). }
  rewrite Hbody. unfold wp in Hw. rewrite HF in *. cbn [Baseline.invoke] in *.
  unfold mbind, M_bind, mret, M_ret, call_body, Baseline.exit_with, modify, mbind, M_bind in *.
  destruct (body charged) as [cc s2|cc s2|]; [| |done];
    (destruct (decide (cc = IVMC_SUCCESS)) as [->|Hcc];
     [rewrite bool_decide_eq_true_2 in * by done; split; [done|]; cbn [negb]; rewrite (Hsub s2 Hw);
      destruct (gas_left s2 - R <? 0) eqn:Hneg; bool_prop;
      [right; split; [lia|]; eexists; split; [apply adv_exit|apply (site_broken (with_status IVMC_OUT_OF_GAS s2)); [exact Hkeep|by split]]
      |left; exists (gas_left s2 - R); split; [lia|]; split; [lia|done]]
     |rewrite bool_decide_eq_false_2 in * by done; eexists; split; [apply adv_exit|apply (site_broken (with_status cc s2)); [exact Hkeep|exact (Hw Ht)]]]).
Qed.

(** ** Instructions that push a value *)

(** The last instruction, when it reaches the end of the code. *)
Lemma site_last s2 p' t1 :
  op <> OP_JUMPDEST -> is_terminator op = false -> p' = p + instr_size op -> code_end <= p' ->
  analysis (Advanced.base t1) = analysis_advanced A ->
  (R = 0 -> same_result s2 (Advanced.base t1)) -> ready s2 p' (ix + 1) t1.
Proof.
  intros Hj Ht -> Hend Ha Hres. right. right. pose proof (si_table Hsite) as Hd. unfold emits in Hd.
  rewrite (proj2 (Z.eqb_neq _ _) Hj) in Hd.
  destruct (instr_at A _ _ _ (si_index Hsite) Hd) as [_ Hd'].
  assert (next_pos c p op = code_end) as Hnext by (unfold next_pos; lia).
  assert (closes c op (next_pos c p op) = false) as Hcl.
  { unfold closes, is_jumpdest_at. by rewrite Ht, Hnext, nth_Z_ge by lia. }
  pose proof (si_open Hsite Hcl) as Hfo. rewrite Hnext in Hfo.
  apply follows_inv in Hfo as [(_ & Hops & i & -> & Hi)|(b' & ? & ? & ? & ? & Hb' & _)].
  2:{ apply nth_Z_Some in Hb'. lia. }
  constructor; [done|pose proof (si_index Hsite); lia|by exists i|done|].
  apply Hres. unfold R. by rewrite Hops.
Qed.

Lemma site_pushes v w p' :
  op <> OP_JUMPDEST -> is_terminator op = false -> p' = p + instr_size op ->
  Baseline.invoke (instr_impl f) p charged = (stack_push v;; mret (Some p')) charged ->
  Advanced.step ix t0 = (Advanced.on_base (stack_push w);; mret (Some (ix + 1))) t0 ->
  v = w \/ code_end <= p' ->
  wp (Baseline.invoke (instr_impl f) p) step_match (fun _ _ => False) charged.
Proof.
  intros Hj Ht Hp' Hbase Hadv Hor. destruct charged_ok as [Hok Hgas]. destruct (si_gas Hsite) as [Hg _].
  pose proof (site_invoke_safe (gas_left charged) (ok_gas _ Hok)) as Hw. rewrite with_same_gas in Hw.
  destruct (si_inv Hsite) as [[_ Hout _ _ _] _ _ Hoff].
  unfold wp in *. rewrite Hbase in *. unfold mbind, M_bind, mret, M_ret, stack_push in *.
  destruct (Stack.push (stack charged) v) as [st|] eqn:Hpush; [|done].
  assert (exists st', Stack.push (stack charged) w = Some st') as [st' Hpush'].
  { clear - Hpush. unfold Stack.push, overwrite in *. cbn [length] in *.
    destruct (_ && _); [by eexists|done]. }
  assert (v = w -> st' = st) as Hst by congruence.
  unfold Advanced.on_base, mbind, M_bind, mret, M_ret, stack_push in Hadv.
  cbn [t0 adv BlockRun.adv Advanced.base stack seen with_code with_analysis with_gas_left] in Hadv.
  rewrite Hpush' in Hadv.
  intros Hct Hbi. right. left. do 2 eexists. split; [exact Hadv|]. destruct Hor as [Hvw|Hend].
  - rewrite (Hst Hvw). exact (site_advance (with_stack st charged) p' g Hj Hct Hp' Hg Hgas).
  - apply site_last; try done. intros HR. constructor; cbn; try done. cbn in Hgas. lia.
Qed.

Lemma site_gas :
  f = I_gas -> op <> OP_JUMPDEST -> instr_size op = 1 -> is_terminator op = false ->
  needs_gas_number op = true ->
  wp (Baseline.invoke (instr_impl f) p) step_match (fun _ _ => False) charged.
Proof.
  intros Hf Hj Hsz Ht Hn. destruct (site_step Hj) as [Hstep _].
  destruct charged_ok as [Hok Hgas]. pose proof (ok_gas _ Hok) as Hgr.
  apply (site_pushes (u256_of_u64 (u64 (gas_left charged))) (u256_of_u64 (u64 (gas_left charged))) (p + 1));
    [done|done|by rewrite Hsz|by rewrite Hf| |by left].
  rewrite Hstep, Hf. cbn [counterpart Advanced.exec]. unfold Advanced.op_gas.
  unfold mbind at 1, M_bind at 1. rewrite (site_correction Hj Hn).
  unfold mbind at 1, M_bind at 1. cbn [get].
  assert (Advanced.on_base (int64 (gas_left (Advanced.base t0) + R)) t0 = Ok (gas_left charged) t0) as Hi.
  { unfold Advanced.on_base, int64. change (gas_left (Advanced.base t0)) with g. rewrite <- Hgas.
    rewrite in_i64_true; [done|]. unfold i64_min, i64_max in *. lia. }
  unfold mbind at 1, M_bind at 1. by rewrite Hi.
Qed.

Lemma site_pc :
  f = I_pc -> op = OP_PC ->
  wp (Baseline.invoke (instr_impl f) p) step_match (fun _ _ => False) charged.
Proof.
  intros Hf Hop. pose proof (si_arg Hsite) as Harg. rewrite Hop in Harg. cbn in Harg.
  assert (op <> OP_JUMPDEST) as Hj by by rewrite Hop.
  destruct (site_step Hj) as [Hstep Hia]. rewrite Harg in Hia.
  apply (site_pushes (u256_of_u64 (u64 p)) (u256_of_u64 (u64 p)) (p + 1));
    [done|by rewrite Hop|by rewrite Hop|by rewrite Hf| |by left].
  rewrite Hstep, Hf. cbn [counterpart Advanced.exec]. unfold Advanced.op_pc.
  unfold mbind at 1, M_bind at 1. by rewrite Hia.
Qed.

(** The Baseline interpreter reads the immediate data out of the padded code;
    the analysis has done it for the Advanced one. *)
Lemma site_push_value len :
  op = OP_PUSH1 + len - 1 -> 1 <= len <= 32 ->
  exists v, Baseline.invoke (CodePositionInstrFn (Instr.push len)) p charged =
      (stack_push v;; mret (Some (p + (len + 1)))) charged /\
    (p + 1 + len <= code_end -> ⟦v⟧ = push_data c p op).
Proof.
  intros Hop Hlen. pose proof (base_inv_same_code _ _ (si_inv Hsite)) as Hsame.
  destruct (si_inv Hsite) as [Hinv _ Hview _].
  destruct (loop_opcode _ _ _ Hinv) as (b' & Hb' & Hend & Hb).
  assert (b' = b) as ->.
  { pose proof (si_code Hsite) as Hb0. destruct Hb as [Hb|[Hb _]]; congruence. }
  pose proof (instr_start_nonneg _ _ (li_start _ _ _ Hinv)) as Hp.
  assert (instr_size op = len + 1) as Hsz.
  { rewrite Hop. unfold instr_size, OP_PUSH1, OP_PUSH32.
    destruct (_ && _) eqn:Hb2; [lia|]. apply andb_false_iff in Hb2. rewrite !Z.leb_gt in Hb2. lia. }
  fold op in Hend. rewrite Hsz in Hend.
  assert (slice (view_data (code charged)) (p + 1) len =
    Some (take (Z.to_nat len) (drop (Z.to_nat (p + 1)) (view_data (code s))))) as Hsl
    by (apply slice_Some; cbn; lia).
  eexists. split.
  - cbn [Baseline.invoke]. unfold Instr.push. unfold mbind at 1, M_bind at 1, asks.
    rewrite Hsl. reflexivity.
  - intros Hin. rewrite be_load_spec by (rewrite length_take; lia). unfold push_data.
    replace (op - OP_PUSH1 + 1) with len by lia.
    pose proof (same_code_slice _ _ (p + 1) len Hsame ltac:(lia) ltac:(lia) ltac:(lia)) as Hs2.
    cbn [charged code with_gas_left] in Hsl. rewrite Hsl in Hs2. cbn [view_data] in Hs2.
    rewrite slice_Some in Hs2 by lia. injection Hs2 as Hs2. rewrite <- Hs2.
    rewrite (window_within c (p + 1) len len) by lia. rewrite Z.sub_diag. cbn [Z.to_nat replicate].
    by rewrite app_nil_r.
Qed.

Lemma site_push len :
  f = I_push len -> op = OP_PUSH1 + len - 1 -> 1 <= len <= 32 ->
  op <> OP_JUMPDEST -> is_terminator op = false ->
  wp (Baseline.invoke (instr_impl f) p) step_match (fun _ _ => False) charged.
Proof.
  intros Hf Hop Hlen Hj Ht. destruct (site_push_value len Hop Hlen) as (v & Hbase & Hv).
  destruct (site_step Hj) as [Hstep Hia]. pose proof (si_arg Hsite) as Harg. unfold arg_ok in Harg.
  assert (instr_size op = len + 1) as Hsz.
  { rewrite Hop. unfold instr_size, OP_PUSH1, OP_PUSH32.
    destruct (_ && _) eqn:Hb2; [lia|]. apply andb_false_iff in Hb2. rewrite !Z.leb_gt in Hb2. lia. }
  pose proof (be_value_bound (window c (p + 1) (op - OP_PUSH1 + 1))) as Hbound.
  fold (push_data c p op) in Hbound. rewrite length_window in Hbound.
  assert (exists w, ⟦w⟧ = push_data c p op /\
    Advanced.step ix t0 = (Advanced.on_base (stack_push w);; mret (Some (ix + 1))) t0) as (w & Hw & Hadv).
  { rewrite Hstep, Hf. cbn [counterpart]. unfold is_small_push, is_large_push in Harg.
    unfold OP_PUSH1, OP_PUSH8, OP_PUSH9, OP_PUSH32 in *. destruct (len <=? 8) eqn:Hl; bool_prop.
    - rewrite (proj2 (Z.leb_le _ _)) in Harg by lia. rewrite (proj2 (Z.leb_le _ _)) in Harg by lia.
      cbn [andb] in Harg. exists (u256_of_u64 (push_data c p op)). split.
      + apply u256_of_u64_spec. pose proof (Z.pow_le_mono_r 256 (Z.of_nat (Z.to_nat (op - 96 + 1))) 8).
        change (256 ^ 8) with (2 ^ 64) in *. lia.
      + cbn [Advanced.exec]. unfold Advanced.op_push_small. unfold mbind at 1, M_bind at 1.
        by rewrite Hia, Harg.
    - rewrite (andb_false_intro2 _ (op <=? 103)) in Harg by (apply Z.leb_gt; lia).
      rewrite (proj2 (Z.leb_le _ _)) in Harg by lia. rewrite (proj2 (Z.leb_le _ _)) in Harg by lia.
      cbn [andb] in Harg. destruct Harg as (j & w & Ha & Hpv & Hw). exists w. split; [done|].
      cbn [Advanced.exec]. unfold Advanced.op_push_full. unfold mbind at 1, M_bind at 1.
      rewrite Hia, Ha. unfold mbind at 1, M_bind at 1. cbn [Advanced.arg_push_value_of assume_some mret M_ret].
      unfold mbind at 1, M_bind at 1.
      change (Advanced.advanced_analysis t0) with (Ok A t0 : outcome Advanced.AdvancedExecutionState ivmc_status_code _).
      cbv iota beta. rewrite Hpv. done. }
  apply (site_pushes v w (p + (len + 1))); [done|done|by rewrite Hsz| |exact Hadv|].
  - rewrite Hf. exact Hbase.
  - destruct (Z_le_gt_dec (p + 1 + len) code_end) as [Hle|Hgt]; [left|right; lia].
    apply u256_inj. rewrite Hw. by apply Hv.
Qed.

(** ** Instructions that end a block *)
Lemma site_jumpdest :
  f = I_jumpdest -> op = OP_JUMPDEST ->
  wp (Baseline.invoke (instr_impl f) p) step_match (fun _ _ => False) charged.
Proof.
  intros Hf Hop. rewrite Hf. cbn [instr_impl Baseline.invoke]. unfold Instr.jumpdest.
  apply wp_bind, wp_ret, wp_ret. intros Hct Hbi. left.
  destruct charged_ok as [_ Hgas]. destruct (si_gas Hsite) as [Hg _]. destruct (si_cost Hsite) as [Hk Hn].
  pose proof (si_table Hsite) as Hd. unfold emits in Hd. rewrite Hop in Hd. cbn [Z.eqb app] in Hd.
  destruct (op_entry_defined r op site_defined) as (_ & _ & Hch).
  pose proof (entry_cost r b) as Hc. fold op e in Hc.
  assert (instr_size op = 1) as Hsz by by rewrite Hop.
  apply (rest_ready charged (p + 1) ix (k + op_gas_cost e) tl ops); try done; try lia.
  - rewrite <- Hsz. apply Hsite.
  - apply Hsite.
  - rewrite (ct_height _ _ _ _ _ _ Hct), <- Hch. apply Hsite.
Qed.

(** At the end of a block nothing is left to pay. *)
Lemma site_paid :
  is_terminator op = true -> R = 0 /\ t0 = Advanced.mk_adv_state
    (seen (mk_view c code_end) (analysis_advanced A) charged) n /\
  exists tl' ops', tl = begin_block ops' :: tl' /\ follows (next_pos c p op) 0 tl' ops'.
Proof.
  intros Ht. destruct (si_closed Hsite Ht) as [Hops Hnext].
  assert (R = 0) as HR by (unfold R; by rewrite Hops).
  split; [done|]. split; [|done]. unfold t0, adv, BlockRun.adv. f_equal. f_equal.
  destruct charged_ok as [_ Hgas]. rewrite <- (with_same_gas charged) at 2. f_equal. lia.
Qed.

Lemma site_height : stack_height_required (traits op) <= height charged.
Proof.
  pose proof (si_requirement Hsite) as Hreq. by apply requirement_success in Hreq as (_ & _ & _ & Hn).
Qed.

(** The Advanced interpreter ends with the same status. *)
Lemma site_ends cc s2 :
  Advanced.step ix t0 = Ok None (Advanced.mk_adv_state (with_status cc
    (seen (mk_view c code_end) (analysis_advanced A) s2)) n) ->
  keeps charged s2 -> step_match None (with_status cc s2).
Proof.
  intros Hstep (_ & Ho & Hz) Hen. eexists. split; [exact Hstep|]. right. split; [done|].
  destruct site_no_output as [Hz0 Ho0]. constructor; cbn; congruence.
Qed.

Lemma site_stop :
  f = I_stop -> op <> OP_JUMPDEST -> is_terminator op = true ->
  wp (Baseline.invoke (instr_impl f) p) step_match (fun _ _ => False) charged.
Proof.
  intros Hf Hj Ht. destruct (site_step Hj) as [Hstep _]. destruct (site_paid Ht) as (_ & Ht0 & _).
  rewrite Hf in *. cbn [instr_impl Baseline.invoke]. apply wp_bind, wp_call, wp_ret.
  unfold Baseline.exit_with. apply wp_bind, wp_modify, wp_ret.
  apply site_ends; [|apply keeps_refl]. by rewrite Hstep, Ht0.
Qed.

Lemma site_invalid :
  f = I_invalid -> op <> OP_JUMPDEST -> is_terminator op = false ->
  wp (Baseline.invoke (instr_impl f) p) step_match (fun _ _ => False) charged.
Proof.
  intros Hf Hj Ht. destruct (site_step Hj) as [Hstep _].
  rewrite Hf in *. cbn [instr_impl Baseline.invoke]. apply wp_bind, wp_call, wp_ret.
  unfold Baseline.exit_with. apply wp_bind, wp_modify, wp_ret. intros Hen.
  rewrite Hstep. eexists. split; [apply adv_exit|]. left. split; [by split|].
  apply (site_broken (with_status IVMC_INVALID_INSTRUCTION (with_gas_left g charged))); by repeat split.
Qed.

Lemma site_selfdestruct :
  f = I_selfdestruct -> op <> OP_JUMPDEST -> is_terminator op = true ->
  stack_height_required (traits op) = 1 ->
  wp (Baseline.invoke (instr_impl f) p) step_match (fun _ _ => False) charged.
Proof.
  intros Hf Hj Ht Hneed. destruct (site_step Hj) as [Hstep _]. destruct (site_paid Ht) as (_ & Ht0 & _).
  destruct charged_ok as [Hok _].
  pose proof (site_invoke_safe (gas_left charged) (ok_gas _ Hok)) as Hw. rewrite with_same_gas in Hw.
  assert (wp Instr.selfdestruct (fun _ _ => True) (fun cc _ => is_failure cc) charged) as Hret.
  { eapply wp_mono; [apply (selfdestruct_halts charged Hok)|done|intros cc s2 Hfl; apply Hfl].
    - rewrite <- Hneed. apply site_height.
    - apply site_no_output. }
  destruct (transparent_selfdestruct _ (analysis_advanced A) charged (base_inv_same_code _ _ (si_inv Hsite)))
    as [He Hk].
  rewrite Hf in *. cbn [counterpart Advanced.exec] in Hstep. unfold Advanced.op_selfdestruct in Hstep.
  cbn [instr_impl Baseline.invoke]. unfold wp in *.
  unfold mbind, M_bind, mret, M_ret, call_body, Baseline.exit_with, modify, mbind, M_bind in *.
  rewrite Ht0 in Hstep. unfold Advanced.on_base at 1 in Hstep. cbn [Advanced.base] in Hstep.
  rewrite He in Hstep.
  destruct (Instr.selfdestruct charged) as [cc s2|cc s2|]; cbn [map_outcome] in Hstep; [| |done].
  - apply site_ends; [by rewrite Ht0, Hstep|exact Hk].
  - apply site_ends; [by rewrite Ht0, Hstep|exact Hk].
Qed.

Lemma site_return cc :
  f = I_return cc -> op <> OP_JUMPDEST -> is_terminator op = true ->
  stack_height_required (traits op) = 2 ->
  wp (Baseline.invoke (instr_impl f) p) step_match (fun _ _ => False) charged.
Proof.
  intros Hf Hj Ht Hneed. destruct (site_step Hj) as [Hstep _]. destruct (site_paid Ht) as (_ & Ht0 & _).
  destruct charged_ok as [Hok _]. pose proof (ok_stack _ Hok) as Hst.
  pose proof site_height as Hh. rewrite Hneed in Hh. unfold height in Hh.
  destruct (Stack.items (stack charged)) as [|off [|size l]] eqn:Hi; cbn [length] in Hh; [lia|lia|].
  pose proof (stack_at_spec _ 0 off Hst ltac:(by rewrite Hi)) as H0.
  pose proof (stack_at_spec _ 1 size Hst ltac:(by rewrite Hi)) as H1.
  change (Z.of_nat 0) with 0 in H0. change (Z.of_nat 1) with 1 in H1.
  assert (wp (Instr.check_memory off size) (fun _ _ => True) (fun _ _ => False) charged) as Hck
    by (apply wp_check_memory; [apply Hok|apply Hok|done|split; done]).
  destruct (transparent_check_memory off size _ (analysis_advanced A) charged
    (base_inv_same_code _ _ (si_inv Hsite))) as [He Hk].
  set (T := Advanced.mk_adv_state _ n) in Ht0.
  assert (Advanced.on_base (stack_at 0) T = Ok off T) as A0
    by (unfold Advanced.on_base, stack_at;
      cbn [T Advanced.base stack seen with_code with_analysis]; by rewrite H0).
  assert (Advanced.on_base (stack_at 1) T = Ok size T) as A1
    by (unfold Advanced.on_base, stack_at;
      cbn [T Advanced.base stack seen with_code with_analysis]; by rewrite H1).
  assert (Advanced.on_base (Instr.check_memory off size) T =
    match Instr.check_memory off size charged with
    | Ok ok s2 => Ok ok (Advanced.mk_adv_state (seen (mk_view c code_end) (analysis_advanced A) s2) n)
    | Return cc s2 => Return cc (Advanced.mk_adv_state (seen (mk_view c code_end) (analysis_advanced A) s2) n)
    | UB => UB
    end) as Ac by (unfold Advanced.on_base; cbn [T Advanced.base]; rewrite He;
      by destruct (Instr.check_memory off size charged)).
  rewrite Hf in *. cbn [counterpart Advanced.exec] in Hstep. unfold Advanced.op_return in Hstep.
  rewrite Ht0 in Hstep. unfold mbind, M_bind in Hstep. rewrite A0, A1, Ac in Hstep.
  cbn [instr_impl Baseline.invoke]. unfold Instr.return_, Instr.require_memory. unfold wp in *.
  unfold mbind, M_bind, mret, M_ret, call_body, Baseline.exit_with, modify, mbind, M_bind, stack_at in *.
  rewrite H0, H1. destruct (Instr.check_memory off size charged) as [[] s2|? ?|]; try done.
  2:{ apply site_ends; [by rewrite Ht0, Hstep|exact Hk]. }
  cbn [negb get] in Hstep. intros Hen. eexists. split; [rewrite Ht0; exact Hstep|]. right.
  split; [done|]. destruct Hk as (_ & Ho & _). destruct site_no_output as [_ Ho0].
  constructor; cbn; try done; destruct (u256_to_u64 size =? 0) eqn:Hz; bool_prop; cbn; try done.
  intros _. by rewrite Ho.
Qed.

(** ** Jumps *)
Abbreviation lift s1 := (Advanced.mk_adv_state
  (seen (mk_view c code_end) (analysis_advanced A) s1) n).

(** Where [op_jump] goes: to the block of a valid destination. *)
Lemma adv_jump s1 dst st :
  Stack.pop (stack s1) = Some (dst, st) ->
  (is_jumpdest c ⟦dst⟧ -> exists ix', Advanced.op_jump ix (lift s1) =
      Ok (Some ix') (lift (with_stack st s1)) /\
    block_at r c (push_values A) (instrs A) ⟦dst⟧ ix') /\
  (~ is_jumpdest c ⟦dst⟧ -> Advanced.op_jump ix (lift s1) =
     Ok None (lift (with_status IVMC_BAD_JUMP_DESTINATION (with_stack st s1)))).
Proof.
  intros Hpop.
  assert (Advanced.on_base stack_pop (lift s1) = Ok dst (lift (with_stack st s1))) as Hp.
  { unfold Advanced.on_base, stack_pop. cbn [Advanced.base stack seen with_code with_analysis].
    by rewrite Hpop. }
  pose proof (u256_range dst) as Hr. unfold code_small, max_instruction_base_cost, u32_max in Hsmall.
  assert (is_jumpdest c ⟦dst⟧ -> ⟦dst⟧ <= i32_max) as Hmax.
  { intros [_ Hd%nth_Z_Some]. unfold i32_max. lia. }
  unfold Advanced.op_jump, mbind, M_bind. rewrite Hp.
  rewrite u256_ltb_spec, u256_of_u64_spec by (unfold i32_max; lia).
  destruct (i32_max <? ⟦dst⟧) eqn:Hlt; bool_prop.
  { split; [intros Hj; specialize (Hmax Hj); lia|done]. }
  unfold i32_max in Hlt. rewrite (u256_to_u64_small dst) by lia.
  rewrite to_i32_small by (unfold i32_max; lia).
  change (Advanced.advanced_analysis (lift (with_stack st s1)))
    with (Ok A (lift (with_stack st s1)) : outcome Advanced.AdvancedExecutionState ivmc_status_code _).
  cbv iota beta. split; intros Hj.
  - destruct (aa_jumpdest _ _ _ Hanalysis _ Hj) as (t & -> & Ht). exists t. split; [|done].
    cbn [assume_some mret M_ret]. destruct Ht as [Ht _].
    destruct (t <? 0) eqn:?; bool_prop; [lia|done].
  - rewrite (aa_no_jumpdest _ _ _ Hanalysis _ Hj). done.
Qed.

(** The decision of the Baseline interpreter. *)
Lemma base_jump s1 dst :
  analysis s1 = analysis s ->
  (is_jumpdest c ⟦dst⟧ -> Instr.jump_impl dst s1 = Ok (Some ⟦dst⟧) s1) /\
  (~ is_jumpdest c ⟦dst⟧ ->
     Instr.jump_impl dst s1 = Ok None (with_status IVMC_BAD_JUMP_DESTINATION s1)).
Proof.
  intros Ha. destruct (si_inv Hsite) as [[_ _ (ba & Hba & Han & _) Hc _] _ _ _].
  assert (wp (Instr.jump_impl dst) (fun o s2 =>
    (is_jumpdest c ⟦dst⟧ -> o = Some ⟦dst⟧ /\ s2 = s1) /\
    (~ is_jumpdest c ⟦dst⟧ -> o = None /\ s2 = with_status IVMC_BAD_JUMP_DESTINATION s1))
    (fun _ _ => False) s1) as Hw.
  { pose proof (an_map_spec _ _ Han ⟦dst⟧) as Hspec.
    apply (wp_jump_impl ba); [by rewrite Ha|rewrite (an_map_length _ _ Han); unfold code_ok in Hc; lia|..];
      intros Hv; tauto. }
  unfold wp in Hw. destruct (Instr.jump_impl dst s1) as [o s2|? ?|]; [|done|done].
  destruct Hw as [H1 H2]. split; intros Hj; [destruct (H1 Hj) as [-> ->]|destruct (H2 Hj) as [-> ->]]; done.
Qed.

(** A jump to the block of its destination. *)
Lemma site_jumps s2 ix' dst :
  block_at r c (push_values A) (instrs A) dst ix' -> is_jumpdest c dst -> ready s2 dst ix' (lift s2).
Proof.
  intros Hb [_ Hd%nth_Z_Some]. right. left. split.
  - unfold BlockRun.clip. by rewrite Z.min_l by lia.
  - exists n. unfold adv, BlockRun.adv. by rewrite with_same_gas.
Qed.

(** The two topmost items. *)
Lemma site_items x l :
  Stack.items (stack charged) = x :: l ->
  exists st, Stack.pop (stack charged) = Some (x, st) /\ Stack.items st = l /\ Stack.wf st.
Proof. destruct charged_ok as [Hok _]. apply stack_pop_spec, Hok. Qed.

Lemma jumpdest_dec dst : is_jumpdest c dst \/ ~ is_jumpdest c dst.
Proof.
  destruct (si_inv Hsite) as [[_ _ (ba & _ & Han & _) _ _] _ _ _].
  pose proof (an_map_spec _ _ Han dst) as Hspec.
  destruct (nth_Z (jumpdest_map ba) dst) as [[]|]; [left|right|right]; try intros ?%Hspec; try done.
  by apply Hspec.
Qed.

Lemma site_jump :
  f = I_jump -> op <> OP_JUMPDEST -> is_terminator op = true ->
  stack_height_required (traits op) = 1 ->
  wp (Baseline.invoke (instr_impl f) p) step_match (fun _ _ => False) charged.
Proof.
  intros Hf Hj Ht Hneed. destruct (site_step Hj) as [Hstep _]. destruct (site_paid Ht) as (_ & Ht0 & _).
  pose proof site_height as Hh. rewrite Hneed in Hh. unfold height in Hh.
  destruct (Stack.items (stack charged)) as [|dst l] eqn:Hi; cbn [length] in Hh; [lia|].
  destruct (site_items _ _ Hi) as (st & Hpop & _).
  rewrite Hf in *. cbn [instr_impl Baseline.invoke counterpart Advanced.exec] in *.
  destruct (adv_jump charged dst st Hpop) as [Hadv Hbad].
  destruct (base_jump (with_stack st charged) dst eq_refl) as [Hgo Hno].
  unfold wp, Instr.jump, mbind, M_bind, stack_pop. rewrite Hpop. rewrite Ht0 in Hstep.
  destruct (jumpdest_dec ⟦dst⟧) as [Hd|Hd].
  - rewrite (Hgo Hd). destruct (Hadv Hd) as (ix' & Hjump & Hblock). intros Hct Hbi. right. left.
    do 2 eexists. split; [rewrite Ht0, Hstep; exact Hjump|]. by apply site_jumps.
  - rewrite (Hno Hd). apply site_ends; [|by repeat split].
    rewrite Ht0, Hstep. by rewrite (Hbad Hd).
Qed.

Lemma site_jumpi :
  f = I_jumpi -> op <> OP_JUMPDEST -> is_terminator op = true -> instr_size op = 1 ->
  stack_height_required (traits op) = 2 ->
  wp (Baseline.invoke (instr_impl f) p) step_match (fun _ _ => False) charged.
Proof.
  intros Hf Hj Ht Hsz Hneed. destruct (site_step Hj) as [Hstep _].
  destruct (site_paid Ht) as (HR & Ht0 & _).
  pose proof site_height as Hh. rewrite Hneed in Hh. unfold height in Hh.
  destruct (Stack.items (stack charged)) as [|dst [|cond l]] eqn:Hi; cbn [length] in Hh; [lia|lia|].
  destruct (site_items _ _ Hi) as (st & Hpop & Hi1 & Hwf1).
  destruct (stack_pop_spec st cond l Hwf1 Hi1) as (st2 & Hpop2 & _ & _).
  destruct charged_ok as [Hok Hgas]. rewrite HR, Z.add_0_r in Hgas. destruct (si_gas Hsite) as [Hg _].
  pose proof (stack_at_spec _ 1 cond (ok_stack _ Hok) ltac:(by rewrite Hi)) as H1.
  change (Z.of_nat 1) with 1 in H1.
  rewrite Hf in *. cbn [instr_impl Baseline.invoke counterpart Advanced.exec] in *.
  destruct (adv_jump charged dst st Hpop) as [Hadv Hbad].
  destruct (base_jump (with_stack st2 (with_stack st charged)) dst eq_refl) as [Hgo Hno].
  unfold wp, Instr.jumpi, mbind, M_bind, stack_pop at 1 2. rewrite Hpop.
  cbn [stack with_stack]. rewrite Hpop2. rewrite u256_to_bool_spec.
  assert (Advanced.on_base (stack_at 1) (lift charged) = Ok cond (lift charged)) as A1
    by (unfold Advanced.on_base, stack_at;
      cbn [Advanced.base stack seen with_code with_analysis]; by rewrite H1).
  assert (forall s1, stack s1 = st -> Advanced.on_base stack_pop (lift s1) =
    Ok cond (lift (with_stack st2 s1))) as A2.
  { intros s1 Hs1. unfold Advanced.on_base, stack_pop.
    cbn [Advanced.base stack seen with_code with_analysis]. by rewrite Hs1, Hpop2. }
  rewrite Ht0 in Hstep. unfold Advanced.op_jumpi, mbind, M_bind in Hstep. rewrite A1 in Hstep.
  unfold Instr.u256_0 in Hstep. rewrite u256_eqb_spec, u256_of_u64_spec in Hstep by lia.
  destruct (⟦cond⟧ =? 0) eqn:Hz; cbn [negb] in *; cbv iota.
  - assert (Advanced.on_base stack_pop (lift charged) = Ok dst (lift (with_stack st charged))) as A0.
    { unfold Advanced.on_base, stack_pop. cbn [Advanced.base stack seen with_code with_analysis].
      by rewrite Hpop. }
    rewrite A0 in Hstep. cbn [mret M_ret] in Hstep. rewrite A2 in Hstep by done.
    intros Hct Hbi. right. left. do 2 eexists. split; [rewrite Ht0; exact Hstep|].
    set (s2 := with_stack st2 (with_stack st charged)) in *.
    assert (gas_left s2 = gas_left charged) as Hg2 by done.
    pose proof (site_advance s2 (p + 1) (gas_left s2) Hj Hct) as Hadvance. rewrite Hsz in Hadvance.
    specialize (Hadvance eq_refl ltac:(lia) ltac:(lia)).
    unfold adv, BlockRun.adv in Hadvance. by rewrite with_same_gas in Hadvance.
  - destruct (jumpdest_dec ⟦dst⟧) as [Hd|Hd].
    + rewrite (Hgo Hd). destruct (Hadv Hd) as (ix' & Hjump & Hblock). rewrite Hjump in Hstep.
      rewrite A2 in Hstep by done. intros Hct Hbi. right. left.
      do 2 eexists. split; [rewrite Ht0; exact Hstep|]. by apply site_jumps.
    + rewrite (Hno Hd). rewrite (Hbad Hd) in Hstep. rewrite A2 in Hstep by done.
      intros Hen. eexists. split; [rewrite Ht0; exact Hstep|]. left. split; [by split|].
      apply (site_broken (with_stack st2 (with_status IVMC_BAD_JUMP_DESTINATION
        (with_stack st charged)))); by repeat split.
Qed.

(** Every instruction is matched. *)
Lemma site_match :
  wp (Baseline.invoke (instr_impl f) p) step_match (fun _ _ => False) charged.
Proof.
  destruct site_counterpart as [_ Hshape]. unfold shape_ok in Hshape.
  assert (op <> OP_JUMPDEST -> is_terminator op = false -> instr_size op = 1 ->
    wp (Baseline.invoke (instr_impl f) p) body_match (fun _ _ => False) charged ->
    wp (Baseline.invoke (instr_impl f) p) step_match (fun _ _ => False) charged) as Hbody.
  { intros ? ? ? Hw. eapply wp_mono; [exact Hw| |done]. intros o s2. by apply body_step_match. }
  assert (op <> OP_JUMPDEST -> is_terminator op = false -> instr_size op = 1 ->
    counterpart f = X_op f ->
    wp (Baseline.invoke (instr_impl f) p) step_match (fun _ _ => False) charged) as Hgen.
  { intros Hj Ht Hsz Hc. apply Hbody; [done..|]. apply site_generic; [|done..].
    by apply (generic_bodies f f). }
  assert (exists f', f = f') as [f' Hf] by by exists f. rewrite Hf in Hshape.
  destruct f'; bool_prop; try (apply Hgen; (done || by rewrite Hf)).
  - by apply site_stop.
  - apply Hbody; [done..|].
    by apply (site_corrected Instr.sstore); rewrite ?Hf; try apply transparent_sstore.
  - by apply site_jump.
  - by apply site_jumpi.
  - by apply site_pc.
  - by apply site_gas.
  - by apply site_jumpdest.
  - apply (site_push len); try done; lia.
  - apply Hbody; [done..|].
    by apply (site_corrected (Calls.create kind)); rewrite ?Hf; try apply transparent_create.
  - apply Hbody; [done..|].
    by apply (site_corrected (Calls.call kind static)); rewrite ?Hf; try apply transparent_call.
  - by apply (site_return status).
  - by apply site_invalid.
  - by apply site_selfdestruct.
Qed.
End Step.
End Pairing.
