(* ===== verification/AdvancedRun.v ===== *)
(** * The two interpreters agree

    The Advanced interpreter, with its analysis, its tables and its basic
    blocks, computes what the Baseline interpreter computes: the same status,
    gas, output and host when the execution succeeds or reverts, and a failure
    exactly when the other fails. *)
From stdpp Require Import base list tactics option.
From S2P Require Import Prelude Intx Ivmc Mock Code ExecutionState Instructions InstructionsCalls.
From S2P Require Import Traits Dispatch Hoare MemoryRequirements Safety SafetyControl Frame GasFrame.
From S2P Require Import Baseline BaselineAnalysis BaselineSafety BaselineRun Samples.
From S2P Require Import Analysis BlockSpec AnalysisSpec Counterpart Advanced BlockRun Pairing.

Section Simulation.
Context {E : Env} {ES : EnvSpec E}.
Context (r : ivmc_revision) (c : list byte) (A : AdvancedCodeAnalysis).
Hypothesis Hsmall : code_small c.
Hypothesis Hanalysis : advanced_analysis_of r c A.
Implicit Types s : ExecutionState.
Implicit Types t : Advanced.AdvancedExecutionState.

Abbreviation table := (get_baseline_instruction_table r).
Abbreviation code_end := (Z.of_nat (length c)).

(** The two interpreters after one Baseline step. *)
Definition one_step (ix : Z) t (o : option Z) s2 : Prop :=
  match o with
  | Some p' => base_inv r c s2 p' /\
      (ready r c A s2 p' ix t \/
       (exists ix' t1, Advanced.step ix t = Ok (Some ix') t1 /\ ready r c A s2 p' ix' t1) \/
       (exists t1, Advanced.step ix t = Ok None t1 /\ broken (Advanced.base t1) /\
          doomed r c A s2 p'))
  | None => exists t1, Advanced.step ix t = Ok None t1 /\ agree s2 (Advanced.base t1)
  end.

Lemma base_inv_next s p b s2 p' :
  base_inv r c s p -> continues c s p b s2 p' -> base_inv r c s2 p'.
Proof.
  intros [Hl Hr Hv Ho] Hct. destruct (ct_frame _ _ _ _ _ _ Hct) as [_ Hr2 Hc2 _].
  destruct (ct_output _ _ _ _ _ _ Hct) as (_ & Ho2 & _).
  constructor; [apply Hct|congruence|by rewrite Hc2|congruence].
Qed.

Lemma jumpdest_defined : gas_costs r OP_JUMPDEST <> undefined.
Proof. destruct r; vm_compute; discriminate. Qed.

(** An undefined opcode ends both executions. *)
Lemma mid_undefined s p ix t k ops g b x a tl s2 :
  base_inv r c s p -> mid r c A s p ix t k (emits (byte_to_Z b) x a ++ tl) ops g ->
  gas_costs r (byte_to_Z b) = undefined -> op_fn (op_entry r (byte_to_Z b)) = Some x ->
  ends s (byte_to_Z b) s2 -> one_step ix t None s2.
Proof.
  set (op := byte_to_Z b). intros Hinv [Hix Hd _ _ _ _ ->] Hu Hx Hen.
  assert (op <> OP_JUMPDEST) as Hj by (intros Hj; rewrite Hj in Hu; by apply jumpdest_defined).
  rewrite (undefined_entry r op Hu) in Hx. injection Hx as <-.
  unfold emits in Hd. rewrite (proj2 (Z.eqb_neq _ _) Hj) in Hd.
  destruct (step_at A (adv c A s g (k + block_cost ops)) ix _ _ eq_refl Hix Hd) as [Hstep _].
  eexists. split; [rewrite Hstep; apply adv_exit|]. left. split; [|split; [by split|]].
  - apply (en_requirement _ _ _ Hen). rewrite (bi_rev _ _ _ _ Hinv). unfold requirement_status.
    by rewrite (proj2 (Z.eqb_eq _ _) Hu).
  - split; [apply (li_output _ _ _ (bi_loop _ _ _ _ Hinv))|apply (bi_offset _ _ _ _ Hinv)].
Qed.

(** What the table says behind an instruction: the block goes on, or ends. *)
Definition continuation (p k : Z) (op : Z) (tl : list instruction) (ops : list op_table_entry) : Prop :=
  let k' := k + op_gas_cost (op_entry r op) in
  (closes c op (next_pos c p op) = false /\ follows r c (push_values A) (next_pos c p op) k' tl ops) \/
  (closes c op (next_pos c p op) = true /\ ops = [] /\ exists tl' ops',
     tl = begin_block ops' :: tl' /\ follows r c (push_values A) (next_pos c p op) 0 tl' ops').

Lemma continuation_cost p k b tl ops :
  0 <= p -> nth_Z c p = Some b -> continuation p k (byte_to_Z b) tl ops -> 0 <= block_cost ops.
Proof.
  intros Hp Hb [(_ & Hfo)|(_ & -> & _)]; [|done]. pose proof (nth_Z_Some _ _ _ Hb).
  pose proof (instr_size_bound (byte_to_Z b)).
  apply (follows_cost r c A) in Hfo; [lia|unfold next_pos; lia].
Qed.

(** An instruction in the middle of a block is a site. *)
Lemma mid_site s p ix t k ops g b f a tl :
  let op := byte_to_Z b in
  base_inv r c s p -> nth_Z c p = Some b ->
  mid r c A s p ix t k (emits op (counterpart f) a ++ tl) (op_entry r op :: ops) g ->
  requirement_status r op (gas_left s) (height s) = IVMC_SUCCESS -> op2fn op = Some f ->
  arg_ok c (push_values A) op p (k + op_gas_cost (op_entry r op)) a ->
  continuation p k op tl ops ->
  site r c A s p ix k g b f a tl ops /\ t = t0 r c A s k g b ops.
Proof.
  intros op Hinv Hb [Hix Hd _ Hst [Hg Hgas] [Hk Hn] ->] Hreq Hf Ha Hnext.
  rewrite block_cost_cons in *. cbn [stack_enters] in Hst. split.
  - pose proof (proj1 (requirement_success _ _ _ _) Hreq) as (Hu & _).
    constructor; fold op; try done.
    + destruct Hnext as [(_ & Hfo)|(_ & -> & Hfo)]; [by left|by right].
    + intros Hcl. destruct Hnext as [(_ & Hfo)|(Hcl' & _)]; [done|congruence].
    + intros Ht. destruct Hnext as [(Hcl & _)|(_ & -> & Hfo)]; [|done].
      by rewrite terminator_closes in Hcl.
    + apply Hst.
    + lia.
    + lia.
  - rewrite Z.add_assoc. done.
Qed.

(** A step in the middle of a block. *)
Lemma mid_step s p ix t k tbl ops g :
  base_inv r c s p -> mid r c A s p ix t k tbl ops g -> p < code_end ->
  wp (Baseline.step table p) (one_step ix t) (fun _ _ => False) s.
Proof.
  intros Hinv Hmid Hp. pose proof (bi_loop _ _ _ _ Hinv) as Hl. pose proof (bi_rev _ _ _ _ Hinv) as Hr.
  pose proof (instr_start_nonneg _ _ (li_start _ _ _ Hl)) as Hp0.
  pose proof (mi_follows _ _ _ _ _ _ _ _ _ _ _ Hmid) as Hfo.
  apply follows_inv in Hfo as [(Hq & _)|(b & x & a & tl & ops' & Hb & Hrest)];
    [unfold clip in Hq; lia|]. unfold clip in *. rewrite Z.min_l in Hb, Hrest by lia.
  cbv zeta in Hrest. set (op := byte_to_Z b) in *.
  destruct Hrest as (Hx & Ha & -> & -> & Hnext). fold (continuation p k op tl ops') in Hnext.
  destruct (step_spec _ _ _ Hl) as (b' & Hview & Hcb & Hstep).
  assert (b' = b) as -> by (destruct Hcb as [Hb'|[Hb' _]]; congruence). fold op in Hstep.
  rewrite Hr in Hstep.
  assert (wp (Baseline.step table p) (fun o s2 =>
    match o with
    | Some p' => continues c s p op s2 p' -> base_inv r c s2 p' -> one_step ix t (Some p') s2
    | None => ends s op s2 -> one_step ix t None s2
    end) (fun _ _ => False) s) as Hmatch.
  2:{ eapply wp_mono; [exact (wp_conj _ _ _ _ _ _ Hstep Hmatch)| |by intros ? ? [? ?]].
      intros [p'|] s2 [Hst Hm]; cbn [step_post] in *; [|by apply Hm].
      apply Hm; [done|]. by eapply base_inv_next. }
  clear Hstep. rewrite <- Hr at 1. eapply step_requirement; [done|exact Hview|..];
    cbv zeta; fold op; rewrite Hr; [intros Hreq|intros f Hreq Hf].
  - intros Hen. eapply mid_undefined; [exact Hinv|exact Hmid| |exact Hx|exact Hen].
    destruct (decide (gas_costs r op = undefined)) as [Hu|Hu]; [done|]. destruct Hreq.
    pose proof (mi_stack _ _ _ _ _ _ _ _ _ _ _ Hmid) as (Hsr & Hsl & _).
    pose proof (mi_gas _ _ _ _ _ _ _ _ _ _ _ Hmid) as [Hg Hgas]. rewrite block_cost_cons in Hgas.
    pose proof (continuation_cost p k b tl ops' Hp0 Hb Hnext).
    apply entry_requirement; fold op; (done || lia).
  - pose proof (proj1 (requirement_success _ _ _ _) Hreq) as (Hu & _).
    destruct (op_entry_defined r op Hu) as (Hgc & _). rewrite <- Hgc.
    assert (op_fn (op_entry r op) = Some (counterpart f)) as Hcf by (by apply counterpart_entry).
    rewrite Hx in Hcf. injection Hcf as ->.
    destruct (mid_site s p ix t k ops' g b f a tl) as [Hsite Ht]; [done..|].
    pose proof (site_match r c A Hsmall Hanalysis s p ix k g b f a tl ops' Hsite) as Hw.
    eapply wp_mono; [exact Hw| |done]. intros [p'|] s2 Hm; cbn [step_match] in Hm; rewrite Ht.
    + intros Hct Hbi. split; [done|]. by apply Hm.
    + exact Hm.
Qed.

(** The STOP at the end of both codes. *)
Lemma end_step s p ix t :
  base_inv r c s p -> at_end c A s p ix t ->
  wp (Baseline.step table p) (fun o s2 => o = None /\ one_step ix t None s2) (fun _ _ => False) s.
Proof.
  intros Hinv [Hp Hix (i & Hd & Hi) Ha Hres].
  pose proof (bi_loop _ _ _ _ Hinv) as Hl. pose proof (bi_rev _ _ _ _ Hinv) as Hr.
  destruct (loop_opcode _ _ _ Hl) as (b & Hview & _ & [Hb|[_ Hb]]).
  { apply nth_Z_Some in Hb. lia. }
  pose proof (li_state _ _ _ Hl) as Hok. pose proof (stack_items_length_le _ (ok_stack _ Hok)).
  assert (gas_costs r OP_STOP = 0) as Hc by (by destruct r).
  destruct (step_at A t ix _ _ Ha Hix Hd) as [Hstep _]. rewrite Hi in Hstep.
  rewrite <- Hr at 1. eapply step_requirement; [done|exact Hview|..];
    cbv zeta; rewrite Hb, Hr; [intros Hreq|intros f _ Hf].
  - destruct Hreq. apply requirement_success. rewrite Hc.
    change (stack_height_change (traits OP_STOP)) with 0.
    change (stack_height_required (traits OP_STOP)) with 0.
    pose proof (ok_gas _ Hok). unfold height, Stack.limit. split; [done|]. lia.
  - vm_compute in Hf. injection Hf as <-. rewrite Hc, Z.sub_0_r, with_same_gas.
    cbn [instr_impl Baseline.invoke]. apply wp_bind, wp_call, wp_ret.
    unfold Baseline.exit_with. apply wp_bind, wp_modify, wp_ret. split; [done|].
    eexists. split; [exact Hstep|]. right. split; [done|].
    destruct Hres. by constructor.
Qed.

(** Past the end of the code nothing is left of the block. *)
Lemma mid_at_end s p ix t k tbl ops g :
  base_inv r c s p -> mid r c A s p ix t k tbl ops g -> code_end <= p -> at_end c A s p ix t.
Proof.
  intros Hinv Hmid Hp.
  pose proof (mi_follows _ _ _ _ _ _ _ _ _ _ _ Hmid) as Hfo. unfold clip in Hfo.
  rewrite Z.min_r in Hfo by lia.
  apply follows_inv in Hfo as [(_ & Hops & i & Htbl & Hi)|(b & ? & ? & ? & ? & Hb & _)].
  2:{ apply nth_Z_Some in Hb. lia. }
  pose proof (mi_gas _ _ _ _ _ _ _ _ _ _ _ Hmid) as [_ Hgas].
  pose proof (mi_state _ _ _ _ _ _ _ _ _ _ _ Hmid) as ->. rewrite Hops in *.
  change (block_cost []) with 0 in *.
  pose proof (li_output _ _ _ (bi_loop _ _ _ _ Hinv)). pose proof (bi_offset _ _ _ _ Hinv).
  constructor; [done|by apply Hmid| |done|].
  - exists i. split; [|done]. rewrite <- Htbl. by apply Hmid.
  - constructor; cbn; (done || lia).
Qed.

(** The start of a block: the Advanced interpreter enters it, or the
    execution is doomed. *)
Lemma begin_step s p ix t :
  base_inv r c s p -> begins r c A s p ix t ->
  (exists t1 k tbl ops g, Advanced.step ix t = Ok (Some (ix + 1)) t1 /\
     mid r c A s p (ix + 1) t1 k tbl ops g) \/
  (exists t1, Advanced.step ix t = Ok None t1 /\ broken (Advanced.base t1) /\
     doomed r c A s p).
Proof.
  intros Hinv [(Hix & tl & ops & Hd & Hfo) [n ->]].
  pose proof (bi_loop _ _ _ _ Hinv) as Hl. pose proof (li_state _ _ _ Hl) as Hok.
  pose proof (instr_start_nonneg _ _ (li_start _ _ _ Hl)) as Hp0.
  pose proof (follows_cost r c A _ _ _ _ Hfo ltac:(unfold clip; lia)) as Hcost.
  unfold code_small, max_instruction_base_cost in *.
  assert (0 <= block_cost ops <= u32_max) as Hc by (unfold clip in Hcost; lia).
  destruct (begin_block_step c A s ix n ops tl Hok (li_output _ _ _ Hl) (bi_offset _ _ _ _ Hinv) Hix Hd Hc) as [[Hen Hstep]|[Hen (t1 & Hstep & Hf)]].
  - left. destruct Hen as [Hgas Hstack]. do 5 eexists. split; [exact Hstep|].
    destruct (instr_at A _ _ _ Hix Hd) as [_ Hd'].
    apply (Build_mid _ _ _ _ _ _ _ 0 tl ops (gas_left s - block_cost ops)); try done; try lia.
  - right. exists t1. split; [done|]. split; [done|]. by exists 0, tl, ops.
Qed.

(** ** Runs *)
Definition finishes (fuel : nat) (ix : Z) t s' : Prop :=
  exists t', Advanced.run fuel ix t = Advanced.Finished t' /\ agree s' (Advanced.base t').

Lemma run_more fuel fuel' ix t t' :
  Advanced.run fuel ix t = Advanced.Finished t' -> (fuel <= fuel')%nat ->
  Advanced.run fuel' ix t = Advanced.Finished t'.
Proof.
  revert fuel' ix t. induction fuel as [|fuel IH]; intros fuel' ix t Hrun Hle; [done|].
  destruct fuel' as [|fuel']; [lia|]. cbn [Advanced.run] in *.
  destruct (Advanced.step ix t) as [[ix'|] t1|? ?|]; try done. apply IH; [done|lia].
Qed.

Lemma finishes_more fuel fuel' ix t s' :
  finishes fuel ix t s' -> (fuel <= fuel')%nat -> finishes fuel' ix t s'.
Proof. intros (t' & Hrun & Ha) Hle. exists t'. split; [by eapply run_more|done]. Qed.

Lemma finishes_step fuel ix t ix' t1 s' :
  Advanced.step ix t = Ok (Some ix') t1 -> finishes fuel ix' t1 s' -> finishes (S fuel) ix t s'.
Proof. intros Hstep (t' & Hrun & Ha). exists t'. cbn [Advanced.run]. by rewrite Hstep. Qed.

Lemma finishes_now fuel ix t t1 s' :
  Advanced.step ix t = Ok None t1 -> agree s' (Advanced.base t1) -> finishes (S fuel) ix t s'.
Proof. intros Hstep Ha. exists t1. cbn [Advanced.run]. by rewrite Hstep. Qed.

(** Whatever the Baseline interpreter does, the Advanced one does. *)
Lemma simulation fuel s p tr s' tr' ix t :
  base_inv r c s p -> ready r c A s p ix t ->
  Baseline.run false fuel table p s tr = Baseline.Finished s' tr' ->
  finishes (2 * fuel + 1) ix t s'.
Proof.
  revert s p tr ix t. induction fuel as [|fuel IH]; intros s p tr ix t Hinv Hready Hrun; [done|].
  assert (forall s2 p2 t1, base_inv r c s2 p2 -> doomed r c A s2 p2 -> forall fu tr2,
    Baseline.run false fu table p2 s2 tr2 = Baseline.Finished s' tr' ->
    broken (Advanced.base t1) -> agree s' (Advanced.base t1)) as Hdoom.
  { intros s2 p2 t1 Hbi Hd fu tr2 Hr2 Hf. left. split; [|done].
    by eapply (doomed_fails r c A); [apply Hbi|apply Hbi|exact Hd|exact Hr2]. }
  assert (forall ix t, at_end c A s p ix t -> finishes (2 * S fuel) ix t s') as Hend.
  { clear ix t Hready. intros ix t Hae. pose proof (end_step _ _ _ _ Hinv Hae) as Hw.
    cbn [Baseline.run] in Hrun. unfold wp in Hw.
    destruct (Baseline.step table p s) as [o s2|? ?|]; [|done|done]. destruct Hw as [-> (t1 & Hst & Ha)].
    injection Hrun as <- _. by apply (finishes_now _ _ _ t1). }
  assert (forall ix t k tbl ops g, mid r c A s p ix t k tbl ops g -> finishes (2 * S fuel) ix t s') as Hmid.
  { clear ix t Hready. intros ix t k tbl ops g Hm. destruct (Z_lt_ge_dec p code_end) as [Hp|Hp].
    2:{ apply Hend. eapply mid_at_end; [done|exact Hm|lia]. }
    pose proof (mid_step _ _ _ _ _ _ _ _ Hinv Hm Hp) as Hw. cbn [Baseline.run] in Hrun. unfold wp in Hw.
    destruct (Baseline.step table p s) as [[p'|] s2|? ?|]; [| |done|done]; cbn [one_step] in Hw.
    - destruct Hw as [Hbi [Hrd|[(ix' & t1 & Hst & Hrd)|(t1 & Hst & Hf & Hd)]]].
      + eapply finishes_more; [by eapply IH|lia].
      + replace (2 * S fuel)%nat with (S (2 * fuel + 1)) by lia.
        eapply finishes_step; [exact Hst|by eapply IH].
      + apply (finishes_now _ _ _ t1); [done|]. by eapply Hdoom.
    - destruct Hw as (t1 & Hst & Ha). injection Hrun as <- _. by apply (finishes_now _ _ _ t1). }
  destruct Hready as [(k & tbl & ops & g & Hm)|[Hb|Hae]].
  - eapply finishes_more; [by eapply Hmid|lia].
  - replace (2 * S fuel + 1)%nat with (S (2 * S fuel)) by lia.
    destruct (begin_step _ _ _ _ Hinv Hb) as [(t1 & k & tbl & ops & g & Hst & Hm)|(t1 & Hst & Hf & Hd)].
    + eapply finishes_step; [exact Hst|by eapply Hmid].
    + apply (finishes_now _ _ _ t1); [done|]. by eapply Hdoom.
  - eapply finishes_more; [by apply Hend|lia].
Qed.
End Simulation.

(** ** The entry points *)
Section Execute.
Context {E : Env} {ES : EnvSpec E}.

(** The results of the two interpreters: both failures, which give back no gas
    and no output, or the same result. *)
Definition same_outcome (res : ivmc_result) (s : ExecutionState) (res' : ivmc_result)
    (t : Advanced.AdvancedExecutionState) : Prop :=
  (is_failure (res_status_code res) /\ is_failure (res_status_code res') /\
   res_gas_left res' = 0 /\ res_output_data res' = []) \/
  (res' = res /\ host (Advanced.base t) = host s).

Lemma read_nothing m : Memory.read m 0 0 = Some [].
Proof. unfold Memory.read. rewrite slice_Some by lia. done. Qed.

Lemma exit_results_agree s t res :
  agree s (Advanced.base t) -> Baseline.exit_result s = Some res ->
  exists res', Advanced.exit_result (Advanced.base t) = Some res' /\ same_outcome res s res' t.
Proof.
  intros [[Hf (Hb & Hz & Ho)]|[Hst [Hg Hh Hm Hz Ho Hno]]] Hres;
    unfold Advanced.exit_result, Baseline.exit_result in *.
  - rewrite Hz, Ho, read_nothing. eexists. split; [reflexivity|]. left.
    destruct (if negb _ then _ else _) as [d|]; [|done]. injection Hres as <-. cbn.
    split; [done|]. split; [done|]. split; [|done]. unfold Baseline.final_gas.
    destruct Hb. by rewrite !bool_decide_eq_false_2 by done.
  - rewrite Hm, Hz. unfold Baseline.final_gas in *. rewrite Hst, Hg.
    destruct (output_size s =? 0) eqn:Hzero; bool_prop; cbn [negb] in Hres.
    + rewrite (Hno Hzero), Hzero, read_nothing. eexists. split; [reflexivity|]. right.
      injection Hres as <-. done.
    + rewrite (Ho Hzero). destruct (Memory.read _ _ _) as [d|]; [|done].
      eexists. split; [reflexivity|]. right. injection Hres as <-. done.
Qed.

(** With enough fuel both entry points return, and agree. *)
Lemma execute_agree fuel fuel' h r m c :
  client_ok m c -> code_small c ->
  (enough_fuel m c <= fuel)%nat -> (2 * fuel + 1 <= fuel')%nat ->
  exists res s res' t,
    Baseline.execute false fuel h r m c = Baseline.Executed res s [] /\
    Advanced.execute fuel' h r m c = Advanced.Executed res' t /\
    result_of_stop (new_state m r h c) s res /\ same_outcome res s res' t.
Proof.
  intros Hok Hsmall Hfuel Hfuel'. unfold Baseline.execute, Advanced.execute.
  destruct (analyze_spec c) as (a & -> & Ha). unfold Baseline.execute_with. cbv zeta.
  destruct (analyze_total r c) as (A & -> & HA).
  { unfold code_small, max_instruction_base_cost, u32_max in Hsmall. lia. }
  pose proof (start_inv h r _ _ _ Hok Ha) as Hinv.
  destruct (run_spec false fuel c _ 0 [] Hinv) as (s' & tr & Hst & Hrun).
  { unfold measure, enough_fuel in *. cbn [gas_left with_code with_analysis new_state
      Baseline.start_state]. pose proof (co_gas _ _ Hok). nia. }
  set (s0 := Baseline.start_state (new_state m r h c) a) in *.
  pose proof (run_tracing fuel (get_baseline_instruction_table r) 0 s0 [] []) as Htr.
  change (rev s0) with r in *. rewrite Hrun in *.
  destruct (Baseline.run true fuel _ _ _ _) in Htr; try done. destruct Htr as [_ ->].
  destruct (exit_result_spec _ _ Hst) as (res & Hres & Hstop); [apply (ok_gas _ (li_state _ _ _ Hinv))|].
  rewrite Hres. unfold Advanced.execute_with. cbv zeta.
  set (t := Advanced.mk_adv_state _ _).
  assert (base_inv r c s0 0) as Hbase by by constructor.
  assert (ready r c A s0 0 0 t) as Hready.
  { right. left. split; [|exists 0].
    - unfold clip. rewrite Z.min_l by lia. apply HA.
    - done. }
  pose proof (simulation r c A Hsmall HA fuel s0 0 [] s' [] 0 t Hbase Hready Hrun) as Hfin.
  destruct (finishes_more _ fuel' _ _ _ Hfin Hfuel') as (t' & Hrun' & Hagree). rewrite Hrun'.
  destruct (exit_results_agree _ _ _ Hagree Hres) as (res' & -> & Hsame).
  exists res, s', res', t'. split; [done|]. split; [done|]. split; [|done].
  destruct Hstop. by constructor.
Qed.

(** C1: The Advanced interpreter computes what the Baseline interpreter
    computes: for every message and every code within [code_small] (134217
    bytes, so that block costs fit in 32 bits), in every revision, both return within the fuel shown, and either both
    fail, giving back no gas and no output, or both return the same result
    (status, gas left and output) with the host in the same state. *)
Theorem interpreters_agree fuel fuel' h r m c :
  client_ok m c -> code_small c ->
  (enough_fuel m c <= fuel)%nat -> (2 * fuel + 1 <= fuel')%nat ->
  exists res s res' t,
    Baseline.execute false fuel h r m c = Baseline.Executed res s [] /\
    Advanced.execute fuel' h r m c = Advanced.Executed res' t /\
    same_outcome res s res' t.
Proof.
  intros Hok Hsmall Hf Hf'.
  destruct (execute_agree fuel fuel' h r m c) as (res & s & res' & t & H1 & H2 & _ & H3); [done..|].
  by exists res, s, res', t.
Qed.

(** C3: The Advanced interpreter is total and free of undefined behaviour: for
    every message and every code within [code_small] (134217 bytes) it returns within an explicit number of steps, gives back between none and all
    of the gas, and none, with no output, after a failure. *)
Theorem advanced_execute_total fuel h r m c :
  client_ok m c -> code_small c -> (2 * enough_fuel m c + 1 <= fuel)%nat ->
  exists res t,
    Advanced.execute fuel h r m c = Advanced.Executed res t /\
    0 <= res_gas_left res <= msg_gas m /\
    (is_failure (res_status_code res) -> res_gas_left res = 0 /\ res_output_data res = []).
Proof.
  intros Hok Hsmall Hf.
  destruct (execute_agree (enough_fuel m c) fuel h r m c)
    as (res & s & res' & t & _ & Hex & Hres & Hsame); [done..|].
  exists res', t. split; [done|]. pose proof (co_gas _ _ Hok).
  destruct Hsame as [(_ & _ & Hg & Ho)|[-> _]].
  - rewrite Hg. split; [lia|done].
  - split; [apply Hres|apply Hres].
Qed.
End Execute.

Lemma interpreters_agree_witness :
  exists res s res' t,
    Baseline.execute (E := Mock.env) false (enough_fuel (sample_message 40000) sample_code)
      Mock.empty_host IVMC_LONDON (sample_message 40000) sample_code = Baseline.Executed res s [] /\
    Advanced.execute (E := Mock.env) (2 * enough_fuel (sample_message 40000) sample_code + 1)
      Mock.empty_host IVMC_LONDON (sample_message 40000) sample_code = Advanced.Executed res' t /\
    same_outcome res s res' t.
Proof.
  apply (interpreters_agree (ES := Mock.env_spec)); [|done|lia|lia].
  apply sample_client_ok. unfold i64_max. lia.
Defined.

Lemma advanced_execute_total_witness :
  exists res t,
    Advanced.execute (E := Mock.env) (2 * enough_fuel (sample_message 40000) sample_code + 1)
      Mock.empty_host IVMC_LONDON (sample_message 40000) sample_code = Advanced.Executed res t /\
    0 <= res_gas_left res <= 40000 /\
    (is_failure (res_status_code res) -> res_gas_left res = 0 /\ res_output_data res = []).
Proof.
  apply (advanced_execute_total (ES := Mock.env_spec)); [|done|lia].
  apply sample_client_ok. unfold i64_max. lia.
Defined.
