(* ===== verification/StaticMode.v ===== *)
(** * Static executions leave the world alone

    A property [P] of the host's state that its queries and the calls of static
    messages preserve is preserved by a whole static execution: no path through
    an instruction reaches a storage write, a log, a self-destruction, a
    creation or a call of a message that is not static. *)
From stdpp Require Import base list tactics option.
From S2P Require Import Prelude Intx Ivmc Mock Code ExecutionState Instructions InstructionsCalls.
From S2P Require Import Dispatch Hoare SafetyControl Baseline BaselineRun Samples Analysis.
From S2P Require Import AnalysisSpec Advanced AdvancedRun.

Create HintDb quiet.

(** The host's own part: what it may do for a static execution. *)
Record kept_by_host {E : Env} (P : host_state -> Prop) : Prop := {
  kh_account_exists : forall a h, P h -> P (snd (account_exists a h));
  kh_get_storage : forall a k h, P h -> P (snd (get_storage a k h));
  kh_get_balance : forall a h, P h -> P (snd (get_balance a h));
  kh_get_code_size : forall a h, P h -> P (snd (get_code_size a h));
  kh_get_code_hash : forall a h, P h -> P (snd (get_code_hash a h));
  kh_copy_code : forall a off n h, P h -> P (snd (copy_code a off n h));
  kh_get_tx_context : forall h, P h -> P (snd (get_tx_context h));
  kh_get_block_hash : forall n h, P h -> P (snd (get_block_hash n h));
  kh_access_account : forall a h, P h -> P (snd (access_account a h));
  kh_access_storage : forall a k h, P h -> P (snd (access_storage a k h));
  kh_call : forall m h, Instr.is_static m = true -> P h -> P (snd (host_call m h))
}.

Section Quiet.
Context {E : Env} (P : host_state -> Prop).
Hypothesis HP : kept_by_host P.
Implicit Types s : ExecutionState.

Definition static_state s : Prop := Instr.is_static (msg s) = true /\ P (host s).

(** The body keeps [P] and the message on every path. *)
Definition quiet {A} (m : Instr A) : Prop :=
  forall s, static_state s ->
    match m s with
    | Ok _ s' | Return _ s' => static_state s'
    | UB => True
    end.

Lemma quiet_bind {A B} (m : Instr A) (k : A -> Instr B) :
  quiet m -> (forall a, quiet (k a)) -> quiet (m ≫= k).
Proof.
  intros Hm Hk s Hs. specialize (Hm s Hs). unfold mbind, M_bind.
  destruct (m s) as [a s'|c s'|]; [by apply Hk|done|done].
Qed.

Lemma quiet_ret {A} (a : A) : quiet (mret a).
Proof. by intros s Hs. Qed.
Lemma quiet_return {A} c : quiet (return_status c : Instr A).
Proof. by intros s Hs. Qed.
Lemma quiet_ub {A} : quiet (undefined_behaviour : Instr A).
Proof. by intros s Hs. Qed.
Lemma quiet_assume {A} (o : option A) : quiet (assume_some o).
Proof. by destruct o; intros s Hs. Qed.
Lemma quiet_asks {A} (f : ExecutionState -> A) : quiet (asks f).
Proof. by intros s Hs. Qed.

(** A body that looks at the message sees a static one. *)
Lemma quiet_asks_msg {A} (k : ivmc_message -> Instr A) :
  (forall m, Instr.is_static m = true -> quiet (k m)) -> quiet (asks msg ≫= k).
Proof. intros Hk s Hs. exact (Hk (msg s) (proj1 Hs) s Hs). Qed.

Lemma quiet_modify f :
  (forall s, msg (f s) = msg s /\ host (f s) = host s) -> quiet (modify f).
Proof. intros Hf s [Hm Hh]. destruct (Hf s) as [H1 H2]. split; cbn; congruence. Qed.

Lemma quiet_host_do {A} (f : host_state -> A * host_state) :
  (forall h, P h -> P (snd (f h))) -> quiet (host_do f).
Proof.
  intros Hf s [Hm Hh]. unfold host_do. specialize (Hf (host s) Hh).
  by destruct (f (host s)) as [a h].
Qed.

Ltac primitive := intros s Hs; repeat case_match; simplify_eq; first [exact Hs|exact I].

Lemma quiet_pop : quiet stack_pop.
Proof. unfold stack_pop. primitive. Qed.
Lemma quiet_push x : quiet (stack_push x).
Proof. unfold stack_push. primitive. Qed.
Lemma quiet_at i : quiet (stack_at i).
Proof. unfold stack_at. primitive. Qed.
Lemma quiet_set i x : quiet (stack_set i x).
Proof. unfold stack_set. primitive. Qed.
Lemma quiet_read off n : quiet (memory_read off n).
Proof. unfold memory_read. primitive. Qed.
Lemma quiet_write off bs : quiet (memory_write off bs).
Proof. unfold memory_write. primitive. Qed.
Lemma quiet_memory_grow n : quiet (memory_grow n).
Proof. unfold memory_grow. primitive. Qed.
Lemma quiet_int32 z : quiet (int32 z).
Proof. unfold int32. primitive. Qed.
Lemma quiet_int64 z : quiet (int64 z).
Proof. unfold int64. primitive. Qed.
Lemma quiet_sub_gas z : quiet (sub_gas z).
Proof.
  intros s Hs. unfold sub_gas, mbind, M_bind, get, int64, modify, mret, M_ret. destruct (in_i64 _); [exact Hs|exact I].
Qed.
Lemma quiet_add_gas z : quiet (add_gas z).
Proof. intros s Hs. unfold add_gas, mbind, M_bind, get, int64, modify. destruct (in_i64 _); [exact Hs|exact I]. Qed.
Lemma quiet_call_body (m : Instr ivmc_status_code) : quiet m -> quiet (call_body m).
Proof. intros Hm s Hs. specialize (Hm s Hs). unfold call_body. by destruct (m s). Qed.
Lemma quiet_stack_top : quiet stack_top.
Proof. apply quiet_at. Qed.
Lemma quiet_set_top x : quiet (set_top x).
Proof. apply quiet_set. Qed.

#[local] Hint Resolve quiet_ret quiet_return quiet_ub quiet_assume quiet_asks quiet_pop quiet_push
  quiet_at quiet_set quiet_read quiet_write quiet_memory_grow quiet_int32 quiet_int64 quiet_sub_gas
  quiet_add_gas quiet_stack_top quiet_set_top : quiet.
#[local] Hint Extern 1 (quiet (host_do _)) => apply quiet_host_do; intros; by apply HP : quiet.

Ltac quiet_one :=
  lazymatch goal with
  | |- quiet (asks msg ≫= _) => apply quiet_asks_msg; intros ? ?
  | |- quiet (_ ≫= _) => apply quiet_bind; [|intros ?]
  | H : Instr.is_static ?m = true |- quiet (if Instr.is_static ?m then _ else _) => rewrite H
  | H : Instr.is_static ?m = true |- quiet (if _ && Instr.is_static ?m then _ else _) =>
      rewrite H, andb_true_r
  | |- quiet (if ?b then _ else _) => destruct b eqn:?
  | |- quiet (match ?x with _ => _ end) => destruct x
  | |- quiet (modify _) => apply quiet_modify; done
  | |- quiet (let _ := _ in _) => cbv zeta
  | |- quiet _ => solve [auto with quiet]
  end.
Ltac solve_quiet := repeat quiet_one.

Lemma quiet_charge z : quiet (charge z).
Proof. unfold charge. solve_quiet. Qed.
Lemma quiet_check_memory_u64 off n : quiet (Instr.check_memory_u64 off n).
Proof. unfold Instr.check_memory_u64, Instr.grow_memory, Instr.memory_cost. solve_quiet. Qed.
#[local] Hint Resolve quiet_charge quiet_check_memory_u64 : quiet.
Lemma quiet_check_memory off n : quiet (Instr.check_memory off n).
Proof. unfold Instr.check_memory. solve_quiet. Qed.
#[local] Hint Resolve quiet_check_memory : quiet.
Lemma quiet_require_memory off n : quiet (Instr.require_memory off n).
Proof. unfold Instr.require_memory. solve_quiet. Qed.
Lemma quiet_require_memory_u64 off n : quiet (Instr.require_memory_u64 off n).
Proof. unfold Instr.require_memory_u64. solve_quiet. Qed.
Lemma quiet_charge_cold_account a n : quiet (Instr.charge_cold_account a n).
Proof. unfold Instr.charge_cold_account, Instr.cold_account. solve_quiet. Qed.
Lemma quiet_cold_storage k : quiet (Instr.cold_storage k).
Proof. unfold Instr.cold_storage. solve_quiet. Qed.
Lemma quiet_copy_to_memory source dst src n k : quiet (Instr.copy_to_memory source dst src n k).
Proof. unfold Instr.copy_to_memory. solve_quiet. Qed.
Lemma quiet_jump_impl dst : quiet (Instr.jump_impl dst).
Proof. unfold Instr.jump_impl. solve_quiet. Qed.
#[local] Hint Resolve quiet_require_memory quiet_require_memory_u64 quiet_charge_cold_account
  quiet_cold_storage quiet_copy_to_memory quiet_jump_impl : quiet.

(** The message of a nested call is static. *)
Lemma quiet_host_call kind static (m : ivmc_message) depth gas recipient sender input value salt dst :
  Instr.is_static m = true ->
  quiet (host_do (host_call (mk_message kind (if static : bool then IVMC_STATIC else msg_flags m) depth
    gas recipient sender input value salt dst))).
Proof.
  intros Hm. apply quiet_host_do. intros h Hh. apply HP; [|done].
  unfold Instr.is_static in *. cbn [msg_flags]. by destruct static.
Qed.

Lemma quiet_call kind static : quiet (Calls.call kind static).
Proof.
  unfold Calls.call, Calls.call_cost, Calls.limit_gas, Calls.add_stipend, Calls.set_return_data,
    Calls.too_poor, Calls.pay_gas_used.
  repeat first [apply quiet_host_call; assumption|quiet_one].
Qed.

Lemma quiet_create kind : quiet (Calls.create kind).
Proof. unfold Calls.create. solve_quiet. Qed.
Lemma quiet_sstore : quiet Instr.sstore.
Proof. unfold Instr.sstore. solve_quiet. Qed.
Lemma quiet_log n : quiet (Instr.log n).
Proof. unfold Instr.log. solve_quiet. Qed.
Lemma quiet_selfdestruct : quiet Instr.selfdestruct.
Proof. unfold Instr.selfdestruct. solve_quiet. Qed.

Definition quiet_impl (F : InstrImpl) : Prop :=
  match F with
  | SucceedingInstrFn m => quiet m
  | MayFailInstrFn m | TerminatingInstrFn m => quiet m
  | CodePositionInstrFn g => forall pos, quiet (g pos)
  end.

Lemma every_body_quiet f : quiet_impl (instr_impl f).
Proof.
  destruct f; cbn [instr_impl quiet_impl];
    first [apply quiet_call|apply quiet_create|apply quiet_sstore|apply quiet_log
          |apply quiet_selfdestruct|lazymatch goal with |- quiet _ => idtac | _ => intros pos end].
  all: unfold Instr.stop, Instr.add, Instr.mul, Instr.sub, Instr.div, Instr.sdiv, Instr.mod_,
    Instr.smod, Instr.addmod, Instr.mulmod, Instr.exp, Instr.signextend, Instr.lt_, Instr.gt_,
    Instr.slt, Instr.sgt, Instr.eq_, Instr.iszero, Instr.and_, Instr.or_, Instr.xor_, Instr.not_,
    Instr.byte_, Instr.shl, Instr.shr, Instr.sar, Instr.keccak256, Instr.address_, Instr.balance,
    Instr.origin, Instr.caller, Instr.callvalue, Instr.calldataload, Instr.calldatasize,
    Instr.calldatacopy, Instr.codesize, Instr.codecopy, Instr.gasprice, Instr.extcodesize,
    Instr.extcodecopy, Instr.returndatasize, Instr.returndatacopy, Instr.extcodehash,
    Instr.blockhash, Instr.coinbase, Instr.timestamp, Instr.number, Instr.difficulty,
    Instr.gaslimit, Instr.chainid, Instr.selfbalance, Instr.basefee, Instr.pop, Instr.mload,
    Instr.mstore, Instr.mstore8, Instr.sload, Instr.msize, Instr.gas, Instr.jumpdest, Instr.dup,
    Instr.swap, Instr.jump, Instr.jumpi, Instr.pc, Instr.push, Instr.return_, Instr.invalid;
    solve_quiet.
Qed.

(** ** The Baseline interpreter *)
Lemma quiet_invoke F pos : quiet_impl F -> quiet (Baseline.invoke F pos).
Proof.
  intros HF. destruct F; cbn [Baseline.invoke quiet_impl] in *; unfold Baseline.exit_with;
    repeat first [apply quiet_call_body; assumption|apply HF|quiet_one].
Qed.

Lemma quiet_step table pos : quiet (Baseline.step table pos).
Proof.
  unfold Baseline.step, Baseline.exit_with, Baseline.check_requirements.
  repeat first [apply quiet_invoke, every_body_quiet|apply quiet_call_body|quiet_one].
Qed.

Lemma quiet_run fuel table pos s tr s' tr' :
  static_state s -> Baseline.run false fuel table pos s tr = Baseline.Finished s' tr' ->
  static_state s'.
Proof.
  revert pos s tr. induction fuel as [|fuel IH]; intros pos s tr Hs Hrun; [done|].
  cbn [Baseline.run] in Hrun. pose proof (quiet_step table pos s Hs) as Hq.
  destruct (Baseline.step table pos s) as [[p|] s1|? ?|]; try done.
  - by eapply IH.
  - by injection Hrun as <- _.
Qed.

(** ** The Advanced interpreter *)
Definition adv_quiet {A} (m : Advanced.AdvInstr A) : Prop :=
  forall t, static_state (Advanced.base t) ->
    match m t with
    | Ok _ t' | Return _ t' => static_state (Advanced.base t')
    | UB => True
    end.

Lemma adv_quiet_bind {A B} (m : Advanced.AdvInstr A) (k : A -> Advanced.AdvInstr B) :
  adv_quiet m -> (forall a, adv_quiet (k a)) -> adv_quiet (m ≫= k).
Proof.
  intros Hm Hk t Ht. specialize (Hm t Ht). unfold mbind, M_bind.
  destruct (m t) as [a t'|c t'|]; [by apply Hk|done|done].
Qed.

Lemma adv_quiet_on_base {A} (m : Instr A) : quiet m -> adv_quiet (Advanced.on_base m).
Proof.
  intros Hm t Ht. specialize (Hm _ Ht). unfold Advanced.on_base. by destruct (m (Advanced.base t)).
Qed.

Lemma adv_quiet_same {A} (m : Advanced.AdvInstr A) :
  (forall t, match m t with Ok _ t' | Return _ t' => Advanced.base t' = Advanced.base t
    | UB => True end) -> adv_quiet m.
Proof. intros Hm t Ht. specialize (Hm t). destruct (m t); [congruence|congruence|done]. Qed.

Lemma adv_quiet_ret {A} (a : A) : adv_quiet (mret a).
Proof. by apply adv_quiet_same. Qed.
Lemma adv_quiet_get : adv_quiet get.
Proof. by apply adv_quiet_same. Qed.
Lemma adv_quiet_assume {A} (o : option A) : adv_quiet (assume_some o).
Proof. by apply adv_quiet_same; destruct o. Qed.
Lemma adv_quiet_analysis : adv_quiet Advanced.advanced_analysis.
Proof. apply adv_quiet_same. intros t. unfold Advanced.advanced_analysis. by destruct (analysis _). Qed.
Lemma adv_quiet_instr_arg i : adv_quiet (Advanced.instr_arg i).
Proof.
  apply adv_quiet_same. intros t. unfold Advanced.instr_arg. destruct (analysis _); try done.
  by destruct (nth_Z _ _).
Qed.
Lemma adv_quiet_exit c : adv_quiet (Advanced.exit c).
Proof.
  apply adv_quiet_bind; [|intros; apply adv_quiet_ret]. by apply adv_quiet_on_base, quiet_modify.
Qed.
#[local] Hint Resolve adv_quiet_ret adv_quiet_get adv_quiet_assume adv_quiet_analysis
  adv_quiet_instr_arg adv_quiet_exit quiet_call_body quiet_sstore quiet_call quiet_create
  quiet_selfdestruct : quiet.

Ltac adv_quiet_one :=
  lazymatch goal with
  | |- adv_quiet (_ ≫= _) => apply adv_quiet_bind; [|intros ?]
  | |- adv_quiet (if ?b then _ else _) => destruct b
  | |- adv_quiet (Advanced.on_base (modify _)) => by apply adv_quiet_on_base, quiet_modify
  | |- adv_quiet (Advanced.on_base _) => apply adv_quiet_on_base; solve [auto with quiet]
  | |- adv_quiet (modify _) => by apply adv_quiet_same
  | |- adv_quiet (let _ := _ in _) => cbv zeta
  | |- adv_quiet _ => solve [auto with quiet]
  end.

Lemma adv_quiet_corrected m i : quiet m -> adv_quiet (Advanced.with_correction m i).
Proof.
  intros Hm. unfold Advanced.with_correction, Advanced.gas_correction, Advanced.arg_number_of.
  repeat adv_quiet_one.
Qed.
#[local] Hint Resolve adv_quiet_corrected : quiet.

Lemma adv_quiet_jump i : adv_quiet (Advanced.op_jump i).
Proof. unfold Advanced.op_jump. repeat adv_quiet_one. Qed.
#[local] Hint Resolve adv_quiet_jump : quiet.

Lemma adv_quiet_op F i : quiet_impl F -> adv_quiet (Advanced.op F i).
Proof.
  intros HF. destruct F; cbn [Advanced.op quiet_impl] in *; repeat adv_quiet_one;
    by apply adv_quiet_same.
Qed.

Lemma adv_quiet_exec x i : adv_quiet (Advanced.exec x i).
Proof.
  destruct x; cbn [Advanced.exec]; [apply adv_quiet_op, every_body_quiet|..];
    unfold Advanced.op_stop, Advanced.op_sstore, Advanced.op_jumpi, Advanced.op_pc, Advanced.op_gas,
      Advanced.gas_correction, Advanced.op_push_small, Advanced.op_push_full, Advanced.op_invalid,
      Advanced.op_return, Advanced.op_call, Advanced.op_create, Advanced.op_undefined,
      Advanced.op_selfdestruct, Advanced.opx_beginblock, Advanced.arg_number_of,
      Advanced.arg_small_push_value_of, Advanced.arg_push_value_of, Advanced.arg_block_of;
    repeat adv_quiet_one.
Qed.

Lemma adv_quiet_run fuel i t t' :
  static_state (Advanced.base t) -> Advanced.run fuel i t = Advanced.Finished t' ->
  static_state (Advanced.base t').
Proof.
  revert i t. induction fuel as [|fuel IH]; intros i t Ht Hrun; [done|].
  cbn [Advanced.run] in Hrun.
  assert (adv_quiet (Advanced.step i)) as Hq.
  { unfold Advanced.step. repeat adv_quiet_one. apply adv_quiet_exec. }
  specialize (Hq t Ht). destruct (Advanced.step i t) as [[i'|] t1|? ?|]; try done.
  - by eapply IH.
  - by injection Hrun as <-.
Qed.
End Quiet.

Section Protected.
Context {E : Env} {ES : EnvSpec E}.

(** C5: A static execution leaves the world alone: whatever the host's queries
    and its static calls preserve, both interpreters preserve when the message
    is static, whatever the outcome, for every code within [code_small] (134217
    bytes). *)
Theorem static_execution_protected (P : host_state -> Prop) fuel fuel' h r m c :
  kept_by_host P -> Instr.is_static m = true -> P h -> client_ok m c -> code_small c ->
  (enough_fuel m c <= fuel)%nat -> (2 * fuel + 1 <= fuel')%nat ->
  exists res s res' t,
    Baseline.execute false fuel h r m c = Baseline.Executed res s [] /\ P (host s) /\
    Advanced.execute fuel' h r m c = Advanced.Executed res' t /\ P (host (Advanced.base t)).
Proof.
  intros HP Hm Hh Hok Hsmall Hf Hf'.
  destruct (execute_agree fuel fuel' h r m c) as (res & s & res' & t & H1 & H2 & _); [done..|].
  exists res, s, res', t. split; [done|]. split; [|split; [done|]].
  - unfold Baseline.execute, Baseline.execute_with in H1. cbv zeta in H1.
    destruct (Baseline.analyze c) as [a|]; [|done].
    destruct (Baseline.run _ _ _ _ _ _) as [s1 tr1| |] eqn:Hrun; [|done|done].
    apply (quiet_run P HP) in Hrun; [|by split]. destruct (Baseline.exit_result s1); [|done].
    injection H1 as _ <- _. apply Hrun.
  - unfold Advanced.execute, Advanced.execute_with in H2. cbv zeta in H2.
    destruct (analyze r c) as [a|]; [|done].
    destruct (Advanced.run _ _ _) as [t1| |] eqn:Hrun; [|done|done].
    apply (adv_quiet_run P HP) in Hrun; [|by split].
    destruct (Advanced.exit_result (Advanced.base t1)); [|done].
    injection H2 as _ <-. apply Hrun.
Qed.
End Protected.

(** Nothing stored, logged or destroyed, and static calls only. *)
Definition untouched (h : Mock.mock_host) : Prop :=
  Mock.mh_storage h = [] /\ Mock.mh_logs h = [] /\ Mock.mh_beneficiaries h = [] /\
  Forall (fun m => Instr.is_static m = true) (Mock.mh_calls h).

(** PUSH1 1; PUSH1 0; SSTORE; STOP in a static call. *)
Lemma static_execution_protected_witness :
  let m := sample_message_with IVMC_STATIC 40000 [] in
  exists res s res' t,
    Baseline.execute (E := Mock.env) false (enough_fuel m sample_code) Mock.empty_host IVMC_LONDON
      m sample_code = Baseline.Executed res s [] /\ untouched (host s) /\
    Advanced.execute (E := Mock.env) (2 * enough_fuel m sample_code + 1) Mock.empty_host
      IVMC_LONDON m sample_code = Advanced.Executed res' t /\ untouched (host (Advanced.base t)).
Proof.
  cbv zeta. apply (static_execution_protected (ES := Mock.env_spec) untouched).
  - unfold untouched. constructor; cbn; intros; intuition.
  - vm_compute. reflexivity.
  - repeat split. constructor.
  - constructor; [by apply sample_msg_ok|cbn; unfold i64_max; lia|unfold code_ok; cbn; lia].
  - done.
  - lia.
  - lia.
Defined.
