(* ===== verification/Tracing.v ===== *)
(** * Tracers (lib/ivmone/tracing.hpp, tracing.cpp)

    A tracer chain is a list of tracer objects; the virtual methods are
    functions of the object and of the text written to the output stream so
    far.  [None] is undefined behaviour: the top of an empty context stack, a
    read outside of the code or the stack, a null table of names.  The name
    table and the formatting functions of IVMC and intx are parameters. *)
From stdpp Require Import base list tactics option strings pretty.
From S2P Require Import Prelude Intx Ivmc Code ExecutionState Instructions Baseline.

(** The external functions the tracers print with. *)
Class TraceText (E : Env) := {
  (** [ivmc_get_instruction_names_table(rev)\[opcode\]]; [None] is null. *)
  instruction_names : ivmc_revision -> Z -> option string;
  revision_text : ivmc_revision -> string;
  status_text : ivmc_status_code -> string;
  (** [ivmc::hex]. *)
  hex : list byte -> string;
  (** [intx::to_string(x, 16)]. *)
  to_string_16 : uint256 -> string
}.

Module Tracing.
Section Tracing.
Context {E : Env} {TT : TraceText E}.

Definition dq : string := String (Ascii.ascii_of_nat 34) EmptyString.
Definition newline : string := String (Ascii.ascii_of_nat 10) EmptyString.
Definition quoted (s : string) : string := (dq +:+ s +:+ dq)%string.

(** [get_name]. *)
Definition get_name (names : Z -> option string) (opcode : Z) : string :=
  match names opcode with
  | Some name => name
  | None => "0x" +:+ hex [byte_of_Z opcode]
  end.

(** ** The tracer objects *)
Record histogram_context := mk_histogram_context {
  hc_depth : Z;
  hc_code : list byte;
  hc_opcode_names : Z -> option string;
  hc_counts : list Z
}.

Record instruction_context := mk_instruction_context {
  ic_code : list byte;
  ic_start_gas : Z
}.

Inductive Tracer :=
| HistogramTracer (contexts : list histogram_context)
| InstructionTracer (contexts : list instruction_context)
    (opcode_names : option (Z -> option string)).

(** ** HistogramTracer *)
Definition histogram_start (contexts : list histogram_context) (r : ivmc_revision)
    (m : ivmc_message) (c : bytes_view) : list histogram_context :=
  mk_histogram_context (msg_depth m) (view_data c) (instruction_names r) (replicate 256 0)
    :: contexts.

Definition histogram_instruction (contexts : list histogram_context) (pc : Z)
    : option (list histogram_context) :=
  match contexts with
  | [] => None
  | ctx :: rest =>
      b ← nth_Z (hc_code ctx) pc;
      n ← nth_Z (hc_counts ctx) (byte_to_Z b);
      Some (mk_histogram_context (hc_depth ctx) (hc_code ctx) (hc_opcode_names ctx)
              (<[Z.to_nat (byte_to_Z b) := u32 (n + 1)]> (hc_counts ctx)) :: rest)
  end.

(** The rows of the counters from [i] on that are not zero. *)
Fixpoint histogram_rows (names : Z -> option string) (i : Z) (counts : list Z) : string :=
  match counts with
  | [] => ""
  | n :: counts' =>
      (if negb (n =? 0) then get_name names i +:+ "," +:+ pretty n +:+ newline else "") +:+
      histogram_rows names (i + 1) counts'
  end.

Definition histogram_report (depth : Z) (names : Z -> option string) (counts : list Z) : string :=
  "--- # HISTOGRAM depth=" +:+ pretty depth +:+ newline +:+ "opcode,count" +:+ newline +:+
  histogram_rows names 0 counts.

Definition histogram_end (contexts : list histogram_context) (out : string)
    : option (list histogram_context * string) :=
  match contexts with
  | [] => None
  | ctx :: rest =>
      Some (rest, out +:+ histogram_report (hc_depth ctx) (hc_opcode_names ctx) (hc_counts ctx))
  end.

(** ** InstructionTracer *)

(** The items at the indexes below [n], from the bottom of the stack. *)
Fixpoint output_items (st : Stack.Stack) (n : nat) : option string :=
  match n with
  | O => Some ""
  | S n' =>
      x ← Stack.at_index st (Z.of_nat n');
      rest ← output_items st n';
      Some ((if negb (Z.of_nat n' =? Stack.size st - 1) then "," else "") +:+
            quoted ("0x" +:+ to_string_16 x) +:+ rest)
  end.

Definition output_stack (st : Stack.Stack) : option string :=
  items ← output_items st (Z.to_nat (Stack.size st));
  Some ("," +:+ quoted "stack" +:+ ":[" +:+ items +:+ "]").

Definition instruction_tracer_start (contexts : list instruction_context)
    (names : option (Z -> option string)) (r : ivmc_revision) (m : ivmc_message) (c : bytes_view)
    (out : string) : Tracer * string :=
  let names := match contexts with [] => Some (instruction_names r) | _ => names end in
  (InstructionTracer (mk_instruction_context (view_data c) (msg_gas m) :: contexts) names,
   out +:+ "{" +:+ quoted "depth" +:+ ":" +:+ pretty (msg_depth m) +:+
     "," +:+ quoted "rev" +:+ ":" +:+ quoted (revision_text r) +:+
     "," +:+ quoted "static" +:+ ":" +:+
     (if Instr.is_static m then "true" else "false") +:+ "}" +:+ newline).

Definition instruction_tracer_instruction (contexts : list instruction_context)
    (names : option (Z -> option string)) (pc : Z) (s : ExecutionState) (out : string)
    : option (Tracer * string) :=
  ctx ← head contexts;
  b ← nth_Z (ic_code ctx) pc;
  table ← names;
  stack_text ← output_stack (stack s);
  Some (InstructionTracer contexts names,
    out +:+ "{" +:+ quoted "pc" +:+ ":" +:+ pretty pc +:+
      "," +:+ quoted "op" +:+ ":" +:+ pretty (byte_to_Z b) +:+
      "," +:+ quoted "opName" +:+ ":" +:+ quoted (get_name table (byte_to_Z b)) +:+
      "," +:+ quoted "gas" +:+ ":" +:+ pretty (gas_left s) +:+ stack_text +:+
      "," +:+ quoted "memorySize" +:+ ":" +:+ pretty (Memory.m_size (memory s)) +:+
      "}" +:+ newline).

Definition instruction_tracer_end (contexts : list instruction_context)
    (names : option (Z -> option string)) (result : ivmc_result) (out : string)
    : option (Tracer * string) :=
  match contexts with
  | [] => None
  | ctx :: rest =>
      let gas_used := ic_start_gas ctx - res_gas_left result in
      if in_i64 gas_used then
        Some (InstructionTracer rest (match rest with [] => None | _ => names end),
          out +:+ "{" +:+ quoted "error" +:+ ":" +:+
            (if bool_decide (res_status_code result = IVMC_SUCCESS) then "null"
             else quoted (status_text (res_status_code result))) +:+
            "," +:+ quoted "gas" +:+ ":" +:+ pretty (res_gas_left result) +:+
            "," +:+ quoted "gasUsed" +:+ ":" +:+ pretty gas_used +:+
            "," +:+ quoted "output" +:+ ":" +:+ quoted (hex (res_output_data result)) +:+
            "}" +:+ newline)
      else None
  end.

(** ** The virtual methods *)
Definition on_execution_start (t : Tracer) (r : ivmc_revision) (m : ivmc_message) (c : bytes_view)
    (out : string) : Tracer * string :=
  match t with
  | HistogramTracer contexts => (HistogramTracer (histogram_start contexts r m c), out)
  | InstructionTracer contexts names => instruction_tracer_start contexts names r m c out
  end.

Definition on_instruction_start (t : Tracer) (pc : Z) (s : ExecutionState) (out : string)
    : option (Tracer * string) :=
  match t with
  | HistogramTracer contexts =>
      contexts ← histogram_instruction contexts pc; Some (HistogramTracer contexts, out)
  | InstructionTracer contexts names => instruction_tracer_instruction contexts names pc s out
  end.

Definition on_execution_end (t : Tracer) (result : ivmc_result) (out : string)
    : option (Tracer * string) :=
  match t with
  | HistogramTracer contexts =>
      '(contexts, out) ← histogram_end contexts out; Some (HistogramTracer contexts, out)
  | InstructionTracer contexts names => instruction_tracer_end contexts names result out
  end.

Definition on_event (t : Tracer) (e : Baseline.trace_event) (out : string)
    : option (Tracer * string) :=
  match e with
  | Baseline.execution_start r m c => Some (on_execution_start t r m c out)
  | Baseline.instruction_start pc s => on_instruction_start t pc s out
  | Baseline.execution_end result => on_execution_end t result out
  end.

(** [notify_execution_start], [notify_instruction_start], [notify_execution_end]:
    the tracer itself, then the rest of the chain. *)
Fixpoint notify (chain : list Tracer) (e : Baseline.trace_event) (out : string)
    : option (list Tracer * string) :=
  match chain with
  | [] => Some ([], out)
  | t :: next =>
      '(t, out) ← on_event t e out;
      '(next, out) ← notify next e out;
      Some (t :: next, out)
  end.

(** The notifications of an execution, in order. *)
Fixpoint notify_all (chain : list Tracer) (events : list Baseline.trace_event) (out : string)
    : option (list Tracer * string) :=
  match events with
  | [] => Some (chain, out)
  | e :: events' =>
      '(chain, out) ← notify chain e out;
      notify_all chain events' out
  end.

(** [create_histogram_tracer], [create_instruction_tracer]. *)
Definition create_histogram_tracer : Tracer := HistogramTracer [].
Definition create_instruction_tracer : Tracer := InstructionTracer [] None.
End Tracing.
End Tracing.
