(* ===== verification/TracingSpec.v ===== *)
(** * Tracers: what they report, and that every execution feeds them safely

    The trace of an execution is bracketed: one start, instructions inside of
    the code, one end.  Such a trace leaves every tracer with the contexts it
    had before, and the histogram counts each opcode that was started. *)
From stdpp Require Import base list tactics option strings pretty.
From S2P Require Import Prelude Intx Ivmc Mock Code ExecutionState Instructions Hoare Samples.
From S2P Require Import Dispatch MemoryRequirements SafetyControl Baseline BaselineAnalysis.
From S2P Require Import BaselineSafety.
From S2P Require Import BaselineRun Tracing.

Section Spec.
Context {E : Env} {ES : EnvSpec E} {TT : TraceText E}.
Implicit Types s : ExecutionState.
Import Tracing.

(** A notification a tracer can look up: a position inside of the buffer, a
    well-formed stack. *)
Definition readable_event (c : bytes_view) (e : Baseline.trace_event) : Prop :=
  match e with
  | Baseline.instruction_start pc s =>
      0 <= pc < Z.of_nat (length (view_data c)) /\ Stack.wf (stack s)
  | _ => False
  end.

(** An instruction of the announced code, with the state before it. *)
Definition instruction_event (c : bytes_view) (e : Baseline.trace_event) : Prop :=
  match e with
  | Baseline.instruction_start pc s => 0 <= pc < view_size c /\ Stack.wf (stack s) /\ code s = c
  | _ => False
  end.

Lemma instruction_readable c e :
  view_size c <= Z.of_nat (length (view_data c)) -> instruction_event c e -> readable_event c e.
Proof. destruct e; [done| |done]. cbn. intros Hc (? & ? & _). split; [lia|done]. Qed.

(** The instructions of the code [c] that an execution runs through, with the
    state before each of them: the reference for the notifications.  The STOP
    of the padding is none. *)
Definition visit (c : bytes_view) (pos : Z) s : list Baseline.trace_event :=
  if pos <? view_size c then [Baseline.instruction_start pos s] else [].

Inductive visits (table : list InstructionTableEntry) (c : bytes_view)
    : Z -> ExecutionState -> list Baseline.trace_event -> ExecutionState -> Prop :=
| visits_end pos s s' :
    Baseline.step table pos s = Ok None s' -> visits table c pos s (visit c pos s) s'
| visits_next pos s p s1 es s' :
    Baseline.step table pos s = Ok (Some p) s1 -> visits table c p s1 es s' ->
    visits table c pos s (visit c pos s ++ es) s'.

(** The trace of one execution. *)
Definition bracketed (r : ivmc_revision) (m : ivmc_message) (c : bytes_view)
    (instructions : list Baseline.trace_event) (result : ivmc_result)
    : list Baseline.trace_event :=
  Baseline.execution_start r m c :: instructions ++ [Baseline.execution_end result].

(** Between executions a tracer has a table of names exactly when it has contexts. *)
Definition tracer_ok (t : Tracer) : Prop :=
  match t with
  | HistogramTracer _ => True
  | InstructionTracer contexts names => contexts = [] <-> names = None
  end.

(** How often the opcode [op] is started. *)
Definition occurrences (c : bytes_view) (op : Z) (events : list Baseline.trace_event) : Z :=
  Z.of_nat (length (List.filter (fun e =>
    match e with
    | Baseline.instruction_start pc _ =>
        match nth_Z (view_data c) pc with Some b => byte_to_Z b =? op | None => false end
    | _ => false
    end) events)).

(** ** One tracer *)
Lemma output_items_total st n :
  Stack.wf st -> (n <= length (Stack.items st))%nat -> exists text, output_items st n = Some text.
Proof.
  intros Hwf. induction n as [|n IH]; intros Hn; [by eexists|]. cbn [output_items].
  destruct IH as [text Htext]; [lia|].
  destruct (lookup_lt_is_Some_2 (Stack.items st) n ltac:(lia)) as [x Hx].
  rewrite (stack_at_spec st n x Hwf Hx), Htext. by eexists.
Qed.

Lemma output_stack_total st : Stack.wf st -> exists text, output_stack st = Some text.
Proof.
  intros Hwf. unfold output_stack. pose proof (stack_items_length _ Hwf) as Hl.
  destruct (output_items_total st (Z.to_nat (Stack.size st)) Hwf) as [text ->]; [lia|].
  by eexists.
Qed.

(** The counters after a list of instructions. *)
Definition counted (c : bytes_view) (events : list Baseline.trace_event) (counts : list Z) : Prop :=
  length counts = 256%nat /\
  forall op n, nth_Z counts op = Some n -> n = u32 (occurrences c op events).

Lemma u32_succ n : u32 (u32 n + 1) = u32 (n + 1).
Proof. unfold u32. by rewrite Zplus_mod_idemp_l. Qed.

Lemma occurrences_app c op l e :
  occurrences c op (l ++ [e]) = occurrences c op l + occurrences c op [e].
Proof. unfold occurrences. rewrite List.filter_app, length_app. lia. Qed.

Lemma counted_step c events pc s counts b n :
  counted c events counts -> nth_Z (view_data c) pc = Some b ->
  nth_Z counts (byte_to_Z b) = Some n ->
  counted c (events ++ [Baseline.instruction_start pc s])
    (<[Z.to_nat (byte_to_Z b) := u32 (n + 1)]> counts).
Proof.
  intros [Hl Hc] Hb Hn. split; [by rewrite length_insert|]. intros op k Hk.
  pose proof (byte_to_Z_bound b). rewrite nth_Z_insert in Hk by lia.
  rewrite occurrences_app. unfold occurrences at 2. cbn [List.filter]. rewrite Hb.
  destruct (decide (op = byte_to_Z b)) as [->|Hne].
  - injection Hk as <-. rewrite Z.eqb_refl. rewrite (Hc _ _ Hn). apply u32_succ.
  - rewrite (proj2 (Z.eqb_neq _ _)) by congruence. cbn. rewrite Z.add_0_r. by eapply Hc.
Qed.

Lemma histogram_instructions c d names rest out instructions : forall before counts,
  counted c before counts -> Forall (readable_event c) instructions ->
  exists counts', counted c (before ++ instructions) counts' /\
    notify_all [HistogramTracer (mk_histogram_context d (view_data c) names counts :: rest)]
      instructions out =
    Some ([HistogramTracer (mk_histogram_context d (view_data c) names counts' :: rest)], out).
Proof.
  induction instructions as [|e l IH]; intros before counts Hc Hall.
  { exists counts. by rewrite app_nil_r. }
  apply Forall_cons_1 in Hall as [He Hall]. destruct e as [|pc s|]; [done| |done].
  destruct He as [Hpc _]. destruct (nth_Z_is_Some (view_data c) pc Hpc) as [b Hb].
  destruct (nth_Z_is_Some counts (byte_to_Z b)) as [n Hn].
  { rewrite (proj1 Hc). pose proof (byte_to_Z_bound b). lia. }
  destruct (IH (before ++ [Baseline.instruction_start pc s]) _ (counted_step _ _ _ s _ _ _ Hc Hb Hn) Hall)
    as (counts' & Hc' & Hn'). exists counts'.
  rewrite <- app_assoc in Hc'. split; [exact Hc'|].
  cbn [notify_all notify on_event on_instruction_start histogram_instruction hc_code hc_counts
       hc_depth hc_opcode_names mbind option_bind]. rewrite Hb. cbn [mbind option_bind].
  rewrite Hn. exact Hn'.
Qed.

(** ** Chains *)

(** The tracer [t'] is [t] during an execution of the code [c]. *)
Definition running (m : ivmc_message) (c : bytes_view) (t t' : Tracer) : Prop :=
  match t, t' with
  | HistogramTracer contexts, HistogramTracer (ctx :: contexts') =>
      contexts' = contexts /\ hc_code ctx = view_data c /\ length (hc_counts ctx) = 256%nat
  | InstructionTracer contexts names, InstructionTracer (ctx :: contexts') names' =>
      contexts' = contexts /\ ic_code ctx = view_data c /\ ic_start_gas ctx = msg_gas m /\
      (exists table, names' = Some table) /\ (contexts <> [] -> names' = names)
  | _, _ => False
  end.

Lemma on_start_running r m c t out :
  tracer_ok t -> exists t' out',
    on_event t (Baseline.execution_start r m c) out = Some (t', out') /\ running m c t t'.
Proof.
  intros Hok. destruct t as [contexts|contexts names]; cbn [on_event on_execution_start].
  - eexists _, _. split; [reflexivity|]. done.
  - unfold instruction_tracer_start. eexists _, _. split; [reflexivity|]. cbn.
    split; [done|]. split; [done|]. split; [done|]. cbn in Hok.
    destruct contexts; [split; [by eexists|done]|].
    split; [|done]. destruct names; [by eexists|]. destruct Hok as [_ Hok]. by specialize (Hok eq_refl).
Qed.

Lemma on_instruction_running m c t t' e out :
  running m c t t' -> readable_event c e ->
  exists t'' out', on_event t' e out = Some (t'', out') /\ running m c t t''.
Proof.
  intros Hr He. destruct e as [|pc s|]; [done| |done]. destruct He as [Hpc Hst].
  destruct (nth_Z_is_Some (view_data c) pc Hpc) as [b Hb].
  destruct t as [contexts|contexts names], t' as [[|ctx contexts']|[|ctx contexts'] names']; try done;
    cbn [on_event on_instruction_start].
  - destruct Hr as (-> & Hcode & Hlen). cbn [histogram_instruction]. rewrite Hcode, Hb.
    cbn [mbind option_bind]. destruct (nth_Z_is_Some (hc_counts ctx) (byte_to_Z b)) as [n Hn].
    { rewrite Hlen. pose proof (byte_to_Z_bound b). lia. }
    rewrite Hn. eexists _, _. split; [reflexivity|]. split; [done|]. split; [done|]. cbn [hc_counts].
    by rewrite length_insert.
  - destruct Hr as (-> & Hcode & Hgas & [table ->] & Hnames). unfold instruction_tracer_instruction.
    cbn [head mbind option_bind]. rewrite Hcode, Hb. cbn [mbind option_bind].
    destruct (output_stack_total _ Hst) as [text ->]. eexists _, _. split; [reflexivity|].
    cbn. eauto 6.
Qed.

Lemma on_end_running m c t t' result out :
  running m c t t' -> tracer_ok t -> 0 <= res_gas_left result <= msg_gas m -> msg_gas m <= i64_max ->
  exists out', on_event t' (Baseline.execution_end result) out = Some (t, out').
Proof.
  intros Hr Hok Hg Hm.
  destruct t as [contexts|contexts names], t' as [[|ctx contexts']|[|ctx contexts'] names']; try done;
    cbn [on_event on_execution_end].
  - destruct Hr as (-> & _). by eexists.
  - destruct Hr as (-> & Hcode & Hgas & [table ->] & Hnames). unfold instruction_tracer_end.
    rewrite Hgas, in_i64_true by (unfold i64_min, i64_max in *; lia). eexists. cbn in Hok.
    destruct contexts as [|ctx' contexts]; [|by rewrite <- Hnames].
    destruct Hok as [Hok _]. by rewrite (Hok eq_refl).
Qed.

(** A notification that every tracer accepts is accepted by the chain. *)
Lemma notify_chain e (P Q : Tracer -> Tracer -> Prop) l l' out :
  (forall t t' out, P t t' -> exists t'' out', on_event t' e out = Some (t'', out') /\ Q t t'') ->
  Forall2 P l l' ->
  exists l'' out', notify l' e out = Some (l'', out') /\ Forall2 Q l l''.
Proof.
  intros Hstep Hl. revert out. induction Hl as [|t t' l l' Ht Hl IH]; intros out; cbn [notify].
  - by eexists _, _.
  - destruct (Hstep _ _ out Ht) as (t'' & out1 & -> & Ht''). cbn [mbind option_bind].
    destruct (IH out1) as (l'' & out2 & -> & Hl''). eexists _, _. split; [reflexivity|]. by constructor.
Qed.

Lemma notify_instructions m c l instructions : forall l' out,
  Forall2 (running m c) l l' -> Forall (readable_event c) instructions ->
  exists l'' out', notify_all l' instructions out = Some (l'', out') /\ Forall2 (running m c) l l''.
Proof.
  induction instructions as [|e es IH]; intros l' out Hl Hes; cbn [notify_all]; [by eexists _, _|].
  apply Forall_cons_1 in Hes as [He Hes].
  destruct (notify_chain e (running m c) (running m c) l l' out) as (l1 & out1 & -> & Hl1);
    [intros; by apply on_instruction_running|done|].
  cbn [mbind option_bind]. by apply IH.
Qed.

Lemma notify_all_app l es es' out :
  notify_all l (es ++ es') out =
    ('(l, out) ← notify_all l es out; notify_all l es' out).
Proof.
  revert l out. induction es as [|e es IH]; intros l out; cbn [app notify_all]; [done|].
  destruct (notify l e out) as [[l1 out1]|]; [apply IH|done].
Qed.

(** A bracketed trace gives every tracer of the chain its contexts back. *)
Lemma notify_bracketed chain r m c instructions result out :
  Forall tracer_ok chain -> Forall (readable_event c) instructions ->
  0 <= res_gas_left result <= msg_gas m -> msg_gas m <= i64_max ->
  exists out', notify_all chain (bracketed r m c instructions result) out = Some (chain, out').
Proof.
  intros Hok Hes Hg Hm. unfold bracketed. cbn [notify_all].
  destruct (notify_chain (Baseline.execution_start r m c) (fun t t' => t = t' /\ tracer_ok t)
    (fun t t' => running m c t t') chain chain out)
    as (l1 & out1 & -> & Hl1).
  { intros t ? out0 [<- Ht]. by apply on_start_running. }
  { induction Hok; by constructor. }
  cbn [mbind option_bind].
  rewrite notify_all_app.
  destruct (notify_instructions m c chain instructions l1 out1 Hl1 Hes) as (l2 & out2 & -> & Hl2).
  cbn [mbind option_bind notify_all].
  destruct (notify_chain (Baseline.execution_end result) (fun t t' => running m c t t' /\ tracer_ok t)
    eq chain l2 out2) as (l3 & out3 & -> & Hl3).
  { intros t t' out0 [Hr Ht]. destruct (on_end_running _ _ _ _ result out0 Hr Ht Hg Hm) as [out' ->].
    by eexists _, _. }
  { clear -Hl2 Hok. induction Hl2; inversion Hok; subst; constructor; auto. }
  cbn [mbind option_bind]. exists out3.
  assert (chain = l3) as -> by (clear -Hl3; induction Hl3; congruence). done.
Qed.

(** ** The trace of an execution *)
Lemma trace_instruction_ok c s pos :
  loop_inv c s pos ->
  Forall (instruction_event (code s)) (Baseline.trace_instruction true pos s).
Proof.
  intros [Hok _ _ _ _]. unfold Baseline.trace_instruction. cbn [andb].
  destruct (_ <? _) eqn:Hlt; [|constructor]. bool_prop. constructor; [|constructor]. split; [split; [|done]|split; [apply Hok|done]].
  unfold u32. apply Z.mod_pos_bound. lia.
Qed.

(** Positions are announced as they are while they fit in 32 bits. *)
Lemma trace_instruction_visit c s pos :
  loop_inv c s pos -> Z.of_nat (length c) + 32 < 2 ^ 32 ->
  Baseline.trace_instruction true pos s = visit (code s) pos s.
Proof.
  intros [_ _ _ _ Hst] Hc. pose proof (instr_start_nonneg _ _ Hst).
  pose proof (instr_start_limit _ _ Hst). unfold Baseline.trace_instruction, visit. cbn [andb].
  unfold u32. by rewrite Z.mod_small by lia.
Qed.

Lemma run_trace fuel c s pos tr s' tr' :
  loop_inv c s pos ->
  Baseline.run true fuel (get_baseline_instruction_table (rev s)) pos s tr =
    Baseline.Finished s' tr' ->
  exists es, tr' = tr ++ es /\ Forall (instruction_event (code s)) es /\
    (Z.of_nat (length c) + 32 < 2 ^ 32 ->
     visits (get_baseline_instruction_table (rev s)) (code s) pos s es s').
Proof.
  revert s pos tr. induction fuel as [|fuel IH]; intros s pos tr Hinv Hrun; [done|].
  cbn [Baseline.run] in Hrun. destruct (step_spec _ _ _ Hinv) as (b & _ & _ & Hstep).
  pose proof (trace_instruction_ok _ _ _ Hinv) as Htr.
  pose proof (trace_instruction_visit _ _ _ Hinv) as Hvisit.
  unfold wp in Hstep. destruct (Baseline.step _ pos s) as [[p|] s1|? ?|] eqn:Hs; [| |done|done].
  - destruct Hstep as [Hinv1 _ _ _ [_ Hrev Hcode _] _ _ _ _]. rewrite <- Hrev in Hrun.
    destruct (IH _ _ _ Hinv1 Hrun) as (es & -> & Hes & Hvs). rewrite Hcode, Hrev in *.
    exists (Baseline.trace_instruction true pos s ++ es). split; [by rewrite app_assoc|].
    split; [by apply Forall_app|]. intros Hc. rewrite Hvisit by done.
    eapply visits_next; [exact Hs|by apply Hvs].
  - injection Hrun as <- <-. eexists. split; [reflexivity|]. split; [done|].
    intros Hc. rewrite Hvisit by done. by apply visits_end.
Qed.

(** What the notifications of an execution from [s0] to [s] say. *)
Definition trace_of (c : list byte) s0 s (es : list Baseline.trace_event) : Prop :=
  Forall (instruction_event (code s0)) es /\
  (Z.of_nat (length c) + 32 < 2 ^ 32 ->
   visits (get_baseline_instruction_table (rev s0)) (code s0) 0 s0 es s).

Lemma execute_trace fuel h r m c :
  client_ok m c -> (enough_fuel m c <= fuel)%nat ->
  exists a res s es,
    Baseline.analyze c = Some a /\
    let s0 := Baseline.start_state (new_state m r h c) a in
    Baseline.execute true fuel h r m c =
      Baseline.Executed res s (bracketed r m (code s0) es res) /\
    view_size (code s0) = Z.of_nat (length c) /\ take (length c) (view_data (code s0)) = c /\
    trace_of c s0 s es /\ Forall (readable_event (code s0)) es /\
    0 <= res_gas_left res <= msg_gas m.
Proof.
  intros Hok Hfuel. unfold Baseline.execute.
  destruct (analyze_spec c) as (a & Heq & Ha). rewrite Heq. unfold Baseline.execute_with. cbv zeta.
  pose proof (start_inv h r _ _ _ Hok Ha) as Hinv.
  set (s0 := Baseline.start_state (new_state m r h c) a) in *.
  destruct (run_spec true fuel c s0 0 [Baseline.execution_start r m (code s0)] Hinv)
    as (s' & tr & Hst & Hrun).
  { unfold measure, enough_fuel in *. subst s0. cbn [gas_left with_code with_analysis new_state
      Baseline.start_state]. pose proof (co_gas _ _ Hok). nia. }
  destruct (run_trace _ _ _ _ _ _ _ Hinv Hrun) as (es & -> & Hes & Hvs).
  destruct (exit_result_spec _ _ Hst) as (res & Hres & Hrs); [apply (ok_gas _ (li_state _ _ _ Hinv))|].
  exists a, res, s', es. split; [done|]. change (rev s0) with r in *. change (msg s0) with m.
  rewrite Hrun, Hres. split; [done|]. split; [done|].
  pose proof (padded_prefix c a Ha) as Hpre. split; [exact Hpre|]. split; [by split|].
  split; [|apply Hrs]. eapply List.Forall_impl; [|exact Hes]. intros e.
  apply instruction_readable, (ok_code _ (li_state _ _ _ Hinv)).
Qed.

(** C39: A traced Baseline execution notifies its tracers of exactly one start,
    with the message and the code as announced (the code of the client, the
    padding behind its end not counted), then of the instructions it runs, at
    positions inside of the announced code, then of one end, with the result.
    For codes whose positions fit in 32 bits these are, in order and with the
    state before each, all instructions of the code that the loop steps through,
    and the STOP of the padding is not among them.  Every chain of tracers
    accepts the notifications: none looks at an empty context stack or reads
    outside of the code or the stack, and each is afterwards as it was before. *)
Theorem traced_execution_accepted fuel h r m c chain out :
  client_ok m c -> (enough_fuel m c <= fuel)%nat -> Forall tracer_ok chain ->
  exists a res s instructions out',
    Baseline.analyze c = Some a /\
    let s0 := Baseline.start_state (new_state m r h c) a in
    let announced := code s0 in
    let trace := Baseline.execution_start r m announced :: instructions ++
                   [Baseline.execution_end res] in
    Baseline.execute true fuel h r m c = Baseline.Executed res s trace /\
    view_size announced = Z.of_nat (length c) /\ take (length c) (view_data announced) = c /\
    Forall (instruction_event announced) instructions /\
    (Z.of_nat (length c) + 32 < 2 ^ 32 ->
     visits (get_baseline_instruction_table r) announced 0 s0 instructions s) /\
    notify_all chain trace out = Some (chain, out').
Proof.
  intros Hok Hfuel Hchain.
  destruct (execute_trace fuel h r m c Hok Hfuel)
    as (a & res & s & es & Ha & Hex & Hsize & Hdata & [Hes Hvs] & Hread & Hg).
  destruct (notify_bracketed chain r m _ es res out Hchain Hread Hg) as [out' Hn];
    [apply (co_gas _ _ Hok)|].
  exists a, res, s, es, out'. repeat (split; [done|]). exact Hn.
Qed.

(** C40: The histogram of an execution lists, per opcode, how often it was
    started (as a 32-bit counter), and the tracer forgets the execution. *)
Theorem histogram_counts contexts r m c instructions result out :
  Forall (readable_event c) instructions ->
  notify_all [HistogramTracer contexts] (bracketed r m c instructions result) out =
    Some ([HistogramTracer contexts],
      (out +:+ histogram_report (msg_depth m) (instruction_names r)
         (map (fun op => u32 (occurrences c (Z.of_nat op) instructions)) (seq 0 256)))%string).
Proof.
  intros Hes. unfold bracketed.
  destruct (histogram_instructions c (msg_depth m) (instruction_names r) contexts out instructions
    [] (replicate 256 0)) as (counts & [Hlen Hc] & Hrun); [|done|].
  { split; [done|]. intros op n Hn. unfold nth_Z in Hn. destruct (op <? 0); [done|].
    apply lookup_replicate in Hn as [-> _]. done. }
  cbn [notify_all notify on_event on_execution_start histogram_start mbind option_bind].
  rewrite notify_all_app. unfold histogram_start. rewrite Hrun.
  cbn [notify_all notify on_event on_execution_end histogram_end mbind option_bind hc_depth
       hc_opcode_names hc_counts].
  replace counts with (map (fun op => u32 (occurrences c (Z.of_nat op) instructions)) (seq 0 256));
    [done|]. apply list_eq_same_length with 256%nat; [done|done|].
  intros i x y Hi Hx Hy. rewrite list_lookup_fmap, lookup_seq_lt in Hx by done. injection Hx as <-.
  symmetry. apply Hc. rewrite nth_Z_lookup by lia. by rewrite Nat2Z.id.
Qed.
End Spec.

(** Texts for the examples. *)
#[export] Instance sample_text : TraceText Mock.env := {|
  instruction_names _ op := if op =? OP_PUSH1 then Some "PUSH1"%string else None;
  revision_text _ := "London"%string;
  status_text _ := "error"%string;
  hex bs := pretty (be_value bs);
  to_string_16 x := pretty ⟦x⟧
|}.

Lemma traced_execution_accepted_witness :
  exists a res s instructions out',
    Baseline.analyze (E := Mock.env) sample_code = Some a /\
    let s0 := Baseline.start_state (E := Mock.env)
      (new_state (E := Mock.env) (sample_message 40000) IVMC_LONDON Mock.empty_host sample_code) a in
    let trace := Baseline.execution_start IVMC_LONDON (sample_message 40000) (code s0) ::
      instructions ++ [Baseline.execution_end res] in
    Baseline.execute (E := Mock.env) true
      (enough_fuel (sample_message 40000) sample_code) Mock.empty_host IVMC_LONDON
      (sample_message 40000) sample_code = Baseline.Executed res s trace /\
    visits (get_baseline_instruction_table IVMC_LONDON) (code s0) 0 s0 instructions s /\
    Tracing.notify_all [Tracing.create_histogram_tracer; Tracing.create_instruction_tracer] trace
      EmptyString =
    Some ([Tracing.create_histogram_tracer; Tracing.create_instruction_tracer], out').
Proof.
  destruct (traced_execution_accepted (ES := Mock.env_spec)
    (enough_fuel (sample_message 40000) sample_code) Mock.empty_host IVMC_LONDON
    (sample_message 40000) sample_code
    [Tracing.create_histogram_tracer; Tracing.create_instruction_tracer] EmptyString)
    as (a & res & s & es & out' & Ha & Hex & _ & _ & _ & Hvs & Hn).
  - apply sample_client_ok. unfold i64_max. lia.
  - lia.
  - constructor; [exact I|]. constructor; [|constructor]. split; reflexivity.
  - exists a, res, s, es, out'. split; [exact Ha|]. split; [exact Hex|].
    split; [apply Hvs; vm_compute; reflexivity|exact Hn].
Defined.

(** PUSH1 twice. *)
Lemma histogram_counts_witness :
  let c := mk_view [Byte.x60; Byte.x01; Byte.x60; Byte.x02; Byte.x00] 4 in
  let s := sample_state (sample_message 100) IVMC_LONDON [] [] in
  let events := [Baseline.instruction_start 0 s; Baseline.instruction_start 2 s] in
  let result := mk_result IVMC_SUCCESS 94 [] [] in
  Tracing.notify_all (TT := sample_text) [Tracing.HistogramTracer []]
    (bracketed (E := Mock.env) IVMC_LONDON (sample_message 100) c events result) EmptyString =
  Some ([Tracing.HistogramTracer []], Tracing.histogram_report (TT := sample_text) 0
    (instruction_names (TraceText := sample_text) IVMC_LONDON)
    (<[96%nat := 2]> (replicate 256 0))).
Proof.
  cbv zeta. rewrite (histogram_counts (E := Mock.env)).
  - f_equal.
  - repeat constructor; cbn; try lia; apply sample_wf; cbn; lia.
Defined.
