(* ===== verification/Vm.v ===== *)
(** * The VM object (lib/ivmone/vm.hpp, vm.cpp)

    The IVMC instance: which interpreter [execute] points to, the chain of
    tracers, and the options that change them.  [execute] of the object
    composes the interpreters with the tracers.  The version constants of IVMC
    and of the build are parameters. *)
From stdpp Require Import base list tactics option strings.
From S2P Require Import Prelude Intx Ivmc Mock Code ExecutionState Instructions Samples.
From S2P Require Import SafetyControl Baseline BaselineRun Analysis AnalysisSpec Advanced AdvancedRun.
From S2P Require Import Hoare Tracing TracingSpec.

(** The function pointers [set_option] chooses from. *)
Inductive execute_fn := baseline_execute | advanced_execute.

Inductive ivmc_set_option_result :=
| IVMC_SET_OPTION_SUCCESS | IVMC_SET_OPTION_INVALID_NAME | IVMC_SET_OPTION_INVALID_VALUE.

(** The bit of EVM 1 in [ivmc_capabilities_flagset]. *)
Definition IVMC_CAPABILITY_EVM1 : Z := 1.

Module VM.
Section VM.
Context {E : Env} {TT : TraceText E}.
Variables (IVMC_ABI_VERSION : Z) (PROJECT_VERSION : string).

Record VM := mk_vm {
  abi_version : Z;
  name : string;
  version : string;
  execute_ptr : execute_fn;
  tracers : list Tracing.Tracer
}.

(** [VM::VM()]; [ivmc_create_ivmone] allocates the object. *)
Definition new_vm : VM := mk_vm IVMC_ABI_VERSION "ivmone"%string PROJECT_VERSION advanced_execute [].

Definition ivmc_create_ivmone : VM := new_vm.

Definition with_execute (f : execute_fn) (vm : VM) : VM :=
  mk_vm (abi_version vm) (name vm) (version vm) f (tracers vm).

Definition with_tracers (l : list Tracing.Tracer) (vm : VM) : VM :=
  mk_vm (abi_version vm) (name vm) (version vm) (execute_ptr vm) l.

(** The first empty pointer of the chain takes the new tracer. *)
Fixpoint append_tracer (chain : list Tracing.Tracer) (tracer : Tracing.Tracer)
    : list Tracing.Tracer :=
  match chain with
  | [] => [tracer]
  | t :: next => t :: append_tracer next tracer
  end.

Definition add_tracer (vm : VM) (tracer : Tracing.Tracer) : VM :=
  with_tracers (append_tracer (tracers vm) tracer) vm.

Definition get_tracer (vm : VM) : option Tracing.Tracer := head (tracers vm).

Definition get_capabilities (_ : VM) : Z := IVMC_CAPABILITY_EVM1.

(** A null pointer reads as the empty string. *)
Definition string_view (s : option string) : string := default EmptyString s.

Definition set_option (vm : VM) (c_name c_value : option string) : ivmc_set_option_result * VM :=
  let name := string_view c_name in
  let value := string_view c_value in
  if bool_decide (name = "O"%string) then
    if bool_decide (value = "0"%string) then
      (IVMC_SET_OPTION_SUCCESS, with_execute baseline_execute vm)
    else if bool_decide (value = "2"%string) then
      (IVMC_SET_OPTION_SUCCESS, with_execute advanced_execute vm)
    else (IVMC_SET_OPTION_INVALID_VALUE, vm)
  else if bool_decide (name = "trace"%string) then
    (IVMC_SET_OPTION_SUCCESS, add_tracer vm Tracing.create_instruction_tracer)
  else if bool_decide (name = "histogram"%string) then
    (IVMC_SET_OPTION_SUCCESS, add_tracer vm Tracing.create_histogram_tracer)
  else (IVMC_SET_OPTION_INVALID_NAME, vm).

(** Options given one after the other. *)
Fixpoint set_options (vm : VM) (options : list (option string * option string)) : VM :=
  match options with
  | [] => vm
  | (n, v) :: options' => set_options (snd (set_option vm n v)) options'
  end.

Inductive execution :=
| Result (r : ivmc_result) (h : host_state) (vm : VM) (out : string)
| Stuck
| OutOfFuel.

(** [vm->execute(...)]: the Baseline interpreter traces when there is a
    tracer, the Advanced interpreter ignores the VM.  What the execution leaves
    behind: its result, the host, the VM and the text of the tracers. *)
Definition execute (vm : VM) (fuel : nat) (h : host_state) (r : ivmc_revision) (m : ivmc_message)
    (c : list byte) (out : string) : execution :=
  match execute_ptr vm with
  | baseline_execute =>
      match Baseline.execute (bool_decide (is_Some (get_tracer vm))) fuel h r m c with
      | Baseline.Executed res s trace =>
          match Tracing.notify_all (tracers vm) trace out with
          | Some (chain, out) => Result res (host s) (with_tracers chain vm) out
          | None => Stuck
          end
      | Baseline.ExecStuck => Stuck
      | Baseline.ExecOutOfFuel => OutOfFuel
      end
  | advanced_execute =>
      match Advanced.execute fuel h r m c with
      | Advanced.Executed res t => Result res (host (Advanced.base t)) vm out
      | Advanced.ExecStuck => Stuck
      | Advanced.ExecOutOfFuel => OutOfFuel
      end
  end.
End VM.
End VM.

Section Spec.
Context {E : Env} {ES : EnvSpec E} {TT : TraceText E}.
Import VM.

Lemma append_tracer_spec chain t : append_tracer chain t = chain ++ [t].
Proof. induction chain as [|t' chain IH]; cbn; [done|by rewrite IH]. Qed.

(** The tracer an option creates. *)
Definition option_tracer (name : string) : option Tracing.Tracer :=
  if bool_decide (name = "trace"%string) then Some Tracing.create_instruction_tracer
  else if bool_decide (name = "histogram"%string) then Some Tracing.create_histogram_tracer
  else None.

(** The interpreter an option selects. *)
Definition option_interpreter (value : string) : option execute_fn :=
  if bool_decide (value = "0"%string) then Some baseline_execute
  else if bool_decide (value = "2"%string) then Some advanced_execute
  else None.

(** C38: The options of a VM: the option O selects the interpreter and accepts
    only the values 0 and 2; trace and histogram append a fresh tracer behind
    the existing ones; any other name, or a missing one, is refused.  A refused
    option leaves the VM alone. *)
Theorem set_option_spec vm n v :
  let name := string_view n in
  let value := string_view v in
  let '(answer, vm') := set_option vm n v in
  match answer with
  | IVMC_SET_OPTION_SUCCESS =>
      (name = "O"%string /\ exists f, option_interpreter value = Some f /\ vm' = with_execute f vm) \/
      (exists t, option_tracer name = Some t /\ vm' = with_tracers (tracers vm ++ [t]) vm)
  | IVMC_SET_OPTION_INVALID_VALUE =>
      name = "O"%string /\ option_interpreter value = None /\ vm' = vm
  | IVMC_SET_OPTION_INVALID_NAME =>
      name <> "O"%string /\ option_tracer name = None /\ vm' = vm
  end.
Proof.
  cbv zeta. unfold set_option, option_tracer, option_interpreter, add_tracer.
  rewrite !append_tracer_spec. repeat case_bool_decide; naive_solver.
Qed.

(** ** Sequences of options *)

(** What a sequence of options asks for: the interpreter of the last O that
    names one, and a tracer for each option that is one, in this order. *)
Definition option_selects (o : option string * option string) : option execute_fn :=
  if bool_decide (string_view (fst o) = "O"%string) then option_interpreter (string_view (snd o))
  else None.

Definition selected_after (f : execute_fn) (options : list (option string * option string))
    : execute_fn :=
  fold_left (fun f o => default f (option_selects o)) options f.

Definition selected : list (option string * option string) -> execute_fn :=
  selected_after advanced_execute.

Definition added (options : list (option string * option string)) : list Tracing.Tracer :=
  omap (fun o => option_tracer (string_view (fst o))) options.

Lemma set_options_effect vm options :
  set_options vm options =
    with_tracers (tracers vm ++ added options)
      (with_execute (selected_after (execute_ptr vm) options) vm).
Proof.
  revert vm. induction options as [|[n v] options IH]; intros vm.
  { unfold added. cbn. rewrite app_nil_r. by destruct vm. }
  cbn [set_options]. rewrite IH. unfold added, selected_after, set_option, add_tracer.
  cbn [omap list_omap fold_left fst snd]. unfold option_selects, option_tracer, option_interpreter.
  cbn [fst snd]. rewrite !append_tracer_spec.
  repeat case_bool_decide; cbn [snd tracers execute_ptr with_execute with_tracers default];
    rewrite <- ?app_assoc; cbn [app]; first [reflexivity|congruence].
Qed.

Lemma set_options_new abi version options :
  let vm := set_options (new_vm abi version) options in
  execute_ptr vm = selected options /\ tracers vm = added options.
Proof. cbv zeta. by rewrite set_options_effect. Qed.

Lemma added_ok options : Forall tracer_ok (added options).
Proof.
  induction options as [|[n v] options IH]; [constructor|]. unfold added, option_tracer in *.
  cbn [omap list_omap fst]. repeat case_bool_decide; [| |done]; by constructor.
Qed.

Lemma notify_all_nobody es out : Tracing.notify_all [] es out = Some ([], out).
Proof. induction es as [|e es IH]; [done|exact IH]. Qed.

(** A VM on the Baseline interpreter returns what the interpreter returns
    without tracing, and its tracers are notified of what it reports. *)
Lemma baseline_vm_executes vm h r m c out fuel :
  execute_ptr vm = baseline_execute -> Forall tracer_ok (tracers vm) ->
  client_ok m c -> (enough_fuel m c <= fuel)%nat ->
  exists res s trace out',
    Baseline.execute false fuel h r m c = Baseline.Executed res s [] /\
    Baseline.execute true fuel h r m c = Baseline.Executed res s trace /\
    Tracing.notify_all (tracers vm) trace out = Some (tracers vm, out') /\
    execute vm fuel h r m c out = Result res (host s) vm out'.
Proof.
  intros Hptr Htr Hok Hfuel. unfold execute. rewrite Hptr.
  destruct (execute_trace fuel h r m c Hok Hfuel)
    as (a & res & s & es & _ & Hex & _ & _ & _ & Hread & Hg).
  pose proof (execute_tracing fuel h r m c) as Ht. rewrite Hex in Ht.
  destruct (Baseline.execute false fuel h r m c) as [res2 s2 tr2| |] eqn:Hplain; [|done|done].
  destruct Ht as (<- & <- & ->).
  destruct (notify_bracketed (tracers vm) r m _ es res out Htr Hread Hg) as [out' Hn]; [apply Hok|].
  assert (with_tracers (tracers vm) vm = vm) as Hvm by by destruct vm.
  do 4 eexists. split; [reflexivity|]. split; [exact Hex|]. split; [exact Hn|].
  destruct (bool_decide _) eqn:Hb; [by rewrite Hex, Hn, Hvm|]. rewrite Hplain.
  apply bool_decide_eq_false in Hb. unfold get_tracer in Hb.
  destruct (tracers vm) as [|t chain]; [|by destruct Hb; eexists].
  rewrite notify_all_nobody in *. injection Hn as <-. by rewrite Hvm.
Qed.

(** C37: A VM that was given any sequence of options of which the last O is 0
    runs on the Baseline interpreter with exactly the tracers asked for, in that
    order.  It runs every message the client may send to the end with the
    result and the host that the untraced Baseline interpreter gives, hands the
    trace of the execution to the tracers, and is left as it was. *)
Theorem configured_vm_executes abi version options h r m c out fuel :
  let vm := set_options (new_vm abi version) options in
  selected options = baseline_execute -> client_ok m c -> (enough_fuel m c <= fuel)%nat ->
  execute_ptr vm = baseline_execute /\ tracers vm = added options /\
  exists res s trace out',
    Baseline.execute false fuel h r m c = Baseline.Executed res s [] /\
    Baseline.execute true fuel h r m c = Baseline.Executed res s trace /\
    Tracing.notify_all (added options) trace out = Some (added options, out') /\
    execute vm fuel h r m c out = Result res (host s) vm out'.
Proof.
  intros vm Hsel Hok Hfuel. destruct (set_options_new abi version options) as [Hptr Htr].
  fold vm in Hptr, Htr. rewrite Hsel in Hptr. split; [done|]. split; [done|].
  pose proof (baseline_vm_executes vm h r m c out fuel Hptr) as H. rewrite Htr in H.
  apply H; [apply added_ok|done|done].
Qed.

(** ** Two configurations *)

(** Two executions that both failed: nothing comes back, and the client reverts
    the host.  Which failure is reported may differ. *)
Definition both_failed (r1 r2 : ivmc_result) : Prop :=
  is_failure (res_status_code r1) /\ is_failure (res_status_code r2) /\
  res_gas_left r1 = 0 /\ res_gas_left r2 = 0 /\ res_output_data r1 = [] /\ res_output_data r2 = [].

Lemma both_failed_sym r1 r2 : both_failed r1 r2 -> both_failed r2 r1.
Proof. unfold both_failed. tauto. Qed.

(** A VM runs the interpreter that was selected, whatever its tracers. *)
Lemma vm_executes abi version options h r m c out fuel :
  let vm := set_options (new_vm abi version) options in
  client_ok m c -> code_small c -> (2 * enough_fuel m c + 1 <= fuel)%nat ->
  exists res h' out', execute vm fuel h r m c out = Result res h' vm out' /\
    match selected options with
    | baseline_execute =>
        exists s, Baseline.execute false fuel h r m c = Baseline.Executed res s [] /\ h' = host s
    | advanced_execute =>
        exists t, Advanced.execute fuel h r m c = Advanced.Executed res t /\
          h' = host (Advanced.base t)
    end.
Proof.
  intros vm Hok Hsmall Hfuel. destruct (set_options_new abi version options) as [Hptr Htr].
  fold vm in Hptr, Htr. destruct (selected options) eqn:Hsel.
  - destruct (baseline_vm_executes vm h r m c out fuel Hptr) as (res & s & tr & out' & Hb & _ & _ & Hex);
      [rewrite Htr; apply added_ok|done|lia|].
    exists res, (host s), out'. split; [done|]. by exists s.
  - destruct (execute_agree (enough_fuel m c) fuel h r m c) as (_ & _ & res & t & _ & Hex & _);
      [done|done|lia|done|].
    exists res, (host (Advanced.base t)), out. split; [|by exists t]. unfold execute. by rewrite Hptr, Hex.
Qed.

(** C4: What the options of the VM can change for the client.  Two VMs configured
    by any sequences of options run every message, with a code within the limit
    of the Advanced interpreter ([code_small], 134217 bytes), to the end, and
    keep their configuration.  When the options select the same interpreter, the
    tracers cannot be told from the result: it is the same, every failure status
    included, and so is the host.  When they select different interpreters,
    either the result and the host are still the same, or both executions
    failed, without gas or output; only which failure is reported, and what a
    failed execution had done to the host before it failed, may then differ. *)
Theorem options_preserve_results abi version options1 options2 h r m c out1 out2 fuel :
  let vm1 := set_options (new_vm abi version) options1 in
  let vm2 := set_options (new_vm abi version) options2 in
  client_ok m c -> code_small c -> (2 * enough_fuel m c + 1 <= fuel)%nat ->
  exists res1 h1 out1' res2 h2 out2',
    execute vm1 fuel h r m c out1 = Result res1 h1 vm1 out1' /\
    execute vm2 fuel h r m c out2 = Result res2 h2 vm2 out2' /\
    (selected options1 = selected options2 -> res1 = res2 /\ h1 = h2) /\
    ((res1 = res2 /\ h1 = h2) \/ both_failed res1 res2).
Proof.
  intros vm1 vm2 Hok Hsmall Hfuel.
  destruct (vm_executes abi version options1 h r m c out1 fuel) as (res1 & h1 & out1' & Hex1 & H1); [done..|].
  destruct (vm_executes abi version options2 h r m c out2 fuel) as (res2 & h2 & out2' & Hex2 & H2); [done..|].
  exists res1, h1, out1', res2, h2, out2'. split; [exact Hex1|]. split; [exact Hex2|].
  destruct (execute_agree (enough_fuel m c) fuel h r m c)
    as (res & s & res' & t & Hbase & Hadv & Hstop & Hsame); [done|done|lia|done|].
  apply (execute_more _ fuel) in Hbase; [|lia].
  assert ((res' = res /\ host (Advanced.base t) = host s) \/ both_failed res res') as Hcmp.
  { destruct Hsame as [(Hf & Hf' & Hg & Ho)|?]; [right|by left].
    destruct (rs_failure _ _ _ Hstop Hf). by repeat split; try (apply Hf || apply Hf'). }
  destruct (selected options1), (selected options2);
    destruct H1 as (s1 & H1 & ->), H2 as (s2 & H2 & ->); rewrite ?Hbase, ?Hadv in *;
    injection H1 as <- <-; injection H2 as <- <-; (split; [done|]); try by left.
  - destruct Hcmp as [[-> ->]|?]; [by left|by right].
  - destruct Hcmp as [[-> ->]|?]; [by left|right]. by apply both_failed_sym.
Qed.
End Spec.

(** An undefined instruction in front of an ADD: Baseline meets it, Advanced
    first finds the operands of the block missing. *)
Lemma failures_may_differ :
  let code := [Byte.x0c; Byte.x01] in
  let m := sample_message 1000 in
  match Baseline.execute (E := Mock.env) false 10 Mock.empty_host IVMC_LONDON m code,
    Advanced.execute (E := Mock.env) 10 Mock.empty_host IVMC_LONDON m code with
  | Baseline.Executed r1 _ _, Advanced.Executed r2 _ =>
      res_status_code r1 = IVMC_UNDEFINED_INSTRUCTION /\ res_status_code r2 = IVMC_STACK_UNDERFLOW
  | _, _ => False
  end.
Proof. vm_compute. done. Qed.

(** O=2, a histogram, O=0 and an instruction tracer. *)
Lemma configured_vm_executes_witness :
  let options := [(Some "O"%string, Some "2"%string); (Some "histogram"%string, None);
    (Some "O"%string, Some "0"%string); (Some "trace"%string, Some EmptyString)] in
  let vm := VM.set_options (VM.new_vm 10 "0.9.0"%string) options in
  let fuel := enough_fuel (sample_message 40000) sample_code in
  VM.execute_ptr vm = baseline_execute /\
  VM.tracers vm = [Tracing.create_histogram_tracer; Tracing.create_instruction_tracer] /\
  exists res s trace out',
    Baseline.execute (E := Mock.env) false fuel Mock.empty_host IVMC_LONDON (sample_message 40000)
      sample_code = Baseline.Executed res s [] /\
    Baseline.execute (E := Mock.env) true fuel Mock.empty_host IVMC_LONDON (sample_message 40000)
      sample_code = Baseline.Executed res s trace /\
    Tracing.notify_all (TT := sample_text) (VM.tracers vm) trace EmptyString =
      Some (VM.tracers vm, out') /\
    VM.execute (TT := sample_text) vm fuel Mock.empty_host IVMC_LONDON (sample_message 40000)
      sample_code EmptyString = VM.Result res (host s) vm out'.
Proof.
  cbv zeta. apply (configured_vm_executes (ES := Mock.env_spec) (TT := sample_text) 10 "0.9.0"%string
    [(Some "O"%string, Some "2"%string); (Some "histogram"%string, None);
     (Some "O"%string, Some "0"%string); (Some "trace"%string, Some EmptyString)]);
    [reflexivity| |lia].
  apply sample_client_ok. unfold i64_max. lia.
Defined.

(** The default VM, with the Advanced interpreter, and one with O=0 and a
    histogram. *)
Lemma options_preserve_results_witness :
  let vm1 := VM.set_options (VM.new_vm 10 "0.9.0"%string) [] in
  let vm2 := VM.set_options (VM.new_vm 10 "0.9.0"%string)
    [(Some "O"%string, Some "0"%string); (Some "histogram"%string, None)] in
  let fuel := (2 * enough_fuel (sample_message 40000) sample_code + 1)%nat in
  exists res1 h1 out1' res2 h2 out2',
    VM.execute (TT := sample_text) vm1 fuel Mock.empty_host IVMC_LONDON (sample_message 40000)
      sample_code EmptyString = VM.Result res1 h1 vm1 out1' /\
    VM.execute (TT := sample_text) vm2 fuel Mock.empty_host IVMC_LONDON (sample_message 40000)
      sample_code EmptyString = VM.Result res2 h2 vm2 out2' /\
    (advanced_execute = baseline_execute -> res1 = res2 /\ h1 = h2) /\
    ((res1 = res2 /\ h1 = h2) \/ both_failed res1 res2).
Proof.
  cbv zeta. apply (options_preserve_results (ES := Mock.env_spec) (TT := sample_text) 10 "0.9.0"%string
    [] [(Some "O"%string, Some "0"%string); (Some "histogram"%string, None)]); [|done|lia].
  apply sample_client_ok. unfold i64_max. lia.
Defined.
